(* ===== verification/_CoqProject ===== *)
-Q . S2P
Prelude.v
Caps.v
FsConfig.v
FsProps.v
CMachine.v
BinderProto.v
BinderIo.v
BinderParcel.v
Printf.v
BinderTrace.v
ParcelProps.v
Binder.v
BinderLemmas.v
BinderParse.v
BinderDriver.v
BinderCommands.v
BinderCall.v
BinderProps.v
ServiceManager.v
SvcRegistry.v
SvcOps.v
SvcHandler.v
SvcRequests.v
SvcRefs.v
SvcProcess.v
SvcDemo.v
SvcProps.v
BinderOpen.v
BinderOpenProps.v
ManagerMain.v
TestServer.v
TestClient.v
Relay.v
RelayCall.v
TestClientLemmas.v
TestServerLemmas.v
TestClientProps.v
Process.v
System.v
ManagerSession.v
ServiceSession.v
Greetings.v
ServerStart.v
GreetingsProps.v
WaitQueue.v
WaitQueueInv.v
WaitQueueProps.v
Kernel.v
KList.v
KHeap.v
CmdHash.v
CmdHashProps.v
Students.v
StudentsRep.v
StudentsProps.v
BlkCommon.v
SampleBlk.v
SampleBlkProps.v
RamHd.v
RamHdProps.v
SeqFile.v
Modules.v
ModulesProps.v
Net.v
Epoll.v
EpollEnv.v
EpollInv.v
EpollProps.v
Timer.v
TimerProps.v
TraceEvent.v
Demos.v
DemosProps.v
