(* ===== verification/Prelude.v ===== *)
(** * Linux-labs: a verification library

    Linux-labs collects programs against the kernel's interfaces: a user-space
    binder stack (message library, service manager, demonstration services
    and client), two RAM disk drivers and a sample block driver, a blocking
    character device, kernel modules over the list macros, an epoll chat, and
    small modules that register things. This library models the programs as
    they are written and proves what makes them correct. Paths below are
    relative to src/.

    ** The binder stack (binder/)

    The processes exchange parcels through the kernel driver. A program is a
    computation [C G D A] over a [world]: byte-addressed memory, a stack
    pointer, the statics [G], the state [D] of the driver and a trace of
    ioctls and printed lines ([CMachine]); an access outside mapped memory is
    a [Fault], so a theorem that a function returns is also one of memory
    safety. Machine integers are [Z] with the casts of [Prelude] written out.
    - [BinderProto]: constants and layouts of include/linux/binder.h, for the
      32-bit build of the Makefile.
    - [BinderIo], [BinderParcel], [ParcelProps]: the [bio_*] functions of
      binder.c. A message is a list of items; any sequence of puts is safe,
      and what is put is what the matching gets return (a string that is
      null or too long is put as the word 2^32 - 1).
    - [Binder], [BinderLemmas], [BinderParse], [BinderDriver],
      [BinderCommands], [BinderCall], [BinderProps]: commands to the driver,
      the parser of its return stream, calls, the looper. The parser
      terminates on any buffer and acts message by message on well-formed
      ones; a call sends its transaction once; a reply is one write.
    - [BinderOpen], [BinderOpenProps]: opening and closing the device, with
      the error paths.
    - [BinderTrace]: what a TRACE build of binder.c prints; the counter-driven
      hex dump is the line-by-line one. [Printf] interprets the format
      strings, of these and of the small programs.
    - [ServiceManager], [SvcRegistry], [SvcOps], [SvcHandler],
      [SvcRequests], [SvcRefs], [SvcProcess], [SvcProps] (example in
      [SvcDemo]): service_manager.c. The linked list of nodes on the heap
      represents an abstract registry; each request and each death
      notification refines a step of the registry, and the looper, whatever
      it is sent, keeps the references it acquired from the driver equal to
      those its entries hold. The only fault it can have is the read behind a
      string whose declared length wraps ([overread]); [wpf] is the
      predicate transformer that allows it, and [margin], 258 mapped bytes
      after every address of the driver's area, excludes it.
      [ManagerMain]: its [main], from the opening of the device.
    - [TestServer], [TestServerLemmas]: test_server.c; [TestClient],
      [TestClientLemmas], [TestClientProps]: test_client.c, against any peer
      that offers [GreetingServices].
    - [Relay], [RelayCall], [Process], [System], [Greetings], [ServerStart],
      [GreetingsProps]: the programs composed. [Relay] is a driver that
      answers a call by having a [Peer] serve it; [Process] turns a program
      in its looper into a peer; [Greetings] puts the service manager and
      the services behind the client and discharges [GreetingServices].
      [main] of the client then does what its command line asks, end to end,
      and publishing makes a name known to later lookups. [ServerStart] is
      [main] of the services up to its looper. [ManagerSession] runs the
      service manager through any session of requests and deaths against a
      registry of names that knows no addresses; [ServiceSession] runs the
      services through any session of calls.
    - [Caps], [FsConfig], [FsProps]: the capability numbers, the user ids and
      the first-match rules of include/private/; what the rules give is well
      formed.

    ** Kernel modules

    - [WaitQueue], [WaitQueueInv], [WaitQueueProps] (waitqueue/): the
      handlers of the device as a step relation between threads, one
      statement at a time; invariants by induction on reachability: mutual
      exclusion, first in first out, no lost wake-up; the overrun of the
      buffer.
    - [Kernel], [KList], [KHeap]: what modules share: objects, allocations
      that may be refused, statics, and the list macros as an interface with
      laws, with an implementation by sequences.
    - [CmdHash], [CmdHashProps] (hlist/hlist1/) and [Students],
      [StudentsRep], [StudentsProps] (hlist/hlist2/): the two list modules,
      for every implementation of the lists, refine sequences of names and
      four lists of students, from loading to removal.
    - [BlkCommon], [SampleBlk], [SampleBlkProps], [RamHd], [RamHdProps]
      (ramdisk-lab/): request processing refines one copy per request; loading
      and unloading under any pattern of refused allocations.
    - [SeqFile] (seqfile/): the operations of the iterator, for every kernel
      that calls them in the sessions seq_file documents.
    - [Modules], [ModulesProps] (char/, waitqueue/, sysctl/, single_open/,
      seqfile/, debugfs/, trace_point/, kobject-example/, device-demo/): what
      init functions register and exit functions take back, over a
      [Registry] whose attempts may fail; what is left is given as a tree of
      the answers to the attempts ([outcome]).
    - [Timer], [TimerProps] (trace_events/test_trace_event.c): the timer
      handler, init and exit as interleaved steps. What the handler has done
      is a function of how often it ran, in every reachable state; a module
      whose allocation is in time never crashes while it is loaded; the three
      schedules that crash. [TraceEvent] (trace_events/test_driver.h): the
      record of its trace event and the line shown for it, which determines
      the record.
    - [Demos], [DemosProps]: the file operations of the modules above and of
      trace_point/, and the small programs (char/main.c, fs/, backtrace/,
      bit/, hotplug.c, module-para/, module-template/, trace_printk/), as
      computations that print; formatting without a matching argument is
      undefined behaviour.

    ** The epoll programs (epoll/)

    [Net], [Epoll], [EpollEnv], [EpollInv], [EpollProps]: server and client as
    programs over system calls, in environments with any chunking of the
    streams and any choice of reported events; every line typed is printed
    once, in order, per connection.

    ** What stands for code outside the repository

    The binder driver is the class [BinderDriver] with the contract
    [BinderProtocol] (instance: [Script], a list of messages to deliver);
    opening the device is [BinderOs]; [malloc] is the class [Malloc] with
    [MallocOk] (instance: [Bump]); the addresses of string literals are
    [Literals]; the kernel's lists are [KLists] (instance: [SeqLists]); the
    registration functions are [Registry] (instance: [bench]); the sessions
    of a seq_file are [SeqFile] (instance: [demo_kernel]); the block layer's requests are
    records and [__blk_end_request_cur] a parameter; sockets and terminals
    are environments of [Net]; the timer wheel and the frequencies are the
    class [Timer.Kernel]; [proc_dointvec], the file system calls, the
    back-trace functions and the bit functions are the classes of [Demos].
    Each has a concrete instance in which the theorems are applied.

    ** Bounds

    [scan_fuel] bounds [strlen] and the list walks by the size of the memory,
    which a terminated string or an acyclic list cannot exceed;
    [parse_fuel] is one more than the words of the read buffer, and each
    command takes at least one word ([binder_parse_terminates] shows it is
    enough). The endless loops ([binder_loop], the epoll server) take the
    number of turns as an argument and the theorems hold for every number;
    twenty decimal digits hold every 64-bit value ([dec_value]). A call takes
    the number of its reads; [call_sends_once] and the end-to-end theorems
    show how many suffice.

    ** Not modelled

    What the init and exit functions of [Modules] print is left out; of
    trace_events/test_driver.h the alternative under [#if 0] is.
    ramhd_req.c repeats the constants and the storage, device and ioctl
    functions of ramhd_mkreq.c with the same text, up to a message: in the
    module [RamHd.req] they are names for the ones of ramhd_mkreq.c. What [add_disk]
    does with a disk whose queue is null is the kernel's and left open.
    Diagnostics the binder library writes to stderr are not in the
    trace, except the TRACE output; what the demonstration programs print is.
    Threads of the binder looper are started as events, not run. The handler
    of [Timer] runs one statement at a time, but its loads of [global] and of
    [i] are those of the statement. *)
From Stdlib Require Import ZArith Strings.Byte Strings.Ascii.
From stdpp Require Import base gmap list strings.
#[export] Set Default Goal Selector "!".

Declare Scope cint_scope.
Delimit Scope cint_scope with cint.
Open Scope Z_scope.

(** ** Automation shared by the development *)

Create HintDb cint discriminated.
Create Rewrite HintDb cint_rw.

(** Destructs conjunctions, existentials and pairs of the context. *)
Ltac destr_ctx :=
  repeat match goal with
         | H : _ /\ _ |- _ => destruct H
         | H : exists _, _ |- _ => destruct H
         | p : (_ * _)%type |- _ => destruct p
         end.

(** Case analysis on the boolean integer comparisons of the code; the
    resulting inequalities are left as hypotheses for [lia]. *)
Ltac case_cmp :=
  match goal with
  | |- context [ (?a <? ?b)%Z ] => destruct (Z.ltb_spec a b)
  | |- context [ (?a <=? ?b)%Z ] => destruct (Z.leb_spec a b)
  | |- context [ (?a =? ?b)%Z ] => destruct (Z.eqb_spec a b)
  | H : context [ (?a <? ?b)%Z ] |- _ => destruct (Z.ltb_spec a b)
  | H : context [ (?a <=? ?b)%Z ] |- _ => destruct (Z.leb_spec a b)
  | H : context [ (?a =? ?b)%Z ] |- _ => destruct (Z.eqb_spec a b)
  end.

(** Splits a [Forall] over a concrete list. *)
Ltac forall_list := repeat (apply Forall_cons_2); try apply Forall_nil_2.

(** Linear arithmetic with division and modulus by constants. *)
Ltac div_lia := Z.div_mod_to_equations; lia.

(** ** Machine integers

    A C unsigned integer of width [w] is a [Z] in [0, 2^w); the wrap-around
    is written out by the casts below. *)

Definition u8 (z : Z) : Z := z `mod` 256.
Definition u16 (z : Z) : Z := z `mod` 65536.
Definition u32 (z : Z) : Z := z `mod` 4294967296.
Definition u64 (z : Z) : Z := z `mod` 18446744073709551616.

(** Conversion of an [unsigned] to [int] (two's complement). *)
Definition s32 (z : Z) : Z :=
  let m := u32 z in if m <? 2147483648 then m else m - 4294967296.

Definition s64 (z : Z) : Z :=
  let m := u64 z in if m <? 9223372036854775808 then m else m - 18446744073709551616.

Definition s8 (z : Z) : Z :=
  let m := u8 z in if m <? 128 then m else m - 256.

Definition s16 (z : Z) : Z :=
  let m := u16 z in if m <? 32768 then m else m - 65536.

Notation "a +u b" := (u32 (a + b)) (at level 50, left associativity) : cint_scope.
Notation "a -u b" := (u32 (a - b)) (at level 50, left associativity) : cint_scope.
Notation "a *u b" := (u32 (a * b)) (at level 40, left associativity) : cint_scope.

Lemma u8_small z : 0 <= z < 256 -> u8 z = z.
Proof. apply Z.mod_small. Qed.
Lemma u16_small z : 0 <= z < 65536 -> u16 z = z.
Proof. apply Z.mod_small. Qed.
Lemma u32_small z : 0 <= z < 4294967296 -> u32 z = z.
Proof. apply Z.mod_small. Qed.
Lemma u64_small z : 0 <= z < 18446744073709551616 -> u64 z = z.
Proof. apply Z.mod_small. Qed.

Lemma u8_range z : 0 <= u8 z < 256.
Proof. unfold u8; div_lia. Qed.
Lemma u16_range z : 0 <= u16 z < 65536.
Proof. unfold u16; div_lia. Qed.
Lemma u32_range z : 0 <= u32 z < 4294967296.
Proof. unfold u32; div_lia. Qed.
Lemma u64_range z : 0 <= u64 z < 18446744073709551616.
Proof. unfold u64; div_lia. Qed.

Lemma s32_small z : -2147483648 <= z < 2147483648 -> s32 z = z.
Proof. unfold s32, u32. intros. case_cmp; div_lia. Qed.
Lemma s64_small z : -9223372036854775808 <= z < 9223372036854775808 -> s64 z = z.
Proof. unfold s64, u64. intros. case_cmp; div_lia. Qed.
Lemma s64_idemp z : s64 (s64 z) = s64 z.
Proof. apply s64_small. unfold s64, u64. case_cmp; div_lia. Qed.
Lemma s64_succ z : s64 (s64 z + 1) = s64 (z + 1).
Proof. unfold s64, u64. repeat case_cmp; div_lia. Qed.
Lemma s8_small z : -128 <= z < 128 -> s8 z = z.
Proof. unfold s8, u8. intros. case_cmp; div_lia. Qed.
Lemma s16_small z : -32768 <= z < 32768 -> s16 z = z.
Proof. unfold s16, u16. intros. case_cmp; div_lia. Qed.

#[export] Hint Resolve u8_range u16_range u32_range u64_range : cint.
#[export] Hint Rewrite u8_small u16_small u32_small u64_small s32_small s64_small s16_small s8_small
  using lia : cint_rw.

(** Removes the casts whose argument is provably in range. *)
Ltac uncast := autorewrite with cint_rw in *.

(** [(size + 3) & (~3)] for a 32-bit [size_t]: the rounding of every
    allocation in a parcel. *)
Definition align4 (size : Z) : Z := Z.land (u32 (size + 3)) (u32 (Z.lnot 3)).

Lemma land_round4 z : 0 <= z < 4294967296 -> Z.land z 4294967292 = z - z `mod` 4.
Proof.
  intros H.
  change 4294967292 with (Z.shiftl (Z.ones 30) 2).
  assert (Z.land z (Z.shiftl (Z.ones 30) 2) = Z.shiftl (Z.land (Z.shiftr z 2) (Z.ones 30)) 2) as ->.
  { apply Z.bits_inj'. intros n Hn. rewrite Z.land_spec.
    destruct (decide (n < 2)).
    - rewrite !Z.shiftl_spec_low by lia. apply andb_false_r.
    - rewrite !Z.shiftl_spec, Z.land_spec, Z.shiftr_spec by lia. do 2 f_equal. lia. }
  rewrite Z.land_ones, Z.shiftl_mul_pow2, Z.shiftr_div_pow2 by lia.
  rewrite (Z.mod_small (z / 2^2)).
  - change (2^2) with 4. div_lia.
  - change (2^2) with 4. change (2^30) with 1073741824. div_lia.
Qed.

Lemma align4_eq size : align4 size = u32 (size + 3) - u32 (size + 3) `mod` 4.
Proof.
  unfold align4. change (u32 (Z.lnot 3)) with 4294967292.
  apply land_round4, u32_range.
Qed.

Lemma align4_spec size :
  0 <= size <= 4294967292 ->
  align4 size = 4 * ((size + 3) / 4).
Proof. intros. rewrite align4_eq. uncast. div_lia. Qed.

Lemma align4_bounds size :
  0 <= size <= 4294967292 -> size <= align4 size < size + 4.
Proof. intros. rewrite align4_spec by lia. div_lia. Qed.

(** For the three sizes just below 2^32 the rounding wraps to zero. *)
Lemma align4_wraps size : 4294967292 < size < 4294967296 -> align4 size = 0.
Proof. intros. rewrite align4_eq. unfold u32. div_lia. Qed.

Lemma align4_mul4 k : 0 <= k <= 1073741823 -> align4 (4 * k) = 4 * k.
Proof. intros. rewrite align4_spec by lia. div_lia. Qed.

(** ** Bytes and little-endian integers *)

#[export] Instance byte_eq_dec : EqDecision byte := Byte.byte_eq_dec.

Definition byte_val (b : byte) : Z := Z.of_N (Byte.to_N b).

Definition byte_of (z : Z) : byte :=
  match Byte.of_N (Z.to_N (u8 z)) with Some b => b | None => x00 end.

Lemma byte_val_range b : 0 <= byte_val b < 256.
Proof. unfold byte_val. pose proof (Byte.to_N_bounded b). lia. Qed.

Lemma byte_of_val b : byte_of (byte_val b) = b.
Proof. destruct b; reflexivity. Qed.

Lemma byte_val_of z : byte_val (byte_of z) = u8 z.
Proof.
  unfold byte_of. pose proof (u8_range z).
  destruct (Byte.of_N _) as [b|] eqn:E.
  - apply Byte.to_of_N in E. unfold byte_val. lia.
  - apply Byte.of_N_None_iff in E. lia.
Qed.

#[export] Hint Resolve byte_val_range : cint.

(** The unsigned value of a little-endian byte string. *)
Fixpoint le_val (bs : list byte) : Z :=
  match bs with
  | [] => 0
  | b :: bs => byte_val b + 256 * le_val bs
  end.

(** The [n] low-order bytes of an integer, little-endian. *)
Fixpoint le_bytes (n : nat) (z : Z) : list byte :=
  match n with
  | O => []
  | S n => byte_of z :: le_bytes n (z / 256)
  end.

Lemma length_le_bytes n z : length (le_bytes n z) = n.
Proof. revert z; induction n; intros; simpl; auto. Qed.

Lemma le_val_range bs : 0 <= le_val bs < 256 ^ Z.of_nat (length bs).
Proof.
  induction bs as [|b bs IH]; [simpl; lia|].
  cbn [le_val length]. rewrite Nat2Z.inj_succ, Z.pow_succ_r by lia.
  pose proof (byte_val_range b). nia.
Qed.

Lemma le_val_bytes n z : le_val (le_bytes n z) = z `mod` 256 ^ Z.of_nat n.
Proof.
  revert z; induction n as [|n IH]; intros z.
  - simpl. rewrite Z.mod_1_r. done.
  - cbn [le_val le_bytes]. rewrite IH, byte_val_of.
    rewrite Nat2Z.inj_succ, Z.pow_succ_r by lia.
    rewrite (Z.rem_mul_r z 256) by lia. reflexivity.
Qed.

Lemma le_bytes_val bs : le_bytes (length bs) (le_val bs) = bs.
Proof.
  induction bs as [|b bs IH]; [done|]. cbn [le_val le_bytes length].
  pose proof (byte_val_range b). f_equal.
  - etrans; [|apply byte_of_val]. unfold byte_of, u8.
    replace ((byte_val b + 256 * le_val bs) `mod` 256) with (byte_val b `mod` 256); [done|].
    rewrite Z.mul_comm, Z_mod_plus_full. done.
  - etrans; [|exact IH]. f_equal. div_lia.
Qed.

Lemma le_val_bytes_4 z : 0 <= z < 4294967296 -> le_val (le_bytes 4 z) = z.
Proof. intros. rewrite le_val_bytes. apply Z.mod_small. exact H. Qed.

Lemma le_val_bytes_2 z : 0 <= z < 65536 -> le_val (le_bytes 2 z) = z.
Proof. intros. rewrite le_val_bytes. apply Z.mod_small. exact H. Qed.

Lemma le_val_4_range bs : length bs = 4%nat -> 0 <= le_val bs < 4294967296.
Proof. intros E. pose proof (le_val_range bs) as H. rewrite E in H. exact H. Qed.

Lemma le_val_2_range bs : length bs = 2%nat -> 0 <= le_val bs < 65536.
Proof. intros E. pose proof (le_val_range bs) as H. rewrite E in H. exact H. Qed.

#[export] Hint Rewrite length_le_bytes : cint_rw.

(** A list of 16-bit units as the bytes of a [uint16_t] array. *)
Definition u16s_bytes (us : list Z) : list byte := concat (map (le_bytes 2) us).

Lemma length_u16s_bytes us : length (u16s_bytes us) = (2 * length us)%nat.
Proof.
  induction us as [|u us IH]; [done|].
  change (u16s_bytes (u :: us)) with (le_bytes 2 u ++ u16s_bytes us).
  rewrite length_app, length_le_bytes, IH. simpl. lia.
Qed.

Lemma u16s_bytes_app us vs : u16s_bytes (us ++ vs) = u16s_bytes us ++ u16s_bytes vs.
Proof. unfold u16s_bytes. rewrite map_app, concat_app. done. Qed.

(** ** C strings

    Characters of a string literal as bytes. *)
Definition chars (s : string) : list byte := map Ascii.byte_of_ascii (String.list_ascii_of_string s).

Definition char_val (s : string) : Z :=
  match chars s with b :: _ => byte_val b | [] => 0 end.

(** [B_PACK_CHARS] of src/binder/include/linux/binder.h. *)
Definition B_PACK_CHARS (c1 c2 c3 c4 : Z) : Z :=
  Z.lor (Z.lor (Z.lor (Z.shiftl c1 24) (Z.shiftl c2 16)) (Z.shiftl c3 8)) c4.

(** ** Strings in arrays *)

(** The string in an array, as [%s] prints it; none without a terminator. *)
Fixpoint array_string (buf : list byte) : option (list byte) :=
  match buf with
  | [] => None
  | b :: buf => if decide (b = x00) then Some [] else s ← array_string buf; Some (b :: s)
  end.

Lemma array_string_padded a n : x00 ∉ a -> array_string (a ++ replicate (S n) x00) = Some a.
Proof.
  induction a as [|x a IH]; intros Ha; [done|]. cbn [app array_string].
  apply not_elem_of_cons in Ha as [Hx Ha]. rewrite decide_False by done. by rewrite IH.
Qed.

Lemma array_string_full a : x00 ∉ a -> array_string a = None.
Proof.
  induction a as [|x a IH]; [done|]. intros [Hx Ha]%not_elem_of_cons. cbn [array_string].
  rewrite decide_False by done. by rewrite IH.
Qed.
