(* ===== verification/Caps.v ===== *)
(** * The capability numbers: src/binder/include/private/android_filesystem_capability.h

    The constants of the header, with its two structures and its three macros.
    A set of capabilities is stored as 32-bit words: [CAP_TO_INDEX] is the
    word and [CAP_TO_MASK] the bit of a capability. *)
From Stdlib Require Import ZArith.
From stdpp Require Import base list.
From S2P Require Import Prelude.
Open Scope Z_scope.

(** ** Constants *)

Definition _LINUX_CAPABILITY_VERSION_1 : Z := 429392688.
Definition _LINUX_CAPABILITY_U32S_1 : Z := 1.
Definition _LINUX_CAPABILITY_VERSION_2 : Z := 537333798.
Definition _LINUX_CAPABILITY_U32S_2 : Z := 2.
Definition _LINUX_CAPABILITY_VERSION_3 : Z := 537396514.
Definition _LINUX_CAPABILITY_U32S_3 : Z := 2.
Definition VFS_CAP_REVISION_MASK : Z := 4278190080.
Definition VFS_CAP_REVISION_SHIFT : Z := 24.
Definition VFS_CAP_FLAGS_MASK : Z := u32 (Z.lnot VFS_CAP_REVISION_MASK).
Definition VFS_CAP_FLAGS_EFFECTIVE : Z := 1.
Definition VFS_CAP_REVISION_1 : Z := 16777216.
Definition VFS_CAP_U32_1 : Z := 1.
Definition XATTR_CAPS_SZ_1 : Z := 4 * (1 + 2 * VFS_CAP_U32_1).
Definition VFS_CAP_REVISION_2 : Z := 33554432.
Definition VFS_CAP_U32_2 : Z := 2.
Definition XATTR_CAPS_SZ_2 : Z := 4 * (1 + 2 * VFS_CAP_U32_2).
Definition XATTR_CAPS_SZ : Z := XATTR_CAPS_SZ_2.
Definition VFS_CAP_U32 : Z := VFS_CAP_U32_2.
Definition VFS_CAP_REVISION : Z := VFS_CAP_REVISION_2.
Definition _LINUX_CAPABILITY_VERSION : Z := _LINUX_CAPABILITY_VERSION_1.
Definition _LINUX_CAPABILITY_U32S : Z := _LINUX_CAPABILITY_U32S_1.
Definition CAP_CHOWN : Z := 0.
Definition CAP_DAC_OVERRIDE : Z := 1.
Definition CAP_DAC_READ_SEARCH : Z := 2.
Definition CAP_FOWNER : Z := 3.
Definition CAP_FSETID : Z := 4.
Definition CAP_KILL : Z := 5.
Definition CAP_SETGID : Z := 6.
Definition CAP_SETUID : Z := 7.
Definition CAP_SETPCAP : Z := 8.
Definition CAP_LINUX_IMMUTABLE : Z := 9.
Definition CAP_NET_BIND_SERVICE : Z := 10.
Definition CAP_NET_BROADCAST : Z := 11.
Definition CAP_NET_ADMIN : Z := 12.
Definition CAP_NET_RAW : Z := 13.
Definition CAP_IPC_LOCK : Z := 14.
Definition CAP_IPC_OWNER : Z := 15.
Definition CAP_SYS_MODULE : Z := 16.
Definition CAP_SYS_RAWIO : Z := 17.
Definition CAP_SYS_CHROOT : Z := 18.
Definition CAP_SYS_PTRACE : Z := 19.
Definition CAP_SYS_PACCT : Z := 20.
Definition CAP_SYS_ADMIN : Z := 21.
Definition CAP_SYS_BOOT : Z := 22.
Definition CAP_SYS_NICE : Z := 23.
Definition CAP_SYS_RESOURCE : Z := 24.
Definition CAP_SYS_TIME : Z := 25.
Definition CAP_SYS_TTY_CONFIG : Z := 26.
Definition CAP_MKNOD : Z := 27.
Definition CAP_LEASE : Z := 28.
Definition CAP_AUDIT_WRITE : Z := 29.
Definition CAP_AUDIT_CONTROL : Z := 30.
Definition CAP_SETFCAP : Z := 31.
Definition CAP_MAC_OVERRIDE : Z := 32.
Definition CAP_MAC_ADMIN : Z := 33.
Definition CAP_SYSLOG : Z := 34.
Definition CAP_WAKE_ALARM : Z := 35.
Definition CAP_LAST_CAP : Z := CAP_WAKE_ALARM.

(** ** Structures *)

(** [struct __user_cap_header_struct] and [struct __user_cap_data_struct] *)
Record user_cap_header_struct : Type := mkCapHeader { version : Z; pid : Z }.
Record user_cap_data_struct : Type := mkCapData { effective : Z; permitted : Z; inheritable : Z }.

(** [struct vfs_cap_data]: [VFS_CAP_U32] pairs of words. *)
Record vfs_cap_data : Type := mkVfsCap { magic_etc : Z; data : list (Z * Z) }.

(** ** Macros *)

Definition cap_valid (x : Z) : bool := (0 <=? x) && (x <=? CAP_LAST_CAP).
Definition CAP_TO_INDEX (x : Z) : Z := Z.shiftr x 5.

(** As an [unsigned] word; the [int] that the macro shifts overflows for bit
    31, which gives the same word on the compilers in use. *)
Definition CAP_TO_MASK (x : Z) : Z := u32 (Z.shiftl 1 (Z.land x 31)).

(** ** The words of a set *)

(** Word [i] of the set of the capabilities [cs]. *)
Definition cap_word (cs : list Z) (i : Z) : Z :=
  foldr (fun c w => if CAP_TO_INDEX c =? i then Z.lor (CAP_TO_MASK c) w else w) 0 cs.

Lemma cap_valid_spec x : cap_valid x = true <-> 0 <= x <= 35.
Proof. unfold cap_valid, CAP_LAST_CAP, CAP_WAKE_ALARM. rewrite andb_true_iff, !Z.leb_le. lia. Qed.

Lemma cap_index x : CAP_TO_INDEX x = x / 32.
Proof. unfold CAP_TO_INDEX. by rewrite Z.shiftr_div_pow2. Qed.

Lemma cap_mask x : 0 <= x -> CAP_TO_MASK x = 2 ^ (x mod 32).
Proof.
  intros Hx. unfold CAP_TO_MASK. change 31 with (Z.ones 5). rewrite Z.land_ones by lia.
  rewrite Z.shiftl_1_l. apply u32_small. change (2 ^ 5) with 32.
  assert (0 <= x mod 32 < 32) by div_lia. split; [lia|].
  change 4294967296 with (2 ^ 32). apply Z.pow_lt_mono_r; lia.
Qed.

(** Every valid capability has its bit in the words of a [vfs_cap_data]. *)
Lemma cap_index_bound x : cap_valid x = true -> 0 <= CAP_TO_INDEX x < VFS_CAP_U32.
Proof. rewrite cap_valid_spec, cap_index. unfold VFS_CAP_U32, VFS_CAP_U32_2. div_lia. Qed.

(** The word and the bit identify the capability: it is in the set exactly
    when its bit is set in its word. *)
Lemma cap_word_mem cs c :
  Forall (fun x => 0 <= x) cs -> 0 <= c ->
  Z.land (cap_word cs (CAP_TO_INDEX c)) (CAP_TO_MASK c) <> 0 <-> c ∈ cs.
Proof.
  intros Hcs Hc. rewrite cap_mask by done. set (k := c mod 32).
  assert (Hk : 0 <= k < 32) by (subst k; div_lia).
  transitivity (Z.testbit (cap_word cs (CAP_TO_INDEX c)) k = true).
  - rewrite <- (Z.shiftl_1_l k). split.
    + intros H. destruct (Z.testbit _ _) eqn:E; [done|]. exfalso. apply H. apply Z.bits_inj'. intros n Hn.
      rewrite Z.land_spec, Z.bits_0, Z.shiftl_spec by done.
      destruct (decide (n = k)) as [->|Hne]; [by rewrite E|].
      replace (Z.testbit 1 (n - k)) with false; [by rewrite andb_false_r|].
      symmetry. destruct (decide (n < k)); [by rewrite Z.testbit_neg_r by lia|].
      apply (Z.bits_above_log2 1); [lia|]. cbn. lia.
    + intros E H. apply (f_equal (fun w => Z.testbit w k)) in H.
      rewrite Z.land_spec, E, Z.bits_0, Z.shiftl_spec, Z.sub_diag in H by lia. discriminate.
  - induction Hcs as [|x cs Hx Hcs IH]; cbn [cap_word foldr].
    { rewrite Z.bits_0. split; [done|]. by intros ?%elem_of_nil. }
    fold (cap_word cs (CAP_TO_INDEX c)). rewrite elem_of_cons, <- IH.
    destruct (Z.eqb_spec (CAP_TO_INDEX x) (CAP_TO_INDEX c)) as [Hi|Hi].
    + rewrite Z.lor_spec, cap_mask, Z.pow2_bits_eqb by (done || div_lia). rewrite !cap_index in Hi.
      destruct (Z.eqb_spec (x mod 32) k) as [Hm|Hm]; cbn [orb].
      * split; [left|done]. subst k. div_lia.
      * split; [by right|]. intros [->|?]; done.
    + split; [by right|]. intros [->|?]; done.
Qed.

(** The magic word holds the revision and the flags apart. *)
Lemma vfs_cap_magic flags :
  0 <= flags <= VFS_CAP_FLAGS_MASK ->
  Z.land (Z.lor VFS_CAP_REVISION flags) VFS_CAP_REVISION_MASK = VFS_CAP_REVISION /\
  Z.land (Z.lor VFS_CAP_REVISION flags) VFS_CAP_FLAGS_MASK = flags.
Proof.
  intros Hf. change VFS_CAP_FLAGS_MASK with (Z.ones 24) in *.
  change VFS_CAP_REVISION_MASK with (Z.shiftl (Z.ones 8) 24). change VFS_CAP_REVISION with (Z.shiftl 2 24).
  change (Z.ones 24) with 16777215 in Hf.
  assert (Hd : Z.land (Z.shiftl 2 24) (Z.ones 24) = 0) by done.
  assert (Hsmall : Z.land flags (Z.ones 24) = flags) by (rewrite Z.land_ones by lia; apply Z.mod_small; change (2 ^ 24) with 16777216; lia).
  assert (Hhigh : Z.land flags (Z.shiftl (Z.ones 8) 24) = 0).
  { rewrite <- Hsmall, <- Z.land_assoc. change (Z.land (Z.ones 24) _) with 0. apply Z.land_0_r. }
  rewrite !Z.land_lor_distr_l, Hsmall, Hhigh, Hd. by rewrite Z.lor_0_r.
Qed.

(** A 64-bit word of capabilities, as the rules of android_filesystem_config.h
    hold one, against the two words of a [vfs_cap_data]. *)
Lemma cap_words_64 x : cap_valid x = true -> Z.shiftl 1 x = Z.shiftl (CAP_TO_MASK x) (32 * CAP_TO_INDEX x).
Proof.
  rewrite cap_valid_spec. intros Hx. rewrite cap_mask, cap_index by lia.
  rewrite <- Z.shiftl_1_l, Z.shiftl_shiftl by div_lia. f_equal. div_lia.
Qed.
