(* ===== verification/FsConfig.v ===== *)
(** * Users, groups and file rules: android_filesystem_config.h

    The Android user ids, and [fs_config], which gives a path its owner, mode
    and capabilities by the first matching rule of a table. *)
From Stdlib Require Import ZArith Strings.Ascii.
From stdpp Require Import base list strings.
From S2P Require Import Prelude Caps.
Open Scope Z_scope.

(** ** User and group ids *)

Definition AID_ROOT : Z := 0.
Definition AID_SYSTEM : Z := 1000.
Definition AID_RADIO : Z := 1001.
Definition AID_BLUETOOTH : Z := 1002.
Definition AID_GRAPHICS : Z := 1003.
Definition AID_INPUT : Z := 1004.
Definition AID_AUDIO : Z := 1005.
Definition AID_CAMERA : Z := 1006.
Definition AID_LOG : Z := 1007.
Definition AID_COMPASS : Z := 1008.
Definition AID_MOUNT : Z := 1009.
Definition AID_WIFI : Z := 1010.
Definition AID_ADB : Z := 1011.
Definition AID_INSTALL : Z := 1012.
Definition AID_MEDIA : Z := 1013.
Definition AID_DHCP : Z := 1014.
Definition AID_SDCARD_RW : Z := 1015.
Definition AID_VPN : Z := 1016.
Definition AID_KEYSTORE : Z := 1017.
Definition AID_USB : Z := 1018.
Definition AID_DRM : Z := 1019.
Definition AID_MDNSR : Z := 1020.
Definition AID_GPS : Z := 1021.
Definition AID_UNUSED1 : Z := 1022.
Definition AID_MEDIA_RW : Z := 1023.
Definition AID_MTP : Z := 1024.
Definition AID_UNUSED2 : Z := 1025.
Definition AID_DRMRPC : Z := 1026.
Definition AID_NFC : Z := 1027.
Definition AID_SDCARD_R : Z := 1028.
Definition AID_CLAT : Z := 1029.
Definition AID_LOOP_RADIO : Z := 1030.
Definition AID_MEDIA_DRM : Z := 1031.
Definition AID_PACKAGE_INFO : Z := 1032.
Definition AID_SDCARD_PICS : Z := 1033.
Definition AID_SDCARD_AV : Z := 1034.
Definition AID_SDCARD_ALL : Z := 1035.
Definition AID_LOGD : Z := 1036.
Definition AID_SHARED_RELRO : Z := 1037.
Definition AID_SHELL : Z := 2000.
Definition AID_CACHE : Z := 2001.
Definition AID_DIAG : Z := 2002.
Definition AID_NET_BT_ADMIN : Z := 3001.
Definition AID_NET_BT : Z := 3002.
Definition AID_INET : Z := 3003.
Definition AID_NET_RAW : Z := 3004.
Definition AID_NET_ADMIN : Z := 3005.
Definition AID_NET_BW_STATS : Z := 3006.
Definition AID_NET_BW_ACCT : Z := 3007.
Definition AID_NET_BT_STACK : Z := 3008.
Definition AID_EVERYBODY : Z := 9997.
Definition AID_MISC : Z := 9998.
Definition AID_NOBODY : Z := 9999.
Definition AID_APP : Z := 10000.
Definition AID_ISOLATED_START : Z := 99000.
Definition AID_ISOLATED_END : Z := 99999.
Definition AID_USER : Z := 100000.
Definition AID_SHARED_GID_START : Z := 50000.
Definition AID_SHARED_GID_END : Z := 59999.

(** [android_ids]: names of the ids. *)
Record android_id_info : Type := mkId { id_name : string; aid : Z }.

Definition android_ids : list android_id_info := [
    mkId "root" AID_ROOT;
    mkId "system" AID_SYSTEM;
    mkId "radio" AID_RADIO;
    mkId "bluetooth" AID_BLUETOOTH;
    mkId "graphics" AID_GRAPHICS;
    mkId "input" AID_INPUT;
    mkId "audio" AID_AUDIO;
    mkId "camera" AID_CAMERA;
    mkId "log" AID_LOG;
    mkId "compass" AID_COMPASS;
    mkId "mount" AID_MOUNT;
    mkId "wifi" AID_WIFI;
    mkId "adb" AID_ADB;
    mkId "install" AID_INSTALL;
    mkId "media" AID_MEDIA;
    mkId "dhcp" AID_DHCP;
    mkId "sdcard_rw" AID_SDCARD_RW;
    mkId "vpn" AID_VPN;
    mkId "keystore" AID_KEYSTORE;
    mkId "usb" AID_USB;
    mkId "drm" AID_DRM;
    mkId "mdnsr" AID_MDNSR;
    mkId "gps" AID_GPS;
    mkId "media_rw" AID_MEDIA_RW;
    mkId "mtp" AID_MTP;
    mkId "drmrpc" AID_DRMRPC;
    mkId "nfc" AID_NFC;
    mkId "sdcard_r" AID_SDCARD_R;
    mkId "clat" AID_CLAT;
    mkId "loop_radio" AID_LOOP_RADIO;
    mkId "mediadrm" AID_MEDIA_DRM;
    mkId "package_info" AID_PACKAGE_INFO;
    mkId "sdcard_pics" AID_SDCARD_PICS;
    mkId "sdcard_av" AID_SDCARD_AV;
    mkId "sdcard_all" AID_SDCARD_ALL;
    mkId "logd" AID_LOGD;
    mkId "shared_relro" AID_SHARED_RELRO;
    mkId "shell" AID_SHELL;
    mkId "cache" AID_CACHE;
    mkId "diag" AID_DIAG;
    mkId "net_bt_admin" AID_NET_BT_ADMIN;
    mkId "net_bt" AID_NET_BT;
    mkId "inet" AID_INET;
    mkId "net_raw" AID_NET_RAW;
    mkId "net_admin" AID_NET_ADMIN;
    mkId "net_bw_stats" AID_NET_BW_STATS;
    mkId "net_bw_acct" AID_NET_BW_ACCT;
    mkId "net_bt_stack" AID_NET_BT_STACK;
    mkId "everybody" AID_EVERYBODY;
    mkId "misc" AID_MISC;
    mkId "nobody" AID_NOBODY
  ].

(** ** Rules *)

Record fs_path_config : Type := mkFs {
    pc_mode : Z;
    pc_uid : Z;
    pc_gid : Z;
    pc_capabilities : Z;
    pc_prefix : option string;     (* [None] is the null pointer of the last rule *)
}.

(** Modes are octal in the source: 00770 is 504, 00771 is 505, 00755 is 493, ... *)
Definition android_dirs : list fs_path_config := [
    mkFs 504 AID_SYSTEM AID_CACHE 0 (Some "cache"%string);
    mkFs 505 AID_SYSTEM AID_SYSTEM 0 (Some "data/app"%string);
    mkFs 505 AID_SYSTEM AID_SYSTEM 0 (Some "data/app-private"%string);
    mkFs 505 AID_ROOT AID_ROOT 0 (Some "data/dalvik-cache"%string);
    mkFs 505 AID_SYSTEM AID_SYSTEM 0 (Some "data/data"%string);
    mkFs 505 AID_SHELL AID_SHELL 0 (Some "data/local/tmp"%string);
    mkFs 505 AID_SHELL AID_SHELL 0 (Some "data/local"%string);
    mkFs 1017 AID_SYSTEM AID_MISC 0 (Some "data/misc"%string);
    mkFs 504 AID_DHCP AID_DHCP 0 (Some "data/misc/dhcp"%string);
    mkFs 505 AID_SHARED_RELRO AID_SHARED_RELRO 0 (Some "data/misc/shared_relro"%string);
    mkFs 509 AID_MEDIA_RW AID_MEDIA_RW 0 (Some "data/media"%string);
    mkFs 509 AID_MEDIA_RW AID_MEDIA_RW 0 (Some "data/media/Music"%string);
    mkFs 505 AID_SYSTEM AID_SYSTEM 0 (Some "data"%string);
    mkFs 488 AID_ROOT AID_SHELL 0 (Some "sbin"%string);
    mkFs 493 AID_ROOT AID_SHELL 0 (Some "system/bin"%string);
    mkFs 493 AID_ROOT AID_SHELL 0 (Some "system/vendor"%string);
    mkFs 493 AID_ROOT AID_SHELL 0 (Some "system/xbin"%string);
    mkFs 493 AID_ROOT AID_ROOT 0 (Some "system/etc/ppp"%string);
    mkFs 493 AID_ROOT AID_SHELL 0 (Some "vendor"%string);
    mkFs 511 AID_ROOT AID_ROOT 0 (Some "sdcard"%string);
    mkFs 493 AID_ROOT AID_ROOT 0 None
  ].

Definition android_files : list fs_path_config := [
    mkFs 288 AID_ROOT AID_SHELL 0 (Some "system/etc/init.goldfish.rc"%string);
    mkFs 360 AID_ROOT AID_SHELL 0 (Some "system/etc/init.goldfish.sh"%string);
    mkFs 360 AID_ROOT AID_SHELL 0 (Some "system/etc/init.tiny4412.sh"%string);
    mkFs 288 AID_ROOT AID_SHELL 0 (Some "system/etc/init.trout.rc"%string);
    mkFs 360 AID_ROOT AID_SHELL 0 (Some "system/etc/init.ril"%string);
    mkFs 360 AID_ROOT AID_SHELL 0 (Some "system/etc/init.testmenu"%string);
    mkFs 360 AID_DHCP AID_SHELL 0 (Some "system/etc/dhcpcd/dhcpcd-run-hooks"%string);
    mkFs 292 AID_RADIO AID_AUDIO 0 (Some "system/etc/AudioPara4.csv"%string);
    mkFs 365 AID_ROOT AID_ROOT 0 (Some "system/etc/ppp/*"%string);
    mkFs 365 AID_ROOT AID_ROOT 0 (Some "system/etc/rc.*"%string);
    mkFs 420 AID_SYSTEM AID_SYSTEM 0 (Some "data/app/*"%string);
    mkFs 420 AID_MEDIA_RW AID_MEDIA_RW 0 (Some "data/media/*"%string);
    mkFs 420 AID_SYSTEM AID_SYSTEM 0 (Some "data/app-private/*"%string);
    mkFs 420 AID_APP AID_APP 0 (Some "data/data/*"%string);
    mkFs 493 AID_ROOT AID_ROOT 0 (Some "system/bin/ping"%string);
    mkFs 1512 AID_ROOT AID_INET 0 (Some "system/bin/netcfg"%string);
    mkFs 2536 AID_ROOT AID_SHELL 0 (Some "system/xbin/su"%string);
    mkFs 3565 AID_ROOT AID_ROOT 0 (Some "system/xbin/librank"%string);
    mkFs 3565 AID_ROOT AID_ROOT 0 (Some "system/xbin/procrank"%string);
    mkFs 3565 AID_ROOT AID_ROOT 0 (Some "system/xbin/procmem"%string);
    mkFs 3565 AID_ROOT AID_ROOT 0 (Some "system/xbin/tcpdump"%string);
    mkFs 2552 AID_ROOT AID_RADIO 0 (Some "system/bin/pppd-ril"%string);
    mkFs 488 AID_ROOT AID_SHELL (Z.lor (Z.shiftl 1 CAP_SETUID) (Z.shiftl 1 CAP_SETGID)) (Some "system/bin/run-as"%string);
    mkFs 488 AID_ROOT AID_ROOT 0 (Some "system/bin/uncrypt"%string);
    mkFs 488 AID_ROOT AID_ROOT 0 (Some "system/bin/install-recovery.sh"%string);
    mkFs 493 AID_ROOT AID_SHELL 0 (Some "system/bin/*"%string);
    mkFs 493 AID_ROOT AID_ROOT 0 (Some "system/lib/valgrind/*"%string);
    mkFs 493 AID_ROOT AID_ROOT 0 (Some "system/lib64/valgrind/*"%string);
    mkFs 493 AID_ROOT AID_SHELL 0 (Some "system/xbin/*"%string);
    mkFs 493 AID_ROOT AID_SHELL 0 (Some "system/vendor/bin/*"%string);
    mkFs 493 AID_ROOT AID_SHELL 0 (Some "system/busybox/*"%string);
    mkFs 493 AID_ROOT AID_SHELL 0 (Some "vendor/bin/*"%string);
    mkFs 488 AID_ROOT AID_SHELL 0 (Some "sbin/*"%string);
    mkFs 493 AID_ROOT AID_ROOT 0 (Some "bin/*"%string);
    mkFs 488 AID_ROOT AID_SHELL 0 (Some "init*"%string);
    mkFs 488 AID_ROOT AID_SHELL 0 (Some "sbin/fs_mgr"%string);
    mkFs 416 AID_ROOT AID_SHELL 0 (Some "fstab.*"%string);
    mkFs 438 AID_SYSTEM AID_MISC 0 (Some "data/system/ethernet.conf"%string);
    mkFs 420 AID_ROOT AID_ROOT 0 None
  ].

(** ** [fs_config] *)

(** [!strncmp(a, b, n)] *)
Fixpoint strncmp_eq (n : nat) (a b : string) : bool :=
  match n with
  | O => true
  | S n =>
      match a, b with
      | EmptyString, EmptyString => true
      | String c a, String d b => if Ascii.eqb c d then strncmp_eq n a b else false
      | _, _ => false
      end
  end.

(** [prefix[len - 1] == '*'] *)
Definition last_is_star (prefix : string) (len : Z) : bool :=
  match String.get (Z.to_nat (len - 1)) prefix with
  | Some c => Ascii.eqb c "*"
  | None => false
  end.

(** [strlen], a [size_t], stored in an [int]. *)
Definition int_strlen (s : string) : Z := s32 (Z.of_nat (String.length s)).

(** The [break] conditions of the loop body; the third argument of [strncmp]
    is a [size_t]. *)
Definition fs_rule_matches (dir : bool) (path prefix : string) : bool :=
  let plen := int_strlen path in
  let len := int_strlen prefix in
  if dir then
    if plen <? len then false else strncmp_eq (Z.to_nat (u32 len)) prefix path
  else if last_is_star prefix len then strncmp_eq (Z.to_nat (u32 (len - 1))) prefix path
  else if plen =? len then strncmp_eq (Z.to_nat (u32 len)) prefix path
  else false.

(** [for (; pc->prefix; pc++)]; [None]: the loop ran past the table. *)
Fixpoint fs_scan (dir : bool) (path : string) (table : list fs_path_config) : option fs_path_config :=
  match table with
  | [] => None
  | pc :: rest =>
      match pc_prefix pc with
      | None => Some pc
      | Some prefix => if fs_rule_matches dir path prefix then Some pc else fs_scan dir path rest
      end
  end.

Definition skip_slash (path : string) : string :=
  match path with
  | String c rest => if Ascii.eqb c "/" then rest else path
  | EmptyString => EmptyString
  end.

Record fs_attrs : Type := mkAttrs {
    f_uid : Z;
    f_gid : Z;
    f_mode : Z;
    f_capabilities : Z;
}.

(** [mode] is the value of [*mode] on entry. *)
Definition fs_config (path : string) (dir : bool) (mode : Z) : option fs_attrs :=
  let path := skip_slash path in
  match fs_scan dir path (if dir then android_dirs else android_files) with
  | None => None
  | Some pc =>
      Some (mkAttrs (pc_uid pc) (pc_gid pc)
                    (Z.lor (Z.land mode (u32 (Z.lnot 4095))) (pc_mode pc)) (pc_capabilities pc))
  end.
