(* ===== verification/FsProps.v ===== *)
(** * Properties of [fs_config] *)
From Stdlib Require Import ZArith Strings.Ascii.
From stdpp Require Import base list strings.
From S2P Require Import Prelude Caps FsConfig.
Open Scope Z_scope.

#[local] Arguments String.append !s1 s2 /.

(** ** String comparison *)

Lemma strncmp_eq_prefix q s b :
  strncmp_eq (String.length q) (q +:+ s) b = true <-> exists r, b = q +:+ r.
Proof.
  revert b; induction q as [|c q IH]; intros b; cbn.
  - split; [by exists b|done].
  - destruct b as [|d b].
    { split; [done|]. by intros [r [=]]. }
    destruct (Ascii.eqb_spec c d) as [->|Hne].
    + cbv iota. rewrite IH. split; intros [r E]; exists r; [by rewrite E|by injection E].
    + split; [done|]. intros [r [= E _]]. by subst.
Qed.

Lemma string_app_nil_r s : s +:+ "" = s.
Proof. induction s as [|c s IH]; [done|]. cbn. by f_equal. Qed.

Lemma string_length_app a b : String.length (a +:+ b) = (String.length a + String.length b)%nat.
Proof. induction a as [|c a IH]; [done|]. cbn. by rewrite IH. Qed.

Lemma strncmp_eq_whole a b : strncmp_eq (String.length a) a b = true <-> exists r, b = a +:+ r.
Proof. rewrite <- (string_app_nil_r a) at 2. apply strncmp_eq_prefix. Qed.

(** Every string but the empty one has a last character. *)
Lemma string_last s : s = "" \/ exists q c, s = q +:+ String c "".
Proof.
  induction s as [|d s IH]; [by left|right].
  destruct IH as [-> | (q & c & ->)]; [by exists "", d|by exists (String d q), c].
Qed.

Lemma get_last q c : String.get (String.length (q +:+ String c "") - 1) (q +:+ String c "") = Some c.
Proof.
  rewrite string_length_app. cbn. rewrite Nat.add_sub.
  induction q as [|d q IH]; [done|]. cbn. exact IH.
Qed.

Lemma last_is_star_spec s :
  last_is_star s (Z.of_nat (String.length s)) = true <-> exists q, s = q +:+ "*".
Proof.
  unfold last_is_star. destruct (string_last s) as [-> | (q & c & ->)].
  - cbn. split; [done|]. intros [[] [=]].
  - replace (Z.to_nat _) with (String.length (q +:+ String c "") - 1)%nat by lia.
    rewrite get_last. destruct (Ascii.eqb_spec c "*") as [->|Hne].
    + split; [by exists q|done].
    + split; [done|]. intros [q' E]. exfalso. apply Hne.
      pose proof (get_last q c) as H1. rewrite E, get_last in H1. by injection H1.
Qed.

Lemma string_snoc_inj q q' : q +:+ "*" = q' +:+ "*" -> q = q'.
Proof.
  revert q'; induction q as [|c q IH]; intros [|c' q'] Eq; cbn in Eq; try done.
  - injection Eq as _ Eq. by destruct q'.
  - injection Eq as _ Eq. by destruct q.
  - injection Eq as -> Eq. f_equal. by apply IH.
Qed.

(** ** When a rule applies *)

(** A directory rule applies to the paths that start with its prefix; a file
    rule to its very path or, if it ends in a star, to the paths that start
    with what precedes the star. *)
Definition applies (dir : bool) (path prefix : string) : Prop :=
  if dir then exists r, path = prefix +:+ r
  else (exists q r, prefix = q +:+ "*" /\ path = q +:+ r) \/
       (~ (exists q, prefix = q +:+ "*")) /\ path = prefix.

(** A string an [int] can hold the length of. *)
Definition short (s : string) : Prop := Z.of_nat (String.length s) < 2147483648.

Lemma short_length s : short s -> int_strlen s = Z.of_nat (String.length s).
Proof. intros. unfold int_strlen. by rewrite s32_small by (unfold short in *; lia). Qed.

Lemma strncmp_size s n b :
  0 <= n < 4294967296 -> strncmp_eq (Z.to_nat (u32 n)) s b = strncmp_eq (Z.to_nat n) s b.
Proof. intros. by rewrite u32_small. Qed.

(** Directory rules, whatever the length of the path. *)
Lemma fs_dir_matches path prefix :
  short prefix ->
  fs_rule_matches true path prefix = true <->
  Z.of_nat (String.length prefix) <= int_strlen path /\ exists r, path = prefix +:+ r.
Proof.
  intros Hp. unfold fs_rule_matches. rewrite (short_length prefix Hp). unfold short in Hp.
  rewrite strncmp_size, Nat2Z.id by lia. case_cmp; [split; [done|lia]|].
  rewrite strncmp_eq_whole. split; [done|by intros [_ ?]].
Qed.

(** File rules, on paths shorter than 2^32. *)
Lemma fs_file_matches path prefix :
  short prefix -> prefix <> "" -> Z.of_nat (String.length path) < 4294967296 ->
  fs_rule_matches false path prefix = true <-> applies false path prefix.
Proof.
  intros Hp Hne Hl. unfold fs_rule_matches, applies. rewrite (short_length prefix Hp). unfold short in Hp.
  destruct (last_is_star prefix _) eqn:E.
  - apply last_is_star_spec in E as [q ->].
    rewrite string_length_app in *. cbn [String.length] in *.
    rewrite strncmp_size by lia. replace (Z.to_nat _) with (String.length q) by lia.
    rewrite strncmp_eq_prefix. split.
    + intros [r ->]. left. by exists q, r.
    + intros [(q' & r & Eq & ->)|[Hn _]]; [|by destruct Hn; exists q].
      apply string_snoc_inj in Eq as ->. by exists r.
  - assert (~ (exists q, prefix = q +:+ "*")) as Hn by (rewrite <- last_is_star_spec; congruence).
    rewrite strncmp_size, Nat2Z.id by lia. unfold int_strlen, s32, u32. rewrite Z.mod_small by lia.
    destruct (Z.eqb_spec (if Z.of_nat (String.length path) <? 2147483648 then Z.of_nat (String.length path)
                          else Z.of_nat (String.length path) - 4294967296) (Z.of_nat (String.length prefix))) as [El|El].
    + rewrite strncmp_eq_whole. split.
      * intros [r ->]. right. split; [done|]. rewrite string_length_app in *.
        destruct r as [|c r]; [apply string_app_nil_r|cbn [String.length] in *; case_cmp; lia].
      * intros [(q & r & -> & _)|[_ ->]]; [by destruct Hn; exists q|].
        exists "". by rewrite string_app_nil_r.
    + split; [done|]. intros [(q & r & -> & _)|[_ ->]]; [by destruct Hn; exists q|].
      destruct El. case_cmp; lia.
Qed.

Lemma fs_scan_spec dir path table :
  match fs_scan dir path table with
  | Some pc => exists i : nat, table !! i = Some pc /\
      (forall j pj prefix, (j < i)%nat -> table !! j = Some pj -> pc_prefix pj = Some prefix ->
         fs_rule_matches dir path prefix <> true) /\
      match pc_prefix pc with Some prefix => fs_rule_matches dir path prefix = true | None => True end
  | None => forall pc, pc ∈ table -> pc_prefix pc <> None
  end.
Proof.
  induction table as [|pc rest IH]; cbn [fs_scan]; [by intros pc ?%not_elem_of_nil|].
  destruct (pc_prefix pc) as [prefix|] eqn:Ep.
  - destruct (fs_rule_matches dir path prefix) eqn:Em.
    + exists 0%nat. rewrite Ep. split_and!; [done|intros; lia|done].
    + destruct (fs_scan dir path rest) as [pc'|].
      * destruct IH as (i & Hi & Hb & Ha). exists (S i). split_and!; try done.
        intros [|j] pj pr Hj Hl Hpr.
        { injection Hl as ->. rewrite Ep in Hpr. injection Hpr as ->. congruence. }
        { apply (Hb j pj); [lia|done|done]. }
      * intros pc' [->|Hin]%elem_of_cons; [congruence|by apply IH].
  - exists 0%nat. rewrite Ep. split_and!; [done|intros; lia|done].
Qed.

(** ** Theorems *)

Definition fs_table (dir : bool) : list fs_path_config := if dir then android_dirs else android_files.

(** The loop stops at the last rule at the latest. *)
Lemma fs_scan_total dir path : exists pc, fs_scan dir path (fs_table dir) = Some pc.
Proof.
  pose proof (fs_scan_spec dir path (fs_table dir)) as Hs.
  destruct (fs_scan dir path (fs_table dir)) as [pc|]; [by exists pc|]. exfalso. destruct dir.
  - by apply (Hs (mkFs 493 AID_ROOT AID_ROOT 0 None)); [by apply (list_elem_of_lookup_2 _ 20)|].
  - by apply (Hs (mkFs 420 AID_ROOT AID_ROOT 0 None)); [by apply (list_elem_of_lookup_2 _ 38)|].
Qed.

(** The prefixes of the tables are neither empty nor long. *)
Lemma table_prefixes dir pc prefix :
  pc ∈ fs_table dir -> pc_prefix pc = Some prefix -> short prefix /\ prefix <> "".
Proof.
  assert (Forall (fun pc => match pc_prefix pc with
                            | Some s => (String.length s < 64)%nat /\ s <> ""
                            | None => True end) (android_dirs ++ android_files)) as Hf.
  { repeat (apply Forall_cons; split; [first [exact I|split; [apply Nat.ltb_lt; vm_compute; reflexivity|discriminate]]|]).
    by apply Forall_nil. }
  rewrite Forall_forall in Hf. intros Hin Hp. specialize (Hf pc). rewrite Hp in Hf.
  destruct Hf as [Hl Hne]; [apply elem_of_app; destruct dir; auto|]. split; [|done]. unfold short. lia.
Qed.

(** A rule of a table matches when it applies, unless the length of a path of
    a directory does not fit an [int]. *)
Lemma fs_rule_matches_spec dir path pc prefix :
  pc ∈ fs_table dir -> pc_prefix pc = Some prefix -> Z.of_nat (String.length path) < 4294967296 ->
  fs_rule_matches dir path prefix = true <->
  (if dir then short path else True) /\ applies dir path prefix.
Proof.
  intros Hin Hp Hl. destruct (table_prefixes dir pc prefix Hin Hp) as [Hs Hne].
  destruct dir; [|rewrite fs_file_matches by done; by split; [|intros [_ ?]]].
  rewrite fs_dir_matches by done. unfold applies.
  destruct (decide (Z.of_nat (String.length path) < 2147483648)) as [Hd|Hd].
  - rewrite (short_length path Hd). split; [by intros [_ ?]|]. intros [_ [r ->]].
    split; [|by exists r]. rewrite string_length_app. lia.
  - split; [|by intros [? _]]. intros [Hle _]. unfold int_strlen, s32, u32 in Hle.
    rewrite Z.mod_small in Hle by lia. case_cmp; lia.
Qed.

(** C39. First match. For every path shorter than 2^32 bytes (the addresses of
    the machine), [fs_config] ends inside the table. It gives the attributes of
    the first rule that applies, in the documented sense: whole prefix for
    directories, exact path or starred prefix for files; or those of the last
    rule, which has no prefix, when none does. A directory whose path has 2^31
    bytes or more, a length that is negative as an [int], always gets the last
    rule. *)
Theorem fs_config_first_match path dir mode :
  Z.of_nat (String.length (skip_slash path)) < 4294967296 ->
  exists i pc, fs_table dir !! i = Some pc /\
    fs_config path dir mode = Some (mkAttrs (pc_uid pc) (pc_gid pc)
      (Z.lor (Z.land mode (u32 (Z.lnot 4095))) (pc_mode pc)) (pc_capabilities pc)) /\
    if dir && (2147483648 <=? Z.of_nat (String.length (skip_slash path))) then pc_prefix pc = None
    else
      (forall j pj prefix, (j < i)%nat -> fs_table dir !! j = Some pj -> pc_prefix pj = Some prefix ->
         ~ applies dir (skip_slash path) prefix) /\
      match pc_prefix pc with
      | Some prefix => applies dir (skip_slash path) prefix
      | None => True
      end.
Proof.
  intros Hl. unfold fs_config. fold (fs_table dir).
  destruct (fs_scan_total dir (skip_slash path)) as [pc E].
  pose proof (fs_scan_spec dir (skip_slash path) (fs_table dir)) as Hs. rewrite E in *.
  destruct Hs as (i & Hi & Hb & Ha). exists i, pc. split_and!; [done|done|].
  assert (forall j pj prefix, fs_table dir !! j = Some pj -> pc_prefix pj = Some prefix ->
    fs_rule_matches dir (skip_slash path) prefix = true <->
    (if dir then short (skip_slash path) else True) /\ applies dir (skip_slash path) prefix) as Hm.
  { intros j pj prefix Hj Hp. eapply fs_rule_matches_spec; [by eapply list_elem_of_lookup_2|done|done]. }
  destruct (dir && _) eqn:Ed.
  - apply andb_true_iff in Ed as [-> Hlong%Z.leb_le]. destruct (pc_prefix pc) as [prefix|] eqn:Ep; [|done].
    apply (Hm i pc) in Ha as [Hsh _]; [|done..]. unfold short in Hsh. lia.
  - assert (if dir then short (skip_slash path) else True) as Hsh.
    { destruct dir; [|done]. apply Z.leb_gt in Ed. exact Ed. }
    split.
    + intros j pj prefix Hj Hjt Hp Hap. by apply (Hb j pj prefix Hj Hjt Hp), (Hm j pj).
    + destruct (pc_prefix pc) as [prefix|] eqn:Ep; [|done]. by apply (Hm i pc) in Ha as [_ ?].
Qed.

Lemma fs_config_first_match_witness :
  exists i pc, fs_table true !! i = Some pc /\
    fs_config "/data/app/com.example" true 0 = Some (mkAttrs (pc_uid pc) (pc_gid pc)
      (Z.lor (Z.land 0 (u32 (Z.lnot 4095))) (pc_mode pc)) (pc_capabilities pc)).
Proof.
  destruct (fs_config_first_match "/data/app/com.example" true 0 ltac:(vm_compute; reflexivity))
    as (i & pc & Hi & E & _).
  exists i, pc. split; [exact Hi|exact E].
Defined.

Definition dir_prefixes : list (option string) := pc_prefix <$> android_dirs.

(** A rule preceded by a rule for a prefix of its path is never used. *)
Lemma dir_rule_shadowed i j p q rest path pc :
  (j < i)%nat -> dir_prefixes !! j = Some (Some p) -> dir_prefixes !! i = Some (Some q) ->
  NoDup dir_prefixes -> q = p +:+ rest ->
  fs_scan true path android_dirs = Some pc -> pc_prefix pc <> Some q.
Proof.
  intros Hij Hj Hi Hnd Hq Hs Hpc. pose proof (fs_scan_spec true path android_dirs) as H.
  rewrite Hs, Hpc in H. destruct H as (k & Hk & Hb & Ha).
  assert (k = i) as ->.
  { apply (NoDup_lookup _ _ _ (Some q) Hnd); [|done].
    unfold dir_prefixes. rewrite list_lookup_fmap, Hk. cbn. by rewrite Hpc. }
  unfold dir_prefixes in Hj. rewrite list_lookup_fmap in Hj.
  destruct (android_dirs !! j) as [pj|] eqn:Ej; [|done]. injection Hj as Hj.
  destruct (table_prefixes true pc q (list_elem_of_lookup_2 _ _ _ Hk) Hpc) as [Hsq _].
  destruct (table_prefixes true pj p (list_elem_of_lookup_2 _ _ _ Ej) Hj) as [Hsp _].
  apply fs_dir_matches in Ha as [Hle [r Ha]]; [|done].
  apply (Hb j pj p Hij Ej Hj), fs_dir_matches; [done|].
  rewrite Hq, string_length_app in Hle. split; [lia|]. exists (rest +:+ r). rewrite Ha, Hq.
  clear. induction p as [|c p IH]; [done|]. cbn. by f_equal.
Qed.

(** Dead directory rules. The table is meant to list the most specific
    paths first, but the rules for data/app-private, data/misc/dhcp,
    data/misc/shared_relro and data/media/Music come after rules for prefixes
    of theirs, so no path is ever given their owner and mode; data/misc/dhcp,
    for one, is given to system:misc with mode 01771 instead of dhcp:dhcp. *)
Theorem dead_directory_rules path pc :
  fs_scan true path android_dirs = Some pc ->
  (pc_prefix pc ∉ [Some "data/app-private"; Some "data/misc/dhcp"; Some "data/misc/shared_relro";
                   Some "data/media/Music"]) /\
  fs_config "/data/misc/dhcp" true 0 = Some (mkAttrs AID_SYSTEM AID_MISC 1017 0).
Proof.
  intros Hs. split; [|by vm_compute].
  assert (NoDup dir_prefixes) as Hnd by (apply (bool_decide_unpack _); by vm_compute).
  rewrite !not_elem_of_cons. split_and!.
  - apply (dir_rule_shadowed 2 1 "data/app" _ "-private" path pc); [lia|reflexivity|reflexivity|exact Hnd|reflexivity|exact Hs].
  - apply (dir_rule_shadowed 8 7 "data/misc" _ "/dhcp" path pc); [lia|reflexivity|reflexivity|exact Hnd|reflexivity|exact Hs].
  - apply (dir_rule_shadowed 9 7 "data/misc" _ "/shared_relro" path pc); [lia|reflexivity|reflexivity|exact Hnd|reflexivity|exact Hs].
  - apply (dir_rule_shadowed 11 10 "data/media" _ "/Music" path pc); [lia|reflexivity|reflexivity|exact Hnd|reflexivity|exact Hs].
  - apply not_elem_of_nil.
Qed.

Lemma dead_directory_rules_witness :
  exists pc, fs_scan true "data/misc/dhcp/leases" android_dirs = Some pc /\
    pc_prefix pc ∉ [Some "data/app-private"; Some "data/misc/dhcp"; Some "data/misc/shared_relro";
                    Some "data/media/Music"].
Proof.
  exists (mkFs 1017 AID_SYSTEM AID_MISC 0 (Some "data/misc")).
  assert (fs_scan true "data/misc/dhcp/leases" android_dirs =
          Some (mkFs 1017 AID_SYSTEM AID_MISC 0 (Some "data/misc"))) as E by (vm_compute; reflexivity).
  split; [exact E|]. apply (dead_directory_rules "data/misc/dhcp/leases" _ E).
Defined.

Lemma table_modes dir pc : pc ∈ fs_table dir -> 0 <= pc_mode pc < 4096.
Proof.
  assert (Forall (fun pc => 0 <= pc_mode pc < 4096) (android_dirs ++ android_files)) as Hf
    by (apply (bool_decide_unpack _); by vm_compute).
  rewrite Forall_forall in Hf. intros Hin. apply Hf, elem_of_app. destruct dir; auto.
Qed.

(** Only the permission bits change: [fs_config] replaces the twelve low
    bits of the mode by those of the rule (set-id and sticky bits included) and
    keeps the file type bits. *)
Theorem fs_config_mode path dir mode a :
  0 <= mode < 4294967296 -> fs_config path dir mode = Some a ->
  exists pc, pc ∈ fs_table dir /\ Z.land (f_mode a) 4095 = pc_mode pc /\
             Z.shiftr (f_mode a) 12 = Z.shiftr mode 12.
Proof.
  intros Hm. unfold fs_config. fold (fs_table dir).
  pose proof (fs_scan_spec dir (skip_slash path) (fs_table dir)) as Hs.
  destruct (fs_scan _ _ _) as [pc|]; [|done]. intros [= <-]. cbn [f_mode].
  destruct Hs as (i & Hi & _). apply list_elem_of_lookup_2 in Hi. exists pc. split; [done|].
  pose proof (table_modes dir pc Hi) as Hpc.
  change (u32 (Z.lnot 4095)) with (Z.shiftl (Z.ones 20) 12). change 4095 with (Z.ones 12).
  assert (forall n, 12 <= n -> Z.testbit (pc_mode pc) n = false) as Hhigh.
  { intros n Hn. rewrite <- (Z.mod_small (pc_mode pc) (2^12)) by (change (2^12) with 4096; lia).
    apply Z.mod_pow2_bits_high. lia. }
  split; apply Z.bits_inj'; intros n Hn.
  - rewrite !Z.land_spec, Z.lor_spec, Z.land_spec. destruct (Z.lt_ge_cases n 12).
    + rewrite Z.shiftl_spec_low, andb_false_r, Z.ones_spec_low, andb_true_r by lia. done.
    + rewrite Z.ones_spec_high, andb_false_r by lia. by rewrite Hhigh.
  - rewrite !Z.shiftr_spec, Z.lor_spec, Z.land_spec, Z.shiftl_spec, Hhigh, orb_false_r by lia.
    destruct (Z.lt_ge_cases n 20).
    + by rewrite Z.ones_spec_low, andb_true_r by lia.
    + rewrite Z.ones_spec_high, andb_false_r by lia. symmetry.
      rewrite <- (Z.mod_small mode (2^32)) by (change (2^32) with 4294967296; lia).
      apply Z.mod_pow2_bits_high. lia.
Qed.

Lemma fs_config_mode_witness :
  exists a pc, fs_config "/system/xbin/su" false 33261 = Some a /\ pc ∈ fs_table false /\
    Z.land (f_mode a) 4095 = pc_mode pc /\ Z.shiftr (f_mode a) 12 = Z.shiftr 33261 12.
Proof.
  destruct (fs_config_mode "/system/xbin/su" false 33261 (mkAttrs AID_ROOT AID_SHELL 35304 0))
    as (pc & Hin & Hm & Hr).
  - lia.
  - vm_compute. reflexivity.
  - exists (mkAttrs AID_ROOT AID_SHELL 35304 0), pc. split; [vm_compute; reflexivity|].
    split; [exact Hin|]. split; [exact Hm|exact Hr].
Defined.

(** The only rule that gives capabilities is the one of run-as: the
    capabilities to set the user and the group. *)
Lemma fs_rule_capabilities :
  Forall (fun r => pc_capabilities r = 0 \/
                   pc_prefix r = Some "system/bin/run-as"%string /\ pc_capabilities r = cap_word [CAP_SETUID; CAP_SETGID] 0)
    (android_dirs ++ android_files).
Proof. repeat (apply Forall_cons; split; [first [by left|by right]|]). by apply Forall_nil. Qed.

(** ** Well-formed attributes *)

(** An id of the table of names, or the first one of the applications. *)
Definition id_known (x : Z) : Prop := x ∈ AID_APP :: (aid <$> android_ids).

(** Known ids, permission bits only, and capabilities that exist. *)
Definition rule_ok (r : fs_path_config) : Prop :=
  id_known (pc_uid r) /\ id_known (pc_gid r) /\ 0 <= pc_mode r < 4096 /\ 0 <= pc_capabilities r < 2 ^ (CAP_LAST_CAP + 1).

#[export] Instance rule_ok_dec r : Decision (rule_ok r).
Proof. unfold rule_ok, id_known. apply _. Defined.

Lemma rules_ok : Forall rule_ok (android_dirs ++ android_files).
Proof. apply (bool_decide_unpack _). vm_compute. exact I. Qed.

Lemma fs_scan_in dir path table pc : fs_scan dir path table = Some pc -> pc ∈ table.
Proof.
  intros E. pose proof (fs_scan_spec dir path table) as H. rewrite E in H.
  destruct H as (i & Hi & _). by eapply list_elem_of_lookup_2.
Qed.

(** The bits of a word above the permission bits. *)
Lemma land_type_bits mode :
  0 <= mode < 4294967296 -> Z.land mode (u32 (Z.lnot 4095)) = Z.shiftl (mode / 4096) 12.
Proof.
  intros Hm. change (u32 (Z.lnot 4095)) with (Z.shiftl (Z.ones 20) 12).
  change 4096 with (2 ^ 12). rewrite <- Z.shiftr_div_pow2 by lia.
  apply Z.bits_inj'. intros n Hn. rewrite Z.land_spec, !Z.shiftl_spec by done.
  destruct (decide (n < 12)); [rewrite !(Z.testbit_neg_r _ (n - 12)) by lia; by rewrite andb_false_r|].
  rewrite Z.shiftr_spec by lia. replace (n - 12 + 12) with n by lia.
  destruct (decide (n < 32)).
  - rewrite Z.ones_spec_low by lia. apply andb_true_r.
  - rewrite Z.ones_spec_high, andb_false_r by lia.
    rewrite <- (Z.mod_small mode (2 ^ 32)) by (change (2 ^ 32) with 4294967296; lia).
    by rewrite Z.mod_pow2_bits_high by lia.
Qed.

(** The permission bits replaced in a mode. *)
Lemma mode_bits mode p :
  0 <= mode < 4294967296 -> 0 <= p < 4096 ->
  Z.lor (Z.land mode (u32 (Z.lnot 4095))) p = 4096 * (mode / 4096) + p.
Proof.
  intros Hm Hp. rewrite land_type_bits, <- Z.lxor_lor, <- Z.add_nocarry_lxor, Z.shiftl_mul_pow2 by
    (done || rewrite <- (Z.mod_small p (2 ^ 12)), <- Z.land_ones by (change (2 ^ 12) with 4096; lia);
     rewrite (Z.land_comm p), Z.land_assoc, (Z.land_ones _ 12), Z.shiftl_mul_pow2, Z.mod_mul by lia; done).
  lia.
Qed.

(** C40. Whatever the path and the mode it is given, [fs_config] ends, and what
    it returns is well formed: the user and the group are ids of the table of
    names (or the first application id), the mode is a 32-bit word with the
    type bits it had and new permission bits, every capability is one that
    exists, and a directory has none. *)
Theorem fs_config_typed path dir mode :
  0 <= mode < 4294967296 ->
  exists a, fs_config path dir mode = Some a /\
    id_known (f_uid a) /\ id_known (f_gid a) /\
    0 <= f_mode a < 4294967296 /\ f_mode a / 4096 = mode / 4096 /\
    (forall c, 0 <= c -> Z.testbit (f_capabilities a) c = true -> cap_valid c = true) /\
    (dir = true -> f_capabilities a = 0).
Proof.
  intros Hm. unfold fs_config. fold (fs_table dir).
  destruct (fs_scan_total dir (skip_slash path)) as [pc E]. rewrite E. eexists. split; [done|].
  apply fs_scan_in in E. pose proof rules_ok as [Hd Hf]%Forall_app.
  assert (rule_ok pc) as (Hu & Hg & Hp & Hc) 
    by (destruct dir; [exact (proj1 (Forall_forall _ _) Hd pc E)|exact (proj1 (Forall_forall _ _) Hf pc E)]).
  cbn [f_uid f_gid f_mode f_capabilities]. rewrite mode_bits by done. split_and!; try done; [div_lia..| |].
  - intros c Hc0 Hbit. apply cap_valid_spec. split; [done|].
    destruct (decide (c <= 35)); [done|]. exfalso.
    rewrite <- (Z.mod_small (pc_capabilities pc) (2 ^ 36)), Z.mod_pow2_bits_high in Hbit by (lia || exact Hc). done.
  - intros ->. assert (Forall (fun r => pc_capabilities r = 0) android_dirs) as H0
      by (apply (bool_decide_unpack _); vm_compute; exact I).
    exact (proj1 (Forall_forall _ _) H0 pc E).
Qed.

Lemma fs_config_typed_witness :
  exists a, fs_config "/system/bin/run-as" false 33279 = Some a /\ f_mode a = 33256 /\ id_known (f_uid a).
Proof.
  destruct (fs_config_typed "/system/bin/run-as" false 33279 ltac:(lia)) as (a & E & Hu & _).
  exists a. split; [exact E|]. split; [|exact Hu]. vm_compute in E. injection E as <-. reflexivity.
Defined.
