(* ===== verification/CMachine.v ===== *)
(** * The C machine the programs of this repository run on

    Byte-addressed memory, the process state, a state-and-fault monad with
    its weakest-precondition calculus, and the memory functions of the C
    library the sources use ([memcpy], [memcmp], [strlen], [malloc]).
    A load or store outside mapped memory is a [Fault], so a theorem that a
    function returns is also a memory-safety theorem. *)
From Stdlib Require Import ZArith Strings.Byte.
From stdpp Require Import base gmap list strings.
From S2P Require Import Prelude.
Open Scope Z_scope.

(** ** Memory *)

Abbreviation memory := (gmap Z byte).

(** The [n] bytes at [p]; [None] when one of them is not mapped. *)
Fixpoint mem_get (m : memory) (p : Z) (n : nat) : option (list byte) :=
  match n with
  | O => Some []
  | S n =>
      match m !! p, mem_get m (p + 1) n with
      | Some b, Some bs => Some (b :: bs)
      | _, _ => None
      end
  end.

Fixpoint mem_write (m : memory) (p : Z) (bs : list byte) : memory :=
  match bs with
  | [] => m
  | b :: bs => mem_write (<[p := b]> m) (p + 1) bs
  end.

Definition bytes_at (m : memory) (p : Z) (bs : list byte) : Prop :=
  mem_get m p (length bs) = Some bs.

#[export] Instance bytes_at_dec m p bs : Decision (bytes_at m p bs).
Proof. unfold bytes_at. apply _. Defined.

Definition mapped (m : memory) (p : Z) (n : Z) : Prop :=
  forall a, p <= a < p + n -> is_Some (m !! a).

(** [agree m m' p n]: the two memories hold the same bytes in [p, p+n). *)
Definition agree (m m' : memory) (p n : Z) : Prop :=
  forall a, p <= a < p + n -> m' !! a = m !! a.

(** [m'] differs from [m] only inside [p, p+n), and maps the same addresses. *)
Record modifies (m m' : memory) (p n : Z) : Prop := mkModifies {
    mod_frame : forall a, ~ (p <= a < p + n) -> m' !! a = m !! a;
    mod_dom : forall a, is_Some (m !! a) -> is_Some (m' !! a);
}.

Lemma mem_get_Some m p n bs :
  mem_get m p n = Some bs <->
  length bs = n /\ forall i : nat, (i < n)%nat -> m !! (p + Z.of_nat i) = bs !! i.
Proof.
  revert p bs; induction n as [|n IH]; intros p bs; cbn [mem_get].
  - split; [intros [= <-]; split; [done|lia] | intros [E _]].
    by apply nil_length_inv in E as ->.
  - destruct (m !! p) as [b|] eqn:Eb.
    + destruct (mem_get m (p + 1) n) as [bs'|] eqn:Eg.
      * apply IH in Eg as [Hl Hi]. split.
        { intros [= <-]. split; [simpl; lia|]. intros [|i] Hlt.
          - rewrite Z.add_0_r. done.
          - change ((b :: bs') !! S i) with (bs' !! i). rewrite <- Hi by lia. f_equal. lia. }
        { intros [Hl' Hi']. destruct bs as [|b0 bs0]; [done|].
          assert (Some b = Some b0) as [= ->].
          { pose proof (Hi' 0%nat ltac:(lia)) as E0. rewrite Z.add_0_r, Eb in E0. exact E0. }
          do 2 f_equal. apply list_eq_same_length with n; [simpl in *; lia..|].
          intros i x y Hlt Hx Hy.
          specialize (Hi i Hlt). specialize (Hi' (S i) ltac:(lia)). change ((b0 :: bs0) !! S i) with (bs0 !! i) in Hi'.
          replace (p + 1 + Z.of_nat i) with (p + Z.of_nat (S i)) in Hi by lia.
          congruence. }
      * split; [done|]. intros [Hl' Hi']. destruct bs as [|b0 bs0]; [done|].
        assert (mem_get m (p + 1) n = Some bs0) as E; [|congruence].
        apply IH. split; [simpl in *; lia|]. intros i Hlt.
        specialize (Hi' (S i) ltac:(lia)). change ((b0 :: bs0) !! S i) with (bs0 !! i) in Hi'. rewrite <- Hi'. f_equal; lia.
    + split; [done|]. intros [Hl' Hi']. destruct bs as [|b0 bs0]; [done|].
      specialize (Hi' 0%nat ltac:(lia)). rewrite Z.add_0_r, Eb in Hi'. done.
Qed.

Lemma mem_get_length m p n bs : mem_get m p n = Some bs -> length bs = n.
Proof. intros H. by apply mem_get_Some in H as [? _]. Qed.

Lemma mem_get_bytes_at m p n bs : mem_get m p n = Some bs -> bytes_at m p bs.
Proof. intros H. unfold bytes_at. by rewrite (mem_get_length _ _ _ _ H). Qed.

Lemma bytes_at_lookup m p bs :
  bytes_at m p bs <-> forall i b, bs !! i = Some b -> m !! (p + Z.of_nat i) = Some b.
Proof.
  unfold bytes_at. rewrite mem_get_Some. split.
  - intros [_ H] i b Hb. rewrite H; [done|]. by apply lookup_lt_Some in Hb.
  - intros H. split; [done|]. intros i Hi.
    destruct (bs !! i) as [b|] eqn:E; [by apply H|].
    apply lookup_ge_None in E. lia.
Qed.

Lemma mem_get_app m p n1 n2 :
  mem_get m p (n1 + n2) =
  match mem_get m p n1, mem_get m (p + Z.of_nat n1) n2 with
  | Some b1, Some b2 => Some (b1 ++ b2)
  | _, _ => None
  end.
Proof.
  revert p; induction n1 as [|n1 IH]; intros p; cbn [mem_get Nat.add].
  - rewrite Z.add_0_r. by destruct (mem_get m p n2).
  - rewrite IH. replace (p + 1 + Z.of_nat n1) with (p + Z.of_nat (S n1)) by lia.
    destruct (m !! p), (mem_get m (p + 1) n1), (mem_get m (p + Z.of_nat (S n1)) n2); done.
Qed.

Lemma bytes_at_app m p b1 b2 :
  bytes_at m p (b1 ++ b2) <->
  bytes_at m p b1 /\ bytes_at m (p + Z.of_nat (length b1)) b2.
Proof.
  unfold bytes_at. rewrite length_app, mem_get_app. split.
  - destruct (mem_get m p _) eqn:E1; [|done].
    destruct (mem_get m (p + _) _) eqn:E2; [|done].
    intros [= E]. apply mem_get_length in E1 as L1.
    apply app_inj_1 in E as [-> ->]; done.
  - intros [-> ->]. done.
Qed.

Lemma mem_get_agree m m' p n :
  agree m m' p (Z.of_nat n) -> mem_get m' p n = mem_get m p n.
Proof.
  revert p; induction n as [|n IH]; intros p H; [done|]. cbn [mem_get].
  rewrite (H p) by lia. rewrite IH; [done|]. intros a Ha. apply H. lia.
Qed.

Lemma bytes_at_agree m m' p bs :
  agree m m' p (Z.of_nat (length bs)) -> bytes_at m p bs -> bytes_at m' p bs.
Proof. unfold bytes_at. intros H. by rewrite (mem_get_agree _ _ _ _ H). Qed.

Lemma mapped_mem_get m p n :
  mapped m p (Z.of_nat n) -> exists bs, mem_get m p n = Some bs /\ length bs = n.
Proof.
  revert p; induction n as [|n IH]; intros p H; [by exists []|].
  destruct (H p ltac:(lia)) as [b Hb].
  destruct (IH (p + 1)) as (bs & E & L). { intros a Ha. apply H. lia. }
  exists (b :: bs). cbn [mem_get length]. rewrite Hb, E. auto.
Qed.

Lemma mem_get_mapped m p n bs : mem_get m p n = Some bs -> mapped m p (Z.of_nat n).
Proof.
  intros H a Ha. apply mem_get_Some in H as [L H].
  specialize (H (Z.to_nat (a - p)) ltac:(lia)).
  replace (p + Z.of_nat (Z.to_nat (a - p))) with a in H by lia.
  rewrite H. apply lookup_lt_is_Some. lia.
Qed.

Lemma mapped_sub m p n q k : mapped m p n -> p <= q -> q + k <= p + n -> mapped m q k.
Proof. intros H ? ? a Ha. apply H. lia. Qed.

Lemma bytes_at_mapped m p bs : bytes_at m p bs -> mapped m p (Z.of_nat (length bs)).
Proof. apply mem_get_mapped. Qed.

Lemma mem_write_lookup m p bs a :
  mem_write m p bs !! a =
  if decide (p <= a < p + Z.of_nat (length bs)) then bs !! Z.to_nat (a - p) else m !! a.
Proof.
  revert m p; induction bs as [|b bs IH]; intros m p; cbn [mem_write length].
  - case_decide; [lia|done].
  - rewrite IH. case_decide as H1; case_decide as H2; try lia.
    + replace (Z.to_nat (a - p)) with (S (Z.to_nat (a - (p + 1)))) by lia. done.
    + assert (a = p) as -> by lia. rewrite lookup_insert_eq.
      replace (Z.to_nat (p - p)) with 0%nat by lia. done.
    + rewrite lookup_insert_ne by lia. done.
Qed.

Lemma mem_write_agree m p bs q n :
  q + n <= p \/ p + Z.of_nat (length bs) <= q -> agree m (mem_write m p bs) q n.
Proof. intros H a Ha. rewrite mem_write_lookup. case_decide; [lia|done]. Qed.

Lemma mem_write_bytes_at m p bs : bytes_at (mem_write m p bs) p bs.
Proof.
  apply bytes_at_lookup. intros i b Hb. rewrite mem_write_lookup.
  apply lookup_lt_Some in Hb as Hl. case_decide; [|lia].
  by replace (Z.to_nat (p + Z.of_nat i - p)) with i by lia.
Qed.

Lemma mem_write_mapped m p bs q n : mapped m q n -> mapped (mem_write m p bs) q n.
Proof.
  intros H a Ha. rewrite mem_write_lookup. case_decide; [|by apply H].
  apply lookup_lt_is_Some. lia.
Qed.

Lemma mem_write_modifies m p bs n :
  Z.of_nat (length bs) <= n -> modifies m (mem_write m p bs) p n.
Proof.
  intros Hn. split; intros a Ha; rewrite mem_write_lookup; case_decide; try done; [lia|].
  apply lookup_lt_is_Some. lia.
Qed.

Lemma mem_write_app m p b1 b2 :
  mem_write m p (b1 ++ b2) = mem_write (mem_write m p b1) (p + Z.of_nat (length b1)) b2.
Proof.
  revert m p; induction b1 as [|b b1 IH]; intros m p; cbn [mem_write app length].
  - by rewrite Z.add_0_r.
  - rewrite IH. f_equal. lia.
Qed.

Lemma modifies_refl m p n : modifies m m p n.
Proof. split; auto. Qed.

Lemma modifies_trans m1 m2 m3 p n :
  modifies m1 m2 p n -> modifies m2 m3 p n -> modifies m1 m3 p n.
Proof.
  intros [H1 K1] [H2 K2]. split; [|auto].
  intros a Ha. rewrite H2, H1 by done. done.
Qed.

Lemma modifies_weaken m m' p n q k :
  modifies m m' p n -> (n <= 0 \/ (q <= p /\ p + n <= q + k)) -> modifies m m' q k.
Proof. intros [H K] Hq. split; [|done]. intros a Ha. apply H. lia. Qed.

Lemma modifies_agree m m' p n q k :
  modifies m m' p n -> q + k <= p \/ p + n <= q -> agree m m' q k.
Proof. intros [H _] Hd a Ha. apply H. lia. Qed.

Lemma modifies_mapped m m' p n q k : modifies m m' p n -> mapped m q k -> mapped m' q k.
Proof. intros [_ K] H a Ha. auto. Qed.

Lemma agree_refl m p n : agree m m p n.
Proof. intros a _. done. Qed.

Lemma agree_trans m1 m2 m3 p n : agree m1 m2 p n -> agree m2 m3 p n -> agree m1 m3 p n.
Proof. intros H1 H2 a Ha. rewrite H2, H1 by done. done. Qed.

Lemma agree_sub m m' p n q k : agree m m' p n -> p <= q -> q + k <= p + n -> agree m m' q k.
Proof. intros H ? ? a Ha. apply H. lia. Qed.

(** Executable check of [mapped], for concrete memories. *)
Definition mappedb (m : memory) (p n : Z) : bool :=
  match mem_get m p (Z.to_nat n) with Some _ => true | None => false end.

Lemma mappedb_mapped m p n : mappedb m p n = true -> mapped m p n.
Proof.
  unfold mappedb. destruct (mem_get m p (Z.to_nat n)) eqn:E; [|done]. intros _.
  apply mem_get_mapped in E. intros a Ha. apply E. lia.
Qed.

(** [copied m0 p0 m p n]: the [n] bytes at [p] in [m] are a copy of the bytes
    at [p0] in [m0]. *)
Definition copied (m0 : memory) (p0 : Z) (m : memory) (p n : Z) : Prop :=
  forall i, 0 <= i < n -> m !! (p + i) = m0 !! (p0 + i).

Lemma bytes_at_copied m0 p0 m p n o bs :
  copied m0 p0 m p n -> 0 <= o -> o + Z.of_nat (length bs) <= n ->
  bytes_at m0 (p0 + o) bs -> bytes_at m (p + o) bs.
Proof.
  intros Hc Ho Hn Hb. rewrite bytes_at_lookup in *. intros i b Hi.
  pose proof (lookup_lt_Some _ _ _ Hi).
  rewrite <- Z.add_assoc, Hc, Z.add_assoc by lia. by apply Hb.
Qed.

#[export] Hint Resolve modifies_refl agree_refl mem_write_bytes_at mem_write_mapped : cint.

#[global] Arguments mem_get : simpl never.
#[global] Arguments mem_write : simpl never.

(** ** Process state *)

(** What a process does that is visible outside: [ioctl] calls on the driver
    with the bytes handed to it, thread creation, lines printed (format,
    string argument, integer argument) and the other system calls. *)
Inductive event : Type :=
  | EvIoctl (fd request : Z) (payload : list byte)
  | EvSpawn
  | EvPrint (fmt : string) (arg : list byte) (n : Z)
  | EvSys (call : string) (args : list Z).

(** [G]: the static variables of the program; [D]: the state of the kernel
    driver on the other side of the file descriptor. *)
Record world {G D : Type} : Type := mkWorld {
    w_mem : memory;
    w_sp : Z;                    (* stack pointer; the stack grows down *)
    w_glob : G;
    w_drv : D;
    w_trace : list event;        (* oldest first *)
}.
Arguments world : clear implicits.

Inductive fault : Type :=
  | Segv (addr : Z)            (* access to unmapped memory *)
  | BadCall (fn : Z)           (* call through a pointer to no function *)
  | BadFormat                  (* printf without a matching argument *)
  | NoFuel.                    (* the bound of a modelled loop was reached *)

Inductive outcome (W A : Type) : Type :=
  | Ok (a : A) (w : W)
  | Fault (f : fault).
Arguments Ok {W A}.
Arguments Fault {W A}.

(** ** The monad *)

Definition C (G D A : Type) : Type := world G D -> outcome (world G D) A.

Section Monad.
Context {G D : Type}.

#[global] Instance C_ret : MRet (C G D) := fun A a w => Ok a w.

#[global] Instance C_bind : MBind (C G D) := fun A B f m w =>
  match m w with
  | Ok a w' => f a w'
  | Fault e => Fault e
  end.

Definition fail {A} (f : fault) : C G D A := fun _ => Fault f.

Definition get_world : C G D (world G D) := fun w => Ok w w.

Definition set_mem (m : memory) (w : world G D) : world G D :=
  mkWorld _ _ m (w_sp w) (w_glob w) (w_drv w) (w_trace w).
Definition set_sp (sp : Z) (w : world G D) : world G D :=
  mkWorld _ _ (w_mem w) sp (w_glob w) (w_drv w) (w_trace w).
Definition set_glob (g : G) (w : world G D) : world G D :=
  mkWorld _ _ (w_mem w) (w_sp w) g (w_drv w) (w_trace w).
Definition set_drv (d : D) (w : world G D) : world G D :=
  mkWorld _ _ (w_mem w) (w_sp w) (w_glob w) d (w_trace w).

Definition modify (f : world G D -> world G D) : C G D unit := fun w => Ok tt (f w).

Definition emit (e : event) : C G D unit :=
  modify (fun w => mkWorld _ _ (w_mem w) (w_sp w) (w_glob w) (w_drv w) (w_trace w ++ [e])).

Definition get_glob : C G D G := fun w => Ok (w_glob w) w.
Definition put_glob (g : G) : C G D unit := modify (set_glob g).

(** Raw bytes. *)
Definition load_bytes (p : Z) (n : nat) : C G D (list byte) := fun w =>
  match mem_get (w_mem w) p n with
  | Some bs => Ok bs w
  | None => Fault (Segv p)
  end.

Definition store_bytes (p : Z) (bs : list byte) : C G D unit := fun w =>
  match mem_get (w_mem w) p (length bs) with
  | Some _ => Ok tt (set_mem (mem_write (w_mem w) p bs) w)
  | None => Fault (Segv p)
  end.

(** [*(uintN_t * ) p] and its assignment. *)
Definition load (n : nat) (p : Z) : C G D Z := bs ← load_bytes p n; mret (le_val bs).
Definition store (n : nat) (p : Z) (v : Z) : C G D unit := store_bytes p (le_bytes n v).

(** A block of local variables of [n] bytes; its address is passed to the
    body and the stack pointer is restored on return. *)
Definition with_frame {A} (n : Z) (body : Z -> C G D A) : C G D A := fun w =>
  match body (w_sp w - n) (set_sp (w_sp w - n) w) with
  | Ok a w' => Ok a (set_sp (w_sp w) w')
  | Fault e => Fault e
  end.

(** *** C library *)

Definition memcpy (dst src : Z) (n : Z) : C G D unit :=
  bs ← load_bytes src (Z.to_nat n); store_bytes dst bs.

(** [!memcmp(p, c, sizeof(c))] against constant data *)
Definition memcmp_const (p : Z) (c : list byte) : C G D bool :=
  x ← load_bytes p (length c);
  mret (bool_decide (x = c)).

(** [!memcmp(a, b, n)] *)
Definition memcmp_eq (a b : Z) (n : Z) : C G D bool :=
  x ← load_bytes a (Z.to_nat n);
  y ← load_bytes b (Z.to_nat n);
  mret (bool_decide (x = y)).

(** A scan for a zero element of [k] bytes, as [strlen] (k = 1) and the
    loop of [bio_put_string16] (k = 2) do; [NoFuel] when none is found in
    [fuel] elements. *)
Fixpoint scan_zero (k : nat) (fuel : nat) (p : Z) (len : Z) : C G D Z :=
  match fuel with
  | O => fail NoFuel
  | S fuel =>
      c ← load k (p + Z.of_nat k * len);
      if c =? 0 then mret len else scan_zero k fuel p (len + 1)
  end.

(** Every element scanned is mapped, so the number of mapped addresses
    bounds the scan. *)
Definition scan_fuel (w : world G D) : nat := S (size (w_mem w)).

Definition strlen (p : Z) : C G D Z :=
  fun w => scan_zero 1 (scan_fuel w) p 0 w.
End Monad.

(** ** The allocator

    [malloc m n] is the pointer returned for [n] bytes when memory is [m],
    and memory with the block. *)
Class Malloc : Type := { malloc : memory -> Z -> Z * memory }.

(** [NULL] or a block of fresh addresses; nothing else changes. *)
Class MallocOk `{Malloc} : Prop := {
    malloc_null m n m' : malloc m n = (0, m') -> m' = m;
    malloc_fresh m n p m' : malloc m n = (p, m') -> p <> 0 -> 0 <= n ->
      0 < p /\ p + n < 4294967296 /\ (forall a, p <= a < p + n -> m !! a = None) /\
      mapped m' p n /\ (forall a, ~ (p <= a < p + n) -> m' !! a = m !! a);
}.

Definition do_malloc {G D} `{Malloc} (n : Z) : C G D Z := fun w =>
  let '(p, m') := malloc (w_mem w) n in Ok p (set_mem m' w).

(** An allocator: above everything mapped. *)
Module Bump.
Definition top (m : memory) : Z := map_fold (fun a _ t => Z.max (a + 1) t) 1 m.

#[global] Instance alloc : Malloc := {|
  malloc m n :=
    if top m + n <? 4294967296
    then (top m, mem_write m (top m) (replicate (Z.to_nat n) x00)) else (0, m);
  |}.

Lemma top_spec m : 1 <= top m /\ forall a, is_Some (m !! a) -> a < top m.
Proof.
  unfold top. apply (map_fold_weak_ind (fun t m => 1 <= t /\ forall a, is_Some (m !! a) -> a < t)).
  - split; [lia|]. intros a []. by rewrite lookup_empty in *.
  - intros a b m' t Hn [H1 H2]. split; [lia|]. intros a' Ha.
    destruct (decide (a = a')) as [->|]; [lia|].
    rewrite lookup_insert_ne in Ha by done. specialize (H2 _ Ha). lia.
Qed.

Lemma top_le m n : 1 <= n -> (forall a, is_Some (m !! a) -> a < n) -> top m <= n.
Proof.
  intros Hn. unfold top.
  apply (map_fold_weak_ind (fun t m => (forall a, is_Some (m !! a) -> a < n) -> t <= n)); [done|].
  intros a b m' t Ha IH Hm. assert (a < n) by (apply Hm; by rewrite lookup_insert_eq).
  assert (t <= n); [|lia]. apply IH. intros a' Ha'. apply Hm.
  destruct (decide (a = a')) as [->|]; [by rewrite lookup_insert_eq|by rewrite lookup_insert_ne].
Qed.

#[global] Instance alloc_ok : MallocOk.
Proof.
  split; cbn [malloc alloc]; intros m n; destruct (top_spec m) as [H1 H2].
  - intros m'. case_cmp; [|congruence]. intros [= E _]. lia.
  - intros p m'. case_cmp; [|congruence]. intros [= <- <-] _ Hn.
    split_and!; [lia|lia|..].
    + intros a Ha. destruct (m !! a) eqn:E; [|done].
      assert (a < top m) by (apply H2; by rewrite E). lia.
    + intros a Ha. rewrite mem_write_lookup, length_replicate. case_decide; [|lia].
      rewrite lookup_replicate_2 by lia. done.
    + intros a Ha. rewrite mem_write_lookup, length_replicate. case_decide; [lia|done].
Qed.
End Bump.

(** ** Weakest preconditions *)

(** The computation returns with [Q], or it faults with [F]. *)
Definition wpf {G D A} (F : fault -> Prop) (m : C G D A) (Q : A -> world G D -> Prop)
    (w : world G D) : Prop :=
  match m w with
  | Ok a w' => Q a w'
  | Fault f => F f
  end.

(** It returns with [Q]. *)
Abbreviation no_fault := (fun _ : fault => False).
Abbreviation wp := (wpf no_fault).

Section Wp.
Context {G D : Type}.
Implicit Types w : world G D.

Lemma wp_ok {A} (m : C G D A) Q w :
  wp m Q w <-> exists a w', m w = Ok a w' /\ Q a w'.
Proof.
  unfold wpf. destruct (m w); split.
  - eauto.
  - intros (? & ? & [= <- <-] & ?). done.
  - done.
  - by intros (? & ? & ? & ?).
Qed.

Section Rules.
Context {F : fault -> Prop}.

Lemma wp_run {A} (m : C G D A) (Q : A -> world G D -> Prop) w a w' :
  m w = Ok a w' -> Q a w' -> wpf F m Q w.
Proof. unfold wpf. by intros ->. Qed.

Lemma wp_ret {A} (a : A) (Q : A -> world G D -> Prop) w :
  Q a w -> wpf F (mret a) Q w.
Proof. done. Qed.

Lemma wp_bind {A B} (m : C G D A) (f : A -> C G D B) Q w :
  wpf F m (fun a w' => wpf F (f a) Q w') w -> wpf F (m ≫= f) Q w.
Proof. unfold wpf, mbind, C_bind. by destruct (m w). Qed.

Lemma wp_mono {A} (m : C G D A) (P Q : A -> world G D -> Prop) w :
  wpf F m P w -> (forall a w', P a w' -> Q a w') -> wpf F m Q w.
Proof. unfold wpf. destruct (m w); auto. Qed.

Lemma wp_load_bytes p n Q w bs :
  mem_get (w_mem w) p n = Some bs -> Q bs w -> wpf F (load_bytes p n) Q w.
Proof. unfold wpf, load_bytes. by intros ->. Qed.

Lemma wp_load n p (Q : Z -> world G D -> Prop) w bs :
  mem_get (w_mem w) p n = Some bs -> Q (le_val bs) w -> wpf F (load n p) Q w.
Proof. intros H HQ. apply wp_bind. by eapply wp_load_bytes. Qed.

Lemma wp_store_bytes p bs (Q : unit -> world G D -> Prop) w :
  mapped (w_mem w) p (Z.of_nat (length bs)) ->
  Q tt (set_mem (mem_write (w_mem w) p bs) w) -> wpf F (store_bytes p bs) Q w.
Proof.
  intros H HQ. unfold wpf, store_bytes.
  by destruct (mapped_mem_get _ _ _ H) as (? & -> & _).
Qed.

Lemma wp_store n p v (Q : unit -> world G D -> Prop) w :
  mapped (w_mem w) p (Z.of_nat n) ->
  Q tt (set_mem (mem_write (w_mem w) p (le_bytes n v)) w) -> wpf F (store n p v) Q w.
Proof. intros H HQ. apply wp_store_bytes; by rewrite ?length_le_bytes. Qed.

Lemma wp_modify f (Q : unit -> world G D -> Prop) w : Q tt (f w) -> wpf F (modify f) Q w.
Proof. done. Qed.

Lemma wp_with_frame {A} n (body : Z -> C G D A) Q w :
  wpf F (body (w_sp w - n)) (fun a w' => Q a (set_sp (w_sp w) w')) (set_sp (w_sp w - n) w) ->
  wpf F (with_frame n body) Q w.
Proof. unfold wpf, with_frame. by destruct (body _ _). Qed.

End Rules.

(** A computation that returns, where a fault would be allowed. *)
Lemma wp_allow {A} F (m : C G D A) (P Q : A -> world G D -> Prop) w :
  wp m P w -> (forall a w', P a w' -> Q a w') -> wpf F m Q w.
Proof. unfold wpf. destruct (m w); [auto|done]. Qed.

Lemma wpf_mono {A} (F F' : fault -> Prop) (m : C G D A) (P Q : A -> world G D -> Prop) w :
  wpf F m P w -> (forall f, F f -> F' f) -> (forall a w', P a w' -> Q a w') -> wpf F' m Q w.
Proof. unfold wpf. destruct (m w); auto. Qed.

(** The two ways a computation can end. *)
Lemma wpf_ends {A} F (m : C G D A) Q w :
  wpf F m Q w -> (exists a w', m w = Ok a w' /\ Q a w') \/ exists f, m w = Fault f /\ F f.
Proof. unfold wpf. destruct (m w); eauto. Qed.

Lemma run_bind {A B} (m : C G D A) (f : A -> C G D B) w a w' :
  m w = Ok a w' -> (m ≫= f) w = f a w'.
Proof. unfold mbind, C_bind. by intros ->. Qed.

Lemma run_load n p w bs :
  mem_get (w_mem w) p n = Some bs -> load n p w = Ok (le_val bs) w.
Proof. unfold load, mbind, C_bind, load_bytes. by intros ->. Qed.

Lemma run_store n p v w :
  mapped (w_mem w) p (Z.of_nat n) ->
  store n p v w = Ok tt (set_mem (mem_write (w_mem w) p (le_bytes n v)) w).
Proof.
  intros H. unfold store, store_bytes. rewrite length_le_bytes.
  by destruct (mapped_mem_get _ _ _ H) as (? & -> & _).
Qed.

Lemma run_store_bytes p bs w :
  mapped (w_mem w) p (Z.of_nat (length bs)) ->
  store_bytes p bs w = Ok tt (set_mem (mem_write (w_mem w) p bs) w).
Proof.
  intros H. unfold store_bytes. by destruct (mapped_mem_get _ _ _ H) as (? & -> & _).
Qed.

Lemma run_load_bytes p n w bs :
  mem_get (w_mem w) p n = Some bs -> load_bytes p n w = Ok bs w.
Proof. unfold load_bytes. by intros ->. Qed.

(** The scan stops at the first zero element. *)
Lemma scan_zero_run k fuel p len w us :
  (0 < k)%nat ->
  (length us < fuel)%nat ->
  (forall i u, us !! i = Some u ->
     exists bs, mem_get (w_mem w) (p + Z.of_nat k * (len + Z.of_nat i)) k = Some bs /\
                le_val bs = u /\ u <> 0) ->
  (exists bs, mem_get (w_mem w) (p + Z.of_nat k * (len + Z.of_nat (length us))) k = Some bs /\
              le_val bs = 0) ->
  scan_zero k fuel p len w = Ok (len + Z.of_nat (length us)) w.
Proof.
  intros Hk. revert len us; induction fuel as [|fuel IH]; intros len us Hf Hus Hz; [lia|].
  cbn [scan_zero]. destruct us as [|u us].
  - destruct Hz as (bs & Hg & Hv). cbn [length] in *. rewrite Z.add_0_r in *.
    erewrite run_bind by (by apply run_load). by rewrite Hv.
  - destruct (Hus 0%nat u eq_refl) as (bs & Hg & Hv & Hu).
    replace (len + Z.of_nat 0) with len in Hg by lia.
    erewrite run_bind by (by apply run_load).
    case_cmp; [congruence|]. cbn [length] in *.
    rewrite (IH (len + 1) us); [f_equal; lia|lia| |].
    + intros i v Hi. destruct (Hus (S i) v Hi) as (bs' & Hg' & Hr). exists bs'. split; [|done].
      rewrite <- Hg'. f_equal. lia.
    + destruct Hz as (bs' & Hg' & Hr). exists bs'. split; [|done]. rewrite <- Hg'. f_equal. lia.
Qed.
End Wp.

(** Steps through a monadic program: unfolds the leading bind and leaves the
    postcondition to be established. *)
Ltac wp_step :=
  lazymatch goal with
  | |- wpf _ (mbind _ _) _ _ => apply wp_bind
  | |- wpf _ (mret _) _ _ => apply wp_ret
  | |- wpf _ (modify _) _ _ => apply wp_modify
  | |- wpf _ (emit _) _ _ => apply wp_modify
  | |- wpf _ (with_frame _ _) _ _ => apply wp_with_frame; cbn beta
  end.
