(* ===== verification/BinderProto.v ===== *)
(** * The binder protocol: src/binder/include/linux/binder.h

    Constants and structure layouts of the user/kernel interface, for the
    build of src/binder/Makefile ([-DBINDER_IPC_32BIT=1] on 32-bit ARM:
    [binder_size_t], [binder_uintptr_t], [size_t] and pointers are 4 bytes,
    little-endian). A structure is given by the byte offsets of its fields
    and its size. *)
From Stdlib Require Import ZArith Strings.Byte.
From stdpp Require Import base gmap list strings.
From S2P Require Import Prelude CMachine.
Open Scope Z_scope.

Definition B_TYPE_LARGE : Z := 133. (* 0x85 *)

Definition BINDER_TYPE_BINDER : Z := B_PACK_CHARS (char_val "s") (char_val "b") (char_val "*") B_TYPE_LARGE.
Definition BINDER_TYPE_WEAK_BINDER : Z := B_PACK_CHARS (char_val "w") (char_val "b") (char_val "*") B_TYPE_LARGE.
Definition BINDER_TYPE_HANDLE : Z := B_PACK_CHARS (char_val "s") (char_val "h") (char_val "*") B_TYPE_LARGE.
Definition BINDER_TYPE_WEAK_HANDLE : Z := B_PACK_CHARS (char_val "w") (char_val "h") (char_val "*") B_TYPE_LARGE.
Definition BINDER_TYPE_FD : Z := B_PACK_CHARS (char_val "f") (char_val "d") (char_val "*") B_TYPE_LARGE.

Definition FLAT_BINDER_FLAG_ACCEPTS_FDS : Z := 256. (* 0x100 *)

(** ** Structure layouts (offset of each field, size) *)

(** [struct flat_binder_object] *)
Module flat_binder_object.
Definition type : Z := 0.
Definition flags : Z := 4.
Definition binder : Z := 8.   (* union with handle *)
Definition handle : Z := 8.
Definition cookie : Z := 12.
Definition sizeof : Z := 16.
End flat_binder_object.

(** [struct binder_transaction_data] *)
Module binder_transaction_data.
Definition target : Z := 0.   (* union of handle and ptr *)
Definition cookie : Z := 4.
Definition code : Z := 8.
Definition flags : Z := 12.
Definition sender_pid : Z := 16.
Definition sender_euid : Z := 20.
Definition data_size : Z := 24.
Definition offsets_size : Z := 28.
Definition buffer : Z := 32.  (* data.ptr.buffer *)
Definition offsets : Z := 36. (* data.ptr.offsets *)
Definition sizeof : Z := 40.
End binder_transaction_data.

(** [struct binder_ptr_cookie], [struct binder_handle_cookie],
    [struct binder_pri_desc], [struct binder_pri_ptr_cookie],
    [struct binder_write_read], [struct binder_version] *)
Definition sizeof_binder_ptr_cookie : Z := 8.
Definition sizeof_binder_handle_cookie : Z := 8.
Definition sizeof_binder_pri_desc : Z := 8.
Definition sizeof_binder_pri_ptr_cookie : Z := 12.
Definition sizeof_binder_write_read : Z := 24.
Definition sizeof_binder_version : Z := 4.

(** [struct binder_write_read], passed to and updated by the driver. *)
Record binder_write_read : Type := mkBwr {
    write_size : Z;
    write_consumed : Z;
    write_buffer : Z;
    read_size : Z;
    read_consumed : Z;
    read_buffer : Z;
}.

Definition BINDER_CURRENT_PROTOCOL_VERSION : Z := 7.

(** ** ioctl numbers: the encoding of [<linux/ioctl.h>] *)

Definition _IOC (dir type nr size : Z) : Z :=
  Z.lor (Z.lor (Z.lor (Z.shiftl dir 30) (Z.shiftl type 8)) nr) (Z.shiftl size 16).
Definition _IO (type nr : Z) : Z := _IOC 0 type nr 0.
Definition _IOW (type nr size : Z) : Z := _IOC 1 type nr size.
Definition _IOR (type nr size : Z) : Z := _IOC 2 type nr size.
Definition _IOWR (type nr size : Z) : Z := _IOC 3 type nr size.

Definition BINDER_WRITE_READ : Z := _IOWR (char_val "b") 1 sizeof_binder_write_read.
Definition BINDER_SET_IDLE_TIMEOUT : Z := _IOW (char_val "b") 3 8.
Definition BINDER_SET_MAX_THREADS : Z := _IOW (char_val "b") 5 4.
Definition BINDER_SET_IDLE_PRIORITY : Z := _IOW (char_val "b") 6 4.
Definition BINDER_SET_CONTEXT_MGR : Z := _IOW (char_val "b") 7 4.
Definition BINDER_THREAD_EXIT : Z := _IOW (char_val "b") 8 4.
Definition BINDER_VERSION : Z := _IOWR (char_val "b") 9 sizeof_binder_version.

Definition TF_ONE_WAY : Z := 1.
Definition TF_ROOT_OBJECT : Z := 4.
Definition TF_STATUS_CODE : Z := 8.
Definition TF_ACCEPT_FDS : Z := 16.

(** [enum binder_driver_return_protocol] *)
Definition BR_ERROR : Z := _IOR (char_val "r") 0 4.
Definition BR_OK : Z := _IO (char_val "r") 1.
Definition BR_TRANSACTION : Z := _IOR (char_val "r") 2 binder_transaction_data.sizeof.
Definition BR_REPLY : Z := _IOR (char_val "r") 3 binder_transaction_data.sizeof.
Definition BR_ACQUIRE_RESULT : Z := _IOR (char_val "r") 4 4.
Definition BR_DEAD_REPLY : Z := _IO (char_val "r") 5.
Definition BR_TRANSACTION_COMPLETE : Z := _IO (char_val "r") 6.
Definition BR_INCREFS : Z := _IOR (char_val "r") 7 sizeof_binder_ptr_cookie.
Definition BR_ACQUIRE : Z := _IOR (char_val "r") 8 sizeof_binder_ptr_cookie.
Definition BR_RELEASE : Z := _IOR (char_val "r") 9 sizeof_binder_ptr_cookie.
Definition BR_DECREFS : Z := _IOR (char_val "r") 10 sizeof_binder_ptr_cookie.
Definition BR_ATTEMPT_ACQUIRE : Z := _IOR (char_val "r") 11 sizeof_binder_pri_ptr_cookie.
Definition BR_NOOP : Z := _IO (char_val "r") 12.
Definition BR_SPAWN_LOOPER : Z := _IO (char_val "r") 13.
Definition BR_FINISHED : Z := _IO (char_val "r") 14.
Definition BR_DEAD_BINDER : Z := _IOR (char_val "r") 15 4.
Definition BR_CLEAR_DEATH_NOTIFICATION_DONE : Z := _IOR (char_val "r") 16 4.
Definition BR_FAILED_REPLY : Z := _IO (char_val "r") 17.

(** [enum binder_driver_command_protocol] *)
Definition BC_TRANSACTION : Z := _IOW (char_val "c") 0 binder_transaction_data.sizeof.
Definition BC_REPLY : Z := _IOW (char_val "c") 1 binder_transaction_data.sizeof.
Definition BC_ACQUIRE_RESULT : Z := _IOW (char_val "c") 2 4.
Definition BC_FREE_BUFFER : Z := _IOW (char_val "c") 3 4.
Definition BC_INCREFS : Z := _IOW (char_val "c") 4 4.
Definition BC_ACQUIRE : Z := _IOW (char_val "c") 5 4.
Definition BC_RELEASE : Z := _IOW (char_val "c") 6 4.
Definition BC_DECREFS : Z := _IOW (char_val "c") 7 4.
Definition BC_INCREFS_DONE : Z := _IOW (char_val "c") 8 sizeof_binder_ptr_cookie.
Definition BC_ACQUIRE_DONE : Z := _IOW (char_val "c") 9 sizeof_binder_ptr_cookie.
Definition BC_ATTEMPT_ACQUIRE : Z := _IOW (char_val "c") 10 sizeof_binder_pri_desc.
Definition BC_REGISTER_LOOPER : Z := _IO (char_val "c") 11.
Definition BC_ENTER_LOOPER : Z := _IO (char_val "c") 12.
Definition BC_EXIT_LOOPER : Z := _IO (char_val "c") 13.
Definition BC_REQUEST_DEATH_NOTIFICATION : Z := _IOW (char_val "c") 14 sizeof_binder_handle_cookie.
Definition BC_CLEAR_DEATH_NOTIFICATION : Z := _IOW (char_val "c") 15 sizeof_binder_handle_cookie.
Definition BC_DEAD_BINDER_DONE : Z := _IOW (char_val "c") 16 4.

(** All codes the driver may return, with the number of payload bytes that
    follow each in the read buffer (the size field of the ioctl number). *)
Definition br_codes : list Z :=
  [BR_ERROR; BR_OK; BR_TRANSACTION; BR_REPLY; BR_ACQUIRE_RESULT; BR_DEAD_REPLY;
   BR_TRANSACTION_COMPLETE; BR_INCREFS; BR_ACQUIRE; BR_RELEASE; BR_DECREFS;
   BR_ATTEMPT_ACQUIRE; BR_NOOP; BR_SPAWN_LOOPER; BR_FINISHED; BR_DEAD_BINDER;
   BR_CLEAR_DEATH_NOTIFICATION_DONE; BR_FAILED_REPLY].

Definition bc_codes : list Z :=
  [BC_TRANSACTION; BC_REPLY; BC_ACQUIRE_RESULT; BC_FREE_BUFFER; BC_INCREFS; BC_ACQUIRE;
   BC_RELEASE; BC_DECREFS; BC_INCREFS_DONE; BC_ACQUIRE_DONE; BC_ATTEMPT_ACQUIRE;
   BC_REGISTER_LOOPER; BC_ENTER_LOOPER; BC_EXIT_LOOPER; BC_REQUEST_DEATH_NOTIFICATION;
   BC_CLEAR_DEATH_NOTIFICATION; BC_DEAD_BINDER_DONE].

(** [_IOC_SIZE]: the payload length carried by a code. *)
Definition _IOC_SIZE (code : Z) : Z := Z.land (Z.shiftr code 16) 16383.

(** The payload length is recovered from the code, whatever the direction
    and type, for every payload that fits the 14-bit field. *)
Lemma IOC_SIZE_of dir type nr size :
  0 <= dir < 4 -> 0 <= type < 256 -> 0 <= nr < 256 -> 0 <= size < 16384 ->
  _IOC_SIZE (_IOC dir type nr size) = size.
Proof.
  intros Hd Ht Hn Hs. unfold _IOC_SIZE, _IOC.
  rewrite !Z.shiftr_lor, (Z.shiftr_shiftl_l dir), (Z.shiftr_shiftl_r type), (Z.shiftr_shiftl_l size) by lia.
  replace (Z.shiftr nr 16) with 0 by (rewrite Z.shiftr_div_pow2 by lia; change (2^16) with 65536; div_lia).
  change (16 - 8) with 8. change (16 - 16) with 0. change (30 - 16) with 14. rewrite Z.shiftl_0_r.
  replace (Z.shiftr type 8) with 0 by (rewrite Z.shiftr_div_pow2 by lia; change (2^8) with 256; div_lia).
  rewrite !Z.lor_0_r. change 16383 with (Z.ones 14).
  rewrite Z.land_lor_distr_l, !Z.land_ones, Z.shiftl_mul_pow2 by lia.
  rewrite Z.mod_mul, Z.lor_0_l by lia. apply Z.mod_small. lia.
Qed.

(** The codes of one direction are pairwise distinct: the [switch] of
    [binder_parse] has no duplicate case. *)
Lemma br_codes_NoDup : NoDup br_codes.
Proof. apply (bool_decide_unpack _). vm_compute. exact I. Qed.

Lemma bc_codes_NoDup : NoDup bc_codes.
Proof. apply (bool_decide_unpack _). vm_compute. exact I. Qed.

Lemma codes_32bit : Forall (fun c => 0 <= c < 4294967296) (br_codes ++ bc_codes).
Proof. apply (bool_decide_unpack _). vm_compute. exact I. Qed.
