(* ===== verification/BinderIo.v ===== *)
(** * Parcels: the [bio_*] functions of src/binder/binder.c

    A [struct binder_io] is a cursor over a data buffer and a table of object
    offsets. The cursor is a local variable of its users, so it is a record
    passed and returned by value; the buffers live in memory. [NULL] is 0. *)
From Stdlib Require Import ZArith Strings.Byte.
From stdpp Require Import base gmap list strings.
From S2P Require Import Prelude CMachine BinderProto.
Open Scope Z_scope.

(** ** Definitions *)

Definition BIO_F_SHARED : Z := 1.
Definition BIO_F_OVERFLOW : Z := 2.
Definition BIO_F_IOERROR : Z := 4.
Definition BIO_F_MALLOCED : Z := 8.

Definition MAX_BIO_SIZE : Z := Z.shiftl 1 30.

Record binder_io : Type := mkBio {
    data : Z;          (* pointer to read/write from *)
    offs : Z;          (* array of offsets *)
    data_avail : Z;    (* bytes available in data buffer *)
    offs_avail : Z;    (* entries available in offsets array *)
    data0 : Z;         (* start of data buffer *)
    offs0 : Z;         (* start of offsets buffer *)
    flags : Z;
    unused : Z;
}.

Definition bio_or_flags (f : Z) (io : binder_io) : binder_io :=
  mkBio (data io) (offs io) (data_avail io) (offs_avail io) (data0 io) (offs0 io)
        (Z.lor (flags io) f) (unused io).

(** [bio->data += size; bio->data_avail -= size] *)
Definition bio_advance (size : Z) (io : binder_io) : binder_io :=
  mkBio (data io + size) (offs io) (data_avail io - size) (offs_avail io)
        (data0 io) (offs0 io) (flags io) (unused io).

(** [bio->offs_avail--; bio->offs++] *)
Definition bio_take_offs (io : binder_io) : binder_io :=
  mkBio (data io) (offs io + 4) (data_avail io) (offs_avail io - 1)
        (data0 io) (offs0 io) (flags io) (unused io).

(** [bio->data_avail = 0; bio->flags |= BIO_F_OVERFLOW] *)
Definition bio_exhaust (io : binder_io) : binder_io :=
  mkBio (data io) (offs io) 0 (offs_avail io) (data0 io) (offs0 io)
        (Z.lor (flags io) BIO_F_OVERFLOW) (unused io).

Definition bio_init (io : binder_io) (dat maxdata maxoffs : Z) : binder_io :=
  let n := u32 (maxoffs * 4) in
  if maxdata <? n then
    mkBio (data io) (offs io) 0 0 (data0 io) (offs0 io) BIO_F_OVERFLOW (unused io)
  else
    mkBio (dat + n) dat (maxdata - n) maxoffs (dat + n) dat 0 (unused io).

Definition bio_alloc (io : binder_io) (size : Z) : Z * binder_io :=
  let size := align4 size in
  if data_avail io <? size then (0, bio_or_flags BIO_F_OVERFLOW io)
  else (data io, bio_advance size io).

Definition bio_get (io : binder_io) (size : Z) : Z * binder_io :=
  let size := align4 size in
  if data_avail io <? size then (0, bio_exhaust io)
  else (data io, bio_advance size io).

Section BinderIo.
Context {G D : Type}.

Definition bio_init_from_txn (io : binder_io) (txn : Z) : C G D binder_io :=
  buffer ← load 4 (txn + binder_transaction_data.buffer);
  offsets ← load 4 (txn + binder_transaction_data.offsets);
  data_size ← load 4 (txn + binder_transaction_data.data_size);
  offsets_size ← load 4 (txn + binder_transaction_data.offsets_size);
  mret (mkBio buffer offsets data_size (offsets_size / 4) buffer offsets BIO_F_SHARED (unused io)).

Definition bio_alloc_obj (io : binder_io) : C G D (Z * binder_io) :=
  let '(obj, io) := bio_alloc io flat_binder_object.sizeof in
  if negb (obj =? 0) && negb (offs_avail io =? 0) then
    store 4 (offs io) (u32 (obj - data0 io));;
    mret (obj, bio_take_offs io)
  else mret (0, bio_or_flags BIO_F_OVERFLOW io).

Definition bio_put_uint32 (io : binder_io) (n : Z) : C G D binder_io :=
  let '(ptr, io) := bio_alloc io 4 in
  (if negb (ptr =? 0) then store 4 ptr n else mret ());;
  mret io.

(** The four assignments to the fields of a new [flat_binder_object]. *)
Definition put_flat_object (obj type val : Z) : C G D unit :=
  store 4 (obj + flat_binder_object.flags) (Z.lor 127 FLAT_BINDER_FLAG_ACCEPTS_FDS);;
  store 4 (obj + flat_binder_object.type) type;;
  store 4 (obj + flat_binder_object.binder) val;;
  store 4 (obj + flat_binder_object.cookie) 0.

Definition bio_put_obj (io : binder_io) (ptr : Z) : C G D binder_io :=
  '(obj, io) ← bio_alloc_obj io;
  if obj =? 0 then mret io
  else put_flat_object obj BINDER_TYPE_BINDER ptr;; mret io.

Definition bio_put_ref (io : binder_io) (handle : Z) : C G D binder_io :=
  '(obj, io) ← (if negb (handle =? 0) then bio_alloc_obj io
                else mret (bio_alloc io flat_binder_object.sizeof));
  if obj =? 0 then mret io
  else put_flat_object obj BINDER_TYPE_HANDLE handle;; mret io.

(** [while (str[len]) len++;] over 16-bit units *)
Definition strlen16 (str : Z) : C G D Z :=
  fun w => scan_zero 2 (scan_fuel w) str 0 w.

Definition bio_put_string16 (io : binder_io) (str : Z) : C G D binder_io :=
  if str =? 0 then bio_put_uint32 io 4294967295
  else
    len ← strlen16 str;
    if MAX_BIO_SIZE / 2 <=? len then bio_put_uint32 io 4294967295
    else
      io ← bio_put_uint32 io (u32 len);
      let len := u32 (u32 (len + 1) * 2) in
      let '(ptr, io) := bio_alloc io len in
      (if negb (ptr =? 0) then memcpy ptr str len else mret ());;
      mret io.

(** [while ( *str) *ptr++ = *str++; *ptr++ = 0;] — the source is an
    unsigned char array, the destination 16-bit units. *)
Fixpoint widen_loop (fuel : nat) (str ptr : Z) : C G D unit :=
  match fuel with
  | O => fail NoFuel
  | S fuel =>
      c ← load 1 str;
      if c =? 0 then store 2 ptr 0
      else store 2 ptr c;; widen_loop fuel (str + 1) (ptr + 2)
  end.

Definition widen (str ptr : Z) : C G D unit :=
  fun w => widen_loop (scan_fuel w) str ptr w.

Definition bio_put_string16_x (io : binder_io) (str : Z) : C G D binder_io :=
  if str =? 0 then bio_put_uint32 io 4294967295
  else
    len ← strlen str;
    if MAX_BIO_SIZE / 2 <=? len then bio_put_uint32 io 4294967295
    else
      io ← bio_put_uint32 io len;
      let '(ptr, io) := bio_alloc io (u32 (u32 (len + 1) * 2)) in
      if ptr =? 0 then mret io
      else widen str ptr;; mret io.

Definition bio_get_uint32 (io : binder_io) : C G D (Z * binder_io) :=
  let '(ptr, io) := bio_get io 4 in
  v ← (if negb (ptr =? 0) then load 4 ptr else mret 0);
  mret (v, io).

(** Returns the pointer, the value stored in [*sz] and the cursor. *)
Definition bio_get_string16 (io : binder_io) : C G D (Z * Z * binder_io) :=
  '(len, io) ← bio_get_uint32 io;
  let '(ptr, io) := bio_get io (u32 (u32 (len + 1) * 2)) in
  mret (ptr, len, io).

(** The loop of [_bio_get_obj]: is [off] one of the [cnt] offsets from
    index [n] on? *)
Fixpoint find_offset (cnt : nat) (n : Z) (base off : Z) : C G D bool :=
  match cnt with
  | O => mret false
  | S cnt =>
      o ← load 4 (base + 4 * n);
      if o =? off then mret true else find_offset cnt (n + 1) base off
  end.

Definition _bio_get_obj (io : binder_io) : C G D (Z * binder_io) :=
  let off := u32 (data io - data0 io) in
  found ← find_offset (Z.to_nat (offs_avail io)) 0 (offs io) off;
  if found : bool then mret (bio_get io flat_binder_object.sizeof)
  else mret (0, bio_exhaust io).

Definition bio_get_ref (io : binder_io) : C G D (Z * binder_io) :=
  '(obj, io) ← _bio_get_obj io;
  if obj =? 0 then mret (0, io)
  else
    type ← load 4 (obj + flat_binder_object.type);
    if type =? BINDER_TYPE_HANDLE then
      h ← load 4 (obj + flat_binder_object.handle);
      mret (h, io)
    else mret (0, io).
End BinderIo.
