(* ===== verification/BinderParcel.v ===== *)
(** * Correctness of the parcel functions

    Layout of a parcel as a list of items, the effect of each [bio_put_*]
    call on the buffer, memory safety of any sequence of puts, and the round
    trip: what a sequence of puts wrote is what the matching gets return. *)
From Stdlib Require Import ZArith Strings.Byte.
From stdpp Require Import base gmap list strings.
From S2P Require Import Prelude CMachine BinderProto BinderIo.
Open Scope Z_scope.

(** ** Memory lemmas *)

Lemma bytes_at_length_size m p bs : bytes_at m p bs -> (length bs <= size m)%nat.
Proof.
  intros H. rewrite <- size_dom.
  assert (NoDup ((fun i : nat => p + Z.of_nat i) <$> seq 0 (length bs))) as Hnd.
  { apply NoDup_fmap_2; [intros ?? ?; lia|apply NoDup_seq]. }
  rewrite <- (length_seq (length bs) 0), <- (length_fmap (fun i : nat => p + Z.of_nat i)).
  rewrite <- (size_list_to_set (C := gset Z)) by done.
  apply subseteq_size. intros a Ha.
  apply elem_of_list_to_set, list_elem_of_fmap in Ha as (i & -> & Hi).
  apply elem_of_seq in Hi. apply elem_of_dom. eapply bytes_at_mapped; [done|]. lia.
Qed.

Lemma bytes_at_prefix m p b1 b2 : bytes_at m p (b1 ++ b2) -> bytes_at m p b1.
Proof. intros H. by apply bytes_at_app in H as [? _]. Qed.

Lemma bytes_at_u16 m p us i u :
  bytes_at m p (u16s_bytes us) -> us !! i = Some u ->
  mem_get m (p + 2 * Z.of_nat i) 2 = Some (le_bytes 2 u).
Proof.
  revert p i; induction us as [|v us IH]; intros p i H Hi; [done|].
  change (u16s_bytes (v :: us)) with (le_bytes 2 v ++ u16s_bytes us) in H.
  apply bytes_at_app in H as [Hv Hus]. destruct i as [|i].
  - injection Hi as ->. replace (p + 2 * Z.of_nat 0) with p by lia. exact Hv.
  - rewrite <- (IH _ i Hus Hi). f_equal. rewrite length_le_bytes. lia.
Qed.

Lemma bytes_at_byte m p bs i b :
  bytes_at m p bs -> bs !! i = Some b -> mem_get m (p + Z.of_nat i) 1 = Some [b].
Proof.
  intros H Hi. unfold mem_get. rewrite bytes_at_lookup in H. by rewrite (H _ _ Hi).
Qed.

Lemma mem_write_u16_cons m p u us :
  mem_write m p (u16s_bytes (u :: us)) =
  mem_write (mem_write m p (le_bytes 2 u)) (p + 2) (u16s_bytes us).
Proof.
  change (u16s_bytes (u :: us)) with (le_bytes 2 u ++ u16s_bytes us).
  by rewrite mem_write_app, length_le_bytes.
Qed.

(** The two C string forms of the sources: a NUL-terminated byte string and
    a zero-terminated array of 16-bit units. *)
Definition cstr8_at (m : memory) (p : Z) (cs : list byte) : Prop :=
  bytes_at m p (cs ++ [x00]) /\ x00 ∉ cs.

Definition cstr16_at (m : memory) (p : Z) (us : list Z) : Prop :=
  bytes_at m p (u16s_bytes (us ++ [0])) /\ Forall (fun u => 0 < u < 65536) us.

Lemma byte_val_0 b : byte_val b = 0 -> b = x00.
Proof. intros H. by rewrite <- (byte_of_val b), H. Qed.

Lemma le_val_1 b : le_val [b] = byte_val b.
Proof. cbn. lia. Qed.

Section Strings.
Context {G D : Type}.
Implicit Types w : world G D.

Lemma strlen_run w p cs :
  cstr8_at (w_mem w) p cs -> strlen p w = Ok (Z.of_nat (length cs)) w.
Proof.
  intros [H Hz]. unfold strlen.
  pose proof (bytes_at_length_size _ _ _ H) as Hs. rewrite length_app in Hs. simpl in Hs.
  pose proof (scan_zero_run 1 (scan_fuel w) p 0 w ((byte_val <$> cs))) as R.
  rewrite length_fmap in R. apply R; [lia|unfold scan_fuel; lia|..].
  - intros i u Hi. apply list_lookup_fmap_Some_1 in Hi.
    destruct Hi as (b & -> & Hb).
    exists [b]. split; [|split].
    + replace (p + Z.of_nat 1 * (0 + Z.of_nat i)) with (p + Z.of_nat i) by lia.
      eapply bytes_at_byte; [done|]. by apply lookup_app_l_Some.
    + apply le_val_1.
    + intros E%byte_val_0. subst. apply Hz. by eapply list_elem_of_lookup_2.
  - exists [x00]. split; [|done].
    replace (p + Z.of_nat 1 * (0 + Z.of_nat (length cs))) with (p + Z.of_nat (length cs)) by lia.
    eapply bytes_at_byte; [done|]. by rewrite lookup_app_r, Nat.sub_diag by lia.
Qed.

Lemma strlen16_run w p us :
  cstr16_at (w_mem w) p us -> strlen16 p w = Ok (Z.of_nat (length us)) w.
Proof.
  intros [H Hus]. unfold strlen16.
  pose proof (bytes_at_length_size _ _ _ H) as Hs.
  rewrite length_u16s_bytes, length_app in Hs. simpl in Hs.
  apply (scan_zero_run 2 (scan_fuel w) p 0 w us); [lia|unfold scan_fuel; lia|..].
  - intros i u Hi. exists (le_bytes 2 u). split; [|split].
    + replace (p + Z.of_nat 2 * (0 + Z.of_nat i)) with (p + 2 * Z.of_nat i) by lia.
      eapply bytes_at_u16; [done|]. by apply lookup_app_l_Some.
    + apply le_val_bytes_2. rewrite Forall_lookup in Hus. specialize (Hus _ _ Hi). lia.
    + rewrite Forall_lookup in Hus. specialize (Hus _ _ Hi). lia.
  - exists (le_bytes 2 0). split; [|done].
    replace (p + Z.of_nat 2 * (0 + Z.of_nat (length us))) with (p + 2 * Z.of_nat (length us)) by lia.
    eapply bytes_at_u16; [done|]. by rewrite lookup_app_r, Nat.sub_diag by lia.
Qed.

(** The copy loop of [bio_put_string16_x] writes the widened string. *)
Lemma widen_loop_run fuel w src dst cs :
  (length cs < fuel)%nat ->
  cstr8_at (w_mem w) src cs ->
  mapped (w_mem w) dst (2 * (Z.of_nat (length cs) + 1)) ->
  (src + Z.of_nat (length cs) + 1 <= dst \/
   dst + 2 * (Z.of_nat (length cs) + 1) <= src) ->
  widen_loop fuel src dst w =
  Ok tt (set_mem (mem_write (w_mem w) dst (u16s_bytes ((byte_val <$> cs) ++ [0]))) w).
Proof.
  revert w src dst cs; induction fuel as [|fuel IH]; intros w src dst cs Hf [H Hz] Hm Hd; [lia|].
  cbn [widen_loop]. destruct cs as [|c cs].
  - assert (mem_get (w_mem w) src 1 = Some [x00]) as Hg by exact H.
    erewrite run_bind by (by apply run_load).
    change (le_val [x00] =? 0) with true. cbv iota.
    rewrite run_store; [done|]. eapply mapped_sub; [done|simpl; lia..].
  - cbn [length] in *. apply not_elem_of_cons in Hz as [Hc Hcs].
    assert (mem_get (w_mem w) src 1 = Some [c]) as Hg.
    { replace src with (src + Z.of_nat 0) by lia. by eapply bytes_at_byte. }
    erewrite run_bind by (by apply run_load). rewrite le_val_1.
    destruct (Z.eqb_spec (byte_val c) 0) as [E|_].
    { by apply byte_val_0 in E as ->. }
    erewrite run_bind by (apply run_store; eapply mapped_sub; [done|lia..]).
    rewrite (IH _ _ _ cs); [|lia|..].
    + rewrite fmap_cons, <- app_comm_cons, mem_write_u16_cons. done.
    + split; [|exact Hcs]. cbn [w_mem set_mem].
      eapply bytes_at_agree; [apply mem_write_agree|].
      * rewrite length_le_bytes, length_app. simpl. lia.
      * change ((c :: cs) ++ [x00]) with ([c] ++ (cs ++ [x00])) in H.
        by apply bytes_at_app in H as [_ H].
    + cbn [w_mem set_mem]. apply mem_write_mapped. eapply mapped_sub; [done|lia..].
    + lia.
Qed.
End Strings.

(** ** Items and their layout *)

(** The logical contents of a parcel. [IObj] is an object entered in the
    offsets table; [IObj0] is the handle-0 reference, which is not. *)
Inductive item : Type :=
  | IU32 (n : Z)
  | IStr (us : list Z)
  | IObj (type val : Z)
  | IObj0 (type val : Z).

Definition obj_bytes (type val : Z) : list byte :=
  le_bytes 4 type ++ le_bytes 4 (Z.lor 127 FLAT_BINDER_FLAG_ACCEPTS_FDS) ++
  le_bytes 4 val ++ le_bytes 4 0.

Definition str_bytes (us : list Z) : list byte := u16s_bytes (us ++ [0]).

(** The bytes of an item; a string may be followed by two bytes of padding,
    which the code leaves unset. *)
Definition item_bytes (it : item) : list byte :=
  match it with
  | IU32 n => le_bytes 4 n
  | IStr us => le_bytes 4 (Z.of_nat (length us)) ++ str_bytes us
  | IObj type val | IObj0 type val => obj_bytes type val
  end.

Definition item_size (it : item) : Z :=
  match it with
  | IU32 _ => 4
  | IStr us => 4 + align4 (2 * (Z.of_nat (length us) + 1))
  | IObj _ _ | IObj0 _ _ => flat_binder_object.sizeof
  end.

(** Entries the item takes in the offsets table. *)
Definition item_objs (it : item) : Z :=
  match it with IObj _ _ => 1 | _ => 0 end.

(** What the wire format can represent: 32-bit words and objects, strings of
    16-bit units shorter than [MAX_BIO_SIZE / 2]. *)
Definition item_wf (it : item) : Prop :=
  match it with
  | IU32 n => 0 <= n < 4294967296
  | IStr us => Forall (fun u => 0 <= u < 65536) us /\ Z.of_nat (length us) < MAX_BIO_SIZE / 2
  | IObj type val | IObj0 type val => 0 <= type < 4294967296 /\ 0 <= val < 4294967296
  end.

#[export] Instance item_wf_dec it : Decision (item_wf it).
Proof. destruct it; apply _. Defined.

Definition items_size (its : list item) : Z := foldr (fun it s => item_size it + s) 0 its.
Definition items_objs (its : list item) : Z := foldr (fun it s => item_objs it + s) 0 its.

(** The items are laid out one after the other from [p]. *)
Fixpoint parcel_at (m : memory) (p : Z) (its : list item) : Prop :=
  match its with
  | [] => True
  | it :: its => bytes_at m p (item_bytes it) /\ parcel_at m (p + item_size it) its
  end.

(** The offsets (from the start of the data) of the objects to be found in
    the table, for items laid out from offset [o]. *)
Fixpoint item_offsets (o : Z) (its : list item) : list Z :=
  match its with
  | [] => []
  | IObj _ _ as it :: its => o :: item_offsets (o + item_size it) its
  | it :: its => item_offsets (o + item_size it) its
  end.

Definition u32s_bytes (os : list Z) : list byte := concat (map (le_bytes 4) os).

Lemma length_u32s_bytes os : length (u32s_bytes os) = (4 * length os)%nat.
Proof.
  induction os as [|o os IH]; [done|].
  change (u32s_bytes (o :: os)) with (le_bytes 4 o ++ u32s_bytes os).
  rewrite length_app, length_le_bytes, IH. simpl. lia.
Qed.

Lemma u32s_bytes_snoc os o : u32s_bytes (os ++ [o]) = u32s_bytes os ++ le_bytes 4 o.
Proof. unfold u32s_bytes. rewrite map_app, concat_app. cbn [map concat]. by rewrite app_nil_r. Qed.

Lemma bytes_at_u32 m p os i o :
  bytes_at m p (u32s_bytes os) -> os !! i = Some o ->
  mem_get m (p + 4 * Z.of_nat i) 4 = Some (le_bytes 4 o).
Proof.
  revert p i; induction os as [|v os IH]; intros p i H Hi; [done|].
  change (u32s_bytes (v :: os)) with (le_bytes 4 v ++ u32s_bytes os) in H.
  apply bytes_at_app in H as [Hv Hos]. destruct i as [|i].
  - injection Hi as ->. replace (p + 4 * Z.of_nat 0) with p by lia. exact Hv.
  - rewrite <- (IH _ i Hos Hi). f_equal. rewrite length_le_bytes. lia.
Qed.

Lemma str_align (us : list Z) :
  Z.of_nat (length us) < MAX_BIO_SIZE / 2 ->
  Z.max 4 (2 * (Z.of_nat (length us) + 1)) <= align4 (2 * (Z.of_nat (length us) + 1))
    < 2 * (Z.of_nat (length us) + 1) + 4.
Proof.
  change (MAX_BIO_SIZE / 2) with 536870912. intros H. rewrite align4_spec by lia. div_lia.
Qed.

Lemma str_size_cast n : 0 <= n < 536870912 -> u32 (u32 (n + 1) * 2) = 2 * (n + 1).
Proof. intros. rewrite (u32_small (n + 1)), u32_small by lia. lia. Qed.

Lemma length_obj_bytes type val : length (obj_bytes type val) = 16%nat.
Proof. done. Qed.

Lemma length_str_bytes us : length (str_bytes us) = (2 * (length us + 1))%nat.
Proof. unfold str_bytes. rewrite length_u16s_bytes, length_app. simpl. lia. Qed.

Lemma item_size_bytes it :
  item_wf it -> Z.of_nat (length (item_bytes it)) <= item_size it.
Proof.
  destruct it as [n|us|t v|t v]; intros Hwf; cbn [item_bytes item_size].
  - by rewrite length_le_bytes.
  - destruct Hwf as [_ Hl]. rewrite length_app, length_le_bytes, length_str_bytes.
    pose proof (str_align us Hl). lia.
  - by rewrite length_obj_bytes.
  - by rewrite length_obj_bytes.
Qed.

Lemma item_size_pos it : item_wf it -> 4 <= item_size it.
Proof.
  destruct it as [n|us|t v|t v]; intros Hwf; cbn [item_size]; unfold flat_binder_object.sizeof; [lia| |lia|lia].
  destruct Hwf as [_ Hl]. pose proof (str_align us Hl). lia.
Qed.

Lemma item_size_mult4 it : item_wf it -> item_size it `mod` 4 = 0.
Proof.
  destruct it as [n|us|t v|t v]; intros Hwf; cbn [item_size]; try done.
  destruct Hwf as [_ Hl]. change (MAX_BIO_SIZE / 2) with 536870912 in Hl.
  rewrite align4_spec by lia. div_lia.
Qed.

Lemma items_size_nonneg its : Forall item_wf its -> 0 <= items_size its.
Proof.
  induction 1 as [|it its Hwf _ IH]; [done|]. cbn.
  pose proof (item_size_pos it Hwf). unfold items_size in IH. lia.
Qed.

Lemma items_size_cons it its : items_size (it :: its) = item_size it + items_size its.
Proof. done. Qed.

Lemma items_size_app a b : items_size (a ++ b) = items_size a + items_size b.
Proof. induction a as [|it a IH]; [done|]. cbn [app]. rewrite !items_size_cons, IH. lia. Qed.

Lemma items_objs_cons it its : items_objs (it :: its) = item_objs it + items_objs its.
Proof. done. Qed.

Lemma items_objs_app a b : items_objs (a ++ b) = items_objs a + items_objs b.
Proof. induction a as [|it a IH]; [done|]. cbn [app]. rewrite !items_objs_cons, IH. lia. Qed.

Lemma parcel_at_snoc m p its it :
  parcel_at m p (its ++ [it]) <->
  parcel_at m p its /\ bytes_at m (p + items_size its) (item_bytes it).
Proof.
  revert p; induction its as [|i its IH]; intros p; cbn [app parcel_at].
  - cbn. rewrite Z.add_0_r. tauto.
  - rewrite IH, items_size_cons, Z.add_assoc. tauto.
Qed.

Lemma parcel_at_agree m m' p its :
  Forall item_wf its -> agree m m' p (items_size its) -> parcel_at m p its -> parcel_at m' p its.
Proof.
  intros Hwf. revert p; induction Hwf as [|it its Hit Hits IH]; intros p Ha; [done|].
  rewrite items_size_cons in Ha. cbn [parcel_at].
  pose proof (item_size_bytes it Hit). pose proof (items_size_nonneg its Hits).
  intros [H1 H2]. split.
  - eapply bytes_at_agree; [|done]. eapply agree_sub; [done|lia..].
  - apply IH; [|done]. eapply agree_sub; [done|..]; pose proof (item_size_pos it Hit); lia.
Qed.

Lemma item_offsets_app o a b :
  item_offsets o (a ++ b) = item_offsets o a ++ item_offsets (o + items_size a) b.
Proof.
  revert o; induction a as [|it a IH]; intros o.
  - cbn. by rewrite Z.add_0_r.
  - rewrite items_size_cons, Z.add_assoc.
    destruct it; cbn [app item_offsets]; rewrite IH; done.
Qed.

Lemma length_item_offsets o its : Z.of_nat (length (item_offsets o its)) = items_objs its.
Proof.
  revert o; induction its as [|it its IH]; intros o; [done|].
  rewrite items_objs_cons.
  destruct it; cbn [item_offsets item_objs length]; rewrite ?Nat2Z.inj_succ, IH; lia.
Qed.

(** ** Writing *)

(** The cursor stays inside the buffer [lo, lo+n): the data part and the
    part of the offsets table not yet used are disjoint and in bounds. *)
Record bio_bounds (io : binder_io) (lo n : Z) : Prop := {
    bb_lo : 0 < lo;
    bb_hi : lo + n < 4294967296;
    bb_data0 : lo <= data0 io <= data io;
    bb_avail : 0 <= data_avail io;
    bb_data : data io + data_avail io <= lo + n;
    bb_offs0 : lo <= offs0 io <= offs io;
    bb_offs_avail : 0 <= offs_avail io;
    bb_offs : offs io + 4 * offs_avail io <= data0 io;
}.

(** A call of one of the [bio_put_*] functions. A string is given by the
    address of the source and its contents; the two string functions also
    take [NULL], and strings of [MAX_BIO_SIZE / 2] units or more, which they
    do not copy. *)
Inductive put : Type :=
  | PutU32 (n : Z)
  | PutStr16 (src : Z) (us : list Z)
  | PutStr8 (src : Z) (cs : list byte)
  | PutNull16
  | PutNull8
  | PutLong16 (src : Z) (us : list Z)
  | PutLong8 (src : Z) (cs : list byte)
  | PutRef (handle : Z)
  | PutObj (ptr : Z).

Definition run_put {G D} (op : put) (io : binder_io) : C G D binder_io :=
  match op with
  | PutU32 n => bio_put_uint32 io n
  | PutStr16 src _ | PutLong16 src _ => bio_put_string16 io src
  | PutStr8 src _ | PutLong8 src _ => bio_put_string16_x io src
  | PutNull16 => bio_put_string16 io 0
  | PutNull8 => bio_put_string16_x io 0
  | PutRef h => bio_put_ref io h
  | PutObj p => bio_put_obj io p
  end.

(** What is put in place of a string that is not copied. *)
Definition no_string : item := IU32 4294967295.

Definition put_item (op : put) : item :=
  match op with
  | PutU32 n => IU32 n
  | PutStr16 _ us => IStr us
  | PutStr8 _ cs => IStr (byte_val <$> cs)
  | PutNull16 | PutNull8 | PutLong16 _ _ | PutLong8 _ _ => no_string
  | PutRef h => if h =? 0 then IObj0 BINDER_TYPE_HANDLE h else IObj BINDER_TYPE_HANDLE h
  | PutObj p => IObj BINDER_TYPE_BINDER p
  end.

(** The source of a string, if there is one, is a C string in memory outside
    the buffer. *)
Definition put_src (m : memory) (lo n : Z) (op : put) : Prop :=
  match op with
  | PutStr16 src us =>
      src <> 0 /\ cstr16_at m src us /\
      (src + 2 * (Z.of_nat (length us) + 1) <= lo \/ lo + n <= src)
  | PutStr8 src cs =>
      src <> 0 /\ cstr8_at m src cs /\
      (src + Z.of_nat (length cs) + 1 <= lo \/ lo + n <= src)
  | PutLong16 src us =>
      (src <> 0 /\ cstr16_at m src us /\
       (src + 2 * (Z.of_nat (length us) + 1) <= lo \/ lo + n <= src)) /\
      MAX_BIO_SIZE / 2 <= Z.of_nat (length us)
  | PutLong8 src cs =>
      (src <> 0 /\ cstr8_at m src cs /\
       (src + Z.of_nat (length cs) + 1 <= lo \/ lo + n <= src)) /\
      MAX_BIO_SIZE / 2 <= Z.of_nat (length cs)
  | _ => True
  end.

(** The cursor after an item that fitted. *)
Definition io_after (it : item) (io : binder_io) : binder_io :=
  mkBio (data io + item_size it) (offs io + 4 * item_objs it) (data_avail io - item_size it)
        (offs_avail io - item_objs it) (data0 io) (offs0 io) (flags io) (unused io).

Lemma bio_advance_bounds io lo n size :
  bio_bounds io lo n -> 0 <= size <= data_avail io -> bio_bounds (bio_advance size io) lo n.
Proof. intros [] ?. split; cbn; lia. Qed.

Lemma bio_or_flags_bounds io lo n f : bio_bounds io lo n -> bio_bounds (bio_or_flags f io) lo n.
Proof. intros []. split; done. Qed.

Lemma bio_take_offs_bounds io lo n :
  bio_bounds io lo n -> 0 < offs_avail io -> bio_bounds (bio_take_offs io) lo n.
Proof. intros [] ?. split; cbn; lia. Qed.

#[export] Hint Resolve bio_advance_bounds bio_or_flags_bounds bio_take_offs_bounds : cint.

Lemma bio_alloc_fits io size :
  align4 size <= data_avail io -> bio_alloc io size = (data io, bio_advance (align4 size) io).
Proof. unfold bio_alloc. intros. case_cmp; [lia|done]. Qed.

Lemma bio_alloc_full io size :
  data_avail io < align4 size -> bio_alloc io size = (0, bio_or_flags BIO_F_OVERFLOW io).
Proof. unfold bio_alloc. intros. case_cmp; [done|lia]. Qed.

Lemma bio_data_pos io lo n : bio_bounds io lo n -> (data io =? 0) = false.
Proof. intros []. apply Z.eqb_neq. lia. Qed.

Lemma align4_4 : align4 4 = 4.
Proof. done. Qed.
Lemma align4_16 : align4 flat_binder_object.sizeof = 16.
Proof. done. Qed.

(** Effect of a store inside the buffer on the process state. *)
Lemma set_mem_set_mem {G D} m m' (w : world G D) : set_mem m' (set_mem m w) = set_mem m' w.
Proof. done. Qed.
Lemma w_mem_set_mem {G D} m (w : world G D) : w_mem (set_mem m w) = m.
Proof. done. Qed.
#[export] Hint Rewrite @set_mem_set_mem @w_mem_set_mem : cint_rw.

Section Puts.
Context {G D : Type}.
Implicit Types w : world G D.

Lemma put_uint32_fits io n w :
  0 < data io -> 4 <= data_avail io -> mapped (w_mem w) (data io) 4 ->
  bio_put_uint32 io n w =
  Ok (bio_advance 4 io) (set_mem (mem_write (w_mem w) (data io) (le_bytes 4 n)) w).
Proof.
  intros Hp Ha Hm. unfold bio_put_uint32. rewrite bio_alloc_fits, align4_4 by (rewrite align4_4; lia).
  cbn iota beta. case_cmp; [lia|]. cbn [negb].
  erewrite run_bind by (by apply run_store). done.
Qed.

Lemma put_uint32_full io n w :
  data_avail io < 4 -> bio_put_uint32 io n w = Ok (bio_or_flags BIO_F_OVERFLOW io) w.
Proof. intros Ha. unfold bio_put_uint32. by rewrite bio_alloc_full by (rewrite align4_4; lia). Qed.

(** The field assignments of an object give the bytes of [obj_bytes]. *)
Lemma put_flat_object_run obj type val w :
  mapped (w_mem w) obj 16 ->
  exists m', put_flat_object obj type val w = Ok tt (set_mem m' w) /\
             modifies (w_mem w) m' obj 16 /\ bytes_at m' obj (obj_bytes type val).
Proof.
  intros Hm. unfold put_flat_object.
  unfold flat_binder_object.flags, flat_binder_object.type, flat_binder_object.binder,
    flat_binder_object.cookie.
  do 3 (erewrite run_bind by
    (apply run_store; rewrite ?w_mem_set_mem; repeat apply mem_write_mapped;
     eapply mapped_sub; [exact Hm|lia..])).
  rewrite run_store by
    (rewrite ?w_mem_set_mem; repeat apply mem_write_mapped; eapply mapped_sub; [exact Hm|lia..]).
  eexists. split; [autorewrite with cint_rw; reflexivity|]. autorewrite with cint_rw. split.
  - repeat (eapply modifies_trans; [|eapply modifies_weaken;
              [apply (mem_write_modifies _ _ _ 4); by rewrite length_le_bytes|lia]]).
    apply modifies_refl.
  - unfold obj_bytes. rewrite !bytes_at_app, !length_le_bytes.
    replace (obj + Z.of_nat 4) with (obj + 4) by lia.
    replace (obj + 4 + Z.of_nat 4) with (obj + 8) by lia.
    replace (obj + 8 + Z.of_nat 4) with (obj + 12) by lia.
    replace (obj + 0) with obj by lia.
    split_and!;
      repeat first [ apply mem_write_bytes_at
                   | eapply bytes_at_agree; [apply mem_write_agree; rewrite ?length_le_bytes; lia|] ].
Qed.
End Puts.

(** Side conditions of buffer accesses. *)
Ltac in_buf := solve [lia | eapply mapped_sub; [eassumption|lia..]].

(** The memory effect of a put that fitted: only the bytes of the item and,
    for an object, the next entry of the offsets table are written. *)
Record put_effect (m m' : memory) (io : binder_io) (it : item) : Prop := {
    pe_frame : forall a, ~ (data io <= a < data io + item_size it) ->
                         ~ (offs io <= a < offs io + 4 * item_objs it) -> m' !! a = m !! a;
    pe_dom : forall a, is_Some (m !! a) -> is_Some (m' !! a);
    pe_item : bytes_at m' (data io) (item_bytes it);
    pe_entry : item_objs it = 1 -> bytes_at m' (offs io) (le_bytes 4 (data io - data0 io));
}.

Definition item_fits (io : binder_io) (it : item) : Prop :=
  item_size it <= data_avail io /\ item_objs it <= offs_avail io.

#[export] Instance item_fits_dec io it : Decision (item_fits io it).
Proof. unfold item_fits. apply _. Defined.

Lemma put_effect_modifies m m' io it lo n :
  bio_bounds io lo n -> item_wf it -> item_fits io it -> put_effect m m' io it ->
  modifies m m' lo n.
Proof.
  intros [] Hwf [] []. pose proof (item_size_pos it Hwf).
  split; [|done]. intros a Ha. apply pe_frame0; lia.
Qed.

(** What was laid out before the put is kept. *)
Lemma put_effect_agree m m' io it lo n q k :
  bio_bounds io lo n -> item_wf it -> item_fits io it -> put_effect m m' io it ->
  (q + k <= offs io \/ (offs io + 4 * item_objs it <= q /\ q + k <= data io) \/ lo + n <= q) ->
  agree m m' q k.
Proof.
  intros [] Hwf [] [] Hq a Ha. pose proof (item_size_pos it Hwf).
  apply pe_frame0; destruct it; cbn [item_objs] in *; lia.
Qed.

Lemma io_after_bytes io it :
  item_objs it = 0 -> io_after it io = bio_advance (item_size it) io.
Proof. intros H. unfold io_after, bio_advance. rewrite H. f_equal; lia. Qed.

Section PutFits.
Context {G D : Type}.
Implicit Types w : world G D.

Lemma put_u32_effect io n w lo k :
  bio_bounds io lo k -> mapped (w_mem w) lo k -> item_fits io (IU32 n) ->
  exists m', bio_put_uint32 io n w = Ok (io_after (IU32 n) io) (set_mem m' w) /\
             put_effect (w_mem w) m' io (IU32 n).
Proof.
  intros B Hm [Hs Ho]. cbn [item_size item_objs] in *. destruct B.
  rewrite put_uint32_fits by in_buf.
  rewrite io_after_bytes by done. eexists. split; [reflexivity|].
  - split; cbn [item_size item_objs item_bytes].
    + intros a Ha _. rewrite mem_write_lookup, length_le_bytes. case_decide; [lia|done].
    + intros a Ha. rewrite mem_write_lookup. case_decide; [|done]. apply lookup_lt_is_Some. lia.
    + apply mem_write_bytes_at.
    + done.
Qed.

(** The allocation and length word shared by the two string functions. *)
Lemma put_string_effect io us w lo k (cp : Z -> C G D unit) :
  bio_bounds io lo k -> mapped (w_mem w) lo k ->
  item_wf (IStr us) -> item_fits io (IStr us) ->
  (forall ptr m1, ptr = data io + 4 ->
     (forall a, ~ (data io <= a < data io + 4) -> m1 !! a = w_mem w !! a) ->
     mapped m1 lo k ->
     cp ptr (set_mem m1 w) = Ok tt (set_mem (mem_write m1 ptr (str_bytes us)) w)) ->
  exists m',
    (io1 ← bio_put_uint32 io (Z.of_nat (length us));
     let '(ptr, io2) := bio_alloc io1 (u32 (u32 (Z.of_nat (length us) + 1) * 2)) in
     (if negb (ptr =? 0) then cp ptr else mret ());; mret io2) w =
    Ok (io_after (IStr us) io) (set_mem m' w) /\
    put_effect (w_mem w) m' io (IStr us).
Proof.
  intros B Hm [Hus Hl] [Hs Ho] Hcp. pose proof (str_align us Hl) as Hal.
  change (MAX_BIO_SIZE / 2) with 536870912 in Hl.
  cbn [item_size item_objs] in *. destruct B.
  erewrite run_bind; [|apply put_uint32_fits; in_buf].
  rewrite (str_size_cast (Z.of_nat (length us))) by lia.
  rewrite bio_alloc_fits by (cbn; lia).
  cbn iota beta. cbn [bio_advance data].
  case_cmp; [lia|]. cbn [negb].
  erewrite run_bind.
  2: { apply Hcp; [done|..].
       - intros a Ha. rewrite mem_write_lookup, length_le_bytes. case_decide; [lia|done].
       - by apply mem_write_mapped. }
  assert (forall a, bio_advance a (bio_advance 4 io) = bio_advance (4 + a) io) as ->.
  { intros a. unfold bio_advance. cbn. f_equal; lia. }
  rewrite (io_after_bytes io (IStr us)) by done.
  eexists. split; [reflexivity|split; cbn [item_size item_objs item_bytes]].
  - intros a Ha _. rewrite !mem_write_lookup, length_le_bytes, length_str_bytes.
    case_decide; [lia|]. case_decide; [lia|done].
  - intros a Ha. rewrite !mem_write_lookup. case_decide; [apply lookup_lt_is_Some; lia|].
    case_decide; [apply lookup_lt_is_Some; lia|done].
  - apply bytes_at_app. rewrite length_le_bytes. split.
    + eapply bytes_at_agree; [apply mem_write_agree; rewrite length_le_bytes; lia|].
      apply mem_write_bytes_at.
    + apply mem_write_bytes_at.
  - done.
Qed.
End PutFits.

Section PutObjects.
Context {G D : Type}.
Implicit Types w : world G D.

(** [bio_alloc_obj] when both the data and the table have room. *)
Lemma alloc_obj_fits io w lo n :
  bio_bounds io lo n -> mapped (w_mem w) lo n -> 16 <= data_avail io -> 1 <= offs_avail io ->
  bio_alloc_obj io w =
  Ok (data io, bio_take_offs (bio_advance 16 io))
     (set_mem (mem_write (w_mem w) (offs io) (le_bytes 4 (data io - data0 io))) w).
Proof.
  intros B Hm Hs Ho. unfold bio_alloc_obj. rewrite bio_alloc_fits, align4_16 by (rewrite align4_16; lia).
  cbn iota beta. rewrite (bio_data_pos _ _ _ B). cbn [bio_advance offs_avail offs data0].
  destruct B. case_cmp; [lia|]. cbn [negb andb].
  rewrite u32_small by lia.
  erewrite run_bind; [|apply run_store; in_buf]. done.
Qed.

Lemma put_obj_effect io type val w lo n :
  bio_bounds io lo n -> mapped (w_mem w) lo n ->
  item_fits io (IObj type val) ->
  exists m', ('(obj, io1) ← bio_alloc_obj io;
              if obj =? 0 then mret io1 else put_flat_object obj type val;; mret io1) w =
             Ok (io_after (IObj type val) io) (set_mem m' w) /\
             put_effect (w_mem w) m' io (IObj type val).
Proof.
  intros B Hm [Hs Ho]. cbn in Hs, Ho. unfold flat_binder_object.sizeof in Hs.
  erewrite run_bind by (by eapply alloc_obj_fits). cbn iota beta.
  rewrite (bio_data_pos _ _ _ B). destruct B.
  set (m1 := mem_write _ _ _).
  destruct (put_flat_object_run (data io) type val (set_mem m1 w)) as (m' & R & [Hf Hd] & Hb).
  { apply mem_write_mapped. in_buf. }
  erewrite run_bind by exact R. rewrite w_mem_set_mem in *.
  exists m'. split; [|split; cbn [item_size item_objs item_bytes]].
  - unfold mret, C_ret, bio_take_offs, bio_advance, io_after. cbn.
    unfold flat_binder_object.sizeof. rewrite Z.mul_1_r. done.
  - unfold flat_binder_object.sizeof. intros a Ha1 Ha2. rewrite Hf by lia.
    subst m1. rewrite mem_write_lookup, length_le_bytes. case_decide; [lia|done].
  - intros a Ha. apply Hd. subst m1. rewrite mem_write_lookup. case_decide; [|done].
    apply lookup_lt_is_Some. lia.
  - done.
  - intros _. eapply bytes_at_agree; [|apply mem_write_bytes_at].
    intros a Ha. rewrite length_le_bytes in Ha. apply Hf. lia.
Qed.

Lemma put_obj0_effect io type val w lo n :
  bio_bounds io lo n -> mapped (w_mem w) lo n ->
  item_fits io (IObj0 type val) ->
  exists m', ('(obj, io1) ← mret (bio_alloc io flat_binder_object.sizeof);
              if obj =? 0 then mret io1 else put_flat_object obj type val;; mret io1) w =
             Ok (io_after (IObj0 type val) io) (set_mem m' w) /\
             put_effect (w_mem w) m' io (IObj0 type val).
Proof.
  intros B Hm [Hs Ho]. cbn in Hs, Ho. unfold flat_binder_object.sizeof in Hs.
  erewrite run_bind by reflexivity.
  rewrite bio_alloc_fits, align4_16 by (rewrite align4_16; lia). cbn iota beta.
  rewrite (bio_data_pos _ _ _ B). destruct B.
  destruct (put_flat_object_run (data io) type val w) as (m' & R & [Hf Hd] & Hb); [in_buf|].
  erewrite run_bind by exact R.
  exists m'. split; [|split; cbn [item_size item_objs item_bytes]].
  - rewrite io_after_bytes by done. done.
  - unfold flat_binder_object.sizeof. intros a Ha1 Ha2. by apply Hf.
  - done.
  - done.
  - done.
Qed.
End PutObjects.

Section RunPut.
Context {G D : Type}.
Implicit Types w : world G D.

(** The puts that write a word: that of a string that is not copied. *)
Definition word_of (op : put) : option Z :=
  match op with
  | PutU32 n => Some n
  | PutNull16 | PutNull8 | PutLong16 _ _ | PutLong8 _ _ => Some 4294967295
  | _ => None
  end.

Lemma run_put_word op n io w lo k :
  word_of op = Some n -> put_src (w_mem w) lo k op ->
  run_put op io w = bio_put_uint32 io n w /\ put_item op = IU32 n.
Proof.
  destruct op as [v|src us|src cs| | |src us|src cs|h|p]; intros [= <-] Hsrc; try done; (split; [|done]);
    cbn [run_put]; destruct Hsrc as [(Hnz & Hc & _) Hl].
  - unfold bio_put_string16. case_cmp; [done|]. erewrite run_bind by (by apply strlen16_run).
    rewrite (proj2 (Z.leb_le _ _) Hl). done.
  - unfold bio_put_string16_x. case_cmp; [done|]. erewrite run_bind by (by apply strlen_run).
    rewrite (proj2 (Z.leb_le _ _) Hl). done.
Qed.

(** Every put that fits returns, advances the cursor by the size of its
    item and has exactly the memory effect of that item. *)
Lemma run_put_fits op io w lo n :
  bio_bounds io lo n -> mapped (w_mem w) lo n ->
  put_src (w_mem w) lo n op -> item_wf (put_item op) -> item_fits io (put_item op) ->
  exists m', run_put op io w = Ok (io_after (put_item op) io) (set_mem m' w) /\
             put_effect (w_mem w) m' io (put_item op).
Proof.
  intros B Hm Hsrc Hwf Hfit. destruct (word_of op) as [v|] eqn:Ew.
  { destruct (run_put_word op v io w lo n Ew Hsrc) as [-> Ei]. rewrite Ei in *. by eapply put_u32_effect. }
  destruct op as [v|src us|src cs| | |src us|src cs|h|p]; try done; clear Ew; cbn [run_put put_item] in *.
  - destruct Hsrc as (Hnz & Hc & Hdisj). pose proof Hwf as [_ Hl].
    unfold bio_put_string16. case_cmp; [done|].
    erewrite run_bind by (by apply strlen16_run).
    destruct (Z.leb_spec (MAX_BIO_SIZE / 2) (Z.of_nat (length us))) as [?|_]; [lia|].
    change (MAX_BIO_SIZE / 2) with 536870912 in Hl.
    rewrite (u32_small (Z.of_nat (length us))) by lia.
    apply (put_string_effect io us w lo n
             (fun ptr => memcpy ptr src (u32 (u32 (Z.of_nat (length us) + 1) * 2)))); try done.
    intros ptr m1 -> Hm1 Hmap. destruct Hc as [Hc _]. destruct Hfit as [Hfit _].
    cbn [item_size] in Hfit. pose proof (str_align us (proj2 Hwf)). destruct B.
    rewrite str_size_cast by lia. unfold memcpy. erewrite run_bind.
    2: { apply run_load_bytes. rewrite w_mem_set_mem.
         replace (Z.to_nat (2 * (Z.of_nat (length us) + 1))) with (length (str_bytes us))
           by (rewrite length_str_bytes; lia).
         eapply bytes_at_agree; [|exact Hc].
         intros a Ha. rewrite length_str_bytes in Ha. apply Hm1. lia. }
    rewrite run_store_bytes; [done|].
    rewrite length_str_bytes, w_mem_set_mem. in_buf.
  - destruct Hsrc as (Hnz & Hc & Hdisj). pose proof Hwf as [_ Hl]. rewrite length_fmap in Hl.
    unfold bio_put_string16_x. case_cmp; [done|].
    erewrite run_bind by (by apply strlen_run).
    destruct (Z.leb_spec (MAX_BIO_SIZE / 2) (Z.of_nat (length cs))) as [?|_]; [lia|].
    destruct (put_string_effect io (byte_val <$> cs) w lo n (fun ptr => widen src ptr))
      as (m' & R & E); try done.
    { intros ptr m1 -> Hm1 Hmap. destruct Hfit as [Hfit _].
      cbn [item_size] in Hfit. pose proof (str_align _ (proj2 Hwf)) as Hal.
      rewrite length_fmap in *. destruct B, Hc as [Hc Hnul].
      assert (bytes_at m1 src (cs ++ [x00])) as Hc1.
      { eapply bytes_at_agree; [|exact Hc].
        intros a Ha. rewrite length_app in Ha. cbn [length] in Ha. apply Hm1. lia. }
      unfold widen. rewrite (widen_loop_run _ _ _ _ cs); [done|..].
      - unfold scan_fuel. apply bytes_at_length_size in Hc1.
        rewrite length_app in Hc1. simpl in Hc1 |- *. lia.
      - done.
      - rewrite w_mem_set_mem. in_buf.
      - lia. }
    exists m'. split; [|done]. rewrite <- R. rewrite length_fmap.
    unfold mbind, C_bind. destruct (bio_put_uint32 _ _ _) as [io1 w1|]; [|done].
    destruct (bio_alloc _ _) as [ptr io2]. by destruct (ptr =? 0).
  - unfold bio_put_ref. destruct (Z.eqb_spec h 0) as [->|Hh]; cbn [negb].
    + by eapply put_obj0_effect.
    + by eapply put_obj_effect.
  - by eapply put_obj_effect.
Qed.
End RunPut.

(** ** Sequences of puts *)

Fixpoint run_puts {G D} (ops : list put) (io : binder_io) : C G D binder_io :=
  match ops with
  | [] => mret io
  | op :: ops => io ← run_put op io; run_puts ops io
  end.

(** The buffer [lo, lo+n) with [k] reserved offsets holds exactly the items
    [its] and the cursor stands after them. *)
Record bio_writes (m : memory) (io : binder_io) (lo n k : Z) (its : list item) : Prop := {
    bw_bounds : bio_bounds io lo n;
    bw_mapped : mapped m lo n;
    bw_wf : Forall item_wf its;
    bw_offs0 : offs0 io = lo;
    bw_data0 : data0 io = lo + 4 * k;
    bw_data : data io = data0 io + items_size its;
    bw_offs : offs io = lo + 4 * items_objs its;
    bw_avail : data io + data_avail io = lo + n;
    bw_offs_avail : offs_avail io = k - items_objs its;
    bw_flags : flags io = 0;
    bw_parcel : parcel_at m (data0 io) its;
    bw_table : bytes_at m lo (u32s_bytes (item_offsets 0 its));
}.

Lemma bio_init_fits io dat n k :
  0 <= k -> 4 * k <= n -> n < 4294967296 ->
  bio_init io dat n k = mkBio (dat + 4 * k) dat (n - 4 * k) k (dat + 4 * k) dat 0 (unused io).
Proof.
  intros Hk Hn Hb. unfold bio_init. rewrite u32_small by lia.
  case_cmp; [lia|]. by rewrite (Z.mul_comm k 4).
Qed.

Lemma bio_init_writes m io lo n k :
  0 < lo -> 0 <= k -> 4 * k <= n -> lo + n < 4294967296 -> mapped m lo n ->
  bio_writes m (bio_init io lo n k) lo n k [].
Proof.
  intros. rewrite bio_init_fits by lia.
  split; cbn; try done; try lia.
  split; cbn; lia.
Qed.

Lemma item_offsets_snoc its it :
  item_offsets 0 (its ++ [it]) =
  item_offsets 0 its ++ (if item_objs it =? 1 then [items_size its] else []).
Proof. rewrite item_offsets_app. by destruct it. Qed.

Lemma item_objs_01 it : item_objs it = 0 \/ item_objs it = 1.
Proof. destruct it; auto. Qed.

Lemma item_offsets_objs it : Z.of_nat (length (item_offsets 0 it)) = items_objs it.
Proof. apply length_item_offsets. Qed.

Lemma items_objs_nonneg its : 0 <= items_objs its.
Proof. rewrite <- (length_item_offsets 0). lia. Qed.

(** One put that fits extends the written items. *)
Lemma bio_writes_step m m' io lo n k its it :
  bio_writes m io lo n k its -> item_wf it -> item_fits io it -> put_effect m m' io it ->
  bio_writes m' (io_after it io) lo n k (its ++ [it]).
Proof.
  intros W Hwf Hfit E.
  pose proof (put_effect_modifies _ _ _ _ _ _ (bw_bounds _ _ _ _ _ _ W) Hwf Hfit E) as Hmod.
  pose proof (put_effect_agree m m' io it lo n) as Hag.
  destruct W as [B Hm Hits Ho0 Hd0 Hd Ho Ha Hoa Hf Hp Ht].
  pose proof (item_size_pos it Hwf). pose proof (item_objs_01 it).
  pose proof (items_size_nonneg its Hits). pose proof (items_objs_nonneg its).
  destruct Hfit as [Hs Hob]. pose proof B as [].
  split; cbn [io_after offs0 data0 data offs data_avail offs_avail flags]; try done.
  - split; cbn [io_after offs0 data0 data offs data_avail offs_avail flags]; lia.
  - eapply modifies_mapped; done.
  - by apply Forall_app_2; [|apply Forall_singleton].
  - rewrite items_size_app, Hd. cbn. lia.
  - rewrite items_objs_app, Ho. cbn. lia.
  - lia.
  - rewrite items_objs_app, Hoa. cbn. lia.
  - apply parcel_at_snoc. split.
    + eapply parcel_at_agree; [done| |exact Hp]. apply Hag; try done. lia.
    + rewrite <- Hd. apply E.
  - rewrite item_offsets_snoc. destruct (Z.eqb_spec (item_objs it) 1) as [E1|E1].
    + rewrite u32s_bytes_snoc. apply bytes_at_app. split.
      * eapply bytes_at_agree; [|exact Ht].
        rewrite length_u32s_bytes. pose proof (length_item_offsets 0 its).
        apply Hag; try done. lia.
      * rewrite length_u32s_bytes. pose proof (length_item_offsets 0 its).
        replace (lo + Z.of_nat (4 * length (item_offsets 0 its))) with (offs io) by lia.
        replace (items_size its) with (data io - data0 io) by lia. by apply E.
    + rewrite app_nil_r. eapply bytes_at_agree; [|exact Ht].
      rewrite length_u32s_bytes. pose proof (length_item_offsets 0 its).
      apply Hag; try done. lia.
Qed.

Lemma cstr_src_agree m m' lo n op :
  modifies m m' lo n -> put_src m lo n op -> put_src m' lo n op.
Proof.
  intros Hmod.
  assert (forall p bs, p + Z.of_nat (length bs) <= lo \/ lo + n <= p -> bytes_at m p bs -> bytes_at m' p bs) as Hb.
  { intros p bs Hp Hb. eapply bytes_at_agree; [|exact Hb]. by eapply modifies_agree. }
  destruct op as [v|src us|src cs| | |src us|src cs|h|p]; cbn; try done.
  1, 2: intros (Hnz & [H Hu] & Hd).
  3, 4: intros [(Hnz & [H Hu] & Hd) Hl]; split; [|done].
  all: split_and!; try done; split; [|done]; apply Hb; [|exact H];
    rewrite ?length_u16s_bytes, length_app; simpl; lia.
Qed.

Section RunPuts.
Context {G D : Type}.
Implicit Types w : world G D.

(** A sequence of puts whose items fit writes them all, without fault and
    without touching memory outside the buffer. *)
Lemma run_puts_fits ops io w lo n k its :
  bio_writes (w_mem w) io lo n k its ->
  Forall (put_src (w_mem w) lo n) ops -> Forall (fun op => item_wf (put_item op)) ops ->
  items_size its + items_size (put_item <$> ops) <= n - 4 * k ->
  items_objs its + items_objs (put_item <$> ops) <= k ->
  exists io' m', run_puts ops io w = Ok io' (set_mem m' w) /\
                 bio_writes m' io' lo n k (its ++ (put_item <$> ops)) /\
                 modifies (w_mem w) m' lo n.
Proof.
  revert io w its; induction ops as [|op ops IH]; intros io w its W Hsrc Hwf Hs Ho.
  - exists io, (w_mem w). cbn [run_puts fmap list_fmap]. rewrite app_nil_r. by destruct w.
  - rewrite fmap_cons in *. rewrite items_size_cons in Hs. rewrite items_objs_cons in Ho.
    apply Forall_cons in Hsrc as [Hsrc Hsrcs]. apply Forall_cons in Hwf as [Hwf Hwfs].
    pose proof W as [B Hm Hits Ho0 Hd0 Hd Hof Ha Hoa Hf Hp Ht].
    assert (Forall item_wf (put_item <$> ops)) as Hwfs' by by apply Forall_fmap.
    pose proof (items_size_nonneg _ Hwfs'). pose proof (items_objs_nonneg (put_item <$> ops)).
    assert (item_fits io (put_item op)) as Hfit by (split; lia).
    destruct (run_put_fits op io w lo n) as (m1 & R & E); try done.
    pose proof (put_effect_modifies _ _ _ _ _ _ B Hwf Hfit E) as Hmod.
    cbn [run_puts]. erewrite run_bind by exact R.
    destruct (IH (io_after (put_item op) io) (set_mem m1 w) (its ++ [put_item op]))
      as (io' & m' & R' & W' & Hmod'); rewrite ?w_mem_set_mem in *.
    + by eapply bio_writes_step.
    + eapply Forall_impl; [exact Hsrcs|]. intros o. by apply cstr_src_agree.
    + done.
    + rewrite items_size_app, items_size_cons. cbn [items_size foldr]. lia.
    + rewrite items_objs_app, items_objs_cons. cbn [items_objs foldr]. lia.
    + exists io', m'. rewrite R', set_mem_set_mem.
      rewrite <- app_assoc in W'. split_and!; try done. by eapply modifies_trans.
Qed.
End RunPuts.

(** ** Transactions in memory *)

(** The fields of a [struct binder_transaction_data]. *)
Record txn_data : Type := mkTxn {
    t_target : Z;
    t_cookie : Z;
    t_code : Z;
    t_flags : Z;
    t_sender_pid : Z;
    t_sender_euid : Z;
    t_data_size : Z;
    t_offsets_size : Z;
    t_buffer : Z;
    t_offsets : Z;
}.

Definition txn_fields (t : txn_data) : list Z :=
  [t_target t; t_cookie t; t_code t; t_flags t; t_sender_pid t; t_sender_euid t;
   t_data_size t; t_offsets_size t; t_buffer t; t_offsets t].

Definition txn_bytes (t : txn_data) : list byte := u32s_bytes (txn_fields t).

Definition txn_wf (t : txn_data) : Prop := Forall (fun v => 0 <= v < 4294967296) (txn_fields t).

Definition txn_at (m : memory) (p : Z) (t : txn_data) : Prop :=
  bytes_at m p (txn_bytes t) /\ txn_wf t.

Section Txn.
Context {G D : Type}.
Implicit Types w : world G D.

(** Loading the field number [i]. *)
Lemma txn_load w p t i v :
  txn_at (w_mem w) p t -> txn_fields t !! i = Some v ->
  load 4 (p + 4 * Z.of_nat i) w = Ok v w.
Proof.
  intros [H Hwf] Hi.
  erewrite run_load by (eapply bytes_at_u32; done).
  rewrite le_val_bytes_4; [done|]. unfold txn_wf in Hwf. rewrite Forall_lookup in Hwf. eauto.
Qed.

Lemma bio_init_from_txn_run io w p t :
  txn_at (w_mem w) p t ->
  bio_init_from_txn io p w =
  Ok (mkBio (t_buffer t) (t_offsets t) (t_data_size t) (t_offsets_size t / 4)
            (t_buffer t) (t_offsets t) BIO_F_SHARED (unused io)) w.
Proof.
  intros H. unfold bio_init_from_txn.
  erewrite run_bind by exact (txn_load w p t 8 _ H eq_refl).
  erewrite run_bind by exact (txn_load w p t 9 _ H eq_refl).
  erewrite run_bind by exact (txn_load w p t 6 _ H eq_refl).
  erewrite run_bind by exact (txn_load w p t 7 _ H eq_refl).
  done.
Qed.
End Txn.

(** ** Reading *)

(** The cursor stands before the items [its], and every object among them is
    found in the offsets table. *)
Record bio_reads (m : memory) (io : binder_io) (its : list item) : Prop := {
    br_parcel : parcel_at m (data io) its;
    br_wf : Forall item_wf its;
    br_avail : items_size its <= data_avail io;
    br_lo : 0 < data0 io <= data io;
    br_hi : data io + data_avail io < 4294967296;
    br_table : exists os, bytes_at m (offs io) (u32s_bytes os) /\
                 Z.of_nat (length os) = offs_avail io /\
                 Forall (fun o => 0 <= o < 4294967296) os /\
                 item_offsets (data io - data0 io) its ⊆ os;
}.

(** The getter that matches an item, and the value it returns. *)
Inductive value : Type :=
  | VU32 (n : Z)
  | VStr (us : list Z)
  | VNull
  | VRef (h : Z).

Inductive getter : Type := GetU32 | GetStr | GetRef.

(** [cnt] consecutive 16-bit units: how a caller reads the array returned by
    [bio_get_string16]. *)
Fixpoint load_u16s {G D} (cnt : nat) (p : Z) : C G D (list Z) :=
  match cnt with
  | O => mret []
  | S cnt => u ← load 2 p; us ← load_u16s cnt (p + 2); mret (u :: us)
  end.

Definition run_get {G D} (g : getter) (io : binder_io) : C G D (value * binder_io) :=
  match g with
  | GetU32 => '(n, io) ← bio_get_uint32 io; mret (VU32 n, io)
  | GetStr =>
      '(ptr, len, io) ← bio_get_string16 io;
      if ptr =? 0 then mret (VNull, io)
      else us ← load_u16s (Z.to_nat len) ptr; mret (VStr us, io)
  | GetRef => '(h, io) ← bio_get_ref io; mret (VRef h, io)
  end.

Fixpoint run_gets {G D} (gs : list getter) (io : binder_io) : C G D (list value * binder_io) :=
  match gs with
  | [] => mret ([], io)
  | g :: gs =>
      '(v, io) ← run_get g io;
      '(vs, io) ← run_gets gs io;
      mret (v :: vs, io)
  end.

Definition item_getter (it : item) : getter :=
  match it with IU32 _ => GetU32 | IStr _ => GetStr | IObj _ _ | IObj0 _ _ => GetRef end.

Definition item_value (it : item) : value :=
  match it with
  | IU32 n => VU32 n
  | IStr us => VStr us
  | IObj type val => VRef (if type =? BINDER_TYPE_HANDLE then val else 0)
  | IObj0 _ _ => VRef 0
  end.

Lemma bio_get_fits io size :
  align4 size <= data_avail io -> bio_get io size = (data io, bio_advance (align4 size) io).
Proof. unfold bio_get. intros. case_cmp; [lia|done]. Qed.

Lemma bio_get_full io size :
  data_avail io < align4 size -> bio_get io size = (0, bio_exhaust io).
Proof. unfold bio_get. intros. case_cmp; [done|lia]. Qed.

Lemma bio_reads_step m io it its :
  bio_reads m io (it :: its) -> bio_reads m (bio_advance (item_size it) io) its.
Proof.
  intros [[Hb Hp] Hwf Ha Hlo Hhi (os & Ht & Hl & Hos & Hin)].
  rewrite items_size_cons in Ha.
  apply Forall_cons in Hwf as [Hit Hwf]. pose proof (item_size_pos it Hit).
  split; cbn [bio_advance data data0 data_avail offs offs_avail]; try done; try lia.
  exists os. split_and!; try done.
  replace (data io + item_size it - data0 io) with (data io - data0 io + item_size it) by lia.
  intros o Ho'. apply Hin. destruct it; cbn [item_offsets item_size] in *; done || by right.
Qed.

Lemma parcel_at_copied m0 p0 m p n o its :
  Forall item_wf its -> copied m0 p0 m p n -> 0 <= o -> o + items_size its <= n ->
  parcel_at m0 (p0 + o) its -> parcel_at m (p + o) its.
Proof.
  intros Hwf Hc. revert o; induction Hwf as [|it its Hit Hits IH]; intros o Ho Hn; [done|].
  rewrite items_size_cons in Hn. cbn [parcel_at].
  pose proof (item_size_bytes it Hit). pose proof (items_size_nonneg its Hits).
  pose proof (item_size_pos it Hit).
  intros [Hb1 Hb2]. split.
  - eapply bytes_at_copied; [exact Hc|lia|lia|done].
  - rewrite <- Z.add_assoc. apply IH; [lia..|]. by rewrite Z.add_assoc.
Qed.

Lemma item_offsets_bounds o its :
  Forall item_wf its -> 0 <= o ->
  Forall (fun x => o <= x /\ x < o + items_size its) (item_offsets o its).
Proof.
  intros Hwf. revert o; induction Hwf as [|it its Hit Hits IH]; intros o Ho; [constructor|].
  rewrite items_size_cons. pose proof (item_size_pos it Hit).
  pose proof (items_size_nonneg its Hits).
  assert (Forall (fun x => o <= x /\ x < o + (item_size it + items_size its))
            (item_offsets (o + item_size it) its)) as Hr.
  { eapply Forall_impl; [apply IH; lia|]. cbn. lia. }
  destruct it; cbn [item_offsets]; try exact Hr. constructor; [lia|exact Hr].
Qed.

(** The receiver's cursor over a copy of what a writer produced. *)
Lemma bio_writes_reads m io lo n k its m2 rd :
  bio_writes m io lo n k its ->
  copied m (data0 io) m2 (data rd) (data io - data0 io) ->
  copied m (offs0 io) m2 (offs rd) (offs io - offs0 io) ->
  data0 rd = data rd -> 0 < data rd -> data rd + data_avail rd < 4294967296 ->
  data_avail rd = data io - data0 io -> offs_avail rd = (offs io - offs0 io) / 4 ->
  bio_reads m2 rd its.
Proof.
  intros [[] Hm Hits Ho0 Hd0 Hd Ho Ha Hoa Hf Hp Ht] Hc1 Hc2 E0 Hpos Hhi Eda Eoa.
  pose proof (items_objs_nonneg its).
  split; try done; try lia.
  - rewrite <- (Z.add_0_r (data rd)). eapply parcel_at_copied; [done|exact Hc1|lia|lia|].
    by rewrite Z.add_0_r.
  - exists (item_offsets 0 its). pose proof (length_item_offsets 0 its). split_and!.
    + rewrite <- (Z.add_0_r (offs rd)). eapply bytes_at_copied; [exact Hc2|lia|..].
      * rewrite length_u32s_bytes. lia.
      * by rewrite Z.add_0_r, Ho0.
    + rewrite Eoa. replace (offs io - offs0 io) with (items_objs its * 4) by lia.
      rewrite Z.div_mul; lia.
    + eapply Forall_impl; [apply item_offsets_bounds; [done|lia]|]. cbn. lia.
    + by rewrite E0, Z.sub_diag.
Qed.

Section Gets.
Context {G D : Type}.
Implicit Types w : world G D.

Lemma load_u16s_run w p us vs :
  bytes_at (w_mem w) p (u16s_bytes (us ++ vs)) -> Forall (fun u => 0 <= u < 65536) us ->
  load_u16s (length us) p w = Ok us w.
Proof.
  revert p; induction us as [|u us IH]; intros p H Hu; [done|].
  apply Forall_cons in Hu as [Hu Hus].
  cbn [length load_u16s]. change ((u :: us) ++ vs) with ([u] ++ (us ++ vs)) in H.
  rewrite u16s_bytes_app in H. apply bytes_at_app in H as [H1 H2].
  change (u16s_bytes [u]) with (le_bytes 2 u) in *.
  erewrite run_bind; [|apply run_load; exact H1].
  erewrite run_bind; [|apply IH; [exact H2|done]].
  by rewrite le_val_bytes_2.
Qed.

Lemma get_uint32_run w io n its :
  bio_reads (w_mem w) io (IU32 n :: its) ->
  bio_get_uint32 io w = Ok (n, bio_advance 4 io) w.
Proof.
  intros [[Hb _] Hwf Ha Hlo _ _]. apply Forall_cons in Hwf as [Hn Hits].
  rewrite items_size_cons in Ha. pose proof (items_size_nonneg _ Hits). cbn [item_size] in Ha.
  unfold bio_get_uint32. rewrite bio_get_fits, align4_4 by (rewrite align4_4; lia).
  cbn iota beta. case_cmp; [lia|]. cbn [negb].
  erewrite run_bind; [|apply run_load; exact Hb].
  cbn [item_bytes]. by rewrite le_val_bytes_4.
Qed.

(** The string getter returns a pointer to the units and their number. *)
Lemma get_string16_run w io us its :
  bio_reads (w_mem w) io (IStr us :: its) ->
  bio_get_string16 io w =
    Ok (data io + 4, Z.of_nat (length us), bio_advance (item_size (IStr us)) io) w /\
  bytes_at (w_mem w) (data io + 4) (str_bytes us).
Proof.
  intros [[Hb _] Hwf Ha Hlo Hhi _]. apply Forall_cons in Hwf as [[Hus Hl] Hits].
  rewrite items_size_cons in Ha. pose proof (items_size_nonneg _ Hits).
  pose proof (str_align us Hl) as Hal. change (MAX_BIO_SIZE / 2) with 536870912 in Hl.
  cbn [item_size item_bytes] in *. apply bytes_at_app in Hb as [H1 H2].
  split; [|exact H2].
  unfold bio_get_string16, bio_get_uint32.
  rewrite bio_get_fits, align4_4 by (rewrite align4_4; lia).
  cbn iota beta. case_cmp; [lia|]. cbn [negb].
  erewrite run_bind.
  2: { erewrite run_bind; [|apply run_load; exact H1]. reflexivity. }
  rewrite le_val_bytes_4 by lia. cbn iota beta.
  rewrite (str_size_cast (Z.of_nat (length us))) by lia.
  rewrite bio_get_fits by (cbn; lia). cbn iota beta. unfold mret, C_ret.
  do 2 f_equal. unfold bio_advance; cbn. f_equal; lia.
Qed.

Lemma find_offset_run w base os n off :
  bytes_at (w_mem w) (base + 4 * n) (u32s_bytes os) ->
  Forall (fun o => 0 <= o < 4294967296) os ->
  find_offset (length os) n base off w = Ok (bool_decide (off ∈ os)) w.
Proof.
  revert n; induction os as [|o os IH]; intros n H Hos; [done|].
  apply Forall_cons in Hos as [Ho Hos].
  change (u32s_bytes (o :: os)) with (le_bytes 4 o ++ u32s_bytes os) in H.
  apply bytes_at_app in H as [H1 H2]. cbn [length find_offset].
  erewrite run_bind; [|apply run_load; exact H1]. rewrite le_val_bytes_4 by done.
  destruct (Z.eqb_spec o off) as [->|Hne].
  - rewrite bool_decide_eq_true_2 by left. done.
  - rewrite (IH (n + 1)); [|rewrite length_le_bytes in H2|done].
    2: { replace (base + 4 * (n + 1)) with (base + 4 * n + Z.of_nat 4) by lia. exact H2. }
    do 2 f_equal. apply bool_decide_ext. rewrite elem_of_cons.
    split; [by right|]. by intros [->|?].
Qed.

Lemma load_obj_field w p type val i v :
  bytes_at (w_mem w) p (obj_bytes type val) ->
  [type; Z.lor 127 FLAT_BINDER_FLAG_ACCEPTS_FDS; val; 0] !! i = Some v ->
  0 <= v < 4294967296 ->
  load 4 (p + 4 * Z.of_nat i) w = Ok v w.
Proof.
  intros H Hi Hv.
  assert (bytes_at (w_mem w) p
            (u32s_bytes [type; Z.lor 127 FLAT_BINDER_FLAG_ACCEPTS_FDS; val; 0])) as H' by exact H.
  erewrite run_load by (eapply bytes_at_u32; done). by rewrite le_val_bytes_4.
Qed.

(** An object entered in the table: a handle is returned, a local binder
    object reads as 0. *)
Lemma get_ref_run w io type val its :
  bio_reads (w_mem w) io (IObj type val :: its) ->
  bio_get_ref io w =
  Ok ((if type =? BINDER_TYPE_HANDLE then val else 0), bio_advance 16 io) w.
Proof.
  intros [[Hb _] Hwf Ha Hlo Hhi (os & Ht & Hl & Hos & Hin)].
  apply Forall_cons in Hwf as [[Hty Hval] Hits].
  rewrite items_size_cons in Ha. pose proof (items_size_nonneg _ Hits).
  cbn [item_size item_bytes item_offsets] in *. unfold flat_binder_object.sizeof in *.
  unfold bio_get_ref, _bio_get_obj. rewrite u32_small by lia.
  rewrite <- Hl, Nat2Z.id.
  erewrite run_bind.
  2: { erewrite run_bind; [|apply find_offset_run; [|done]; by rewrite Z.add_0_r].
       rewrite bool_decide_eq_true_2 by (apply Hin; left). reflexivity. }
  rewrite bio_get_fits, align4_16 by (rewrite align4_16; lia). cbn iota beta.
  case_cmp; [lia|].
  erewrite run_bind by exact (load_obj_field w _ _ _ 0 _ Hb eq_refl Hty).
  destruct (type =? BINDER_TYPE_HANDLE); [|done].
  by erewrite run_bind by exact (load_obj_field w _ _ _ 2 _ Hb eq_refl Hval).
Qed.

(** An object that is not in the table reads as 0 and exhausts the cursor. *)
Lemma get_ref_missing w io os :
  bytes_at (w_mem w) (offs io) (u32s_bytes os) -> Z.of_nat (length os) = offs_avail io ->
  Forall (fun o => 0 <= o < 4294967296) os -> u32 (data io - data0 io) ∉ os ->
  bio_get_ref io w = Ok (0, bio_exhaust io) w.
Proof.
  intros Ht Hl Hos Hin. unfold bio_get_ref, _bio_get_obj.
  rewrite <- Hl, Nat2Z.id.
  erewrite run_bind.
  2: { erewrite run_bind; [|apply find_offset_run; [|done]; by rewrite Z.add_0_r].
       rewrite bool_decide_eq_false_2 by done. reflexivity. }
  done.
Qed.

Definition no_obj0 (it : item) : bool := match it with IObj0 _ _ => false | _ => true end.

Lemma run_get_reads w io it its :
  bio_reads (w_mem w) io (it :: its) -> no_obj0 it ->
  run_get (item_getter it) io w = Ok (item_value it, bio_advance (item_size it) io) w.
Proof.
  intros R Hno. destruct it as [n|us|ty v|ty v]; cbn [item_getter run_get item_value]; [..|done].
  - erewrite run_bind by by eapply get_uint32_run. done.
  - destruct (get_string16_run _ _ _ _ R) as [E Hb].
    erewrite run_bind by exact E. cbn iota beta.
    destruct R as [_ Hwf _ Hlo _ _]. apply Forall_cons in Hwf as [[Hus _] _].
    case_cmp; [lia|]. rewrite Nat2Z.id.
    by erewrite run_bind by (by eapply load_u16s_run).
  - by erewrite run_bind by (by eapply get_ref_run).
Qed.

Lemma run_gets_reads w io its :
  bio_reads (w_mem w) io its -> Forall no_obj0 its ->
  run_gets (item_getter <$> its) io w =
  Ok (item_value <$> its, bio_advance (items_size its) io) w.
Proof.
  revert io; induction its as [|it its IH]; intros io R Hno.
  - cbn. unfold bio_advance. rewrite Z.add_0_r, Z.sub_0_r. by destruct io.
  - apply Forall_cons in Hno as [Hno Hnos]. rewrite !fmap_cons. cbn [run_gets].
    erewrite run_bind by (by eapply run_get_reads). cbn iota beta.
    erewrite run_bind by (apply IH; [by eapply bio_reads_step|done]). cbn iota beta.
    rewrite items_size_cons. unfold mret, C_ret, bio_advance. cbn. do 3 f_equal; lia.
Qed.
End Gets.

(** ** Overflow

    A put that does not fit reports it in the flags, never writes outside the
    buffer, and leaves a cursor with which further puts are safe. *)

Definition overflowed (io : binder_io) : Prop := Z.testbit (flags io) 1 = true.

Lemma overflowed_or io f : overflowed io -> overflowed (bio_or_flags f io).
Proof. unfold overflowed, bio_or_flags. cbn [flags]. intros H. by rewrite Z.lor_spec, H. Qed.

Lemma overflowed_set io : overflowed (bio_or_flags BIO_F_OVERFLOW io).
Proof. unfold overflowed, bio_or_flags. cbn [flags]. rewrite Z.lor_spec. apply orb_true_r. Qed.

Lemma overflowed_advance io n : overflowed (bio_advance n io) <-> overflowed io.
Proof. done. Qed.

#[export] Hint Resolve overflowed_or overflowed_set : cint.

(** What every put guarantees, whether or not its item fits. *)
Definition put_safe (m : memory) (io : binder_io) (lo n : Z) (it : item)
    (io' : binder_io) (m' : memory) : Prop :=
  bio_bounds io' lo n /\ modifies m m' lo n /\
  (overflowed io -> overflowed io') /\
  (item_fits io it -> io' = io_after it io) /\
  (~ item_fits io it -> overflowed io').

Section PutSafe.
Context {G D : Type}.
Implicit Types w : world G D.

Lemma put_safe_fits op io w lo n :
  bio_bounds io lo n -> mapped (w_mem w) lo n ->
  put_src (w_mem w) lo n op -> item_wf (put_item op) -> item_fits io (put_item op) ->
  exists io' m', run_put op io w = Ok io' (set_mem m' w) /\
                 put_safe (w_mem w) io lo n (put_item op) io' m'.
Proof.
  intros B Hm Hsrc Hwf Hfit.
  destruct (run_put_fits op io w lo n) as (m' & R & E); try done.
  exists (io_after (put_item op) io), m'. split; [done|].
  pose proof (item_size_pos _ Hwf). pose proof (item_objs_01 (put_item op)).
  split_and!; try done; [|by eapply put_effect_modifies].
  destruct Hfit, B. split; cbn; lia.
Qed.

Lemma put_u32_safe io n w lo k :
  bio_bounds io lo k -> mapped (w_mem w) lo k -> ~ item_fits io (IU32 n) ->
  bio_put_uint32 io n w = Ok (bio_or_flags BIO_F_OVERFLOW io) w.
Proof.
  intros B Hm Hfit. apply put_uint32_full. destruct B.
  destruct (Z.ltb_spec (data_avail io) 4); [done|].
  destruct Hfit. split; cbn; lia.
Qed.

(** A string that does not fit: at most its length word is written. *)
Lemma put_string_overflow io us w lo k (cp : Z -> C G D unit) :
  bio_bounds io lo k -> mapped (w_mem w) lo k ->
  item_wf (IStr us) -> ~ item_fits io (IStr us) ->
  exists io' m',
    (io1 ← bio_put_uint32 io (Z.of_nat (length us));
     let '(ptr, io2) := bio_alloc io1 (u32 (u32 (Z.of_nat (length us) + 1) * 2)) in
     (if negb (ptr =? 0) then cp ptr else mret ());; mret io2) w = Ok io' (set_mem m' w) /\
    put_safe (w_mem w) io lo k (IStr us) io' m' /\
    modifies (w_mem w) m' (data io) (Z.min 4 (data_avail io)).
Proof.
  intros B Hm [Hus Hl] Hfit. pose proof (str_align us Hl) as Hal.
  change (MAX_BIO_SIZE / 2) with 536870912 in Hl. pose proof B as [].
  rewrite str_size_cast by lia.
  assert (data_avail io < 4 + align4 (2 * (Z.of_nat (length us) + 1))) as Hfull.
  { apply Z.nle_gt. intros ?. apply Hfit. split; cbn; lia. }
  destruct (Z.ltb_spec (data_avail io) 4) as [Hlt|Hge].
  - erewrite run_bind by (by apply put_uint32_full). rewrite bio_alloc_full by (cbn; lia).
    exists (bio_or_flags BIO_F_OVERFLOW (bio_or_flags BIO_F_OVERFLOW io)), (w_mem w).
    split; [by destruct w|]. split; [|apply modifies_refl].
    split_and!; [auto with cint|apply modifies_refl|auto with cint|done|auto with cint].
  - erewrite run_bind; [|apply put_uint32_fits; in_buf]. rewrite bio_alloc_full by (cbn; lia).
    eexists (bio_or_flags BIO_F_OVERFLOW (bio_advance 4 io)), _. split; [reflexivity|].
    split; [|apply mem_write_modifies; rewrite length_le_bytes; lia].
    split_and!; [|by eapply modifies_weaken; [apply (mem_write_modifies _ _ _ 4); by rewrite length_le_bytes|lia]
                 |auto with cint|done|auto with cint].
    apply bio_or_flags_bounds, bio_advance_bounds; [done|lia].
Qed.

Lemma alloc_obj_full io w lo n type val :
  bio_bounds io lo n -> ~ item_fits io (IObj type val) ->
  exists io', bio_alloc_obj io w = Ok (0, io') w /\ bio_bounds io' lo n /\ overflowed io'.
Proof.
  intros B Hfit. unfold bio_alloc_obj.
  destruct (Z.ltb_spec (data_avail io) 16).
  - rewrite bio_alloc_full by (rewrite align4_16; lia). cbn iota beta.
    eexists. split; [reflexivity|]. auto with cint.
  - rewrite bio_alloc_fits, align4_16 by (rewrite align4_16; lia). cbn iota beta.
    rewrite (bio_data_pos _ _ _ B). cbn [bio_advance offs_avail].
    destruct (Z.eqb_spec (offs_avail io) 0); cbn [negb andb].
    + eexists. split; [reflexivity|]. split; [|auto with cint].
      apply bio_or_flags_bounds, bio_advance_bounds; [done|lia].
    + destruct Hfit, B. split; cbn; unfold flat_binder_object.sizeof; lia.
Qed.

Lemma run_put_safe op io w lo n :
  bio_bounds io lo n -> mapped (w_mem w) lo n ->
  put_src (w_mem w) lo n op -> item_wf (put_item op) ->
  exists io' m', run_put op io w = Ok io' (set_mem m' w) /\
                 put_safe (w_mem w) io lo n (put_item op) io' m'.
Proof.
  intros B Hm Hsrc Hwf.
  destruct (decide (item_fits io (put_item op))) as [Hfit|Hfit]; [by apply put_safe_fits|].
  destruct (word_of op) as [v|] eqn:Ew.
  { destruct (run_put_word op v io w lo n Ew Hsrc) as [-> Ei]. rewrite Ei in *.
    exists (bio_or_flags BIO_F_OVERFLOW io), (w_mem w).
    rewrite (put_u32_safe _ _ _ lo n) by done. split; [by destruct w|].
    split_and!; [auto with cint|apply modifies_refl|auto with cint|done|auto with cint]. }
  destruct op as [v|src us|src cs| | |src us|src cs|h|p]; try done; clear Ew; cbn [run_put put_item] in *.
  - destruct Hsrc as (Hnz & Hc & _). pose proof Hwf as [_ Hl].
    unfold bio_put_string16. case_cmp; [done|].
    erewrite run_bind by (by apply strlen16_run).
    destruct (Z.leb_spec (MAX_BIO_SIZE / 2) (Z.of_nat (length us))) as [?|_]; [lia|].
    change (MAX_BIO_SIZE / 2) with 536870912 in Hl.
    rewrite (u32_small (Z.of_nat (length us))) by lia.
    destruct (put_string_overflow io us w lo n
                (fun ptr => memcpy ptr src (u32 (u32 (Z.of_nat (length us) + 1) * 2))))
      as (io' & m' & R & S & _); eauto.
  - destruct Hsrc as (Hnz & Hc & _). pose proof Hwf as [_ Hl]. rewrite length_fmap in Hl.
    unfold bio_put_string16_x. case_cmp; [done|].
    erewrite run_bind by (by apply strlen_run).
    destruct (Z.leb_spec (MAX_BIO_SIZE / 2) (Z.of_nat (length cs))) as [?|_]; [lia|].
    destruct (put_string_overflow io (byte_val <$> cs) w lo n (fun ptr => widen src ptr))
      as (io' & m' & R & S & _); try done.
    exists io', m'. split; [|done]. rewrite <- R. rewrite length_fmap.
    unfold mbind, C_bind. destruct (bio_put_uint32 _ _ _) as [io1 w1|]; [|done].
    destruct (bio_alloc _ _) as [ptr io2]. by destruct (ptr =? 0).
  - unfold bio_put_ref. destruct (Z.eqb_spec h 0) as [->|Hh]; cbn [negb].
    + assert (data_avail io < 16) as Hlt.
      { apply Z.nle_gt. intros ?. apply Hfit. destruct B. by split; cbn. }
      erewrite run_bind by reflexivity.
      rewrite bio_alloc_full by (rewrite align4_16; lia). cbn iota beta. cbn [Z.eqb].
      exists (bio_or_flags BIO_F_OVERFLOW io), (w_mem w). split; [by destruct w|].
      split_and!; [auto with cint|apply modifies_refl|auto with cint|done|auto with cint].
    + destruct (alloc_obj_full io w lo n BINDER_TYPE_HANDLE h) as (io' & E & B' & O); try done.
      erewrite run_bind by exact E. exists io', (w_mem w). split; [by destruct w|].
      split_and!; [done|apply modifies_refl|done|done|done].
  - unfold bio_put_obj.
    destruct (alloc_obj_full io w lo n BINDER_TYPE_BINDER p) as (io' & E & B' & O); try done.
    erewrite run_bind by exact E. exists io', (w_mem w). split; [by destruct w|].
    split_and!; [done|apply modifies_refl|done|done|done].
Qed.
End PutSafe.

Section RunPutsSafe.
Context {G D : Type}.
Implicit Types w : world G D.

(** Any sequence of puts is safe; it overflows exactly when the items do
    not fit. *)
Lemma run_puts_safe ops io w lo n :
  bio_bounds io lo n -> mapped (w_mem w) lo n ->
  Forall (put_src (w_mem w) lo n) ops -> Forall (fun op => item_wf (put_item op)) ops ->
  exists io' m', run_puts ops io w = Ok io' (set_mem m' w) /\
    bio_bounds io' lo n /\ modifies (w_mem w) m' lo n /\
    (overflowed io -> overflowed io') /\
    (items_size (put_item <$> ops) <= data_avail io /\
     items_objs (put_item <$> ops) <= offs_avail io -> flags io' = flags io) /\
    (~ (items_size (put_item <$> ops) <= data_avail io /\
        items_objs (put_item <$> ops) <= offs_avail io) -> overflowed io').
Proof.
  revert io w; induction ops as [|op ops IH]; intros io w B Hm Hsrc Hwf.
  - exists io, (w_mem w). cbn [run_puts]. split; [by destruct w|].
    split; [done|]. split; [apply modifies_refl|]. do 2 (split; [done|]).
    intros H. destruct H. destruct B. by split; cbn.
  - apply Forall_cons in Hsrc as [Hsrc Hsrcs]. apply Forall_cons in Hwf as [Hwf Hwfs].
    destruct (run_put_safe op io w lo n) as (io1 & m1 & R & B1 & M1 & S1 & F1 & N1); try done.
    cbn [run_puts]. erewrite run_bind by exact R.
    destruct (IH io1 (set_mem m1 w)) as (io' & m' & R' & B' & M' & S' & F' & N');
      rewrite ?w_mem_set_mem in *; try done.
    { by eapply modifies_mapped. }
    { eapply Forall_impl; [exact Hsrcs|]. intros o. by apply cstr_src_agree. }
    assert (Forall item_wf (put_item <$> ops)) as Hwfs' by by apply Forall_fmap.
    pose proof (items_size_nonneg _ Hwfs'). pose proof (items_objs_nonneg (put_item <$> ops)).
    rewrite fmap_cons, items_size_cons, items_objs_cons.
    exists io', m'. rewrite R', set_mem_set_mem. split_and!; try done.
    + by eapply modifies_trans.
    + auto.
    + intros [Hs Ho]. assert (item_fits io (put_item op)) as Hf by (split; lia).
      rewrite F' by (rewrite (F1 Hf); cbn; lia). by rewrite (F1 Hf).
    + intros Hn. destruct (decide (item_fits io (put_item op))) as [Hf|Hf]; [|auto].
      apply N'. rewrite (F1 Hf). cbn. intros [??]. apply Hn. lia.
Qed.
End RunPutsSafe.

(** ** Reading a message of arbitrary contents *)

(** The cursor stands in a mapped message, with a mapped offsets table;
    nothing is assumed of the bytes. *)
Record bio_in (m : memory) (io : binder_io) : Prop := {
    bi_lo : 0 < data io;
    bi_avail : 0 <= data_avail io;
    bi_hi : data io + data_avail io < 4294967296;
    bi_mapped : mapped m (data io) (data_avail io);
    bi_table : mapped m (offs io) (4 * offs_avail io);
}.

(** A pointer returned by a get is [NULL] or points at [size] bytes of the
    message. *)
Definition in_message (io : binder_io) (ptr size : Z) : Prop :=
  ptr = 0 \/ (data io <= ptr /\ ptr + size <= data io + data_avail io).

Lemma bio_in_advance m io n :
  bio_in m io -> 0 <= n <= data_avail io -> bio_in m (bio_advance n io).
Proof.
  intros [? ? ? Hm ?] ?. split; cbn; try done; try lia. eapply mapped_sub; [exact Hm|lia..].
Qed.

Lemma bio_in_exhaust m io : bio_in m io -> bio_in m (bio_exhaust io).
Proof. intros []. split; cbn; try done; try lia. intros a Ha. lia. Qed.

#[export] Hint Resolve bio_in_advance bio_in_exhaust : cint.

Lemma bio_get_in m io size ptr io' :
  bio_in m io -> bio_get io size = (ptr, io') -> 0 <= align4 size ->
  bio_in m io' /\ in_message io ptr (align4 size) /\ offs_avail io' = offs_avail io /\
  (ptr <> 0 -> io' = bio_advance (align4 size) io /\ ptr = data io).
Proof.
  intros B E Hs. unfold bio_get in E. unfold in_message.
  destruct (Z.ltb_spec (data_avail io) (align4 size)); injection E as <- <-.
  - split_and!; [auto with cint|by left|done|done].
  - split_and!; [apply bio_in_advance; [done|lia]|right; lia|done|done].
Qed.

Lemma align4_nonneg size : 0 <= align4 size.
Proof. rewrite align4_eq. pose proof (u32_range (size + 3)). div_lia. Qed.

Section GetSafe.
Context {G D : Type}.
Implicit Types w : world G D.

Lemma load_mapped w n p :
  mapped (w_mem w) p (Z.of_nat n) ->
  exists v, load n p w = Ok v w /\ 0 <= v < 256 ^ Z.of_nat n.
Proof.
  intros H. destruct (mapped_mem_get _ _ _ H) as (bs & E & L).
  exists (le_val bs). split; [by apply run_load|]. rewrite <- L. apply le_val_range.
Qed.

Lemma get_uint32_safe w io :
  bio_in (w_mem w) io ->
  exists v io', bio_get_uint32 io w = Ok (v, io') w /\ bio_in (w_mem w) io' /\
                0 <= v < 4294967296 /\ data_avail io' <= data_avail io /\
                offs_avail io' = offs_avail io.
Proof.
  intros B. unfold bio_get_uint32.
  destruct (bio_get io 4) as [ptr io'] eqn:E.
  destruct (bio_get_in _ _ _ _ _ B E (align4_nonneg 4)) as (B' & Hin & Ho & Hp).
  rewrite align4_4 in *. destruct (Z.eqb_spec ptr 0) as [->|Hnz]; cbn [negb].
  - exists 0, io'. split; [done|]. split_and!; try done.
    unfold bio_get in E. rewrite align4_4 in E.
    destruct (_ <? _); inversion E; subst; cbn; destruct B; lia.
  - destruct (Hp Hnz) as [-> ->]. destruct Hin as [?|Hin]; [lia|].
    destruct (load_mapped w 4 (data io)) as (v & R & Hv).
    { eapply mapped_sub; [apply (bi_mapped _ _ B)|lia..]. }
    exists v, (bio_advance 4 io). erewrite run_bind by exact R. split_and!; try done; try lia.
    cbn. lia.
Qed.

Lemma get_string16_safe w io :
  bio_in (w_mem w) io ->
  exists ptr len io', bio_get_string16 io w = Ok (ptr, len, io') w /\ bio_in (w_mem w) io' /\
    0 <= len < 4294967296 /\ offs_avail io' = offs_avail io /\
    (ptr <> 0 -> data io <= ptr /\
                 ptr + align4 (u32 (u32 (len + 1) * 2)) <= data io + data_avail io /\
                 mapped (w_mem w) ptr (align4 (u32 (u32 (len + 1) * 2)))).
Proof.
  intros B. unfold bio_get_string16.
  destruct (get_uint32_safe w io B) as (len & io1 & R & B1 & Hl & Ha & Ho).
  erewrite run_bind by exact R. cbn iota beta.
  destruct (bio_get io1 _) as [ptr io'] eqn:E.
  destruct (bio_get_in _ _ _ _ _ B1 E (align4_nonneg _)) as (B' & Hin & Ho' & Hp).
  exists ptr, len, io'. split_and!; try done; try lia.
  intros Hnz. destruct Hin as [?|[H1 H2]]; [done|]. destruct (Hp Hnz) as [-> Eptr].
  assert (data io <= data io1 /\ data io1 + data_avail io1 <= data io + data_avail io) as [? ?].
  { clear - R B. unfold bio_get_uint32 in R.
    destruct (bio_get io 4) as [q io2] eqn:E2. unfold bio_get in E2. rewrite align4_4 in E2.
    assert (io2 = io1) as ->.
    { unfold mbind, C_bind in R. destruct (if negb _ then _ else _); [|done].
      by injection R as _ ->. }
    destruct B. destruct (Z.ltb_spec (data_avail io) 4); inversion E2; subst; cbn; lia. }
  split_and!; [lia|lia|].
  eapply mapped_sub; [apply (bi_mapped _ _ B1)|lia..].
Qed.

Lemma find_offset_safe w cnt n base off :
  0 <= n -> mapped (w_mem w) base (4 * (n + Z.of_nat cnt)) ->
  exists b, find_offset cnt n base off w = Ok b w.
Proof.
  revert n; induction cnt as [|cnt IH]; intros n Hn Hm; [by exists false|].
  cbn [find_offset]. destruct (load_mapped w 4 (base + 4 * n)) as (v & R & _).
  { eapply mapped_sub; [exact Hm|lia..]. }
  erewrite run_bind by exact R. destruct (v =? off); [by exists true|].
  apply IH; [lia|]. eapply mapped_sub; [exact Hm|lia..].
Qed.

Lemma get_ref_safe w io :
  bio_in (w_mem w) io ->
  exists h io', bio_get_ref io w = Ok (h, io') w /\ bio_in (w_mem w) io' /\
                0 <= h < 4294967296 /\ offs_avail io' = offs_avail io.
Proof.
  intros B. unfold bio_get_ref, _bio_get_obj.
  destruct (find_offset_safe w (Z.to_nat (offs_avail io)) 0 (offs io) (u32 (data io - data0 io)))
    as (b & R); [lia| |].
  { destruct (Z.le_gt_cases 0 (offs_avail io)).
    - eapply mapped_sub; [apply (bi_table _ _ B)|lia..].
    - intros a Ha. lia. }
  destruct b.
  - destruct (bio_get io flat_binder_object.sizeof) as [ptr io'] eqn:E.
    erewrite run_bind by (erewrite run_bind by exact R; reflexivity).
    destruct (bio_get_in _ _ _ _ _ B E (align4_nonneg _)) as (B' & Hin & Ho & Hp).
    cbn iota beta. destruct (Z.eqb_spec ptr 0) as [->|Hnz].
    { exists 0, io'. done. }
    destruct Hin as [?|Hin]; [done|]. destruct (Hp Hnz) as [Eio Eptr]. rewrite align4_16 in *.
    assert (forall o, 0 <= o -> o + 4 <= 16 -> exists v, load 4 (ptr + o) w = Ok v w /\ 0 <= v < 4294967296) as L.
    { intros o ??. apply (load_mapped w 4). eapply mapped_sub; [apply (bi_mapped _ _ B)|lia..]. }
    destruct (L flat_binder_object.type) as (ty & R1 & _); [done|done|].
    erewrite run_bind by exact R1. destruct (ty =? BINDER_TYPE_HANDLE); [|by exists 0, io'].
    destruct (L flat_binder_object.handle) as (h & R2 & Hh); [done|done|].
    erewrite run_bind by exact R2. by exists h, io'.
  - erewrite run_bind by (erewrite run_bind by exact R; reflexivity).
    exists 0, (bio_exhaust io). split_and!; try done. auto with cint.
Qed.
End GetSafe.
