(* ===== verification/Printf.v ===== *)
(** * The printf family

    The conversions the sources use, and the interpretation of a format
    string. *)
From Stdlib Require Import ZArith Strings.Byte.
From stdpp Require Import base list strings.
From S2P Require Import Prelude.
Open Scope Z_scope.

(** ** The conversions of printf *)

(** The digit of a value below 16. *)
Definition digit (d : Z) : byte := byte_of (if d <? 10 then 48 + d else 87 + d).

(** [%0nx] of a value below [16^n]. *)
Fixpoint hex (n : nat) (v : Z) : list byte :=
  match n with
  | O => []
  | S n => hex n (v / 16) ++ [digit (v mod 16)]
  end.

(** [%u]; twenty digits hold every 64-bit value. *)
Fixpoint dec_digits (fuel : nat) (v : Z) : list byte :=
  match fuel with
  | O => []
  | S fuel => (if v <? 10 then [] else dec_digits fuel (v / 10)) ++ [digit (v mod 10)]
  end.
Definition dec (v : Z) : list byte := dec_digits 20 v.

(** Filled on the left to the width [n]. *)
Definition pad (c : byte) (n : nat) (bs : list byte) : list byte := replicate (n - length bs) c ++ bs.

(** [%8d] *)
Definition dec8 (v : Z) : list byte :=
  pad " "%byte 8 (if v <? 0 then "-"%byte :: dec (- v) else dec v).

Definition newline : list byte := ["010"%byte].

(** ** The conversions are exact *)

(** The value of a string of digits, most significant first. *)
Definition digit_value (b : byte) : Z := let v := byte_val b in if v <? 58 then v - 48 else v - 87.
Definition digits_value (base : Z) (bs : list byte) : Z :=
  fold_left (fun v b => base * v + digit_value b) bs 0.

Lemma digit_value_digit d : 0 <= d < 16 -> digit_value (digit d) = d.
Proof.
  intros H. unfold digit_value, digit. rewrite byte_val_of. unfold u8.
  destruct (Z.ltb_spec d 10); rewrite Z.mod_small by lia; case_cmp; lia.
Qed.

Lemma digits_value_snoc base bs b :
  digits_value base (bs ++ [b]) = base * digits_value base bs + digit_value b.
Proof. unfold digits_value. by rewrite fold_left_app. Qed.

Lemma hex_value n v : 0 <= v < 16 ^ Z.of_nat n -> digits_value 16 (hex n v) = v.
Proof.
  revert v; induction n as [|n IH]; intros v H; [cbn in *; lia|].
  rewrite Nat2Z.inj_succ, Z.pow_succ_r in H by lia. cbn [hex].
  rewrite digits_value_snoc, IH, digit_value_digit by div_lia. div_lia.
Qed.

Lemma dec_digits_value n v : 0 <= v < 10 ^ Z.of_nat n -> digits_value 10 (dec_digits n v) = v.
Proof.
  revert v; induction n as [|n IH]; intros v H; [cbn in *; lia|].
  rewrite Nat2Z.inj_succ, Z.pow_succ_r in H by lia. cbn [dec_digits].
  rewrite digits_value_snoc, digit_value_digit by div_lia. case_cmp.
  - cbn. rewrite Z.mod_small by lia. lia.
  - rewrite IH by div_lia. div_lia.
Qed.

(** The digits printed for a 64-bit value are the value: the fuel is enough. *)
Lemma dec_value v : 0 <= v < 18446744073709551616 -> digits_value 10 (dec v) = v.
Proof. intros H. apply dec_digits_value. cbn. lia. Qed.

(** [%x]: no leading zeros. *)
Fixpoint hex_digits (fuel : nat) (v : Z) : list byte :=
  match fuel with
  | O => []
  | S fuel => (if v <? 16 then [] else hex_digits fuel (v / 16)) ++ [digit (v mod 16)]
  end.

Lemma hex_zero n : hex n 0 = replicate n "0"%byte.
Proof. induction n as [|n IH]; [done|]. cbn [hex]. change (0 / 16) with 0. by rewrite IH, replicate_S_end. Qed.

Lemma length_hex n v : length (hex n v) = n.
Proof. revert v; induction n as [|n IH]; intros v; [done|]. cbn [hex]. rewrite length_app, IH. cbn. lia. Qed.

(** Padding with zeros gives the digits of the full width. *)
Lemma pad_hex n : forall fuel v, (0 < n <= fuel)%nat -> 0 <= v < 16 ^ Z.of_nat n ->
  pad "0"%byte n (hex_digits fuel v) = hex n v.
Proof.
  induction n as [|n IH]; intros [|fuel] v Hn Hv; [lia..|].
  rewrite Nat2Z.inj_succ, Z.pow_succ_r in Hv by lia.
  unfold pad in *. cbn [hex_digits hex]. rewrite length_app. cbn [length].
  replace (S n - _)%nat with (n - length (if (v <? 16)%Z then [] else hex_digits fuel (v / 16)%Z))%nat by lia.
  rewrite app_assoc. f_equal. case_cmp.
  - rewrite Z.div_small, hex_zero by lia. cbn. by rewrite Nat.sub_0_r, app_nil_r.
  - destruct n as [|n]; [cbn in Hv; lia|]. apply IH; [lia|div_lia].
Qed.

(** ** Format strings *)

(** An argument, at the value the conversion reads. *)
Inductive arg : Type :=
  | AInt (v : Z)
  | AStr (s : list byte)
  | AChar (b : byte).

Definition signed_dec (v : Z) : list byte := if v <? 0 then "-"%byte :: dec (- v) else dec v.

(** The text of one conversion; [None]: the argument is not of its type. *)
Definition convert (c : byte) (a : arg) : option (list byte) :=
  match c, a with
  | "d"%byte, AInt v => Some (signed_dec v)
  | "u"%byte, AInt v => Some (dec v)
  | "x"%byte, AInt v => Some (hex_digits 16 v)
  | "s"%byte, AStr s => Some s
  | "c"%byte, AChar b => Some [b]
  | _, _ => None
  end.

(** [spec]: inside a conversion, whether the 0 flag was seen, and the width.
    [None]: the behaviour is undefined, for want of an argument, or by one of the
    wrong type or an unknown conversion. *)
Fixpoint format_from (spec : option (bool * nat)) (fmt : list byte) (args : list arg) : option (list byte) :=
  match fmt, spec with
  | [], None => Some []
  | [], Some _ => None
  | "%"%byte :: fmt, None => format_from (Some (false, O)) fmt args
  | b :: fmt, None => cons b <$> format_from None fmt args
  | "%"%byte :: fmt, Some _ => cons "%"%byte <$> format_from None fmt args
  | "0"%byte :: fmt, Some (_, O) => format_from (Some (true, O)) fmt args
  | ("l" | "z" | "h")%byte :: fmt, Some _ => format_from spec fmt args
  | b :: fmt, Some (zero, width) =>
      if (48 <=? byte_val b) && (byte_val b <=? 57) then
        format_from (Some (zero, 10 * width + Z.to_nat (byte_val b - 48))%nat) fmt args
      else
        match args with
        | [] => None
        | a :: args =>
            match convert b a with
            | Some s => app (pad (if zero then "0"%byte else " "%byte) width s) <$> format_from None fmt args
            | None => None
            end
        end
  end.

Definition format (fmt : list byte) (args : list arg) : option (list byte) := format_from None fmt args.

Example format_mixed :
  format (chars "%04zu: %02x %c %s %8d%%" ++ newline) [AInt 16; AInt 10; AChar "z"; AStr (chars "ok"); AInt (-7)] =
  Some (chars "0016: 0a z ok       -7%" ++ newline).
Proof. vm_compute. reflexivity. Qed.
