(* ===== verification/BinderTrace.v ===== *)
(** * The trace output of the binder library

    The part of src/binder/binder.c that a build with TRACE has: [hexdump],
    [binder_dump_txn] and [cmd_name]. The functions are pure readers; what
    they print is their result. *)
From Stdlib Require Import ZArith Strings.Byte.
From stdpp Require Import base gmap list strings.
From S2P Require Import Prelude Printf CMachine BinderProto BinderIo BinderParcel.
Open Scope Z_scope.

(** A byte that is not printable shows as a dot (line 44). *)
Definition shown (b : byte) : byte :=
  let v := byte_val b in if (v <? 32) || (126 <? v) then "."%byte else b.

Section Trace.
Context {G D : Type}.
Abbreviation prog := (C G D).

(** What the call prints. *)
Definition fprintf (fmt : list byte) (args : list arg) : prog (list byte) :=
  fun w => match format fmt args with Some s => Ok s w | None => Fault BadFormat end.

(** ** [hexdump] *)

(** From [count] on, with [n] bytes left at [data]. *)
Fixpoint hexdump_loop (n : nat) (count data : Z) : prog (list byte) :=
  match n with
  | O => if negb (Z.land count 15 =? 0) then fprintf newline [] else mret []
  | S n =>
      head ← (if Z.land count 15 =? 0 then fprintf (chars "%04zu:") [AInt count] else mret []);
      b ← load 1 data;
      cell ← fprintf (chars " %02x %c") [AInt b; AChar (shown (byte_of b))];
      tail ← (if Z.land count 15 =? 15 then fprintf newline [] else mret []);
      rest ← hexdump_loop n (count + 1) (data + 1);
      mret (head ++ cell ++ tail ++ rest)
  end.

Definition hexdump (data len : Z) : prog (list byte) := hexdump_loop (Z.to_nat len) 0 data.

(** ** [binder_dump_txn] *)

Fixpoint dump_objects (count : nat) (buffer offs : Z) : prog (list byte) :=
  match count with
  | O => mret []
  | S count =>
      o ← load 4 offs;
      let obj := u32 (buffer + o) in
      type ← load 4 (obj + flat_binder_object.type);
      flags ← load 4 (obj + flat_binder_object.flags);
      binder ← load 4 (obj + flat_binder_object.binder);
      cookie ← load 4 (obj + flat_binder_object.cookie);
      line ← fprintf (chars "  - type %08x  flags %08x  ptr %016llx  cookie %016llx" ++ newline)
               [AInt type; AInt flags; AInt binder; AInt cookie];
      rest ← dump_objects count buffer (offs + 4);
      mret (line ++ rest)
  end.

Definition binder_dump_txn (txn : Z) : prog (list byte) :=
  offs ← load 4 (txn + binder_transaction_data.offsets);
  offsets_size ← load 4 (txn + binder_transaction_data.offsets_size);
  let count := offsets_size / 4 in
  target ← load 4 (txn + binder_transaction_data.target);
  cookie ← load 4 (txn + binder_transaction_data.cookie);
  code ← load 4 (txn + binder_transaction_data.code);
  flags ← load 4 (txn + binder_transaction_data.flags);
  line1 ← fprintf (chars "  target %016llx  cookie %016llx  code %08x  flags %08x" ++ newline)
            [AInt target; AInt cookie; AInt code; AInt flags];
  pid ← load 4 (txn + binder_transaction_data.sender_pid);
  uid ← load 4 (txn + binder_transaction_data.sender_euid);
  data_size ← load 4 (txn + binder_transaction_data.data_size);
  line2 ← fprintf (chars "  pid %8d  uid %8d  data %llu  offs %llu" ++ newline)
            [AInt (s32 pid); AInt (s32 uid); AInt data_size; AInt offsets_size];
  buffer ← load 4 (txn + binder_transaction_data.buffer);
  lines ← hexdump buffer data_size;
  objects ← dump_objects (Z.to_nat count) buffer offs;
  mret (line1 ++ line2 ++ lines ++ objects).
End Trace.

(** ** [cmd_name] *)

Definition cmd_names : list (Z * string) :=
  [(BR_NOOP, "BR_NOOP"); (BR_TRANSACTION_COMPLETE, "BR_TRANSACTION_COMPLETE"); (BR_INCREFS, "BR_INCREFS");
   (BR_ACQUIRE, "BR_ACQUIRE"); (BR_RELEASE, "BR_RELEASE"); (BR_DECREFS, "BR_DECREFS");
   (BR_TRANSACTION, "BR_TRANSACTION"); (BR_REPLY, "BR_REPLY"); (BR_FAILED_REPLY, "BR_FAILED_REPLY");
   (BR_DEAD_REPLY, "BR_DEAD_REPLY"); (BR_DEAD_BINDER, "BR_DEAD_BINDER")]%string.

Fixpoint switch_name (names : list (Z * string)) (cmd : Z) : string :=
  match names with
  | [] => "???"
  | (c, s) :: names => if cmd =? c then s else switch_name names cmd
  end.

Definition cmd_name (cmd : Z) : string := switch_name cmd_names cmd.

(** ** Reference output *)

(** A byte of the dump: its two digits and its character. *)
Definition cell (b : byte) : list byte := chars " " ++ hex 2 (byte_val b) ++ chars " " ++ [shown b].

(** A line of the dump: the offset and up to 16 bytes. *)
Definition hex_line (dat : list byte) (i : nat) : list byte :=
  pad "0"%byte 4 (dec (16 * Z.of_nat i)) ++ chars ":" ++
  concat (map cell (take 16 (drop (16 * i) dat))) ++ newline.

Definition hex_lines (dat : list byte) : list byte :=
  concat (map (hex_line dat) (seq 0 ((length dat + 15) / 16))).

(** The four words of a [flat_binder_object], and its line. *)
Record object : Type := mkObject {
  o_type : Z;
  o_flags : Z;
  o_binder : Z;
  o_cookie : Z;
}.

Definition object_words (x : object) : list Z := [o_type x; o_flags x; o_binder x; o_cookie x].

Definition object_line (x : object) : list byte :=
  chars "  - type " ++ hex 8 (o_type x) ++ chars "  flags " ++ hex 8 (o_flags x) ++
  chars "  ptr " ++ hex 16 (o_binder x) ++ chars "  cookie " ++ hex 16 (o_cookie x) ++ newline.

(** At the offset [o] of the message there is the object [x]; the address
    wraps like the pointer. *)
Definition object_at (m : memory) (buffer o : Z) (x : object) : Prop :=
  bytes_at m (u32 (buffer + o)) (u32s_bytes (object_words x)) /\
  Forall (fun v => 0 <= v < 4294967296) (o :: object_words x).

Definition target_line (t : txn_data) : list byte :=
  chars "  target " ++ hex 16 (t_target t) ++ chars "  cookie " ++ hex 16 (t_cookie t) ++
  chars "  code " ++ hex 8 (t_code t) ++ chars "  flags " ++ hex 8 (t_flags t) ++ newline.

Definition sender_line (t : txn_data) : list byte :=
  chars "  pid " ++ dec8 (s32 (t_sender_pid t)) ++ chars "  uid " ++ dec8 (s32 (t_sender_euid t)) ++
  chars "  data " ++ dec (t_data_size t) ++ chars "  offs " ++ dec (t_offsets_size t) ++ newline.

Definition txn_header (t : txn_data) : list byte := target_line t ++ sender_line t.

Example hexdump_two_lines :
  let dat := chars "Linux-labs: dump!" in
  let w := mkWorld unit unit (mem_write ∅ 4096 dat) 0 tt tt [] in
  match hexdump 4096 17 w with Ok out _ => out = hex_lines dat | Fault _ => False end.
Proof. vm_compute. reflexivity. Qed.

(** ** [hexdump] prints the lines *)

(** The loop on the bytes it reads. *)
Fixpoint hex_cells (count : Z) (dat : list byte) : list byte :=
  match dat with
  | [] => if Z.land count 15 =? 0 then [] else newline
  | b :: dat =>
      (if Z.land count 15 =? 0 then pad "0"%byte 4 (dec count) ++ chars ":" else []) ++
      cell b ++ (if Z.land count 15 =? 15 then newline else []) ++ hex_cells (count + 1) dat
  end.

Lemma fprintf_run {G D} (w : world G D) fmt args s :
  format fmt args = Some s -> fprintf fmt args w = Ok s w.
Proof. unfold fprintf. by intros ->. Qed.

Lemma cell_format b : format (chars " %02x %c") [AInt (byte_val b); AChar (shown b)] = Some (cell b).
Proof. destruct b; reflexivity. Qed.

Lemma count_format v : format (chars "%04zu:") [AInt v] = Some (pad "0"%byte 4 (dec v) ++ chars ":").
Proof. reflexivity. Qed.

Lemma hexdump_loop_run {G D} (w : world G D) dat : forall count p,
  bytes_at (w_mem w) p dat -> hexdump_loop (length dat) count p w = Ok (hex_cells count dat) w.
Proof.
  induction dat as [|b dat IH]; intros count p H.
  { cbn [length hexdump_loop hex_cells]. by destruct (Z.land count 15 =? 0). }
  change (b :: dat) with ([b] ++ dat) in H. apply bytes_at_app in H as [Hb Hd].
  cbn [length hexdump_loop hex_cells].
  erewrite run_bind by (instantiate (1 := w);
    instantiate (1 := if Z.land count 15 =? 0 then pad "0"%byte 4 (dec count) ++ chars ":" else []);
    destruct (Z.land count 15 =? 0); [apply fprintf_run, count_format|reflexivity]).
  erewrite run_bind by (apply run_load; exact Hb).
  rewrite le_val_1, byte_of_val.
  erewrite run_bind by (apply fprintf_run, cell_format).
  erewrite run_bind by (instantiate (1 := w); instantiate (1 := if Z.land count 15 =? 15 then newline else []);
    destruct (Z.land count 15 =? 15); reflexivity).
  by erewrite run_bind by (apply IH; exact Hd).
Qed.

Lemma land_15 (i j : nat) : (j < 16)%nat -> Z.land (16 * Z.of_nat i + Z.of_nat j) 15 = Z.of_nat j.
Proof.
  intros H. change 15 with (Z.ones 4). rewrite Z.land_ones by lia.
  change (2 ^ 4) with 16. div_lia.
Qed.

(** Inside a line: the rest of the line, its end and the following lines. *)
Lemma hex_cells_inside dat (i j : nat) :
  (0 < j < 16)%nat ->
  hex_cells (16 * Z.of_nat i + Z.of_nat j) dat =
  concat (map cell (take (16 - j) dat)) ++ newline ++
  hex_cells (16 * Z.of_nat (S i)) (drop (16 - j) dat).
Proof.
  revert j; induction dat as [|b dat IH]; intros j Hj.
  - rewrite take_nil, drop_nil. cbn [hex_cells map concat app].
    rewrite land_15 by lia. replace (16 * Z.of_nat (S i)) with (16 * Z.of_nat (S i) + Z.of_nat 0) by lia.
    rewrite land_15 by lia. rewrite (proj2 (Z.eqb_neq _ _)) by lia. cbn. done.
  - replace (16 - j)%nat with (S (15 - j)) by lia. cbn [hex_cells take drop map concat].
    rewrite land_15 by lia. rewrite (proj2 (Z.eqb_neq _ 0)) by lia. cbn [app]. rewrite <- app_assoc. f_equal.
    destruct (decide (j = 15%nat)) as [->|Hne].
    + change (Z.of_nat 15 =? 15) with true. cbn [Nat.sub take drop map concat app]. cbv iota.
      replace (16 * Z.of_nat i + Z.of_nat 15 + 1) with (16 * Z.of_nat (S i)) by lia. done.
    + rewrite (proj2 (Z.eqb_neq _ 15)) by lia. cbn [app].
      replace (16 * Z.of_nat i + Z.of_nat j + 1) with (16 * Z.of_nat i + Z.of_nat (S j)) by lia.
      rewrite IH by lia. by replace (16 - S j)%nat with (15 - j)%nat by lia.
Qed.

(** The line [k] of the bytes [dat], the first of which is at offset [16 * i]. *)
Definition line_from (i : nat) (dat : list byte) (k : nat) : list byte :=
  pad "0"%byte 4 (dec (16 * Z.of_nat (i + k))) ++ chars ":" ++
  concat (map cell (take 16 (drop (16 * k) dat))) ++ newline.

Lemma hex_cells_line i b dat :
  hex_cells (16 * Z.of_nat i) (b :: dat) =
  line_from i (b :: dat) 0 ++ hex_cells (16 * Z.of_nat (S i)) (drop 16 (b :: dat)).
Proof.
  unfold line_from. rewrite Nat.add_0_r. cbn [hex_cells].
  pose proof (land_15 i 0 ltac:(lia)) as E. rewrite Z.add_0_r in E. rewrite E.
  change (Z.of_nat 0 =? 0) with true. change (Z.of_nat 0 =? 15) with false. cbv iota.
  replace (16 * Z.of_nat i + 1) with (16 * Z.of_nat i + Z.of_nat 1) by lia.
  rewrite hex_cells_inside by lia. rewrite Nat.mul_0_r, drop_0.
  change (take 16 (b :: dat)) with (b :: take 15 dat). change (drop 16 (b :: dat)) with (drop 15 dat).
  cbn [map concat Nat.sub app]. by rewrite <- !app_assoc.
Qed.

Lemma line_from_drop i dat k : line_from i dat (S k) = line_from (S i) (drop 16 dat) k.
Proof.
  unfold line_from. rewrite drop_drop. do 4 f_equal; [lia|]. do 4 f_equal. lia.
Qed.

Lemma hex_cells_lines n : forall i dat, (length dat <= n)%nat ->
  hex_cells (16 * Z.of_nat i) dat = concat (map (line_from i dat) (seq 0 ((length dat + 15) / 16))).
Proof.
  induction n as [n IH] using lt_wf_ind. intros i [|b dat] Hn.
  - cbn [hex_cells]. pose proof (land_15 i 0 ltac:(lia)) as E. rewrite Z.add_0_r in E. by rewrite E.
  - rewrite hex_cells_line. rewrite (IH (n - 1)%nat) by (rewrite ?length_drop; cbn in *; lia).
    rewrite length_drop. set (d := b :: dat) in *.
    assert (E : ((length d + 15) / 16 = S ((length d - 16 + 15) / 16))%nat).
    { assert (1 <= length d)%nat by (subst d; cbn; lia).
      destruct (decide (length d < 16)%nat).
      - replace (length d - 16 + 15)%nat with 15%nat by lia.
        change (S (15 / 16)) with 1%nat. symmetry. eapply Nat.div_unique with (r := (length d - 1)%nat); lia.
      - replace (length d + 15)%nat with ((length d - 16 + 15) + 1 * 16)%nat by lia.
        rewrite Nat.div_add by lia. lia. }
    rewrite E. cbn [seq map concat]. f_equal. rewrite <- seq_shift, map_map.
    f_equal. apply map_ext. intros k. symmetry. apply line_from_drop.
Qed.

Lemma hexdump_lines {G D} (w : world G D) p dat :
  bytes_at (w_mem w) p dat -> hexdump p (Z.of_nat (length dat)) w = Ok (hex_lines dat) w.
Proof.
  intros H. unfold hexdump. rewrite Nat2Z.id, hexdump_loop_run by done. f_equal.
  exact (hex_cells_lines (length dat) 0 dat (le_n _)).
Qed.

(** ** [binder_dump_txn] *)

Lemma object_format x :
  Forall (fun v => 0 <= v < 4294967296) (object_words x) ->
  format (chars "  - type %08x  flags %08x  ptr %016llx  cookie %016llx" ++ newline)
    [AInt (o_type x); AInt (o_flags x); AInt (o_binder x); AInt (o_cookie x)] =
  Some (object_line x).
Proof.
  unfold object_words. rewrite !Forall_cons. intros (? & ? & ? & ? & _). unfold object_line.
  rewrite <- (pad_hex 8 16 (o_type x)), <- (pad_hex 8 16 (o_flags x)), <- (pad_hex 16 16 (o_binder x)),
    <- (pad_hex 16 16 (o_cookie x)) by lia.
  unfold format. cbn -[pad hex_digits]. by rewrite <- ?app_assoc.
Qed.

Lemma target_format t :
  txn_wf t ->
  format (chars "  target %016llx  cookie %016llx  code %08x  flags %08x" ++ newline)
    [AInt (t_target t); AInt (t_cookie t); AInt (t_code t); AInt (t_flags t)] = Some (target_line t).
Proof.
  unfold txn_wf, txn_fields. rewrite !Forall_cons. intros (? & ? & ? & ? & _). unfold target_line.
  rewrite <- (pad_hex 16 16 (t_target t)), <- (pad_hex 16 16 (t_cookie t)), <- (pad_hex 8 16 (t_code t)),
    <- (pad_hex 8 16 (t_flags t)) by lia.
  unfold format. cbn -[pad hex_digits]. by rewrite <- ?app_assoc.
Qed.

Lemma sender_format t :
  format (chars "  pid %8d  uid %8d  data %llu  offs %llu" ++ newline)
    [AInt (s32 (t_sender_pid t)); AInt (s32 (t_sender_euid t)); AInt (t_data_size t); AInt (t_offsets_size t)] =
  Some (sender_line t).
Proof. reflexivity. Qed.

Lemma load_object {G D} (w : world G D) buffer o x i v :
  object_at (w_mem w) buffer o x -> object_words x !! i = Some v ->
  load 4 (u32 (buffer + o) + 4 * Z.of_nat i) w = Ok v w.
Proof.
  intros [Hb [_ Hw]%Forall_cons] Hi. erewrite run_load by (eapply bytes_at_u32; done).
  rewrite Forall_lookup in Hw. by rewrite le_val_bytes_4 by by eapply Hw.
Qed.

#[local] Opaque format.

Lemma dump_objects_run {G D} (w : world G D) buffer os xs :
  Forall2 (object_at (w_mem w) buffer) os xs -> forall offs,
  bytes_at (w_mem w) offs (u32s_bytes os) ->
  dump_objects (length os) buffer offs w = Ok (concat (map object_line xs)) w.
Proof.
  induction 1 as [|o x os xs Hx _ IH]; intros offs Ht; [done|]. cbn [length dump_objects map concat].
  change (u32s_bytes (o :: os)) with (le_bytes 4 o ++ u32s_bytes os) in Ht.
  apply bytes_at_app in Ht as [Hoff Ht]. rewrite length_le_bytes in Ht.
  pose proof Hx as [_ [Ho Hw]%Forall_cons].
  erewrite run_bind by (apply run_load; exact Hoff). rewrite le_val_bytes_4 by done. cbv zeta.
  erewrite run_bind by exact (load_object w buffer o x 0 _ Hx eq_refl).
  erewrite run_bind by exact (load_object w buffer o x 1 _ Hx eq_refl).
  erewrite run_bind by exact (load_object w buffer o x 2 _ Hx eq_refl).
  erewrite run_bind by exact (load_object w buffer o x 3 _ Hx eq_refl).
  erewrite run_bind by (apply fprintf_run, object_format; exact Hw).
  by erewrite run_bind by (apply IH; exact Ht).
Qed.

#[local] Transparent format.

(** C26. In a TRACE build [binder_dump_txn] prints the fields of the
    transaction, the bytes of the message in the canonical layout (lines of
    16, each with its decimal offset, the last one possibly short, no line for
    an empty message) and one line for each whole entry of the offsets table,
    with the type, the flags, the pointer and the cookie found there,
    whatever they are, and changes nothing. The counter-driven [hexdump] is thus equivalent to
    printing line by line. *)
Theorem binder_dump_txn_text {G D} (w : world G D) txn t dat os xs :
  txn_at (w_mem w) txn t ->
  bytes_at (w_mem w) (t_buffer t) dat -> t_data_size t = Z.of_nat (length dat) ->
  bytes_at (w_mem w) (t_offsets t) (u32s_bytes os) -> t_offsets_size t / 4 = Z.of_nat (length os) ->
  Forall2 (object_at (w_mem w) (t_buffer t)) os xs ->
  binder_dump_txn txn w =
  Ok (txn_header t ++ hex_lines dat ++ concat (map object_line xs)) w.
Proof.
  intros H Hd Hn Ht Hk Hx. unfold binder_dump_txn.
  pose proof (fun i v => txn_load w txn t i v H) as L.
  erewrite run_bind by exact (L 9%nat _ eq_refl). erewrite run_bind by exact (L 7%nat _ eq_refl).
  erewrite run_bind by exact (L 0%nat _ eq_refl). erewrite run_bind by exact (L 1%nat _ eq_refl).
  erewrite run_bind by exact (L 2%nat _ eq_refl). erewrite run_bind by exact (L 3%nat _ eq_refl).
  erewrite run_bind by (apply fprintf_run, target_format; apply H).
  erewrite run_bind by exact (L 4%nat _ eq_refl). erewrite run_bind by exact (L 5%nat _ eq_refl).
  erewrite run_bind by exact (L 6%nat _ eq_refl).
  erewrite run_bind by (apply fprintf_run, sender_format).
  erewrite run_bind by exact (L 8%nat _ eq_refl).
  rewrite Hn. erewrite run_bind by exact (hexdump_lines w (t_buffer t) dat Hd).
  rewrite Hk, Nat2Z.id. erewrite run_bind by by apply dump_objects_run.
  unfold txn_header. by rewrite <- !app_assoc.
Qed.

(** A message of a string and two objects, one with a cookie and flags that
    no [bio_put_*] function writes; the table is followed by two more bytes. *)
Definition dumped_objects : list object :=
  [mkObject BINDER_TYPE_HANDLE 383 7 0; mkObject BINDER_TYPE_BINDER 16 4660 51966].
Definition dumped_data : list byte :=
  concat (map item_bytes [IU32 0; IStr (byte_val <$> chars "svc")]) ++
  concat (map (fun x => u32s_bytes (object_words x)) dumped_objects).
Definition dumped_offsets : list Z := [16; 32].
Definition dumped_txn : txn_data :=
  mkTxn 7 0 2 0 1250 1000 (Z.of_nat (length dumped_data)) 10 8192 8448.
Definition dumped_world : world unit unit :=
  mkWorld unit unit (mem_write (mem_write (mem_write ∅ 4096 (txn_bytes dumped_txn)) 8192 dumped_data)
                       8448 (u32s_bytes dumped_offsets)) 0 tt tt [].

Lemma binder_dump_txn_text_witness :
  exists out, binder_dump_txn 4096 dumped_world = Ok out dumped_world /\ (100 < length out)%nat.
Proof.
  eexists. split.
  - apply (binder_dump_txn_text dumped_world 4096 dumped_txn dumped_data dumped_offsets dumped_objects).
    + split; [vm_compute; reflexivity|]. repeat constructor; by vm_compute.
    + vm_compute. reflexivity.
    + vm_compute. reflexivity.
    + vm_compute. reflexivity.
    + vm_compute. reflexivity.
    + repeat constructor; by vm_compute.
  - apply Nat.ltb_lt. vm_compute. reflexivity.
Defined.

(** [cmd_name] has a name for exactly the commands of its table. *)
Lemma cmd_name_known cmd : cmd_name cmd = "???"%string <-> cmd ∉ cmd_names.*1.
Proof.
  unfold cmd_name, cmd_names. cbn [switch_name fmap list_fmap fst].
  split.
  - repeat (case_cmp; [discriminate|]). intros _. rewrite !not_elem_of_cons. repeat split; try done. by apply not_elem_of_nil.
  - rewrite !not_elem_of_cons. intros H. destruct_and!. repeat (case_cmp; [done|]). done.
Qed.
