(* ===== verification/ParcelProps.v ===== *)
(** * Parcels: the properties

    The theorems about src/binder/binder.c's [bio_*] functions, for every
    sequence of calls, each with an instance on a concrete memory. *)
From Stdlib Require Import ZArith Strings.Byte.
From stdpp Require Import base gmap list strings.
From S2P Require Import Prelude CMachine BinderProto BinderIo BinderParcel.
Open Scope Z_scope.

(** A small concrete process: a zeroed buffer of 64 bytes at 4096, the
    C string "hi" at 8192 and 512 more zeroed bytes at 16384. *)
Definition demo_mem : memory :=
  mem_write (mem_write (mem_write ∅ 4096 (replicate 64 x00)) 8192 (chars "hi" ++ [x00]))
            16384 (replicate 512 x00).

Definition demo_world : world unit unit := mkWorld _ _ demo_mem 0 tt tt [].

Definition demo_io : binder_io := mkBio 0 0 0 0 0 0 0 0.

Definition demo_ops : list put := [PutU32 0; PutStr8 8192 (chars "hi"); PutNull16; PutRef 7; PutU32 9].

(** C11. Round trip of a parcel. Whatever sequence of [bio_put_*] calls is made
    on a buffer large enough for its items (none of them the handle-0
    reference), the calls return without fault and without an error flag, and
    a receiver that is handed a copy of the written bytes and offsets in a
    transaction reads back, with the matching [bio_get_*] calls, exactly the
    values that were put, in order, and ends with no data left. A NULL string
    and one of 2^29 characters or more are not put as strings: they put the
    word 2^32 - 1, which bio_get_uint32 reads back as that word. *)
Theorem parcel_roundtrip {G D} (ops : list put) (w : world G D) io0 lo n k :
  0 < lo -> 0 <= k -> 4 * k <= n -> lo + n < 4294967296 -> mapped (w_mem w) lo n ->
  Forall (put_src (w_mem w) lo n) ops -> Forall (fun op => item_wf (put_item op)) ops ->
  Forall no_obj0 (put_item <$> ops) ->
  items_size (put_item <$> ops) <= n - 4 * k -> items_objs (put_item <$> ops) <= k ->
  exists io w',
    run_puts ops (bio_init io0 lo n k) w = Ok io w' /\ flags io = 0 /\
    forall (G2 D2 : Type) (w2 : world G2 D2) txn t rd0,
      txn_at (w_mem w2) txn t ->
      t_data_size t = data io - data0 io -> t_offsets_size t = offs io - offs0 io ->
      0 < t_buffer t -> t_buffer t + t_data_size t < 4294967296 ->
      copied (w_mem w') (data0 io) (w_mem w2) (t_buffer t) (t_data_size t) ->
      copied (w_mem w') (offs0 io) (w_mem w2) (t_offsets t) (t_offsets_size t) ->
      exists rd,
        (io ← bio_init_from_txn rd0 txn; run_gets (item_getter <$> (put_item <$> ops)) io) w2 =
          Ok (item_value <$> (put_item <$> ops), rd) w2 /\
        data_avail rd = 0.
Proof.
  intros Hlo Hk Hkn Hhi Hm Hsrc Hwf Hno Hs Ho.
  pose proof (bio_init_writes (w_mem w) io0 lo n k Hlo Hk Hkn Hhi Hm) as W0.
  destruct (run_puts_fits ops _ w lo n k [] W0 Hsrc Hwf) as (io & m' & R & W & _);
    [cbn; lia|cbn; lia|].
  exists io, (set_mem m' w). split; [done|]. split; [apply W|].
  intros G2 D2 w2 txn t rd0 Ht Eds Eos Hpos Hend Hc1 Hc2.
  erewrite run_bind by by apply bio_init_from_txn_run.
  rewrite run_gets_reads; [|rewrite Eds, Eos in *;
    eapply bio_writes_reads; try exact W; cbn; by rewrite ?Eos|done].
  eexists. split; [reflexivity|]. cbn [bio_advance data_avail]. rewrite Eds.
  pose proof (bw_data _ _ _ _ _ _ W) as E. cbn [app] in E. lia.
Qed.

Lemma parcel_roundtrip_witness :
  exists io w',
    run_puts demo_ops (bio_init demo_io 4096 64 2) demo_world = Ok io w' /\ flags io = 0 /\
    exists rd (w2 : world unit unit),
      (io ← bio_init_from_txn demo_io 16384;
       run_gets [GetU32; GetStr; GetU32; GetRef; GetU32] io) w2 =
        Ok ([VU32 0; VStr [104; 105]; VU32 4294967295; VRef 7; VU32 9], rd) w2 /\ data_avail rd = 0.
Proof.
  destruct (parcel_roundtrip demo_ops demo_world demo_io 4096 64 2) as (io & w' & R & F & H).
  1-4: lia.
  { by apply mappedb_mapped. }
  { forall_list; cbn; try done. split_and!; [lia| |right; lia].
    split; [by vm_compute|by apply (bool_decide_unpack _); vm_compute]. }
  { forall_list; cbn; try lia; split; forall_list; try lia; by vm_compute. }
  { forall_list; done. }
  { by vm_compute. }
  { by vm_compute. }
  set (t := mkTxn 0 0 0 0 0 0 40 4 4104 4096).
  set (w2 := set_mem (mem_write (w_mem w') 16384 (txn_bytes t)) w').
  assert (match run_puts demo_ops (bio_init demo_io 4096 64 2) demo_world with
          | Ok io _ => (data0 io, data io, offs0 io, offs io)
          | Fault _ => (0, 0, 0, 0)
          end = (4104, 4144, 4096, 4100)) as E by by vm_compute.
  rewrite R in E. injection E as E1 E2 E3 E4.
  destruct (H unit unit w2 16384 t demo_io) as (rd & Hr & Ha); cbn; try lia.
  { split; [apply mem_write_bytes_at|]. repeat constructor; cbn; lia. }
  { intros i Hi. rewrite E1, mem_write_lookup. case_decide; [cbn in *; lia|done]. }
  { intros i Hi. rewrite E3, mem_write_lookup. case_decide; [cbn in *; lia|done]. }
  exists io, w'. split; [exact R|]. split; [exact F|]. exists rd, w2. by split.
Defined.

(** C12. Memory safety of writing. For every sequence of [bio_put_*] calls on
    an initialised buffer, strings that are NULL or too long for a parcel
    included, and whether or not the items fit, the calls return
    without fault, write only inside the caller's buffer, keep the cursor in
    bounds, and raise [BIO_F_OVERFLOW] exactly when the items (with their
    4-byte rounding; a string that is NULL or too long counts as one word)
    exceed the data area or the reserved offsets. *)
Theorem parcel_puts_safe {G D} (ops : list put) (w : world G D) io0 lo n k :
  0 < lo -> 0 <= k -> 4 * k <= n -> lo + n < 4294967296 -> mapped (w_mem w) lo n ->
  Forall (put_src (w_mem w) lo n) ops -> Forall (fun op => item_wf (put_item op)) ops ->
  exists io m',
    run_puts ops (bio_init io0 lo n k) w = Ok io (set_mem m' w) /\
    bio_bounds io lo n /\ modifies (w_mem w) m' lo n /\
    (overflowed io <-> ~ (items_size (put_item <$> ops) <= n - 4 * k /\
                          items_objs (put_item <$> ops) <= k)).
Proof.
  intros Hlo Hk Hkn Hhi Hm Hsrc Hwf.
  pose proof (bio_init_writes (w_mem w) io0 lo n k Hlo Hk Hkn Hhi Hm) as W0.
  destruct (run_puts_safe ops (bio_init io0 lo n k) w lo n) as (io & m' & R & B & M & _ & F & N);
    [apply W0|done..|].
  exists io, m'. split_and!; try done.
  rewrite bio_init_fits in F, N by lia. cbn [data_avail offs_avail flags] in F, N.
  split; [|exact N]. intros O Hf. unfold overflowed in O. by rewrite (F Hf) in O.
Qed.

Lemma parcel_puts_safe_witness :
  exists io m',
    run_puts demo_ops (bio_init demo_io 4096 32 2) demo_world = Ok io (set_mem m' demo_world) /\
    overflowed io.
Proof.
  destruct (parcel_puts_safe demo_ops demo_world demo_io 4096 32 2) as (io & m' & R & _ & _ & O).
  1-4: lia.
  { by apply mappedb_mapped. }
  { forall_list; cbn; try done. split_and!; [lia| |right; lia].
    split; [by vm_compute|by apply (bool_decide_unpack _); vm_compute]. }
  { forall_list; cbn; try lia; split; forall_list; try lia; by vm_compute. }
  exists io, m'. split; [exact R|]. apply O. vm_compute. intuition congruence.
Defined.

(** C28. Memory safety of reading. Over a mapped message and offsets table of
    arbitrary contents, each [bio_get_*] call returns without fault and leaves
    a cursor in the message, so any sequence of them is safe; the pointer
    returned for a string is [NULL] or addresses all the units announced by
    its length word, as long as that length is below 2^31 - 2. *)
Theorem parcel_gets_safe {G D} (w : world G D) io :
  bio_in (w_mem w) io ->
  (exists v io', bio_get_uint32 io w = Ok (v, io') w /\ bio_in (w_mem w) io') /\
  (exists h io', bio_get_ref io w = Ok (h, io') w /\ bio_in (w_mem w) io') /\
  (exists ptr len io', bio_get_string16 io w = Ok (ptr, len, io') w /\ bio_in (w_mem w) io' /\
     (ptr <> 0 -> len < 2147483646 ->
        data io <= ptr /\ ptr + 2 * (len + 1) <= data io + data_avail io /\
        mapped (w_mem w) ptr (2 * (len + 1)))).
Proof.
  intros B.
  destruct (get_uint32_safe w io B) as (v & io1 & R1 & B1 & _).
  destruct (get_ref_safe w io B) as (h & io2 & R2 & B2 & _).
  destruct (get_string16_safe w io B) as (ptr & len & io3 & R3 & B3 & Hl & _ & H3).
  split_and!; [by exists v, io1|by exists h, io2|].
  exists ptr, len, io3. split_and!; try done. intros Hnz Hlen.
  destruct (H3 Hnz) as (H & H' & Hmp).
  assert (u32 (u32 (len + 1) * 2) = 2 * (len + 1)) as E.
  { rewrite (u32_small (len + 1)), u32_small by lia. lia. }
  rewrite E in *. pose proof (align4_bounds (2 * (len + 1))) as Ha.
  destruct (Z.le_gt_cases (2 * (len + 1)) 4294967292); [|lia].
  split_and!; [lia|lia|]. eapply mapped_sub; [exact Hmp|lia..].
Qed.

Lemma parcel_gets_safe_witness :
  bio_in (w_mem demo_world) (mkBio 16400 16384 100 4 16400 16384 1 0) /\
  exists ptr len io',
    bio_get_string16 (mkBio 16400 16384 100 4 16400 16384 1 0) demo_world =
    Ok (ptr, len, io') demo_world.
Proof.
  assert (bio_in (w_mem demo_world) (mkBio 16400 16384 100 4 16400 16384 1 0)) as B.
  { split; cbn [data data_avail offs offs_avail]; try lia; by apply mappedb_mapped. }
  split; [exact B|].
  destruct (parcel_gets_safe demo_world _ B) as (_ & _ & ptr & len & io' & R & _).
  by exists ptr, len, io'.
Defined.

(** The size computed by [bio_get_string16] wraps on this 32-bit build: a
    message whose length word is 2^31 - 2, 2^31 - 1, 2^32 - 2 or 2^32 - 1
    yields a non-null pointer and that length although not a single byte of
    string data was checked or consumed, so the bound of [parcel_gets_safe] is the exact one.
    The last of the four is what is put for a NULL string: the reader does not
    get NULL back. *)
Theorem string16_length_wraps {G D} (w : world G D) io len :
  bio_in (w_mem w) io -> 4 <= data_avail io ->
  len ∈ [2147483646; 2147483647; 4294967294; 4294967295] ->
  bytes_at (w_mem w) (data io) (le_bytes 4 len) ->
  bio_get_string16 io w = Ok (data io + 4, len, bio_advance 4 io) w.
Proof.
  intros [] Ha Hlen Hb. unfold bio_get_string16, bio_get_uint32.
  rewrite bio_get_fits, align4_4 by (rewrite align4_4; lia). cbn iota beta.
  case_cmp; [lia|]. cbn [negb].
  erewrite run_bind by (erewrite run_bind; [|apply run_load; exact Hb]; reflexivity).
  assert (0 <= len < 4294967296 /\ align4 (u32 (u32 (len + 1) * 2)) = 0) as [Hr E].
  { rewrite !elem_of_cons, elem_of_nil in Hlen. by destruct Hlen as [-> | [-> | [-> | [-> | []]]]]. }
  rewrite le_val_bytes_4 by lia. cbn iota beta.
  rewrite bio_get_fits by (rewrite E; cbn; lia). rewrite E. unfold mret, C_ret, bio_advance. cbn. do 2 f_equal. f_equal; lia.
Qed.

Lemma string16_length_wraps_witness :
  let w := set_mem (mem_write demo_mem 16400 (le_bytes 4 2147483647)) demo_world in
  let io := mkBio 16400 16384 4 0 16400 16384 1 0 in
  bio_in (w_mem w) io /\
  bio_get_string16 io w = Ok (16404, 2147483647, bio_advance 4 io) w.
Proof.
  intros w io. assert (bio_in (w_mem w) io) as B.
  { split; cbn [data data_avail offs offs_avail io]; try lia; by apply mappedb_mapped. }
  split; [exact B|].
  apply (string16_length_wraps w io 2147483647 B); [cbn; lia|by do 1 right; left|].
  apply mem_write_bytes_at.
Defined.

(** Once a get has failed the cursor is exhausted, and from then on every
    getter keeps returning 0 or [NULL] without fault: the callers' checks of
    one result suffice for all later ones. *)
Theorem exhausted_gets {G D} (w : world G D) io :
  bio_in (w_mem w) io -> data_avail io = 0 ->
  bio_get_uint32 io w = Ok (0, bio_exhaust io) w /\
  bio_get_string16 io w = Ok (0, 0, bio_exhaust (bio_exhaust io)) w /\
  bio_get_ref io w = Ok (0, bio_exhaust io) w /\
  data_avail (bio_exhaust io) = 0 /\ overflowed (bio_exhaust io).
Proof.
  intros B Ha.
  assert (forall i, data_avail i = 0 -> bio_get_uint32 i w = Ok (0, bio_exhaust i) w) as U.
  { intros i Hi. unfold bio_get_uint32. rewrite bio_get_full by (rewrite align4_4; lia). done. }
  split_and!; [by apply U| | |done|].
  - unfold bio_get_string16. erewrite run_bind by by apply U. cbn iota beta.
    by rewrite bio_get_full by done.
  - unfold bio_get_ref, _bio_get_obj.
    destruct (find_offset_safe w (Z.to_nat (offs_avail io)) 0 (offs io) (u32 (data io - data0 io)))
      as (b & R); [lia| |].
    { destruct (Z.le_gt_cases 0 (offs_avail io)); [|intros a ?; lia].
      eapply mapped_sub; [apply (bi_table _ _ B)|lia..]. }
    rewrite bio_get_full by (rewrite align4_16; lia).
    destruct b; (erewrite run_bind; [|erewrite run_bind by exact R; reflexivity]); done.
  - apply (overflowed_set io).
Qed.

Lemma exhausted_gets_witness :
  let io := mkBio 16400 16384 0 4 16400 16384 1 0 in
  bio_in (w_mem demo_world) io /\
  bio_get_ref io demo_world = Ok (0, bio_exhaust io) demo_world.
Proof.
  intros io. assert (bio_in (w_mem demo_world) io) as B.
  { split; cbn [data data_avail offs offs_avail io]; try lia; by apply mappedb_mapped. }
  split; [exact B|]. by apply (exhausted_gets demo_world io B).
Defined.
