(* ===== verification/Binder.v ===== *)
(** * The binder library: src/binder/binder.c

    Commands written to the driver, the parser of what the driver returns,
    calls and the looper. The driver itself is kernel code outside src/: it is
    an interface ([BinderDriver], with the part of its contract the clients
    rely on in [BinderDriverOk]) that every definition is parametric in. *)
From Stdlib Require Import ZArith Strings.Byte.
From stdpp Require Import base gmap list strings.
From S2P Require Import Prelude CMachine BinderProto BinderIo.
Open Scope Z_scope.

(** ** The driver *)

(** [drv_write_read d m b]: the result of [ioctl(fd, BINDER_WRITE_READ, &b)]
    in driver state [d] with user memory [m]: return value, updated
    [binder_write_read], user memory (the driver fills the read buffer and the
    area it has mapped) and new driver state. [drv_control] is any other
    request, with its argument. *)
Class BinderDriver (D : Type) : Type := {
    drv_write_read : D -> memory -> binder_write_read -> Z * binder_write_read * memory * D;
    drv_control : D -> Z -> Z -> Z * D;
}.

(** The contract: outside the read buffer and the area [area] mapped by
    [binder_open] the driver leaves user memory alone, it never unmaps it, and
    a successful read returns at most [read_size] bytes. *)
Class BinderDriverOk (D : Type) `{BinderDriver D} (area : Z -> Prop) : Prop := {
    drv_frame d m b res b' m' d' :
      drv_write_read d m b = (res, b', m', d') ->
      forall a, ~ (read_buffer b <= a < read_buffer b + read_size b) -> ~ area a ->
                m' !! a = m !! a;
    drv_dom d m b res b' m' d' :
      drv_write_read d m b = (res, b', m', d') ->
      forall a, is_Some (m !! a) -> is_Some (m' !! a);
    drv_consumed d m b res b' m' d' :
      drv_write_read d m b = (res, b', m', d') -> 0 <= res ->
      read_consumed b = 0 -> 0 <= read_consumed b' <= read_size b;
}.

Record binder_state : Type := mkBs {
    fd : Z;
    bs_mapped : Z;
    mapsize : Z;
}.

Section Binder.
Context {G D : Type} `{BinderDriver D}.

(** [typedef int ( *binder_handler)(bs, txn, msg, reply)]: the transaction
    is passed by address; the updated reply cursor is returned with the
    status. *)
Definition binder_handler : Type :=
  binder_state -> Z -> binder_io -> binder_io -> C G D (Z * binder_io).

Definition ioctl_write_read (bs : binder_state) (b : binder_write_read) :
    C G D (Z * binder_write_read) := fun w =>
  let payload := default [] (mem_get (w_mem w) (write_buffer b + write_consumed b)
                                     (Z.to_nat (write_size b - write_consumed b))) in
  let '(res, b', m', d') := drv_write_read (w_drv w) (w_mem w) b in
  Ok (res, b') (mkWorld _ _ m' (w_sp w) (w_glob w) d'
                        (w_trace w ++ [EvIoctl (fd bs) BINDER_WRITE_READ payload])).

Definition ioctl_control (bs : binder_state) (request arg : Z) : C G D Z := fun w =>
  let '(res, d') := drv_control (w_drv w) request arg in
  Ok res (mkWorld _ _ (w_mem w) (w_sp w) (w_glob w) d'
                  (w_trace w ++ [EvIoctl (fd bs) request (le_bytes 4 arg)])).

Definition binder_become_context_manager (bs : binder_state) : C G D Z :=
  ioctl_control bs BINDER_SET_CONTEXT_MGR 0.

Definition binder_set_maxthreads (bs : binder_state) (threads : Z) : C G D unit :=
  ioctl_control bs BINDER_SET_MAX_THREADS threads;; mret ().

Definition binder_write (bs : binder_state) (dat len : Z) : C G D Z :=
  '(res, _) ← ioctl_write_read bs (mkBwr len 0 dat 0 0 0);
  mret res.

(** ** Commands *)

(** The packed local structure of [binder_send_reply] is 52 bytes
    ([cmd_free], [buffer], [cmd_reply], [txn]), followed by the parameter
    [status], whose address is sent. The fields [sender_pid] and
    [sender_euid] are not assigned. *)
Definition binder_send_reply (bs : binder_state) (reply : binder_io)
    (buffer_to_free status : Z) : C G D unit :=
  with_frame 56 (fun dat =>
    let txn := dat + 12 in
    let statusp := dat + 52 in
    store 4 statusp status;;
    store 4 dat BC_FREE_BUFFER;;
    store 4 (dat + 4) buffer_to_free;;
    store 4 (dat + 8) BC_REPLY;;
    store 4 (txn + binder_transaction_data.target) 0;;
    store 4 (txn + binder_transaction_data.cookie) 0;;
    store 4 (txn + binder_transaction_data.code) 0;;
    (if negb (status =? 0) then
       store 4 (txn + binder_transaction_data.flags) TF_STATUS_CODE;;
       store 4 (txn + binder_transaction_data.data_size) 4;;
       store 4 (txn + binder_transaction_data.offsets_size) 0;;
       store 4 (txn + binder_transaction_data.buffer) statusp;;
       store 4 (txn + binder_transaction_data.offsets) 0
     else
       store 4 (txn + binder_transaction_data.flags) 0;;
       store 4 (txn + binder_transaction_data.data_size) (u32 (data reply - data0 reply));;
       store 4 (txn + binder_transaction_data.offsets_size) (u32 (offs reply - offs0 reply));;
       store 4 (txn + binder_transaction_data.buffer) (data0 reply);;
       store 4 (txn + binder_transaction_data.offsets) (offs0 reply));;
    binder_write bs dat 52;;
    mret ()).

(** [uint32_t cmd[2] = { c, target }; binder_write(bs, cmd, sizeof(cmd));] *)
Definition binder_write_cmd2 (bs : binder_state) (c target : Z) : C G D unit :=
  with_frame 8 (fun cmd =>
    store 4 cmd c;;
    store 4 (cmd + 4) target;;
    binder_write bs cmd 8;;
    mret ()).

Definition binder_acquire (bs : binder_state) (target : Z) : C G D unit :=
  binder_write_cmd2 bs BC_ACQUIRE target.

Definition binder_release (bs : binder_state) (target : Z) : C G D unit :=
  binder_write_cmd2 bs BC_RELEASE target.

Definition binder_link_to_death (bs : binder_state) (target death : Z) : C G D unit :=
  with_frame 12 (fun dat =>
    store 4 dat BC_REQUEST_DEATH_NOTIFICATION;;
    store 4 (dat + 4) target;;
    store 4 (dat + 8) death;;
    binder_write bs dat 12;;
    mret ()).

Definition binder_done (bs : binder_state) (msg reply : binder_io) : C G D binder_io :=
  if negb (Z.land (flags reply) BIO_F_SHARED =? 0) then
    with_frame 8 (fun dat =>
      store 4 dat BC_FREE_BUFFER;;
      store 4 (dat + 4) (data0 reply);;
      binder_write bs dat 8;;
      mret (mkBio (data reply) (offs reply) (data_avail reply) (offs_avail reply)
                  (data0 reply) (offs0 reply) 0 (unused reply)))
  else mret reply.

(** ** The parser of the driver's return stream *)

Section Parse.
(** [death->func(bs, death->ptr)]: a call through a function pointer read
    from memory; the program's functions of that type. *)
Context (call_death : binder_state -> Z -> Z -> C G D unit).

(** State of the loop of [binder_parse]: the read pointer, the result so
    far, whether the parameter [bio] is still non-null, and the cursor it
    points to. *)
Record parse_state : Type := mkPs {
  ps_ptr : Z;
  ps_r : Z;
  ps_bio : bool;
  ps_io : binder_io;
}.

(** One command: carry on with a new state or return from the function. *)
Inductive parse_next : Type :=
  | PNext (s : parse_state)
  | PReturn (r : Z) (io : binder_io).

Definition ps_skip (n : Z) (s : parse_state) : parse_state :=
  mkPs (u32 (ps_ptr s + n)) (ps_r s) (ps_bio s) (ps_io s).

Definition ps_result (r : Z) (s : parse_state) : parse_state :=
  mkPs (ps_ptr s) r (ps_bio s) (ps_io s).

Definition parse_transaction (bs : binder_state) (func : option binder_handler)
  (end_ : Z) (s : parse_state) : C G D parse_next :=
  let txn := ps_ptr s in
  if u32 (end_ - ps_ptr s) <? binder_transaction_data.sizeof then
  mret (PReturn (-1) (ps_io s))
  else
  (match func with
   | None => mret ()
   | Some f =>
       with_frame 256 (fun rdata =>
         let reply := bio_init (mkBio 0 0 0 0 0 0 0 0) rdata 256 4 in
         msg ← bio_init_from_txn (mkBio 0 0 0 0 0 0 0 0) txn;
         '(res, reply) ← f bs txn msg reply;
         buffer ← load 4 (txn + binder_transaction_data.buffer);
         binder_send_reply bs reply buffer res)
   end);;
  mret (PNext (ps_skip binder_transaction_data.sizeof s)).

Definition parse_reply (end_ : Z) (s : parse_state) : C G D parse_next :=
  let txn := ps_ptr s in
  if u32 (end_ - ps_ptr s) <? binder_transaction_data.sizeof then
  mret (PReturn (-1) (ps_io s))
  else
  s ← (if ps_bio s then
         io ← bio_init_from_txn (ps_io s) txn;
         mret (mkPs (ps_ptr s) (ps_r s) false io)
       else mret s);
  mret (PNext (ps_result 0 (ps_skip binder_transaction_data.sizeof s))).

Definition parse_dead_binder (bs : binder_state) (s : parse_state) : C G D parse_next :=
  death ← load 4 (ps_ptr s);
  func ← load 4 death;
  ptr ← load 4 (death + 4);
  call_death bs func ptr;;
  mret (PNext (ps_skip 4 s)).

(** The [switch (cmd)]; [s] is past the command word. *)
Definition parse_cmd (bs : binder_state) (func : option binder_handler)
  (end_ cmd : Z) (s : parse_state) : C G D parse_next :=
  if cmd =? BR_NOOP then mret (PNext s)
  else if cmd =? BR_TRANSACTION_COMPLETE then mret (PNext s)
  else if (cmd =? BR_INCREFS) || (cmd =? BR_ACQUIRE) || (cmd =? BR_RELEASE) || (cmd =? BR_DECREFS)
  then mret (PNext (ps_skip sizeof_binder_ptr_cookie s))
  else if cmd =? BR_SPAWN_LOOPER then emit EvSpawn;; mret (PNext s)
  else if cmd =? BR_TRANSACTION then parse_transaction bs func end_ s
  else if cmd =? BR_REPLY then parse_reply end_ s
  else if cmd =? BR_DEAD_BINDER then parse_dead_binder bs s
  else if cmd =? BR_FAILED_REPLY then mret (PNext (ps_result (-1) s))
  else if cmd =? BR_DEAD_REPLY then mret (PNext (ps_result (-1) s))
  else mret (PReturn (-1) (ps_io s)).

(** [while (ptr < end)] *)
Fixpoint parse_loop (fuel : nat) (bs : binder_state) (func : option binder_handler)
  (end_ : Z) (s : parse_state) : C G D (Z * binder_io) :=
  if ps_ptr s <? end_ then
  match fuel with
  | O => fail NoFuel
  | S fuel =>
      cmd ← load 4 (ps_ptr s);
      next ← parse_cmd bs func end_ cmd (ps_skip 4 s);
      match next with
      | PNext s => parse_loop fuel bs func end_ s
      | PReturn r io => mret (r, io)
      end
  end
  else mret (ps_r s, ps_io s).

(** Every command takes at least its 4-byte word. *)
Definition parse_fuel (size : Z) : nat := S (Z.to_nat (size / 4)).

(** [bio]: whether the parameter is non-null; [io]: what it points to. *)
Definition binder_parse (bs : binder_state) (bio : bool) (io : binder_io)
  (ptr size : Z) (func : option binder_handler) : C G D (Z * binder_io) :=
  parse_loop (parse_fuel size) bs func (u32 (ptr + size)) (mkPs ptr 1 bio io).

(** ** Calls *)

(** Outcome of the [for (;;)] of [binder_call]: [None] is [goto fail]. *)
Fixpoint call_loop (fuel : nat) (bs : binder_state) (b : binder_write_read)
  (readbuf : Z) (reply : binder_io) : C G D (option binder_io) :=
  match fuel with
  | O => fail NoFuel
  | S fuel =>
    '(res, b) ← ioctl_write_read bs
       (mkBwr (write_size b) (write_consumed b) (write_buffer b) 128 0 readbuf);
    if res <? 0 then mret None
    else
      '(res, reply) ← binder_parse bs true reply readbuf (read_consumed b) None;
      if res =? 0 then mret (Some reply)
      else if res <? 0 then mret None
      else call_loop fuel bs b readbuf reply
  end.

(** [memset(reply, 0, sizeof( *reply)); reply->flags |= BIO_F_IOERROR;] *)
Definition failed_reply : binder_io := mkBio 0 0 0 0 0 0 BIO_F_IOERROR 0.

(** The locals are [writebuf] (44 bytes: [cmd], [txn]) and [readbuf] (128
    bytes). Of the transaction, [cookie], [sender_pid] and [sender_euid]
    are not assigned. *)
Definition binder_call (fuel : nat) (bs : binder_state) (msg reply : binder_io)
  (target code : Z) : C G D (Z * binder_io) :=
  with_frame 172 (fun writebuf =>
  let txn := writebuf + 4 in
  let readbuf := writebuf + 44 in
  if negb (Z.land (flags msg) BIO_F_OVERFLOW =? 0) then mret (-1, failed_reply)
  else
    store 4 writebuf BC_TRANSACTION;;
    store 4 (txn + binder_transaction_data.target) target;;
    store 4 (txn + binder_transaction_data.code) code;;
    store 4 (txn + binder_transaction_data.flags) 0;;
    store 4 (txn + binder_transaction_data.data_size) (u32 (data msg - data0 msg));;
    store 4 (txn + binder_transaction_data.offsets_size) (u32 (offs msg - offs0 msg));;
    store 4 (txn + binder_transaction_data.buffer) (data0 msg);;
    store 4 (txn + binder_transaction_data.offsets) (offs0 msg);;
    r ← call_loop fuel bs (mkBwr 44 0 writebuf 0 0 0) readbuf reply;
    match r with
    | Some reply => mret (0, reply)
    | None => mret (-1, failed_reply)
    end).

(** ** The looper *)

(** How the [for (;;)] of [binder_loop] stood after the given number of
    iterations: left by [break] (ioctl failure, unexpected reply, parse
    error) or still running. *)
Inductive loop_end : Type :=
  | LoopIoctl (res : Z)
  | LoopReply
  | LoopError (res : Z)
  | LoopRunning (b : binder_write_read).

Fixpoint looper_iter (n : nat) (bs : binder_state) (func : binder_handler)
  (b : binder_write_read) (readbuf : Z) : C G D loop_end :=
  match n with
  | O => mret (LoopRunning b)
  | S n =>
    '(res, b) ← ioctl_write_read bs
       (mkBwr (write_size b) (write_consumed b) (write_buffer b) 128 0 readbuf);
    if res <? 0 then mret (LoopIoctl res)
    else
      '(res, _) ← binder_parse bs false (mkBio 0 0 0 0 0 0 0 0) readbuf
                    (read_consumed b) (Some func);
      if res =? 0 then mret LoopReply
      else if res <? 0 then mret (LoopError res)
      else looper_iter n bs func b readbuf
  end.

(** The common text of [binder_loop] and [binder_thread_loop]. *)
Definition looper (cmd : Z) (n : nat) (bs : binder_state) (func : binder_handler) :
  C G D loop_end :=
  with_frame 128 (fun readbuf =>
  store 4 readbuf cmd;;
  binder_write bs readbuf 4;;
  looper_iter n bs func (mkBwr 0 0 0 0 0 0) readbuf).

Definition binder_loop := looper BC_ENTER_LOOPER.
Definition binder_thread_loop := looper BC_REGISTER_LOOPER.

(** The argument is [struct binder_thread_desc]: [bs] and [func]. *)
Definition binder_thread_routine (n : nat) (btd : binder_state * binder_handler) :
  C G D loop_end :=
  binder_thread_loop n (fst btd) (snd btd).
End Parse.
End Binder.
