(* ===== verification/BinderLemmas.v ===== *)
(** * Lemmas on the binder library

    Footprints of the command writers under the driver's contract, the bytes
    they hand to the driver, and the equations of the parser on a well-formed
    stream of driver messages. *)
From Stdlib Require Import ZArith Strings.Byte.
From stdpp Require Import base gmap list strings.
From S2P Require Import Prelude CMachine BinderProto BinderIo BinderParcel Binder.
Open Scope Z_scope.

(** ** Footprints *)

(** [frames F w w']: same stack pointer and globals, memory changed only at
    addresses in [F], nothing unmapped. *)
Record frames {G D} (F : Z -> Prop) (w w' : world G D) : Prop := {
    fr_sp : w_sp w' = w_sp w;
    fr_glob : w_glob w' = w_glob w;
    fr_mem : forall a, ~ F a -> w_mem w' !! a = w_mem w !! a;
    fr_dom : forall a, is_Some (w_mem w !! a) -> is_Some (w_mem w' !! a);
}.

(** The [n] bytes of stack below the current stack pointer. *)
Definition stack {G D} (w : world G D) (n : Z) (a : Z) : Prop := w_sp w - n <= a < w_sp w.

Definition union (F1 F2 : Z -> Prop) (a : Z) : Prop := F1 a \/ F2 a.

Section Frames.
Context {G D : Type}.
Implicit Types w : world G D.

Lemma frames_refl F w : frames F w w.
Proof. by split. Qed.

Lemma frames_trans F w1 w2 w3 : frames F w1 w2 -> frames F w2 w3 -> frames F w1 w3.
Proof.
  intros [A1 A2 A3 A4] [B1 B2 B3 B4]. split; [congruence..| |auto].
  intros a Ha. rewrite B3, A3 by done. done.
Qed.

Lemma frames_weaken (F F' : Z -> Prop) w w' :
  (forall a, F a -> F' a) -> frames F w w' -> frames F' w w'.
Proof. intros Hw []. split; auto. Qed.

Lemma frames_agree F w w' p n :
  frames F w w' -> (forall a, p <= a < p + n -> ~ F a) -> agree (w_mem w) (w_mem w') p n.
Proof. intros [] Hd a Ha. auto. Qed.

Lemma frames_mapped F w w' p n :
  frames F w w' -> mapped (w_mem w) p n -> mapped (w_mem w') p n.
Proof. intros [] Hm a Ha. auto. Qed.

Lemma frames_set_mem F w m' p n :
  modifies (w_mem w) m' p n -> (forall a, p <= a < p + n -> F a) -> frames F w (set_mem m' w).
Proof. intros [Hf Hd] HF. split; try done. intros a Ha. apply Hf. auto. Qed.

(** Running a body in a stack frame. *)
Lemma with_frame_run {A} n (body : Z -> C G D A) w a w' :
  body (w_sp w - n) (set_sp (w_sp w - n) w) = Ok a w' ->
  with_frame n body w = Ok a (set_sp (w_sp w) w').
Proof. unfold with_frame. by intros ->. Qed.

Lemma frames_with_frame F w w' n :
  frames F (set_sp (w_sp w - n) w) w' -> frames F w (set_sp (w_sp w) w').
Proof. intros []. by split. Qed.
End Frames.

#[export] Hint Resolve frames_refl : cint.

(** ** Stores to consecutive words of a local structure *)

Lemma bytes_at_u32s_snoc m p vs v :
  bytes_at m p (u32s_bytes (vs ++ [v])) <->
  bytes_at m p (u32s_bytes vs) /\ bytes_at m (p + 4 * Z.of_nat (length vs)) (le_bytes 4 v).
Proof.
  rewrite u32s_bytes_snoc, bytes_at_app, length_u32s_bytes.
  by replace (p + Z.of_nat (4 * length vs)) with (p + 4 * Z.of_nat (length vs)) by lia.
Qed.

(** What the words at [p] are after assigning word [i]: the view of a local
    structure as a list of words. *)
Definition words_at (m : memory) (p : Z) (vs : list Z) : Prop := bytes_at m p (u32s_bytes vs).

Lemma words_at_lookup m p vs :
  words_at m p vs <->
  forall i v, vs !! i = Some v -> bytes_at m (p + 4 * Z.of_nat i) (le_bytes 4 v).
Proof.
  unfold words_at. revert p; induction vs as [|v vs IH]; intros p.
  - split; [done|]. intros _. apply bytes_at_lookup. done.
  - change (u32s_bytes (v :: vs)) with (le_bytes 4 v ++ u32s_bytes vs).
    rewrite bytes_at_app, IH, length_le_bytes. split.
    + intros [H1 H2] [|i] u Hi.
      * injection Hi as ->. by replace (p + 4 * Z.of_nat 0) with p by lia.
      * specialize (H2 i u Hi). by replace (p + 4 * Z.of_nat (S i)) with (p + Z.of_nat 4 + 4 * Z.of_nat i) by lia.
    + intros H. split.
      * specialize (H 0%nat v eq_refl). by replace (p + 4 * Z.of_nat 0) with p in H by lia.
      * intros i u Hi. specialize (H (S i) u Hi).
        by replace (p + Z.of_nat 4 + 4 * Z.of_nat i) with (p + 4 * Z.of_nat (S i)) by lia.
Qed.

(** Mapped memory holds some words. *)
Lemma mapped_words m p n :
  mapped m p (4 * Z.of_nat n) ->
  exists vs, length vs = n /\ words_at m p vs /\ Forall (fun v => 0 <= v < 4294967296) vs.
Proof.
  revert p; induction n as [|n IH]; intros p Hm.
  - exists []. split_and!; try done.
  - destruct (IH (p + 4)) as (vs & Hl & Hw & Hr). { eapply mapped_sub; [exact Hm|lia..]. }
    destruct (mapped_mem_get m p 4) as (bs & E & L). { eapply mapped_sub; [exact Hm|lia..]. }
    exists (le_val bs :: vs). split_and!; [simpl; lia| |].
    + unfold words_at.
      change (u32s_bytes (le_val bs :: vs)) with (le_bytes 4 (le_val bs) ++ u32s_bytes vs).
      apply bytes_at_app. split; [|by rewrite length_le_bytes].
      rewrite <- L, le_bytes_val. by eapply mem_get_bytes_at.
    + apply Forall_cons_2; [|done]. by apply le_val_4_range.
Qed.

(** Assigning word [i]. *)
Lemma words_at_store m p vs i v :
  words_at m p vs -> (i < length vs)%nat ->
  words_at (mem_write m (p + 4 * Z.of_nat i) (le_bytes 4 v)) p (<[i := v]> vs).
Proof.
  rewrite !words_at_lookup. intros H Hi j u Hj.
  destruct (decide (i = j)) as [<-|Hne].
  - rewrite list_lookup_insert_eq in Hj by done. injection Hj as ->. apply mem_write_bytes_at.
  - rewrite list_lookup_insert_ne in Hj by done.
    eapply bytes_at_agree; [|by apply H].
    apply mem_write_agree. rewrite !length_le_bytes. lia.
Qed.

Lemma words_at_mapped m p vs : words_at m p vs -> mapped m p (4 * Z.of_nat (length vs)).
Proof.
  intros H%bytes_at_mapped. rewrite length_u32s_bytes in H.
  by replace (4 * Z.of_nat (length vs)) with (Z.of_nat (4 * length vs)) by lia.
Qed.

Section WordStores.
Context {G D : Type}.
Implicit Types w : world G D.

(** A field assignment in a local structure held as words: [m0] is the
    memory on entry. *)
Context {F : fault -> Prop}.

Lemma wp_store_word {B} (i : nat) (k : unit -> C G D B) m0 p q vs v n m w Q :
  words_at m p vs -> modifies m0 m p n -> 4 * Z.of_nat (length vs) <= n ->
  (i < length vs)%nat -> q = p + 4 * Z.of_nat i ->
  (forall m', words_at m' p (<[i := v]> vs) -> modifies m0 m' p n ->
              wpf F (k tt) Q (set_mem m' w)) ->
  wpf F (store 4 q v ≫= k) Q (set_mem m w).
Proof.
  intros H M Hn Hi -> Hk. apply wp_bind, wp_store.
  - eapply mapped_sub; [by apply words_at_mapped|lia..].
  - apply Hk; [by apply words_at_store|].
    eapply modifies_trans; [done|]. eapply modifies_weaken.
    + apply (mem_write_modifies _ _ _ 4). by rewrite length_le_bytes.
    + right. lia.
Qed.

Lemma wp_store_word_last (i : nat) m0 p q vs v n m w Q :
  words_at m p vs -> modifies m0 m p n -> 4 * Z.of_nat (length vs) <= n ->
  (i < length vs)%nat -> q = p + 4 * Z.of_nat i ->
  (forall m', words_at m' p (<[i := v]> vs) -> modifies m0 m' p n -> Q tt (set_mem m' w)) ->
  wpf F (store 4 q v) Q (set_mem m w).
Proof.
  intros Hw M Hn Hi Hq HQ.
  cut (wpf F (store 4 q v ≫= mret) Q (set_mem m w)).
  { unfold wpf, mbind, C_bind. by destruct (store 4 q v _). }
  by eapply wp_store_word.
Qed.

Lemma set_mem_id w : set_mem (w_mem w) w = w.
Proof. by destruct w. Qed.

(** Entering a block of [n] words of local variables. *)
Lemma wp_locals {A} n (k : nat) (body : Z -> C G D A) Q w :
  n = 4 * Z.of_nat k -> mapped (w_mem w) (w_sp w - n) n ->
  (forall vs, length vs = k -> words_at (w_mem w) (w_sp w - n) vs ->
     wpf F (body (w_sp w - n)) (fun a w' => Q a (set_sp (w_sp w) w'))
        (set_mem (w_mem w) (set_sp (w_sp w - n) w))) ->
  wpf F (with_frame n body) Q w.
Proof.
  intros -> Hm Hb. destruct (mapped_words _ _ _ Hm) as (vs & Hl & Hw & _).
  apply wp_with_frame. exact (Hb vs Hl Hw).
Qed.
End WordStores.

(** Steps over the assignment of word [i] of the local structure. *)
Ltac word_side :=
  first [eassumption | reflexivity
        | unfold binder_transaction_data.target, binder_transaction_data.cookie,
            binder_transaction_data.code, binder_transaction_data.flags,
            binder_transaction_data.data_size, binder_transaction_data.offsets_size,
            binder_transaction_data.buffer, binder_transaction_data.offsets; simpl; lia].

Ltac word_intro :=
  let H := fresh "Hw" in let M := fresh "Hmod" in
  intros ? H M; cbn [insert list_insert] in H;
  repeat match goal with
         | H' : words_at ?m ?p _ |- _ => tryif constr_eq H H' then fail else clear H'
         end;
  repeat match goal with
         | M' : modifies _ ?m _ _ |- _ => tryif constr_eq M M' then fail else clear M'
         end.

Ltac word_store i :=
  first [eapply (wp_store_word i) | eapply (wp_store_word_last i)];
  [word_side..|word_intro].

(** ** The effect of a piece of code *)

(** [effect F evs w w']: memory changed only in [F], and the events [evs]
    were produced. *)
Record effect {G D} (F : Z -> Prop) (evs : list event) (w w' : world G D) : Prop := {
    ef_frames : frames F w w';
    ef_trace : w_trace w' = w_trace w ++ evs;
}.

Section Effects.
Context {G D : Type}.
Implicit Types w : world G D.

Lemma effect_refl F w : effect F [] w w.
Proof. split; [apply frames_refl|by rewrite app_nil_r]. Qed.

Lemma effect_trans F e1 e2 w1 w2 w3 :
  effect F e1 w1 w2 -> effect F e2 w2 w3 -> effect F (e1 ++ e2) w1 w3.
Proof.
  intros [A1 A2] [B1 B2]. split; [by eapply frames_trans|].
  by rewrite B2, A2, app_assoc.
Qed.

Lemma effect_weaken (F F' : Z -> Prop) evs w w' :
  (forall a, F a -> F' a) -> effect F evs w w' -> effect F' evs w w'.
Proof. intros HF []. split; [by eapply frames_weaken|done]. Qed.

Lemma effect_mapped F evs w w' p n :
  effect F evs w w' -> mapped (w_mem w) p n -> mapped (w_mem w') p n.
Proof. intros []. by eapply frames_mapped. Qed.

Lemma effect_agree F evs w w' p n :
  effect F evs w w' -> (forall a, p <= a < p + n -> ~ F a) -> agree (w_mem w) (w_mem w') p n.
Proof. intros []. by apply frames_agree. Qed.

Lemma effect_bytes_at F evs w w' p bs :
  effect F evs w w' -> (forall a, p <= a < p + Z.of_nat (length bs) -> ~ F a) ->
  bytes_at (w_mem w) p bs -> bytes_at (w_mem w') p bs.
Proof. intros E HF. apply bytes_at_agree. by eapply effect_agree. Qed.

(** Stores to local variables before, and code of effect [F] after. *)
Lemma effect_locals F evs w n m' w' :
  modifies (w_mem w) m' (w_sp w - n) n ->
  effect (union (stack w n) F) evs (set_mem m' (set_sp (w_sp w - n) w)) w' ->
  effect (union (stack w n) F) evs w (set_sp (w_sp w) w').
Proof.
  intros M [[E1 E2 E3 E4] E5]. split; [split|]; try done.
  - intros a Ha. cbn [w_mem set_sp]. rewrite E3 by done. cbn [w_mem set_mem].
    apply (mod_frame _ _ _ _ M). intros Hs. apply Ha. left. unfold stack. lia.
  - intros a Ha. apply E4. by apply (mod_dom _ _ _ _ M).
Qed.
End Effects.

#[export] Hint Resolve effect_refl : cint.

(** ** Writing commands to the driver *)

Definition write_event (bs : binder_state) (payload : list byte) : event :=
  EvIoctl (fd bs) BINDER_WRITE_READ payload.

Definition command2 (c target : Z) : list byte := u32s_bytes [c; target].

Definition link_command (target death : Z) : list byte :=
  u32s_bytes [BC_REQUEST_DEATH_NOTIFICATION; target; death].
