(* ===== verification/BinderParse.v ===== *)
(** * The parser of the driver's return stream

    The messages the driver puts in a read buffer, their encoding, and the
    simulation principle for [binder_parse]: on the encoding of a list of
    messages it performs one step per message, in order, and returns the
    status of the last message that carries one. *)
From Stdlib Require Import ZArith Strings.Byte.
From stdpp Require Import base gmap list strings.
From S2P Require Import Prelude CMachine BinderProto BinderIo BinderParcel Binder BinderLemmas.
Open Scope Z_scope.

(** ** Messages *)

Inductive br_msg : Type :=
  | MNoop
  | MComplete
  | MRef (code ptr cookie : Z)      (* INCREFS, ACQUIRE, RELEASE, DECREFS *)
  | MSpawn
  | MTxn (t : txn_data)
  | MReply (t : txn_data)
  | MDead (cookie : Z)
  | MFailed
  | MDeadReply.

Definition msg_words (m : br_msg) : list Z :=
  match m with
  | MNoop => [BR_NOOP]
  | MComplete => [BR_TRANSACTION_COMPLETE]
  | MRef code ptr cookie => [code; ptr; cookie]
  | MSpawn => [BR_SPAWN_LOOPER]
  | MTxn t => BR_TRANSACTION :: txn_fields t
  | MReply t => BR_REPLY :: txn_fields t
  | MDead cookie => [BR_DEAD_BINDER; cookie]
  | MFailed => [BR_FAILED_REPLY]
  | MDeadReply => [BR_DEAD_REPLY]
  end.

Definition word_ok (v : Z) : Prop := 0 <= v < 4294967296.

Definition msg_wf (m : br_msg) : Prop :=
  Forall word_ok (msg_words m) /\
  match m with
  | MRef code _ _ => code ∈ [BR_INCREFS; BR_ACQUIRE; BR_RELEASE; BR_DECREFS]
  | _ => True
  end.

(** The read buffer as words. *)
Definition stream (ms : list br_msg) : list Z := concat (map msg_words ms).

Lemma stream_cons m ms : stream (m :: ms) = msg_words m ++ stream ms.
Proof. done. Qed.

Lemma msg_words_cons m : exists cmd ws, msg_words m = cmd :: ws.
Proof. destruct m; cbn; eauto. Qed.

Lemma stream_length ms : (length ms <= length (stream ms))%nat.
Proof.
  induction ms as [|m ms IH]; [done|].
  rewrite stream_cons, length_app. destruct (msg_words_cons m) as (c & ws & ->). simpl. lia.
Qed.

(** ** What the parser reports *)

(** The status: 1 to go on, 0 after a reply, -1 after a failure; the last
    message that has one decides. *)
Definition msg_status (r : Z) (m : br_msg) : Z :=
  match m with
  | MReply _ => 0
  | MFailed | MDeadReply => -1
  | _ => r
  end.

Definition parse_status (ms : list br_msg) : Z := fold_left msg_status ms 1.

Definition txn_bio (t : txn_data) (io : binder_io) : binder_io :=
  mkBio (t_buffer t) (t_offsets t) (t_data_size t) (t_offsets_size t / 4)
        (t_buffer t) (t_offsets t) BIO_F_SHARED (unused io).

(** The cursor argument is set from the first reply only. *)
Definition msg_bio (s : bool * binder_io) (m : br_msg) : bool * binder_io :=
  match m with
  | MReply t => if s.1 then (false, txn_bio t s.2) else s
  | _ => s
  end.

Lemma parse_status_cases ms :
  parse_status ms = -1 \/ parse_status ms = 0 \/ parse_status ms = 1.
Proof.
  unfold parse_status. assert (forall r, r = -1 \/ r = 0 \/ r = 1 ->
    let r' := fold_left msg_status ms r in r' = -1 \/ r' = 0 \/ r' = 1) as Hg; [|apply Hg; lia].
  induction ms as [|m ms IH]; intros r Hr; [done|]. apply IH. destruct m; cbn [msg_status]; lia.
Qed.

(** Decides the comparisons of the [switch] on a known code. *)
Ltac decide_code :=
  repeat match goal with
         | |- context [if ?c then _ else _] =>
             let b := eval vm_compute in c in
             lazymatch b with
             | true => change c with true
             | false => change c with false
             end; cbv iota
         end.

Section ParseSim.
Context {G D : Type} `{BinderDriver D}.
Context (call_death : binder_state -> Z -> Z -> C G D unit).
Context (bs : binder_state) (func : option (@binder_handler G D)).
Implicit Types w : world G D.

(** The body of the [BR_TRANSACTION] case. *)
Definition handle_txn (txn : Z) : C G D unit :=
  match func with
  | None => mret ()
  | Some f =>
      with_frame 256 (fun rdata =>
        let reply := bio_init (mkBio 0 0 0 0 0 0 0 0) rdata 256 4 in
        msg ← bio_init_from_txn (mkBio 0 0 0 0 0 0 0 0) txn;
        '(res, reply) ← f bs txn msg reply;
        buffer ← load 4 (txn + binder_transaction_data.buffer);
        binder_send_reply bs reply buffer res)
  end.

(** The body of the [BR_DEAD_BINDER] case. *)
Definition handle_dead (death : Z) : C G D unit :=
  fn ← load 4 death;
  ptr ← load 4 (death + 4);
  call_death bs fn ptr.

(** The faults a handler is allowed; for most there are none. *)
Context (F : fault -> Prop).

(** [Inv ms w]: the state after the messages [ms] have been processed; the
    read buffer, at [base], is intact. *)
Record parse_sim (base : Z) (all : list br_msg) (Inv : list br_msg -> world G D -> Prop) : Prop := {
  sim_buffer h w : Inv h w -> words_at (w_mem w) base (stream all);
  sim_silent h m w :
    Inv h w -> m ∈ all ->
    match m with MTxn _ | MDead _ | MSpawn => False | _ => True end -> Inv (h ++ [m]) w;
  sim_spawn h w :
    Inv h w -> MSpawn ∈ all -> wpf F (emit EvSpawn) (fun _ => Inv (h ++ [MSpawn])) w;
  sim_txn h t p w :
    Inv h w -> MTxn t ∈ all -> txn_at (w_mem w) p t ->
    base <= p /\ p + 40 <= base + 4 * Z.of_nat (length (stream all)) ->
    wpf F (handle_txn p) (fun _ => Inv (h ++ [MTxn t])) w;
  sim_dead h c w :
    Inv h w -> MDead c ∈ all -> wpf F (handle_dead c) (fun _ => Inv (h ++ [MDead c])) w;
}.

Lemma words_at_app m p a b :
  words_at m p (a ++ b) <-> words_at m p a /\ words_at m (p + 4 * Z.of_nat (length a)) b.
Proof.
  unfold words_at, u32s_bytes. rewrite map_app, concat_app, bytes_at_app.
  change (concat (map (le_bytes 4) a)) with (u32s_bytes a). rewrite length_u32s_bytes.
  by replace (p + Z.of_nat (4 * length a)) with (p + 4 * Z.of_nat (length a)) by lia.
Qed.

Lemma run_load_word w p vs i v :
  words_at (w_mem w) p vs -> vs !! i = Some v -> word_ok v ->
  load 4 (p + 4 * Z.of_nat i) w = Ok v w.
Proof.
  intros Hw Hi Hv. erewrite run_load by (eapply bytes_at_u32; done).
  by rewrite le_val_bytes_4.
Qed.

Lemma stream_app a b : stream (a ++ b) = stream a ++ stream b.
Proof. unfold stream. by rewrite map_app, concat_app. Qed.

(** One message. *)
Definition parse_after (m : br_msg) (s : parse_state) : parse_state :=
  let '(b, io) := msg_bio (ps_bio s, ps_io s) m in
  mkPs (ps_ptr s + 4 * Z.of_nat (length (msg_words m)) - 4) (msg_status (ps_r s) m) b io.

Lemma parse_after_ptr m s :
  ps_ptr (parse_after m s) = ps_ptr s + 4 * Z.of_nat (length (msg_words m)) - 4.
Proof. unfold parse_after. by destruct (msg_bio _ m). Qed.

Lemma ps_skip_txn s :
  0 <= ps_ptr s -> ps_ptr s + 40 < 4294967296 ->
  ps_skip binder_transaction_data.sizeof s =
  mkPs (ps_ptr s + 4 * Z.of_nat 11 - 4) (ps_r s) (ps_bio s) (ps_io s).
Proof.
  intros. unfold ps_skip, binder_transaction_data.sizeof. rewrite u32_small by lia.
  f_equal. lia.
Qed.

(** The two transaction cases when the structure fits the buffer. *)
Lemma wp_parse_txn end_ s Q w :
  0 <= ps_ptr s -> ps_ptr s + 40 <= end_ < 4294967296 ->
  wpf F (handle_txn (ps_ptr s) ≫= fun _ => mret (PNext (ps_skip binder_transaction_data.sizeof s))) Q w ->
  wpf F (parse_transaction bs func end_ s) Q w.
Proof.
  intros Hp He HQ. unfold parse_transaction. rewrite u32_small by lia.
  unfold binder_transaction_data.sizeof at 1. case_cmp; [lia|]. exact HQ.
Qed.

Lemma wp_parse_reply end_ s t Q w :
  0 <= ps_ptr s -> ps_ptr s + 40 <= end_ < 4294967296 ->
  txn_at (w_mem w) (ps_ptr s) t ->
  Q (PNext (let '(b, io) := msg_bio (ps_bio s, ps_io s) (MReply t) in
            mkPs (ps_ptr s + 40) 0 b io)) w ->
  wpf F (parse_reply end_ s) Q w.
Proof.
  intros Hp He Ht HQ. unfold parse_reply. rewrite u32_small by lia.
  unfold binder_transaction_data.sizeof at 1. case_cmp; [lia|].
  assert (u32 (ps_ptr s + 40) = ps_ptr s + 40) as Eu by (apply u32_small; lia).
  apply wp_bind. cbn [msg_bio fst snd] in HQ. destruct (ps_bio s) eqn:Eb.
  - apply wp_bind. eapply wp_run; [by apply bio_init_from_txn_run|]. do 2 apply wp_ret.
    unfold ps_result, ps_skip, binder_transaction_data.sizeof. cbn [ps_ptr ps_r ps_bio ps_io].
    rewrite Eu. exact HQ.
  - do 2 apply wp_ret.
    unfold ps_result, ps_skip, binder_transaction_data.sizeof. cbn [ps_ptr ps_r ps_bio ps_io].
    rewrite Eu, Eb. exact HQ.
Qed.

Lemma parse_cmd_sim base all Inv h m ms p s w :
  parse_sim base all Inv -> Inv h w -> all = h ++ m :: ms -> msg_wf m ->
  p = base + 4 * Z.of_nat (length (stream h)) -> ps_ptr s = p + 4 -> 0 <= base ->
  base + 4 * Z.of_nat (length (stream all)) < 4294967296 ->
  wpf F (parse_cmd call_death bs func (base + 4 * Z.of_nat (length (stream all)))
        (hd 0 (msg_words m)) s)
     (fun next w' => next = PNext (parse_after m s) /\ Inv (h ++ [m]) w') w.
Proof.
  intros S I E [Hwf Hc] Ep Es Hb Hhi.
  assert (words_at (w_mem w) p (msg_words m ++ stream ms)) as Hw.
  { pose proof (sim_buffer _ _ _ S h w I) as HB.
    rewrite E, stream_app, stream_cons in HB. apply words_at_app in HB as [_ HB]. by rewrite Ep. }
  apply words_at_app in Hw as [Hw _].
  assert (m ∈ all) as Hin by (rewrite E; apply elem_of_app; right; left).
  assert (p + 4 * Z.of_nat (length (msg_words m)) <=
          base + 4 * Z.of_nat (length (stream all))) as Hroom.
  { rewrite E, stream_app, stream_cons, !length_app. lia. }
  pose proof (words_at_mapped _ _ _ Hw) as Hmap.
  unfold parse_cmd, parse_after.
  destruct m as [| |code ptr cookie| |t|t|c| |]; cbn [hd msg_words msg_bio msg_status length] in *.
  3: assert (code = BR_INCREFS \/ code = BR_ACQUIRE \/ code = BR_RELEASE \/ code = BR_DECREFS)
       as [-> | [-> | [-> | ->]]] by (rewrite !elem_of_cons, elem_of_nil in Hc; tauto).
  all: decide_code.
  all: try (apply wp_ret; split;
            [unfold ps_skip, ps_result, sizeof_binder_ptr_cookie;
             destruct s; cbn in *; rewrite ?u32_small by lia; do 2 f_equal; lia
            |by apply (sim_silent _ _ _ S)]).
  - apply wp_bind. eapply wp_mono; [by eapply (sim_spawn _ _ _ S)|]. intros [] w' I'.
    apply wp_ret. split; [|done]. destruct s; cbn in *. do 2 f_equal. lia.
  - change (length (txn_fields t)) with 10%nat in *. apply wp_parse_txn; [lia|lia|]. apply wp_bind.
    eapply wp_mono.
    + apply (sim_txn _ _ _ S h t (ps_ptr s) w I Hin); [|lia].
      rewrite Es. apply (words_at_app _ p [BR_TRANSACTION] (txn_fields t)) in Hw as [_ Hw].
      split; [exact Hw|]. by apply Forall_cons in Hwf as [_ Hwf].
    + intros [] w' I'. apply wp_ret. split; [|done]. by rewrite ps_skip_txn by lia.
  - change (length (txn_fields t)) with 10%nat in *. eapply (wp_parse_reply _ s t); [lia|lia| |].
    + rewrite Es. apply (words_at_app _ p [BR_REPLY] (txn_fields t)) in Hw as [_ Hw].
      split; [exact Hw|]. by apply Forall_cons in Hwf as [_ Hwf].
    + split; [|by apply (sim_silent _ _ _ S)].
      destruct (ps_bio s); cbn [fst snd]; do 2 f_equal; cbn [length txn_fields]; lia.
  - unfold parse_dead_binder. apply wp_bind. eapply wp_run.
    { rewrite Es. apply (run_load_word w p [BR_DEAD_BINDER; c] 1 c Hw eq_refl).
      apply Forall_cons in Hwf as [_ Hwf]. by apply Forall_cons in Hwf as [? _]. }
    pose proof (sim_dead _ _ _ S h c w I Hin) as Hd.
    unfold handle_dead in Hd. unfold wpf, mbind, C_bind in *.
    destruct (load 4 c w) as [fn w1|]; [|done].
    destruct (load 4 (c + 4) w1) as [ptr w2|]; [|done].
    destruct (call_death bs fn ptr w2) as [[] w3|]; [|done]. split; [|done].
    unfold ps_skip. rewrite u32_small by lia. do 2 f_equal. lia.
Qed.

(** The loop. *)
Lemma parse_loop_sim base all Inv ms : forall fuel h s w,
  parse_sim base all Inv -> Inv h w -> all = h ++ ms -> Forall msg_wf ms ->
  ps_ptr s = base + 4 * Z.of_nat (length (stream h)) -> 0 <= base ->
  base + 4 * Z.of_nat (length (stream all)) + 4 < 4294967296 -> (length ms <= fuel)%nat ->
  wpf F (parse_loop call_death fuel bs func (base + 4 * Z.of_nat (length (stream all))) s)
     (fun '(r, io) w' =>
        r = fold_left msg_status ms (ps_r s) /\
        io = snd (fold_left msg_bio ms (ps_bio s, ps_io s)) /\ Inv all w') w.
Proof.
  induction ms as [|m ms IH]; intros fuel h s w S I E Hwf Ep Hb Hhi Hf.
  - rewrite app_nil_r in E. subst all.
    destruct fuel; cbn [parse_loop]; (case_cmp; [lia|]); by apply wp_ret.
  - pose proof (msg_words_cons m) as (cmd & ws & Em).
    apply Forall_cons in Hwf as [Hm Hwf].
    assert (words_at (w_mem w) (ps_ptr s) (cmd :: ws ++ stream ms)) as Hw.
    { pose proof (sim_buffer _ _ _ S h w I) as HB.
      rewrite E, stream_app, stream_cons, Em in HB. apply words_at_app in HB as [_ HB]. by rewrite Ep. }
    pose proof (words_at_mapped _ _ _ Hw) as Hmap. cbn [length] in *.
    assert (ps_ptr s + 4 * Z.of_nat (Datatypes.S (length (ws ++ stream ms))) =
            base + 4 * Z.of_nat (length (stream all))) as Hend.
    { rewrite Ep, E, stream_app, stream_cons, Em, !length_app. cbn [length app]. lia. }
    destruct fuel as [|fuel]; [lia|]. cbn [parse_loop].
    case_cmp; [|lia]. apply wp_bind. eapply wp_run.
    { pose proof (run_load_word w (ps_ptr s) (cmd :: ws ++ stream ms) 0 cmd Hw eq_refl) as R.
      rewrite Z.add_0_r in R. apply R. destruct Hm as [Hm _]. rewrite Em in Hm.
      by apply Forall_cons in Hm as [? _]. }
    replace cmd with (hd 0 (msg_words m)) by (by rewrite Em).
    apply wp_bind. eapply wp_mono.
    + eapply (parse_cmd_sim base all Inv h m ms (ps_ptr s)); try done; try lia.
      unfold ps_skip. cbn [ps_ptr]. rewrite u32_small; lia.
    + intros next w' [-> I']. cbn beta iota.
      eapply wp_mono; [apply (IH fuel (h ++ [m])); try done|].
      * by rewrite <- app_assoc.
      * rewrite parse_after_ptr, stream_app, length_app. unfold ps_skip. cbn [ps_ptr].
        rewrite u32_small by lia. unfold stream at 2. cbn [map concat].
        rewrite app_nil_r. lia.
      * lia.
      * intros [r io] w'' (Hr & Hio & Hi). split_and!; [|rewrite Hio|done].
        { rewrite Hr. cbn [fold_left]. unfold parse_after.
          by destruct (msg_bio _ m). }
        { cbn [fold_left]. unfold parse_after. cbn [ps_skip ps_bio ps_io].
          by destruct (msg_bio _ m). }
Qed.

(** [binder_parse] on a stream of messages. *)
Lemma binder_parse_sim base ms Inv bio io w :
  parse_sim base ms Inv -> Inv [] w -> Forall msg_wf ms -> 0 <= base ->
  base + 4 * Z.of_nat (length (stream ms)) + 4 < 4294967296 ->
  wpf F (binder_parse call_death bs bio io base (4 * Z.of_nat (length (stream ms))) func)
     (fun '(r, io') w' =>
        r = parse_status ms /\ io' = snd (fold_left msg_bio ms (bio, io)) /\ Inv ms w') w.
Proof.
  intros S I Hwf Hb Hhi. unfold binder_parse. rewrite u32_small by lia.
  eapply (parse_loop_sim base ms Inv ms _ [] (mkPs base 1 bio io)); try done.
  - cbn. lia.
  - unfold parse_fuel. pose proof (stream_length ms).
    rewrite (Z.mul_comm 4), Z.div_mul by lia. lia.
Qed.
End ParseSim.
