(* ===== verification/BinderDriver.v ===== *)
(** * The contract of the binder driver

    What the clients of the library rely on in the kernel driver, which is
    outside src/: a successful read leaves whole messages in the read buffer,
    transaction buffers lie in the mapped area, the whole write buffer is
    consumed, and only cookies registered with BC_REQUEST_DEATH_NOTIFICATION
    come back in BR_DEAD_BINDER. [Script] is a driver that satisfies it. *)
From Stdlib Require Import ZArith Strings.Byte.
From stdpp Require Import base gmap list strings.
From S2P Require Import Prelude CMachine BinderProto BinderIo BinderParcel Binder BinderLemmas BinderParse.
Open Scope Z_scope.

(** The payload of a transaction: a readable message in the area. *)
Record txn_valid (area : Z -> Prop) (m : memory) (t : txn_data) : Prop := {
    tv_in : bio_in m (txn_bio t (mkBio 0 0 0 0 0 0 0 0));
    tv_area : forall a, t_buffer t <= a < t_buffer t + t_data_size t -> area a;
}.

Definition msg_valid (area : Z -> Prop) (cookies : list Z) (m : memory) (msg : br_msg) : Prop :=
  msg_wf msg /\
  match msg with
  | MTxn t | MReply t => txn_valid area m t
  | MDead c => c ∈ cookies
  | _ => True
  end.

(** [drv_cookies]: the death cookies the driver has been handed. *)
Class BinderProtocol (D : Type) `{BinderDriver D} (area : Z -> Prop) : Type := {
    #[global] proto_ok :: BinderDriverOk D area;
    drv_cookies : D -> list Z;
    drv_read d m b res b' m' d' :
      drv_write_read d m b = (res, b', m', d') -> 0 <= res -> read_consumed b = 0 ->
      exists ms, Forall (msg_valid area (drv_cookies d') m') ms /\
                 words_at m' (read_buffer b) (stream ms) /\
                 read_consumed b' = 4 * Z.of_nat (length (stream ms)) /\ read_consumed b' <= read_size b;
    drv_written d m b res b' m' d' :
      drv_write_read d m b = (res, b', m', d') -> 0 <= res ->
      write_size b' = write_size b /\ write_consumed b' = write_size b /\
      write_buffer b' = write_buffer b;
    drv_registers d m b res b' m' d' c :
      drv_write_read d m b = (res, b', m', d') -> c ∈ drv_cookies d' ->
      c ∈ drv_cookies d \/
      exists target, word_ok c /\ write_size b - write_consumed b = 12 /\
                     bytes_at m (write_buffer b + write_consumed b) (link_command target c);
    drv_control_cookies d request arg : drv_cookies (snd (drv_control d request arg)) = drv_cookies d;
}.

(** ** A scripted driver *)

Module Script.
(** The responses to come, one per read, and the cookies registered. *)
Record state : Type := mkState {
  script : list (list br_msg);
  cookies : list Z;
}.

(** Its area is [lo, hi). *)
Definition lo : Z := 65536.
Definition hi : Z := 69632.
Definition area (a : Z) : Prop := lo <= a < hi.

Definition txn_validb (m : memory) (t : txn_data) : bool :=
  (lo <=? t_buffer t) && (0 <=? t_data_size t) && (t_buffer t + t_data_size t <=? hi) &&
  (lo <=? t_offsets t) && (0 <=? t_offsets_size t) && (t_offsets t + t_offsets_size t <=? hi) &&
  mappedb m lo (hi - lo).

Definition msg_validb (cs : list Z) (m : memory) (msg : br_msg) : bool :=
  bool_decide (Forall (fun v => (0 <=? v) && (v <? 4294967296) = true) (msg_words msg)) &&
  match msg with
  | MTxn t | MReply t => txn_validb m t
  | MDead c => bool_decide (c ∈ cs)
  | MRef code _ _ => bool_decide (code ∈ [BR_INCREFS; BR_ACQUIRE; BR_RELEASE; BR_DECREFS])
  | _ => true
  end.

(** The cookie of a command buffer that is one link request. *)
Definition registered (m : memory) (b : binder_write_read) : list Z :=
  match mem_get m (write_buffer b + write_consumed b) 12 with
  | Some bs =>
      let c := le_val (drop 8 bs) in
      if bool_decide (write_size b - write_consumed b = 12) &&
         bool_decide (take 4 bs = le_bytes 4 BC_REQUEST_DEATH_NOTIFICATION)
      then [c] else []
  | None => []
  end.

Definition write_read (d : state) (m : memory) (b : binder_write_read) :
    Z * binder_write_read * memory * state :=
  let cs := registered m b ++ cookies d in
  let done n := mkBwr (write_size b) (write_size b) (write_buffer b) (read_size b) n (read_buffer b) in
  if read_size b =? 0 then (0, done 0, m, mkState (script d) cs)
  else
    match script d with
    | [] => (-1, b, m, mkState [] cs)
    | ms :: rest =>
        let len := 4 * Z.of_nat (length (stream ms)) in
        let m' := mem_write m (read_buffer b) (u32s_bytes (stream ms)) in
        if (len <=? read_size b) && mappedb m (read_buffer b) len &&
           bool_decide (Forall (fun x => msg_validb cs m' x = true) ms)
        then (0, done len, m', mkState rest cs)
        else (-1, b, m, mkState rest cs)
    end.

#[global] Instance driver : BinderDriver state := {|
  drv_write_read := write_read;
  drv_control d request arg := (0, d);
  |}.

Lemma txn_validb_valid m t : txn_validb m t = true -> txn_valid area m t.
Proof.
  unfold txn_validb. rewrite !andb_true_iff, !Z.leb_le.
  intros [[[[[[] ] ] ] ] Hm]. apply mappedb_mapped in Hm. unfold lo, hi in *. split.
  - split; cbn [data data_avail offs offs_avail txn_bio]; try lia.
    + eapply mapped_sub; [exact Hm|lia..].
    + eapply mapped_sub; [exact Hm|lia|]. div_lia.
  - intros a Ha. unfold area, lo, hi. lia.
Qed.

Lemma msg_validb_valid cs m msg : msg_validb cs m msg = true -> msg_valid area cs m msg.
Proof.
  unfold msg_validb, msg_valid, msg_wf. rewrite andb_true_iff, bool_decide_eq_true.
  intros [Hw Hm]. split; [split|].
  - eapply Forall_impl; [exact Hw|]. cbn. intros v. unfold word_ok. lia.
  - destruct msg; try done. by apply bool_decide_eq_true in Hm.
  - destruct msg; try done; [by apply txn_validb_valid..|by apply bool_decide_eq_true in Hm].
Qed.

Lemma registered_spec m b c :
  c ∈ registered m b ->
  exists target, word_ok c /\ write_size b - write_consumed b = 12 /\
                 bytes_at m (write_buffer b + write_consumed b) (link_command target c).
Proof.
  unfold registered. destruct (mem_get m _ 12) as [bs|] eqn:E; [|by intros ?%elem_of_nil].
  case_bool_decide as Hs; [|by intros ?%elem_of_nil].
  case_bool_decide as Ht; [|by intros ?%elem_of_nil].
  intros ->%list_elem_of_singleton. exists (le_val (take 4 (drop 4 bs))).
  pose proof (mem_get_length _ _ _ _ E) as L. split_and!; [|done|].
  { apply le_val_4_range. rewrite length_drop. lia. }
  enough (link_command (le_val (take 4 (drop 4 bs))) (le_val (drop 8 bs)) = bs) as ->
    by (by eapply mem_get_bytes_at).
  assert (forall l, length l = 4%nat -> le_bytes 4 (le_val l) = l) as H4
    by (intros l <-; apply le_bytes_val).
  unfold link_command, u32s_bytes. cbn [map concat]. rewrite app_nil_r, <- Ht.
  rewrite !H4 by (rewrite ?length_take, ?length_drop; lia).
  replace (drop 8 bs) with (drop 4 (drop 4 bs)) by (rewrite drop_drop; done).
  by rewrite !take_drop.
Qed.

#[global] Instance protocol : BinderProtocol state area.
Proof.
  refine {| drv_cookies := cookies |}.
  - split; cbn [drv_write_read driver]; unfold write_read; intros d m b res b' m' d' E.
    + intros a Ha _. destruct (read_size b =? 0); [by simplify_eq|].
      destruct (script d) as [|ms rest]; [by simplify_eq|].
      destruct (_ && _) eqn:Eb; simplify_eq; [|done].
      apply andb_true_iff in Eb as [[Hl _]%andb_true_iff _]. apply Z.leb_le in Hl.
      apply (mem_write_agree _ _ _ a 1); [|lia]. rewrite length_u32s_bytes. lia.
    + intros a Ha. destruct (read_size b =? 0); [by simplify_eq|].
      destruct (script d) as [|ms rest]; [by simplify_eq|].
      destruct (_ && _) eqn:Eb; simplify_eq; [|done].
      apply (mem_write_mapped _ _ _ a 1); [|lia]. intros a' ?. by replace a' with a by lia.
    + intros Hr Hc. destruct (Z.eqb_spec (read_size b) 0) as [E0|]; [simplify_eq; cbn; lia|].
      destruct (script d) as [|ms rest]; [simplify_eq; lia|].
      destruct (_ && _) eqn:Eb; simplify_eq; try lia.
      apply andb_true_iff in Eb as [[Hl _]%andb_true_iff _]. cbn [read_consumed]. lia.
  - intros d m b res b' m' d' E Hr Hc. cbn [drv_write_read driver] in E. unfold write_read in E.
    destruct (Z.eqb_spec (read_size b) 0) as [E0|].
    { simplify_eq. exists []. split_and!; [done|done|done|cbn; lia]. }
    destruct (script d) as [|ms rest]; [simplify_eq; lia|].
    destruct (_ && _) eqn:Eb; simplify_eq; try lia.
    apply andb_true_iff in Eb as [[Hl Hm]%andb_true_iff Hv]. exists ms.
    apply bool_decide_eq_true in Hv. cbn [read_consumed cookies].
    split_and!; [|apply mem_write_bytes_at|done|lia].
    eapply Forall_impl; [exact Hv|]. intros x. apply msg_validb_valid.
  - intros d m b res b' m' d' E Hr. cbn [drv_write_read driver] in E. unfold write_read in E.
    destruct (read_size b =? 0); [by simplify_eq|].
    destruct (script d) as [|ms rest]; [simplify_eq; lia|].
    destruct (_ && _); by simplify_eq.
  - intros d m b res b' m' d' c E. cbn [drv_write_read driver] in E. unfold write_read in E.
    assert (cookies d' = registered m b ++ cookies d) as ->.
    { destruct (read_size b =? 0); [by simplify_eq|].
      destruct (script d) as [|ms rest]; [by simplify_eq|]. destruct (_ && _); by simplify_eq. }
    intros [Hc|Hc]%elem_of_app; [right|by left]. by apply registered_spec.
  - done.
Defined.

Lemma consumes_script d m b res b' m' d' :
  drv_write_read d m b = (res, b', m', d') -> 0 <= res -> 0 < read_size b ->
  (length (script d') < length (script d))%nat.
Proof.
  cbn [drv_write_read driver]. unfold write_read. intros E Hr Hs.
  destruct (Z.eqb_spec (read_size b) 0); [lia|].
  destruct (script d) as [|ms rest]; [simplify_eq; lia|].
  destruct (_ && _); simplify_eq; cbn; lia.
Qed.
End Script.
