(* ===== verification/BinderCommands.v ===== *)
(** * The commands of the binder library, under the driver's contract

    The effect of each function that writes to the driver: the bytes handed
    over, the memory that may change, the death cookies that become known. *)
From Stdlib Require Import ZArith Strings.Byte.
From stdpp Require Import base gmap list strings.
From S2P Require Import Prelude CMachine BinderProto BinderIo BinderParcel Binder BinderLemmas BinderParse BinderDriver.
Open Scope Z_scope.

Section Commands.
Context {G D : Type} `{BinderDriver D} (area : Z -> Prop) `{!BinderProtocol D area}.
Implicit Types w : world G D.

(** The bytes a write hands over. *)
Definition payload_of (m : memory) (b : binder_write_read) : list byte :=
  default [] (mem_get m (write_buffer b + write_consumed b)
                      (Z.to_nat (write_size b - write_consumed b))).

Lemma payload_words m b vs :
  words_at m (write_buffer b) vs -> write_consumed b = 0 ->
  write_size b = 4 * Z.of_nat (length vs) -> payload_of m b = u32s_bytes vs.
Proof.
  intros Hw Hc Hs. unfold payload_of. rewrite Hc, Hs, Z.add_0_r, Z.sub_0_r.
  replace (Z.to_nat (4 * Z.of_nat (length vs))) with (length (u32s_bytes vs))
    by (rewrite length_u32s_bytes; lia).
  unfold words_at, bytes_at in Hw. by rewrite Hw.
Qed.

Definition is_link (e : event) (c : Z) : Prop :=
  word_ok c /\ exists fd target, e = EvIoctl fd BINDER_WRITE_READ (link_command target c).

(** An [effect] in which the driver has learnt no other death cookies than
    those of the link requests sent. *)
Record drv_effect (F : Z -> Prop) (evs : list event) (w w' : world G D) : Prop := {
  de_effect : effect F evs w w';
  de_cookies c : c ∈ drv_cookies (w_drv w') ->
    c ∈ drv_cookies (w_drv w) \/ exists e, e ∈ evs /\ is_link e c;
}.

Lemma drv_effect_refl F w : drv_effect F [] w w.
Proof. split; [apply effect_refl|by left]. Qed.

Lemma drv_effect_trans F e1 e2 w1 w2 w3 :
  drv_effect F e1 w1 w2 -> drv_effect F e2 w2 w3 -> drv_effect F (e1 ++ e2) w1 w3.
Proof.
  intros [A1 A2] [B1 B2]. split; [by eapply effect_trans|].
  intros c [[|(e & He & Hc)]%A2|(e & He & Hc)]%B2; [by left|right..];
    exists e; (split; [|done]); apply elem_of_app; auto.
Qed.

Lemma drv_effect_weaken (F F' : Z -> Prop) evs w w' :
  (forall a, F a -> F' a) -> drv_effect F evs w w' -> drv_effect F' evs w w'.
Proof. intros HF []. split; [by eapply effect_weaken|done]. Qed.

(** No driver call. *)
Lemma drv_effect_mem (F : Z -> Prop) w m p n :
  modifies (w_mem w) m p n -> (forall a, p <= a < p + n -> F a) ->
  drv_effect F [] w (set_mem m w).
Proof.
  intros M HF. split; [split|by left]; [by eapply frames_set_mem|by rewrite app_nil_r].
Qed.

Lemma drv_effect_locals F evs w n m' w' :
  modifies (w_mem w) m' (w_sp w - n) n ->
  drv_effect (union (stack w n) F) evs (set_mem m' (set_sp (w_sp w - n) w)) w' ->
  drv_effect (union (stack w n) F) evs w (set_sp (w_sp w) w').
Proof. intros M []. split; [by eapply effect_locals|done]. Qed.

Lemma ioctl_effect bs b w :
  wp (ioctl_write_read bs b)
     (fun '(res, b') w' =>
        drv_effect (union area (fun a => read_buffer b <= a < read_buffer b + read_size b))
                   [write_event bs (payload_of (w_mem w) b)] w w' /\
        drv_write_read (w_drv w) (w_mem w) b = (res, b', w_mem w', w_drv w')) w.
Proof.
  unfold wpf, ioctl_write_read.
  destruct (drv_write_read _ _ _) as [[[res b'] m'] d'] eqn:E.
  split_and!; [split; [split; [split|]|]; try done|done].
  - intros a Ha. cbn [w_mem]. eapply (drv_frame (area := area)); [exact E|..]; intros Ha'; apply Ha.
    + by right.
    + by left.
  - intros a. cbn [w_mem]. by eapply (drv_dom (area := area)).
  - intros c Hin. cbn [w_drv] in Hin.
    destruct (drv_registers _ _ _ _ _ _ _ _ E Hin) as [?|(t & Hok & Hs & Ht)]; [by left|right].
    eexists. split; [left|]. split; [done|]. exists (fd bs), t. unfold write_event, payload_of. rewrite Hs.
    unfold bytes_at in Ht. change (length (link_command t c)) with (Z.to_nat 12) in Ht.
    by rewrite Ht.
Qed.

Lemma binder_write_effect bs dat vs w :
  words_at (w_mem w) dat vs ->
  wp (binder_write bs dat (4 * Z.of_nat (length vs)))
     (fun _ w' => drv_effect area [write_event bs (u32s_bytes vs)] w w') w.
Proof.
  intros Hw. apply wp_bind. eapply wp_mono; [apply ioctl_effect|].
  intros [res b'] w' [E _]. rewrite (payload_words _ _ vs) in E by done.
  apply wp_ret. eapply drv_effect_weaken; [|exact E].
  intros a [Ha|Ha]; [done|]. cbn [read_buffer read_size] in Ha. lia.
Qed.

(** The end of every command writer: the local structure is handed to the
    driver and the frame is left. *)
Lemma wp_write_locals {A} bs m0 dat vs (a : A) n m w Q :
  words_at m dat vs -> modifies m0 m dat n -> n = 4 * Z.of_nat (length vs) ->
  (forall w', drv_effect area [write_event bs (u32s_bytes vs)] (set_mem m w) w' -> Q a w') ->
  wp (binder_write bs dat n ≫= fun _ => mret a) Q (set_mem m w).
Proof.
  intros Hw M -> HQ. apply wp_bind.
  eapply wp_mono; [by apply binder_write_effect|]. intros r w' E. by apply HQ.
Qed.

Lemma binder_write_cmd2_effect bs c target w :
  mapped (w_mem w) (w_sp w - 8) 8 ->
  wp (binder_write_cmd2 bs c target)
     (fun _ w' => drv_effect (union (stack w 8) area) [write_event bs (command2 c target)] w w') w.
Proof.
  intros Hm. apply (wp_locals 8 2); [done|done|]. intros vs Hl Hw.
  destruct vs as [|v0 [|v1 []]]; try done.
  pose proof (modifies_refl (w_mem w) (w_sp w - 8) 8) as M.
  word_store 0%nat. word_store 1%nat.
  eapply (wp_write_locals bs (w_mem w)); [done|done|done|]. intros w' E.
  eapply drv_effect_locals; [done|]. eapply drv_effect_weaken; [|done]. by right.
Qed.

Lemma binder_link_to_death_effect bs target death w :
  mapped (w_mem w) (w_sp w - 12) 12 ->
  wp (binder_link_to_death bs target death)
     (fun _ w' => drv_effect (union (stack w 12) area) [write_event bs (link_command target death)] w w') w.
Proof.
  intros Hm. apply (wp_locals 12 3); [done|done|]. intros vs Hl Hw.
  destruct vs as [|v0 [|v1 [|v2 []]]]; try done.
  pose proof (modifies_refl (w_mem w) (w_sp w - 12) 12) as M.
  word_store 0%nat. word_store 1%nat. word_store 2%nat.
  eapply (wp_write_locals bs (w_mem w)); [done|done|done|]. intros w' E.
  eapply drv_effect_locals; [done|]. eapply drv_effect_weaken; [|done]. by right.
Qed.

(** The reply command: the transaction carries the status when it is not
    zero, otherwise the extent of the reply buffer; [pid] and [euid] are
    whatever was on the stack. *)
Definition reply_words (reply : binder_io) (buf status pid euid sp : Z) : list Z :=
  [BC_FREE_BUFFER; buf; BC_REPLY; 0; 0; 0] ++
  (if negb (status =? 0)
   then [TF_STATUS_CODE; pid; euid; 4; 0; sp - 4; 0]
   else [0; pid; euid; u32 (data reply - data0 reply); u32 (offs reply - offs0 reply);
         data0 reply; offs0 reply]).

(** The command of [binder_send_reply], and the status it may point to. *)
Record reply_sent (bs : binder_state) (reply : binder_io) (buf status pid euid : Z) w w' : Prop := {
  rs_effect : drv_effect (union (stack w 56) area)
    [write_event bs (u32s_bytes (reply_words reply buf status pid euid (w_sp w)))] w w';
  rs_status : (forall a, stack w 4 a -> ~ area a) -> bytes_at (w_mem w') (w_sp w - 4) (le_bytes 4 status);
}.

Lemma binder_send_reply_effect bs reply buf status w :
  mapped (w_mem w) (w_sp w - 56) 56 ->
  wp (binder_send_reply bs reply buf status)
     (fun _ w' => exists pid euid, reply_sent bs reply buf status pid euid w w') w.
Proof.
  intros Hm. apply (wp_locals 56 14); [done|done|]. intros vs Hl Hw.
  do 14 (destruct vs as [|? vs]; [done|]). destruct vs; [|done].
  pose proof (modifies_refl (w_mem w) (w_sp w - 56) 56) as M.
  word_store 13%nat. word_store 0%nat. word_store 1%nat. word_store 2%nat.
  word_store 3%nat. word_store 4%nat. word_store 5%nat.
  assert (forall mz vz, words_at mz (w_sp w - 56) (vz ++ [status]) -> length vz = 13%nat ->
            modifies (w_mem w) mz (w_sp w - 56) 56 ->
            (exists pid euid, vz = reply_words reply buf status pid euid (w_sp w)) ->
            wp (binder_write bs (w_sp w - 56) 52 ≫= fun _ => mret tt)
               (fun (_ : unit) w' => exists pid euid, reply_sent bs reply buf status pid euid w (set_sp (w_sp w) w'))
               (set_mem mz (set_sp (w_sp w - 56) w))) as Hend.
  { intros mz vz Hwz Hlz Mz (pid & euid & Hvs).
    assert (words_at mz (w_sp w - 56) vz) as Hw13
      by (unfold words_at in *; rewrite u32s_bytes_snoc in Hwz; by eapply bytes_at_prefix).
    eapply (wp_write_locals bs mz _ vz); [done|apply modifies_refl|by rewrite Hlz|].
    intros w' E. exists pid, euid. split.
    - eapply drv_effect_locals; [done|]. rewrite <- Hvs. eapply drv_effect_weaken; [|done]. by right.
    - intros Ha. destruct (proj1 (words_at_app mz (w_sp w - 56) vz [status]) Hwz) as [_ Hst].
      change (bytes_at mz (w_sp w - 56 + 4 * Z.of_nat (length vz)) (le_bytes 4 status ++ [])) in Hst.
      rewrite Hlz, app_nil_r in Hst. replace (w_sp w - 4) with (w_sp w - 56 + 4 * Z.of_nat 13) by lia.
      eapply bytes_at_agree; [|exact Hst].
      intros x Hx. cbn [w_mem set_sp]. apply (fr_mem _ _ _ (ef_frames _ _ _ _ (de_effect _ _ _ _ E))). apply Ha.
      unfold stack. rewrite length_le_bytes in Hx. lia. }
  apply wp_bind. unfold reply_words in Hend |- *. destruct (negb (status =? 0)).
  - word_store 6%nat. word_store 9%nat. word_store 10%nat. word_store 11%nat. word_store 12%nat.
    cbn beta. match type of Hw with words_at _ _ ?l => apply (Hend _ (take 13 l) Hw eq_refl Hmod0) end.

    do 2 eexists. cbn [app take]. replace (w_sp w - 56 + 52) with (w_sp w - 4) by lia. done.
  - word_store 6%nat. word_store 9%nat. word_store 10%nat. word_store 11%nat. word_store 12%nat.
    cbn beta. match type of Hw with words_at _ _ ?l => apply (Hend _ (take 13 l) Hw eq_refl Hmod0) end.
    by do 2 eexists.
Qed.

Definition bio_cleared (io : binder_io) : binder_io :=
  mkBio (data io) (offs io) (data_avail io) (offs_avail io) (data0 io) (offs0 io) 0 (unused io).

Lemma binder_done_effect bs msg reply w :
  mapped (w_mem w) (w_sp w - 8) 8 -> Z.land (flags reply) BIO_F_SHARED <> 0 ->
  wp (binder_done bs msg reply)
     (fun r w' => r = bio_cleared reply /\
        drv_effect (union (stack w 8) area) [write_event bs (command2 BC_FREE_BUFFER (data0 reply))] w w') w.
Proof.
  intros Hm Hf. unfold binder_done. case_cmp; [done|]. cbn [negb].
  apply (wp_locals 8 2); [done|done|]. intros vs Hl Hw.
  destruct vs as [|v0 [|v1 []]]; try done.
  pose proof (modifies_refl (w_mem w) (w_sp w - 8) 8) as M.
  word_store 0%nat. word_store 1%nat.
  eapply (wp_write_locals bs (w_mem w)); [done|done|done|]. intros w' E. split; [done|].
  eapply drv_effect_locals; [done|]. eapply drv_effect_weaken; [|done]. by right.
Qed.
End Commands.
