(* ===== verification/BinderCall.v ===== *)
(** * Calls and the looper under the driver's contract

    One read from the driver, [binder_call], and the looper loop shared by
    [binder_loop] and [binder_thread_loop]. *)
From Stdlib Require Import ZArith Strings.Byte.
From stdpp Require Import base gmap list strings.
From S2P Require Import Prelude CMachine BinderProto BinderIo BinderParcel Binder BinderLemmas BinderParse BinderDriver BinderCommands.
Open Scope Z_scope.

Section Call.
Context {G D : Type} `{BinderDriver D} (area : Z -> Prop) `{!BinderProtocol D area}.
Context (call_death : binder_state -> Z -> Z -> C G D unit).
Implicit Types w : world G D.

Definition buffer_at (p n a : Z) : Prop := p <= a < p + n.

(** What a read returned: failure, or whole valid messages in the buffer
    and the write buffer consumed. *)
Definition read_result (b b' : binder_write_read) (res : Z) w' : Prop :=
  res < 0 \/
  0 <= res /\ exists ms,
    Forall (msg_valid area (drv_cookies (w_drv w')) (w_mem w')) ms /\
    words_at (w_mem w') (read_buffer b) (stream ms) /\
    read_consumed b' = 4 * Z.of_nat (length (stream ms)) /\
    read_consumed b' <= read_size b /\
    write_size b' = write_size b /\ write_consumed b' = write_size b /\
    write_buffer b' = write_buffer b.

Lemma ioctl_read_effect bs b w :
  read_consumed b = 0 ->
  wp (ioctl_write_read bs b)
     (fun '(res, b') w' =>
        drv_effect area (union area (buffer_at (read_buffer b) (read_size b)))
                   [write_event bs (payload_of (w_mem w) b)] w w' /\
        read_result b b' res w' /\
        drv_write_read (w_drv w) (w_mem w) b = (res, b', w_mem w', w_drv w')) w.
Proof.
  intros Hc. eapply wp_mono; [by apply (ioctl_effect area)|].
  intros [res b'] w' [E Ed]. split_and!; [done| |done].
  destruct (Z.lt_ge_cases res 0); [by left|right].
  split; [done|]. destruct (drv_read _ _ _ _ _ _ _ Ed) as (ms & Hms & Hw & Hl & Hle); [done..|].
  destruct (drv_written _ _ _ _ _ _ _ Ed) as (? & ? & ?); [done|]. by exists ms.
Qed.

(** A read that sends nothing teaches the driver no cookie. *)
Lemma drv_effect_cookies F fd0 payload w w' c :
  drv_effect area F [EvIoctl fd0 BINDER_WRITE_READ payload] w w' ->
  (forall t c', payload <> link_command t c') ->
  c ∈ drv_cookies (w_drv w') -> c ∈ drv_cookies (w_drv w).
Proof.
  intros E Hp Hc. destruct (de_cookies _ _ _ _ _ E c Hc) as [?|(e & He & _ & fd1 & t & ->)]; [done|].
  apply list_elem_of_singleton in He. injection He as _ He. by destruct (Hp t c).
Qed.

(** ** Parsing without a handler *)

Definition spawned (k : nat) w : world G D :=
  mkWorld _ _ (w_mem w) (w_sp w) (w_glob w) (w_drv w) (w_trace w ++ replicate k EvSpawn).

Lemma spawned_emit k w : emit EvSpawn (spawned k w) = Ok tt (spawned (S k) w).
Proof.
  unfold emit, modify, spawned. cbn [w_mem w_sp w_glob w_drv w_trace].
  by rewrite <- app_assoc, <- replicate_cons_app.
Qed.

Definition not_dead (m : br_msg) : Prop := match m with MDead _ => False | _ => True end.

(** The threads asked for. *)
Fixpoint spawn_count (ms : list br_msg) : nat :=
  match ms with
  | [] => O
  | m :: ms => match m with MSpawn => S (spawn_count ms) | _ => spawn_count ms end
  end.

Lemma spawn_count_snoc h m :
  spawn_count (h ++ [m]) = match m with MSpawn => S (spawn_count h) | _ => spawn_count h end.
Proof.
  induction h as [|x h IH]; [by destruct m|]. cbn [app spawn_count]. rewrite IH. by destruct x, m.
Qed.

Lemma client_parse bs bio io base ms w :
  Forall msg_wf ms -> Forall not_dead ms -> words_at (w_mem w) base (stream ms) ->
  0 <= base -> base + 4 * Z.of_nat (length (stream ms)) + 4 < 4294967296 ->
  wp (binder_parse call_death bs bio io base (4 * Z.of_nat (length (stream ms))) None)
     (fun '(r, io') w' => r = parse_status ms /\ io' = snd (fold_left msg_bio ms (bio, io)) /\
                          w' = spawned (spawn_count ms) w) w.
Proof.
  intros Hwf Hnd Hw Hb Hhi.
  assert (parse_sim call_death bs None (fun _ => False) base ms
            (fun h w' => w' = spawned (spawn_count h) w)) as S.
  { split.
    - by intros h w' ->.
    - intros h m w' -> _ Hm. rewrite spawn_count_snoc. by destruct m.
    - intros h w' -> _. eapply wp_run; [apply spawned_emit|]. by rewrite spawn_count_snoc.
    - intros h t p w' -> _ _ _. apply wp_ret. by rewrite spawn_count_snoc.
    - intros h c w' _ Hin. rewrite Forall_forall in Hnd. by destruct (Hnd _ Hin). }
  eapply wp_mono; [apply (binder_parse_sim _ _ _ _ _ _ _ _ _ _ S); try done|done].
  unfold spawned. cbn [spawn_count replicate]. rewrite app_nil_r. by destruct w.
Qed.

(** The replies among the messages; the cursor returned is over the first. *)
Definition replies (ms : list br_msg) : list txn_data :=
  omap (fun m => match m with MReply t => Some t | _ => None end) ms.

Lemma replies_in ms t : t ∈ replies ms -> MReply t ∈ ms.
Proof.
  unfold replies. intros (m & Hm & E)%list_elem_of_omap. destruct m; try done. by injection E as ->.
Qed.

Lemma parse_status_replies ms : parse_status ms = 0 -> replies ms <> [].
Proof.
  unfold parse_status. assert (forall r, r <> 0 -> fold_left msg_status ms r = 0 ->
    replies ms <> []) as Hg; [|by apply Hg].
  induction ms as [|m ms IH]; intros r Hr Hf; [done|].
  destruct m as [| | | | |t| | |]; cbn [fold_left msg_status] in Hf;
    try (by eapply IH; [|exact Hf]; lia). done.
Qed.

Lemma msg_bio_first ms t ts io :
  replies ms = t :: ts -> fold_left msg_bio ms (true, io) = (false, txn_bio t io).
Proof.
  assert (forall l i, fold_left msg_bio l (false, i) = (false, i)) as Hf.
  { induction l as [|m l IH]; intros i; [done|]. cbn [fold_left]. destruct m; by rewrite <- IH at 2. }
  induction ms as [|m ms IH]; intros E; [done|].
  destruct m as [| | | | |t0| | |]; cbn [fold_left msg_bio fst snd]; try by apply IH.
  injection E as -> _. by rewrite Hf.
Qed.

Lemma msg_bio_io bio ms io :
  snd (fold_left msg_bio ms (bio, io)) =
  match bio, replies ms with true, t :: _ => txn_bio t io | _, _ => io end.
Proof.
  induction ms as [|m ms IH]; [by destruct bio|]. cbn [fold_left].
  destruct m; cbn [msg_bio fst]; try exact IH. destruct bio; [|exact IH].
  clear IH. cbn [replies omap list_omap]. induction ms as [|m ms IH]; [done|]. by destruct m.
Qed.

(** ** [binder_call] *)

(** The driver answers: its state decreases along every read that leaves
    the caller waiting. *)
Definition answers (rank : D -> nat) : Prop :=
  forall d m b res b' m' d' ms,
    drv_write_read d m b = (res, b', m', d') -> 0 <= res -> 0 < read_size b ->
    words_at m' (read_buffer b) (stream ms) ->
    read_consumed b' = 4 * Z.of_nat (length (stream ms)) ->
    parse_status ms = 1 -> (rank d' < rank d)%nat.

(** Events of the loop after the first write: no command is sent again. *)
Definition idle_event (bs : binder_state) (e : event) : Prop :=
  e = write_event bs [] \/ e = EvSpawn.

(** An exchange with the driver that succeeded. *)
Definition drv_step (d d' : D) : Prop :=
  exists m b res b' m', drv_write_read d m b = (res, b', m', d') /\ 0 <= res.

(** How a call ended, by the read of the driver it ended with: the read
    failed, or it delivered messages [ms] whose status is a failure, or one
    whose status is a reply; the cursor is over the first reply of [ms]. *)
Definition final_read (d0 : D) (io0 : binder_io) (r : option binder_io) w' : Prop :=
  exists d m b res b1, rtc drv_step d0 d /\ drv_write_read d m b = (res, b1, w_mem w', w_drv w') /\
    (res < 0 /\ r = None \/
     0 <= res /\ exists ms, words_at (w_mem w') (read_buffer b) (stream ms) /\
       read_consumed b1 = 4 * Z.of_nat (length (stream ms)) /\
       (r = None /\ parse_status ms = -1 \/
        parse_status ms = 0 /\ exists t ts, replies ms = t :: ts /\ r = Some (txn_bio t io0) /\
          txn_valid area (w_mem w') t)).

Lemma final_read_step d0 d1 io r w' : drv_step d0 d1 -> final_read d1 io r w' -> final_read d0 io r w'.
Proof.
  intros Hs (d & m & b & res & b1 & Hd & H'). exists d, m, b, res, b1. split; [|exact H']. by eapply rtc_l.
Qed.

(** One iteration: what the parse of the answer establishes. *)
Definition iter_result rank bs (b b1 : binder_write_read) readbuf io w r io' w2 : Prop :=
  exists evs, Forall (idle_event bs) evs /\
    drv_effect area (union area (buffer_at readbuf 128)) (write_event bs (payload_of (w_mem w) b) :: evs) w w2 /\
    drv_cookies (w_drv w2) = [] /\ payload_of (w_mem w2) b1 = [] /\
    (r = 0 /\ final_read (w_drv w) io (Some io') w2 \/ r = -1 /\ final_read (w_drv w) io None w2 \/
     r = 1 /\ (rank (w_drv w2) < rank (w_drv w))%nat /\ drv_step (w_drv w) (w_drv w2)).

Lemma call_iter bs rank b readbuf io w :
  answers rank -> 0 <= readbuf < 4294967000 -> drv_cookies (w_drv w) = [] ->
  (forall target c, payload_of (w_mem w) b <> link_command target c) ->
  wp (ioctl_write_read bs (mkBwr (write_size b) (write_consumed b) (write_buffer b) 128 0 readbuf))
     (fun '(res, b1) w1 =>
        drv_effect area (union area (buffer_at readbuf 128)) [write_event bs (payload_of (w_mem w) b)] w w1 /\
        (res < 0 -> final_read (w_drv w) io None w1) /\
        (0 <= res -> wp (binder_parse call_death bs true io readbuf (read_consumed b1) None)
           (fun '(r, io') => iter_result rank bs b b1 readbuf io w r io') w1)) w.
Proof.
  intros Hrank Hrb Hnc Hpl.
  eapply wp_mono; [by apply ioctl_read_effect|]. intros [res b1] w1 (E & Hres & Hd).
  split; [exact E|]. split; [intros Hneg; eexists _, _, _, _, _; split; [apply rtc_refl|]; split; [exact Hd|by left]|]. intros H0.
  destruct Hres as [?|(_ & ms & Hms & Hw & Hl & Hle & Hws & Hwc & _)]; [lia|].
  cbn [write_size write_consumed write_buffer read_buffer read_size] in *.
  assert (drv_cookies (w_drv w1) = []) as Hnc1.
  { apply elem_of_nil_inv. intros c Hc.
    apply (drv_effect_cookies _ _ _ _ _ _ E) in Hc; [|done].
    rewrite Hnc in Hc. by apply elem_of_nil in Hc. }
  pose proof Hl as Hl'. rewrite Hl in Hle |- *. eapply wp_mono.
  { apply (client_parse bs true io readbuf ms); try lia; [..|exact Hw].
    - eapply Forall_impl; [exact Hms|]. by intros m [? _].
    - eapply Forall_impl; [exact Hms|]. intros m [_ Hm]. destruct m; try done.
      rewrite Hnc1 in Hm. by apply elem_of_nil in Hm. }
  intros [r io'] w2 (-> & -> & ->).
  exists (replicate (spawn_count ms) EvSpawn). split_and!.
  - apply Forall_replicate. by right.
  - eapply (drv_effect_trans _ _ [_]); [exact E|]. split; [split; [by split|done]|by left].
  - done.
  - unfold payload_of. rewrite Hws, Hwc, Z.sub_diag. done.
  - destruct (parse_status_cases ms) as [Hr|[Hr|Hr]].
    + right; left. split; [done|]. eexists _, _, _, _, _. split; [apply rtc_refl|]. split; [exact Hd|]. right.
      split; [done|]. exists ms. split_and!; [done|done|by left].
    + left. split; [done|]. destruct (replies ms) as [|t ts] eqn:Et; [by apply parse_status_replies in Hr|].
      rewrite (msg_bio_first ms t ts io Et). eexists _, _, _, _, _. split; [apply rtc_refl|]. split; [exact Hd|]. right.
      split; [done|]. exists ms. split_and!; [done|done|]. right. split; [done|]. exists t, ts.
      split_and!; [done|done|]. rewrite Forall_forall in Hms.
      apply (Hms (MReply t)), replies_in. rewrite Et. left.
    + right; right. split; [done|]. split; [by eapply Hrank|]. by eexists _, _, _, _, _.
Qed.

Lemma call_loop_run bs rank readbuf : answers rank -> 0 <= readbuf < 4294967000 ->
  forall fuel b io w,
  (rank (w_drv w) < fuel)%nat -> drv_cookies (w_drv w) = [] ->
  (forall target c, payload_of (w_mem w) b <> link_command target c) ->
  wp (call_loop call_death fuel bs b readbuf io)
     (fun r w' => exists evs, Forall (idle_event bs) evs /\
        drv_effect area (union area (buffer_at readbuf 128)) (write_event bs (payload_of (w_mem w) b) :: evs) w w' /\
        exists io0, final_read (w_drv w) io0 r w') w.
Proof.
  intros Hrank Hrb. induction fuel as [|fuel IH]; intros b io w Hf Hnc Hpl; [lia|].
  cbn [call_loop]. apply wp_bind.
  eapply wp_mono; [by apply (call_iter bs rank b readbuf io)|]. intros [res b1] w1 (E & Hneg & Hp).
  case_cmp; [apply wp_ret; exists []; split_and!; [done|done|exists io; by apply Hneg]|].
  apply wp_bind. eapply wp_mono; [by apply Hp|].
  intros [r io'] w2 (evs & Hev & E2 & Hnc2 & Hpl2 & Hr). destruct Hr as [[-> Hr]|[[-> Hr]|(-> & Hr & Hst)]].
  - apply wp_ret. exists evs. split_and!; [done|done|by exists io].
  - apply wp_ret. exists evs. split_and!; [done|done|by exists io].
  - eapply wp_mono; [apply IH; [lia|done|]|].
    + rewrite Hpl2. intros ? ? ?. done.
    + intros r' w' (evs' & Hev' & E' & io0 & Hr').
      exists (evs ++ write_event bs [] :: evs'). split_and!; [..|exists io0; by eapply final_read_step].
      * apply Forall_app. split; [done|]. apply Forall_cons. split; [by left|done].
      * rewrite Hpl2 in E'. by apply (drv_effect_trans _ _ _ _ _ _ _ E2 E').
Qed.

(** The command of a call; [cookie], [pid] and [euid] are not assigned. *)
Definition call_words (msg : binder_io) (target code cookie pid euid : Z) : list Z :=
  [BC_TRANSACTION; target; cookie; code; 0; pid; euid; u32 (data msg - data0 msg);
   u32 (offs msg - offs0 msg); data0 msg; offs0 msg].

Lemma binder_call_run rank fuel bs msg reply target code w :
  answers rank -> (rank (w_drv w) < fuel)%nat -> drv_cookies (w_drv w) = [] ->
  0 <= w_sp w - 172 -> w_sp w < 4294967000 -> mapped (w_mem w) (w_sp w - 172) 172 ->
  Z.land (flags msg) BIO_F_OVERFLOW = 0 ->
  wp (binder_call call_death fuel bs msg reply target code)
     (fun '(r, reply') w' => exists cookie pid euid evs,
        Forall (idle_event bs) evs /\
        drv_effect area (union (stack w 172) area)
          (write_event bs (u32s_bytes (call_words msg target code cookie pid euid)) :: evs) w w' /\
        exists io0, r = 0 /\ final_read (w_drv w) io0 (Some reply') w' \/
          r = -1 /\ reply' = failed_reply /\ final_read (w_drv w) io0 None w') w.
Proof.
  intros Hrank Hf Hnc Hlo Hhi Hm Hfl. apply wp_with_frame. rewrite Hfl. cbn [negb Z.eqb].
  assert (mapped (w_mem w) (w_sp w - 172) 44) as Hm11 by (eapply mapped_sub; [exact Hm|lia..]).
  destruct (mapped_words _ _ 11 Hm11) as (vs & Hl & Hw & _).
  do 11 (destruct vs as [|? vs]; [done|]). destruct vs; [|done].
  pose proof (modifies_refl (w_mem w) (w_sp w - 172) 44) as M.
  change (set_sp (w_sp w - 172) w) with (set_mem (w_mem w) (set_sp (w_sp w - 172) w)).
  word_store 0%nat. word_store 1%nat. word_store 3%nat. word_store 4%nat. word_store 7%nat.
  word_store 8%nat. word_store 9%nat. word_store 10%nat.
  match type of Hw with words_at ?m _ [_; _; ?c; _; _; ?p; ?e; _; _; _; _] =>
    set (mc := m) in *;
    assert (payload_of mc (mkBwr 44 0 (w_sp w - 172) 0 0 0) =
            u32s_bytes (call_words msg target code c p e)) as Hp by (by apply payload_words);
    apply wp_bind; eapply wp_mono;
      [apply (call_loop_run bs rank (w_sp w - 172 + 44) Hrank); try lia; try done|];
      [cbn [w_mem set_mem set_sp]; rewrite Hp; intros t c0 E;
       apply (f_equal length) in E; by rewrite length_u32s_bytes in E|];
    intros r w' (evs & Hev & E & io0 & Hr);
    destruct r as [io'|]; apply wp_ret; exists c, p, e, evs
  end; (split_and!; [done| |exists io0]).
  1, 3: eapply drv_effect_locals;
    [eapply modifies_weaken; [exact Hmod0|right; lia]|];
    rewrite <- Hp; eapply drv_effect_weaken; [|exact E];
    intros a [Ha|Ha]; [by right|left; unfold buffer_at, stack in *; lia].
  - by left.
  - by right.
Qed.

(** The status and the cursor of a call, by its last read. *)
Lemma call_end_read d0 r reply' w' io0 :
  r = 0 /\ final_read d0 io0 (Some reply') w' \/ r = -1 /\ reply' = failed_reply /\ final_read d0 io0 None w' ->
  exists d m b res b1, rtc drv_step d0 d /\ drv_write_read d m b = (res, b1, w_mem w', w_drv w') /\
    (res < 0 /\ r = -1 /\ reply' = failed_reply \/
     0 <= res /\ exists ms, words_at (w_mem w') (read_buffer b) (stream ms) /\
       read_consumed b1 = 4 * Z.of_nat (length (stream ms)) /\
       (parse_status ms = -1 /\ r = -1 /\ reply' = failed_reply \/
        parse_status ms = 0 /\ r = 0 /\ exists t ts io, replies ms = t :: ts /\
          reply' = txn_bio t io /\ txn_valid area (w_mem w') t)).
Proof.
  intros [[-> (d & m & b & res & b1 & Ed0 & Ed & He)]|(-> & -> & d & m & b & res & b1 & Ed0 & Ed & He)];
    exists d, m, b, res, b1; (split; [exact Ed0|]; split; [exact Ed|]).
  - destruct He as [[_ [=]]|(? & ms & Hw & Hl & [[[=] _]|(Hs & t & ts & Et & [= ->] & Hv)])].
    right. split; [done|]. exists ms. split_and!; [done|done|]. right. split_and!; [done|done|].
    by exists t, ts, io0.
  - destruct He as [[? _]|(? & ms & Hw & Hl & [[_ Hs]|(_ & t & ts & _ & [=] & _)])]; [by left|].
    right. split; [done|]. exists ms. split_and!; [done|done|]. by left.
Qed.

Lemma binder_call_overflow fuel bs msg reply target code w :
  Z.land (flags msg) BIO_F_OVERFLOW <> 0 ->
  binder_call call_death fuel bs msg reply target code w = Ok (-1, failed_reply) w.
Proof.
  intros Hf. unfold binder_call, with_frame. case_cmp; [lia|]. cbn [negb].
  by destruct w.
Qed.

(** ** The looper *)

(** What a handler must leave alone while a read buffer is being parsed:
    mapped memory stays mapped, the buffer keeps its bytes, death records
    stay valid. *)
Record stable (readbuf : Z) (K : Z -> world G D -> Prop) w w' : Prop := {
  st_sp : w_sp w' = w_sp w;
  st_dom : forall a, is_Some (w_mem w !! a) -> is_Some (w_mem w' !! a);
  st_buf : agree (w_mem w) (w_mem w') readbuf 128;
  st_death : forall c, K c w -> K c w';
}.

(** What the looper itself sends: nothing, or its one-word command. *)
Definition looper_event (e : event) : Prop :=
  match e with EvIoctl _ _ payload => (length payload <= 4)%nat | _ => True end.

(** The faults the handler is allowed. *)
Context (F : fault -> Prop).

(** [I] is an invariant of a process looping in [readbuf] with handler
    [func]; [K c] says that the cookie [c] addresses a death record. *)
Record looper_inv (bs : binder_state) (func : binder_handler) (readbuf : Z)
    (I : world G D -> Prop) (K : Z -> world G D -> Prop) : Prop := {
  li_read w w' evs :
    I w -> drv_effect area (union area (buffer_at readbuf 128)) evs w w' ->
    Forall looper_event evs -> I w';
  li_cookie w c : I w -> c ∈ drv_cookies (w_drv w) -> K c w;
  li_spawn w : I w -> I (spawned 1 w) /\ stable readbuf K w (spawned 1 w);
  li_txn w t p :
    I w -> txn_at (w_mem w) p t -> txn_valid area (w_mem w) t ->
    readbuf <= p /\ p + 40 <= readbuf + 128 ->
    wpf F (handle_txn bs (Some func) p) (fun _ w' => I w' /\ stable readbuf K w w') w;
  li_dead w c :
    I w -> K c w ->
    wpf F (handle_dead call_death bs c) (fun _ w' => I w' /\ stable readbuf K w w') w;
}.

Lemma stable_refl readbuf K w : stable readbuf K w w.
Proof. by split. Qed.

Lemma stable_trans readbuf K w1 w2 w3 :
  stable readbuf K w1 w2 -> stable readbuf K w2 w3 -> stable readbuf K w1 w3.
Proof.
  intros [] []. split; [congruence|auto|by eapply agree_trans|auto].
Qed.

Lemma txn_valid_dom m m' t :
  (forall a, is_Some (m !! a) -> is_Some (m' !! a)) -> txn_valid area m t -> txn_valid area m' t.
Proof.
  intros Hd [[] Ha]. split; [|done]. split; try done; intros a ?; apply Hd; auto.
Qed.

(** Everything known while a buffer holding [ms] is parsed, from the world
    [w1] in which it was read. *)
Lemma looper_parse_sim bs func readbuf I K ms w1 :
  looper_inv bs func readbuf I K ->
  words_at (w_mem w1) readbuf (stream ms) -> 4 * Z.of_nat (length (stream ms)) <= 128 ->
  Forall (msg_valid area (drv_cookies (w_drv w1)) (w_mem w1)) ms ->
  (forall c, MDead c ∈ ms -> K c w1) ->
  parse_sim call_death bs (Some func) F readbuf ms (fun _ w => I w /\ stable readbuf K w1 w).
Proof.
  intros L Hw Hl Hv HK. rewrite Forall_forall in Hv.
  assert (forall w w', stable readbuf K w1 w -> I w' /\ stable readbuf K w w' ->
            I w' /\ stable readbuf K w1 w') as Hstep.
  { intros w w' S [I' S']. split; [done|]. by eapply stable_trans. }
  split.
  - intros h w [_ []]. eapply bytes_at_agree; [|exact Hw].
    rewrite length_u32s_bytes. eapply agree_sub; [done|lia..].
  - done.
  - intros h w [Hi S] _. apply wp_modify. apply (Hstep w); [done|]. by apply (li_spawn _ _ _ _ _ L).
  - intros h t p w [Hi S] Hin Hp Hr. eapply wp_mono.
    + apply (li_txn _ _ _ _ _ L w t p Hi Hp); [|lia].
      eapply txn_valid_dom; [apply (st_dom _ _ _ _ S)|]. by destruct (Hv _ Hin).
    + intros [] w' Hi'. by apply (Hstep w).
  - intros h c w [Hi S] Hin. eapply wp_mono.
    + apply (li_dead _ _ _ _ _ L w c Hi). apply (st_death _ _ _ _ S). by apply HK.
    + intros [] w' Hi'. by apply (Hstep w).
Qed.

(** The iterations: for any number of them the process does not fault and
    the invariant holds whenever control is back at the read. *)
Lemma looper_iter_inv bs func readbuf I K n : forall b w,
  looper_inv bs func readbuf I K -> 0 <= readbuf < 4294967000 ->
  I w -> payload_of (w_mem w) b = [] -> write_size b <= write_consumed b ->
  wpf F (looper_iter call_death n bs func b readbuf) (fun _ w' => I w') w.
Proof.
  induction n as [|n IH]; intros b w L Hrb Hi Hpl Hsz; [by apply wp_ret|].
  cbn [looper_iter]. apply wp_bind.
  eapply wp_allow; [by apply ioctl_read_effect|]. intros [res b1] w1 (E & Hres & _).
  assert (I w1) as Hi1.
  { eapply (li_read _ _ _ _ _ L); [done|exact E|].
    apply Forall_singleton. cbn [looper_event write_event].
    change (payload_of _ _) with (payload_of (w_mem w) b). rewrite Hpl. cbn. lia. }
  case_cmp; [by apply wp_ret|].
  destruct Hres as [?|(_ & ms & Hms & Hw & Hl & Hle & Hws & Hwc & _)]; [lia|].
  cbn [write_size write_consumed write_buffer read_buffer read_size] in *.
  rewrite Hl in Hle |- *. apply wp_bind. eapply wp_mono.
  - apply (binder_parse_sim _ _ _ F readbuf ms (fun _ w => I w /\ stable readbuf K w1 w));
      [|by split; [|apply stable_refl]| |lia|lia].
    + apply looper_parse_sim; try done. intros c Hc. apply (li_cookie _ _ _ _ _ L); [done|].
      rewrite Forall_forall in Hms. by destruct (Hms _ Hc).
    + eapply Forall_impl; [exact Hms|]. by intros m [? _].
  - intros [r io'] w2 (_ & _ & Hi2 & _).
    destruct (r =? 0); [by apply wp_ret|]. destruct (r <? 0); [by apply wp_ret|].
    apply IH; try done; [|lia]. unfold payload_of. by rewrite Hws, Hwc, Z.sub_diag.
Qed.

(** [binder_loop] and [binder_thread_loop]. *)
Lemma looper_run cmd n bs func I K w :
  let readbuf := w_sp w - 128 in
  looper_inv bs func readbuf I K -> 0 <= readbuf < 4294967000 ->
  mapped (w_mem w) readbuf 128 -> I (set_sp readbuf w) ->
  wpf F (looper call_death cmd n bs func) (fun _ w' => exists wi, I wi /\ w' = set_sp (w_sp w) wi) w.
Proof.
  intros readbuf L Hrb Hm Hi. apply wp_with_frame. fold readbuf.
  assert (mapped (w_mem w) readbuf 4) as Hm4 by (eapply mapped_sub; [exact Hm|lia..]).
  destruct (mapped_words _ _ 1 Hm4) as (vs & Hl & Hw & _). destruct vs as [|v []]; try done.
  pose proof (modifies_refl (w_mem w) readbuf 4) as M.
  change (set_sp readbuf w) with (set_mem (w_mem w) (set_sp readbuf w)).
  word_store 0%nat. apply wp_bind.
  eapply wp_allow; [by apply (binder_write_effect area bs readbuf [cmd])|]. intros r w1 E.
  eapply wp_mono.
  - apply (looper_iter_inv bs func readbuf I K); [done|done| |done|done].
    eapply (li_read _ _ _ _ _ L _ w1 ([] ++ _)); [exact Hi| |].
    + eapply drv_effect_trans; [|eapply drv_effect_weaken; [|exact E]; by left].
      apply (drv_effect_mem area _ (set_sp readbuf w) _ readbuf 4); [exact Hmod0 || exact Hmod|].
      intros a Ha. right. unfold buffer_at. lia.
    + apply Forall_singleton. cbn. lia.
  - intros le w' Hi'. by exists w'.
Qed.
End Call.
