(* ===== verification/BinderProps.v ===== *)
(** * Properties of the binder library *)
From Stdlib Require Import ZArith Strings.Byte.
From stdpp Require Import base gmap list strings.
From S2P Require Import Prelude CMachine BinderProto BinderIo BinderParcel Binder BinderLemmas BinderParse BinderDriver BinderCommands BinderCall.
Open Scope Z_scope.

(** ** Termination *)

(** Programs in which no modelled loop reaches its bound. *)
Definition bounded {G D A} (m : C G D A) : Prop := forall w, m w <> Fault NoFuel.

Section Bounded.
Context {G D : Type}.

Lemma bounded_ret {A} (a : A) : bounded (G := G) (D := D) (mret a).
Proof. done. Qed.

Lemma bounded_bind {A B} (m : C G D A) (f : A -> C G D B) :
  bounded m -> (forall a, bounded (f a)) -> bounded (m ≫= f).
Proof.
  intros Hm Hf w. unfold mbind, C_bind. specialize (Hm w).
  destruct (m w) as [a w'|]; [apply Hf|]. intros [= ->]. done.
Qed.

Lemma bounded_load n p : bounded (G := G) (D := D) (load n p).
Proof.
  apply bounded_bind; [|intros; apply bounded_ret].
  intros w. unfold load_bytes. by destruct (mem_get _ _ _).
Qed.

Lemma bounded_store n p v : bounded (G := G) (D := D) (store n p v).
Proof. intros w. unfold store, store_bytes. by destruct (mem_get _ _ _). Qed.

Lemma bounded_frame {A} n (body : Z -> C G D A) :
  (forall p, bounded (body p)) -> bounded (with_frame n body).
Proof.
  intros Hb w. unfold with_frame. specialize (Hb (w_sp w - n) (set_sp (w_sp w - n) w)).
  destruct (body _ _); [done|]. intros [= ->]. done.
Qed.

Lemma bounded_emit e : bounded (G := G) (D := D) (emit e).
Proof. done. Qed.
End Bounded.

Ltac solve_bounded :=
  repeat first
    [ apply bounded_ret | apply bounded_load | apply bounded_store | apply bounded_emit
    | apply bounded_frame; intros ? | apply bounded_bind; [|intros ?]
    | match goal with
      | |- bounded (if ?b then _ else _) => destruct b
      | |- bounded (let '(_, _) := ?p in _) => destruct p
      | |- bounded (match ?o with _ => _ end) => destruct o
      end
    | eassumption | by eauto ].

Section Parse.
Context {G D : Type} `{BinderDriver D}.

Lemma bounded_ioctl bs b : bounded (G := G) (ioctl_write_read bs b).
Proof. intros w. unfold ioctl_write_read. by destruct (drv_write_read _ _ _) as [[[] ?] ?]. Qed.

Lemma bounded_send_reply bs reply buf status : bounded (G := G) (binder_send_reply bs reply buf status).
Proof. unfold binder_send_reply. solve_bounded; apply bounded_ioctl. Qed.

Context (call_death : binder_state -> Z -> Z -> C G D unit) (func : option (@binder_handler G D)).
Context (Hdeath : forall bs fn ptr, bounded (call_death bs fn ptr)).
Context (Hfunc : forall f, func = Some f -> forall bs txn msg reply, bounded (f bs txn msg reply)).

Lemma bounded_parse_cmd bs end_ cmd s : bounded (parse_cmd call_death bs func end_ cmd s).
Proof.
  unfold parse_cmd, parse_transaction, parse_reply, parse_dead_binder, bio_init_from_txn.
  solve_bounded; try done; first [apply bounded_ioctl | by apply Hfunc].
Qed.

(** Every command advances the pointer. *)
Lemma parse_cmd_progress bs end_ cmd s w s' w' :
  0 <= ps_ptr s -> ps_ptr s + 40 < 4294967296 ->
  parse_cmd call_death bs func end_ cmd s w = Ok (PNext s') w' ->
  ps_ptr s <= ps_ptr s' <= ps_ptr s + 40.
Proof.
  intros Hlo Hhi R.
  assert (forall n, 0 <= n <= 40 -> ps_ptr s <= ps_ptr (ps_skip n s) <= ps_ptr s + 40) as Hskip.
  { intros n Hn. unfold ps_skip. cbn [ps_ptr]. rewrite u32_small; lia. }
  unfold parse_cmd in R.
  repeat match type of R with context [if ?b then _ else _] =>
    lazymatch b with context [cmd] => destruct b end end;
    try (injection R as <- _; cbn [ps_result ps_ptr]; first [lia | apply Hskip; unfold sizeof_binder_ptr_cookie; lia]); try done.
  - unfold parse_transaction in R. destruct (_ <? _); [done|].
    unfold mbind, C_bind in R. destruct (match func with _ => _ end w); [|done].
    injection R as <- _. apply Hskip. unfold binder_transaction_data.sizeof. lia.
  - unfold parse_reply in R. destruct (_ <? _); [done|].
    unfold mbind, C_bind in R. destruct (ps_bio s).
    + destruct (bio_init_from_txn _ _ w); [|done]. injection R as <- _.
      apply (Hskip 40). lia.
    + injection R as <- _. apply (Hskip 40). lia.
  - unfold parse_dead_binder in R. unfold mbind, C_bind in R.
    destruct (load 4 _ w) as [? w1|]; [|done]. destruct (load 4 _ w1) as [? w2|]; [|done].
    destruct (load 4 _ w2) as [? w3|]; [|done]. destruct (call_death _ _ _ w3); [|done].
    injection R as <- _. apply Hskip. lia.
Qed.

Lemma bounded_parse_loop bs end_ : end_ + 44 < 4294967296 -> forall fuel s,
  0 <= ps_ptr s -> end_ - ps_ptr s <= 4 * Z.of_nat fuel ->
  bounded (parse_loop call_death fuel bs func end_ s).
Proof.
  intros Hend. induction fuel as [|fuel IH]; intros s Hlo Hf; cbn [parse_loop]; case_cmp; try done; [lia|].
  intros w. pose proof (bounded_load (G := G) (D := D) 4 (ps_ptr s) w) as Hl.
  unfold mbind, C_bind. destruct (load 4 (ps_ptr s) w) as [cmd w1|]; [|by intros [= ->]].
  pose proof (bounded_parse_cmd bs end_ cmd (ps_skip 4 s) w1) as Hc.
  destruct (parse_cmd _ _ _ _ _ _ w1) as [[s'|r io] w2|] eqn:E; [|done|by intros [= ->]].
  assert (ps_ptr (ps_skip 4 s) = ps_ptr s + 4) as Ep by (cbn; rewrite u32_small; lia).
  apply parse_cmd_progress in E; [|lia|lia]. apply IH; lia.
Qed.
End Parse.

(** C24. [binder_parse] terminates on any read buffer: whatever bytes the buffer
    holds, its loop makes at most [size / 4 + 1] iterations, because every
    command advances the read pointer by at least its own word; only the
    handler and the death callbacks could keep it from returning. *)
Theorem binder_parse_terminates {G D} `{BinderDriver D}
    (call_death : binder_state -> Z -> Z -> C G D unit) func bs bio io ptr size w :
  (forall bs fn p, bounded (call_death bs fn p)) ->
  (forall f, func = Some f -> forall bs txn msg reply, bounded (f bs txn msg reply)) ->
  0 <= ptr -> 0 <= size -> ptr + size + 44 < 4294967296 ->
  binder_parse call_death bs bio io ptr size func w <> Fault NoFuel.
Proof.
  intros Hd Hf Hp Hs Hhi. unfold binder_parse. rewrite u32_small by lia.
  apply bounded_parse_loop; try done. cbn [ps_ptr].
  unfold parse_fuel. div_lia.
Qed.

(** A process without handlers; memory holds some driver messages. *)
Definition client_world (ms : list br_msg) (script : list (list br_msg)) : world unit Script.state :=
  mkWorld _ _ (mem_write (mem_write (mem_write ∅ 4096 (replicate 2048 x00)) 65536 (replicate 4096 x00))
                         4096 (u32s_bytes (stream ms))) 6000 tt (Script.mkState script []) [].

Definition no_death (bs : binder_state) (fn ptr : Z) : C unit Script.state unit := fail (BadCall fn).

Lemma binder_parse_terminates_witness :
  binder_parse no_death (mkBs 3 0 0) false (mkBio 0 0 0 0 0 0 0 0) 4096 128 None
    (client_world [MNoop; MRef BR_ACQUIRE 1 2; MFailed] []) <> Fault NoFuel.
Proof. by apply (binder_parse_terminates no_death None). Defined.

(** C23. What [binder_parse] reports to a caller. On the encoding of any list of
    driver messages without a death notification it consumes the whole buffer
    and returns the status of the last message that has one (0 for a reply, -1
    for a failure), or 1 if none has; the reply cursor is set from the first
    reply and no later one; memory is not written and exactly one thread is
    started per BR_SPAWN_LOOPER. *)
Theorem binder_parse_client {G D} `{BinderProtocol D area}
    (call_death : binder_state -> Z -> Z -> C G D unit) bs bio io base ms w :
  Forall msg_wf ms -> Forall not_dead ms -> words_at (w_mem w) base (stream ms) ->
  0 <= base -> base + 4 * Z.of_nat (length (stream ms)) + 4 < 4294967296 ->
  binder_parse call_death bs bio io base (4 * Z.of_nat (length (stream ms))) None w =
    Ok (parse_status ms,
        match bio, replies ms with true, t :: _ => txn_bio t io | _, _ => io end)
       (mkWorld _ _ (w_mem w) (w_sp w) (w_glob w) (w_drv w)
          (w_trace w ++ replicate (spawn_count ms) EvSpawn)).
Proof.
  intros Hwf Hnd Hw Hb Hhi.
  pose proof (client_parse call_death bs bio io base ms w Hwf Hnd Hw Hb Hhi)
    as ([r io'] & w' & E & -> & -> & ->)%wp_ok.
  rewrite E. by rewrite msg_bio_io.
Qed.

Definition demo_reply_txn : txn_data := mkTxn 0 0 0 0 1 0 8 0 65600 65664.

Lemma binder_parse_client_witness :
  let ms := [MComplete; MSpawn; MReply demo_reply_txn; MFailed; MSpawn; MReply (mkTxn 0 0 0 0 1 0 4 0 65700 65704)] in
  binder_parse no_death (mkBs 3 0 0) true (mkBio 0 0 0 0 0 0 0 0) 4096
     (4 * Z.of_nat (length (stream ms))) None (client_world ms []) =
    Ok (0, mkBio 65600 65664 8 0 65600 65664 BIO_F_SHARED 0)
       (mkWorld _ _ (w_mem (client_world ms [])) 6000 tt (Script.mkState [] []) [EvSpawn; EvSpawn]).
Proof.
  intros ms. apply (binder_parse_client no_death (mkBs 3 0 0) true (mkBio 0 0 0 0 0 0 0 0) 4096 ms (client_world ms [])).
  - forall_list; split; try done; apply (bool_decide_unpack _); vm_compute; exact I.
  - by forall_list.
  - apply mem_write_bytes_at.
  - lia.
  - cbn. lia.
Defined.

(** C34. A truncated transaction or reply, and an unknown command, stop the
    parser with -1 before anything of it is read. *)
Theorem binder_parse_rejects {G D} `{BinderDriver D}
    (call_death : binder_state -> Z -> Z -> C G D unit) bs bio io func base cmd size w :
  bytes_at (w_mem w) base (le_bytes 4 cmd) -> 0 <= cmd < 4294967296 ->
  0 <= base -> 4 <= size -> base + size < 4294967296 ->
  (cmd = BR_TRANSACTION \/ cmd = BR_REPLY) /\ size < 4 + binder_transaction_data.sizeof \/
  cmd ∉ [BR_NOOP; BR_TRANSACTION_COMPLETE; BR_INCREFS; BR_ACQUIRE; BR_RELEASE; BR_DECREFS;
         BR_SPAWN_LOOPER; BR_TRANSACTION; BR_REPLY; BR_DEAD_BINDER; BR_FAILED_REPLY; BR_DEAD_REPLY] ->
  binder_parse call_death bs bio io base size func w = Ok (-1, io) w.
Proof.
  intros Hb Hcmd Hbase Hsz Hhi Hc. unfold binder_parse, parse_fuel. rewrite u32_small by lia.
  cbn [parse_loop ps_ptr]. case_cmp; [|lia].
  erewrite run_bind by (apply run_load; exact Hb). rewrite le_val_bytes_4 by done.
  assert (u32 (base + size - ps_ptr (ps_skip 4 (mkPs base 1 bio io))) = size - 4) as Erest.
  { cbn [ps_skip ps_ptr]. rewrite (u32_small (base + 4)), u32_small by lia. lia. }
  enough (parse_cmd call_death bs func (base + size) cmd (ps_skip 4 (mkPs base 1 bio io)) w =
          Ok (PReturn (-1) io) w) as Hp by by erewrite run_bind by exact Hp.
  destruct Hc as [[[-> | ->] Hlt]|Hc].
  - unfold parse_cmd. decide_code. unfold parse_transaction. rewrite Erest.
    by case_cmp; [|lia].
  - unfold parse_cmd. decide_code. unfold parse_reply. rewrite Erest.
    by case_cmp; [|lia].
  - rewrite !not_elem_of_cons in Hc. destr_ctx. unfold parse_cmd.
    repeat match goal with |- context [cmd =? ?c] => destruct (Z.eqb_spec cmd c); [done|] end. done.
Qed.

Lemma binder_parse_rejects_witness :
  binder_parse no_death (mkBs 3 0 0) true (mkBio 0 0 0 0 0 0 0 0) 4096 40 None
    (client_world [MReply demo_reply_txn] []) =
  Ok (-1, mkBio 0 0 0 0 0 0 0 0) (client_world [MReply demo_reply_txn] []).
Proof.
  apply (binder_parse_rejects no_death _ _ _ _ _ BR_REPLY); try lia.
  - vm_compute. reflexivity.
  - vm_compute. split; [intros E; discriminate E|reflexivity].
  - left. split; [by right|]. vm_compute. reflexivity.
Defined.

(** ** Commands *)

(** A reply is one write to the driver: the command that frees the buffer
    of the transaction, then the reply, which carries the handler's status as
    data (the word it points to, in the frame) when it is not zero and
    otherwise the data and offsets of the reply cursor; memory changes only on the stack and in the driver's area. The two
    sender fields, which the code leaves unassigned, are arbitrary. *)
Theorem send_reply_once {G D} `{BinderProtocol D area} bs reply buf status (w : world G D) :
  mapped (w_mem w) (w_sp w - 56) 56 ->
  exists w' pid euid, binder_send_reply bs reply buf status w = Ok tt w' /\
    w_trace w' = w_trace w ++ [EvIoctl (fd bs) BINDER_WRITE_READ (u32s_bytes
      ([BC_FREE_BUFFER; buf; BC_REPLY; 0; 0; 0] ++
       if status =? 0
       then [0; pid; euid; u32 (data reply - data0 reply); u32 (offs reply - offs0 reply);
             data0 reply; offs0 reply]
       else [TF_STATUS_CODE; pid; euid; 4; 0; w_sp w - 4; 0]))] /\
    w_sp w' = w_sp w /\ w_glob w' = w_glob w /\
    ((forall a, w_sp w - 4 <= a < w_sp w -> ~ area a) ->
       bytes_at (w_mem w') (w_sp w - 4) (le_bytes 4 status)) /\
    forall a, ~ (w_sp w - 56 <= a < w_sp w) -> ~ area a -> w_mem w' !! a = w_mem w !! a.
Proof.
  intros Hm.
  pose proof (binder_send_reply_effect area bs reply buf status w Hm)
    as ([] & w' & E & pid & euid & [[[[E1 E2 E3 E4] E5] E6] Hst])%wp_ok.
  exists w', pid, euid. split_and!; try done.
  - rewrite E5. unfold write_event, reply_words. by destruct (status =? 0).
  - intros a Hs Ha. apply E3. intros [Hx|Hx]; [by apply Hs|done].
Qed.

Lemma send_reply_once_witness :
  let w := client_world [] [] in
  exists w' pid euid, binder_send_reply (mkBs 3 0 0) (mkBio 4120 4100 200 4 4112 4096 0 0) 65600 0 w = Ok tt w' /\
    w_trace w' = [EvIoctl 3 BINDER_WRITE_READ (u32s_bytes
      [BC_FREE_BUFFER; 65600; BC_REPLY; 0; 0; 0; 0; pid; euid; 8; 4; 4112; 4096])].
Proof.
  intros w. destruct (send_reply_once (area := Script.area) (mkBs 3 0 0) (mkBio 4120 4100 200 4 4112 4096 0 0) 65600 0 w)
    as (w' & pid & euid & E & Ht & _).
  - apply mappedb_mapped. vm_compute. reflexivity.
  - exists w', pid, euid. split; [exact E|exact Ht].
Defined.

(** C13. A call. An overflowed message is refused: [binder_call] returns -1
    with the failed cursor, nothing sent and nothing changed. Any other, of a
    process that has asked for no death notification and if the driver
    eventually answers, is sent exactly once, whatever the number of reads it
    takes (every later ioctl hands over nothing). The last of them decides:
    status 0 and the cursor over the first BR_REPLY it delivered if its last
    message with a status was a reply; otherwise, and if the ioctl failed, -1
    and the failed cursor. Memory changes only on the stack and in the
    driver's area. *)
Theorem call_sends_once {G D} `{BinderProtocol D area}
    (call_death : binder_state -> Z -> Z -> C G D unit) rank fuel bs msg reply target code w :
  answers rank -> (rank (w_drv w) < fuel)%nat -> drv_cookies (w_drv w) = [] ->
  0 <= w_sp w - 172 -> w_sp w < 4294967000 -> mapped (w_mem w) (w_sp w - 172) 172 ->
  (Z.land (flags msg) BIO_F_OVERFLOW <> 0 ->
   binder_call call_death fuel bs msg reply target code w = Ok (-1, failed_reply) w) /\
  (Z.land (flags msg) BIO_F_OVERFLOW = 0 ->
  exists r reply' w' cookie pid euid evs d m b res b1,
    binder_call call_death fuel bs msg reply target code w = Ok (r, reply') w' /\
    w_trace w' = w_trace w ++ EvIoctl (fd bs) BINDER_WRITE_READ (u32s_bytes
      [BC_TRANSACTION; target; cookie; code; 0; pid; euid; u32 (data msg - data0 msg);
       u32 (offs msg - offs0 msg); data0 msg; offs0 msg]) :: evs /\
    Forall (fun e => e = EvIoctl (fd bs) BINDER_WRITE_READ [] \/ e = EvSpawn) evs /\
    rtc drv_step (w_drv w) d /\ drv_write_read d m b = (res, b1, w_mem w', w_drv w') /\
    (res < 0 /\ r = -1 /\ reply' = failed_reply \/
     0 <= res /\ exists ms, words_at (w_mem w') (read_buffer b) (stream ms) /\
       read_consumed b1 = 4 * Z.of_nat (length (stream ms)) /\
       (parse_status ms = -1 /\ r = -1 /\ reply' = failed_reply \/
        parse_status ms = 0 /\ r = 0 /\ exists t ts io, replies ms = t :: ts /\
          reply' = txn_bio t io /\ txn_valid area (w_mem w') t)) /\
    w_sp w' = w_sp w /\
    forall a, ~ (w_sp w - 172 <= a < w_sp w) -> ~ area a -> w_mem w' !! a = w_mem w !! a).
Proof.
  intros Hr Hf Hc Hlo Hhi Hm. split; [apply binder_call_overflow|]. intros Hfl.
  pose proof (binder_call_run area call_death rank fuel bs msg reply target code w Hr Hf Hc Hlo Hhi Hm Hfl)
    as ([r reply'] & w' & E & cookie & pid & euid & evs & Hev & [[[E1 E2 E3 E4] E5] E6] & io0 & Hres)%wp_ok.
  destruct (call_end_read _ _ _ _ _ _ Hres) as (d & m & b & res & b1 & Ed0 & Ed & He).
  exists r, reply', w', cookie, pid, euid, evs, d, m, b, res, b1. split_and!; try done.
  intros a Hs Ha. apply E3. intros [Hx|Hx]; [by apply Hs|done].
Qed.

Lemma script_answers : answers (D := Script.state) (fun d => length (Script.script d)).
Proof. intros d m b res b' m' d' ms E Hr Hs _ _ _. by eapply Script.consumes_script. Qed.

Lemma call_sends_once_witness :
  let w := client_world [] [[MNoop]; [MComplete]; [MReply demo_reply_txn]] in
  exists r reply' w', binder_call no_death 4 (mkBs 3 0 0) (mkBio 4120 4100 200 4 4112 4096 0 0)
    (mkBio 0 0 0 0 0 0 0 0) 0 2 w = Ok (r, reply') w' /\
    length (w_trace w') = 3%nat /\ reply' = mkBio 65600 65664 8 0 65600 65664 BIO_F_SHARED 0.
Proof.
  intros w.
  destruct (call_sends_once (area := Script.area) no_death (fun d => length (Script.script d)) 4 (mkBs 3 0 0)
    (mkBio 4120 4100 200 4 4112 4096 0 0) (mkBio 0 0 0 0 0 0 0 0) 0 2 w)
    as [_ Hc].
  - apply script_answers.
  - cbn. lia.
  - done.
  - cbn. lia.
  - cbn. lia.
  - apply mappedb_mapped. vm_compute. reflexivity.
  - destruct (Hc eq_refl) as (r & reply' & w' & _ & _ & _ & _ & _ & _ & _ & _ & _ & E & _).
    assert (match binder_call no_death 4 (mkBs 3 0 0) (mkBio 4120 4100 200 4 4112 4096 0 0)
                    (mkBio 0 0 0 0 0 0 0 0) 0 2 w with
            | Ok (_, io) w' => (length (w_trace w'), io)
            | Fault _ => (0%nat, failed_reply)
            end = (3%nat, mkBio 65600 65664 8 0 65600 65664 BIO_F_SHARED 0)) as V by (vm_compute; reflexivity).
    rewrite E in V. injection V as V1 V2. exists r, reply', w'. split; [exact E|]. split; [exact V1|exact V2].
Defined.

(** An overflowed message is never sent: [binder_call] fails at once, the
    driver untouched, and the reply cursor it leaves is one every getter
    refuses. *)
Theorem call_refuses_overflow {G D} `{BinderDriver D}
    (call_death : binder_state -> Z -> Z -> C G D unit) fuel bs msg reply target code w :
  overflowed msg ->
  binder_call call_death fuel bs msg reply target code w = Ok (-1, failed_reply) w /\
  bio_get_uint32 failed_reply w = Ok (0, bio_exhaust failed_reply) w.
Proof.
  intros Ho. split; [|done]. apply binder_call_overflow. intros E.
  apply (f_equal (fun z => Z.testbit z 1)) in E. rewrite Z.land_spec, Z.bits_0 in E.
  unfold overflowed in Ho. by rewrite Ho in E.
Qed.

Lemma call_refuses_overflow_witness :
  let io := bio_or_flags BIO_F_OVERFLOW (mkBio 4120 4100 0 0 4112 4096 0 0) in
  overflowed io /\
  binder_call no_death 0 (mkBs 3 0 0) io io 0 2 (client_world [] []) = Ok (-1, failed_reply) (client_world [] []).
Proof.
  intros io. split; [reflexivity|]. by apply (call_refuses_overflow no_death).
Defined.

(** Releasing a reply. [binder_done] hands the buffer of a reply back to the
    driver exactly once: the first call frees it if it belongs to the driver
    (a failed call has none to free), and a second call on the same cursor
    does nothing. *)
Theorem done_frees_once {G D} `{BinderProtocol D area} bs msg reply (w : world G D) :
  mapped (w_mem w) (w_sp w - 8) 8 ->
  exists reply' w', binder_done bs msg reply w = Ok reply' w' /\
    w_trace w' = w_trace w ++
      (if Z.land (flags reply) BIO_F_SHARED =? 0 then []
       else [EvIoctl (fd bs) BINDER_WRITE_READ (u32s_bytes [BC_FREE_BUFFER; data0 reply])]) /\
    w_sp w' = w_sp w /\ binder_done bs msg reply' w' = Ok reply' w'.
Proof.
  intros Hm. destruct (Z.eqb_spec (Z.land (flags reply) BIO_F_SHARED) 0) as [E|E].
  - assert (binder_done bs msg reply w = Ok reply w) as R.
    { unfold binder_done. by rewrite E. }
    exists reply, w. by rewrite app_nil_r.
  - pose proof (binder_done_effect area bs msg reply w Hm E)
      as (r & w' & R & -> & [[[E1 _ _ _] E5] _])%wp_ok.
    exists (bio_cleared reply), w'. split_and!; done.
Qed.

Lemma done_frees_once_witness :
  let w := client_world [] [] in
  let io := mkBio 65600 65664 8 0 65600 65664 BIO_F_SHARED 0 in
  exists reply' w', binder_done (mkBs 3 0 0) io io w = Ok reply' w' /\
    w_trace w' = [EvIoctl 3 BINDER_WRITE_READ (u32s_bytes [BC_FREE_BUFFER; 65600])] /\
    binder_done (mkBs 3 0 0) io reply' w' = Ok reply' w'.
Proof.
  intros w io. destruct (done_frees_once (area := Script.area) (mkBs 3 0 0) io io w) as (r & w' & E & Ht & _ & E2).
  - apply mappedb_mapped. vm_compute. reflexivity.
  - exists r, w'. split_and!; [exact E|exact Ht|exact E2].
Defined.
