(* ===== verification/ServiceManager.v ===== *)
(** * The service manager: src/binder/service_manager.c

    The registry is a singly linked list of [struct svcinfo] nodes on the
    heap; the handler decodes a request parcel, consults or updates the list
    and writes a reply parcel. *)
From Stdlib Require Import ZArith Strings.Byte.
From stdpp Require Import base gmap list strings.
From S2P Require Import Prelude CMachine BinderProto BinderIo Binder FsConfig.
Open Scope Z_scope.

(** ** Constants of binder.h; the user ids are those of [FsConfig] *)

Definition BINDER_SERVICE_MANAGER : Z := 0.
Definition SVC_MGR_NAME : string := "android.os.IServiceManager".
Definition PING_TRANSACTION : Z :=
  B_PACK_CHARS (char_val "_") (char_val "P") (char_val "N") (char_val "G").
Definition SVC_MGR_GET_SERVICE : Z := 1.
Definition SVC_MGR_CHECK_SERVICE : Z := 2.
Definition SVC_MGR_ADD_SERVICE : Z := 3.
Definition SVC_MGR_LIST_SERVICES : Z := 4.

(** [struct svcinfo]; [death] is a [struct binder_death]. *)
Module svcinfo.
Definition next : Z := 0.
Definition handle : Z := 4.
Definition death : Z := 8.
Definition death_func : Z := 8.
Definition death_ptr : Z := 12.
Definition allow_isolated : Z := 16.
Definition len : Z := 20.
Definition name : Z := 24.
Definition sizeof : Z := 24.
End svcinfo.

(** The static variables: [svcmgr_handle], [svclist] and the buffer of
    [str8]. *)
Record svcmgr : Type := mkSvcmgr {
    svcmgr_handle : Z;
    svclist : Z;
    str8_buf : list byte;
}.

Definition svcmgr_id : list Z := byte_val <$> chars SVC_MGR_NAME.

Section ServiceManager.
Context {D : Type} `{BinderDriver D} `{Malloc}.
(** The address of the function [svcinfo_death]. *)
Context (svcinfo_death_fn : Z).

Abbreviation prog := (C svcmgr D).

(** ** Strings *)

(** [while ((max > 0) && ( *x != 0)) { *p++ = *x++; max--; }]: the
    characters copied; a unit is truncated to its low byte. *)
Fixpoint str8_loop (max : nat) (x : Z) : prog (list byte) :=
  match max with
  | O => mret []
  | S max =>
      c ← load 2 x;
      if c =? 0 then mret []
      else rest ← str8_loop max (x + 2); mret (byte_of c :: rest)
  end.

(** Leaves the string in the static buffer. *)
Definition str8 (x x_len : Z) : prog unit :=
  let max := if x_len <? 127 then x_len else 127 in
  cs ← (if negb (x =? 0) then str8_loop (Z.to_nat max) x else mret []);
  g ← get_glob;
  put_glob (mkSvcmgr (svcmgr_handle g) (svclist g)
                     (cs ++ x00 :: drop (S (length cs)) (str8_buf g))).

(** The C string in the buffer, for a [%s] conversion. *)
Fixpoint cstr (bs : list byte) : list byte :=
  match bs with
  | [] => []
  | b :: bs => if bool_decide (b = x00) then [] else b :: cstr bs
  end.

(** [ALOGI/ALOGE(fmt, str8(x, len), n)] *)
Definition log8 (fmt : string) (x len n : Z) : prog unit :=
  str8 x len;;
  g ← get_glob;
  emit (EvPrint fmt (cstr (str8_buf g)) n).

Fixpoint str16eq_loop (fuel : nat) (a b : Z) : prog Z :=
  match fuel with
  | O => fail NoFuel
  | S fuel =>
      ca ← load 2 a;
      cb ← load 1 b;
      if negb (ca =? 0) && negb (cb =? 0) then
        if negb (ca =? cb) then mret 0 else str16eq_loop fuel (a + 2) (b + 1)
      else if negb (ca =? 0) || negb (cb =? 0) then mret 0
      else mret 1
  end.

Definition str16eq (a b : Z) : prog Z := fun w => str16eq_loop (scan_fuel w) a b w.

(** ** Permissions: every check succeeds *)

Definition check_mac_perms (spid tctx : Z) (perm : string) (name : Z) : bool := true.
Definition check_mac_perms_from_getcon (spid : Z) (perm : string) : bool := true.
Definition check_mac_perms_from_lookup (spid : Z) (perm : string) : bool := true.

Definition svc_can_register (name name_len spid : Z) : prog bool :=
  str8 name name_len;;
  mret (check_mac_perms_from_lookup spid "add").

Definition svc_can_list (spid : Z) : prog bool :=
  mret (check_mac_perms_from_getcon spid "list").

Definition svc_can_find (name name_len spid : Z) : prog bool :=
  str8 name name_len;;
  mret (check_mac_perms_from_lookup spid "find").

(** ** The list *)

Fixpoint find_svc_loop (fuel : nat) (s16 len si : Z) : prog Z :=
  if si =? 0 then mret 0
  else
    match fuel with
    | O => fail NoFuel
    | S fuel =>
        l ← load 4 (si + svcinfo.len);
        same ← (if len =? l then memcmp_eq s16 (si + svcinfo.name) (u32 (len * 2))
                else mret false);
        if same : bool then mret si
        else
          next ← load 4 (si + svcinfo.next);
          find_svc_loop fuel s16 len next
    end.

Definition find_svc (s16 len : Z) : prog Z := fun w =>
  find_svc_loop (scan_fuel w) s16 len (svclist (w_glob w)) w.

Definition svcinfo_death (bs : binder_state) (si : Z) : prog unit :=
  l ← load 4 (si + svcinfo.len);
  log8 "service '%s' died" (si + svcinfo.name) l 0;;
  handle ← load 4 (si + svcinfo.handle);
  if negb (handle =? 0) then
    binder_release bs handle;;
    store 4 (si + svcinfo.handle) 0
  else mret ().

(** Calls through [death->func]: the only function of that type here. *)
Definition call_death (bs : binder_state) (fn ptr : Z) : prog unit :=
  if fn =? svcinfo_death_fn then svcinfo_death bs ptr else fail (BadCall fn).

Definition do_find_service (bs : binder_state) (s len uid spid : Z) : prog Z :=
  can ← svc_can_find s len spid;
  if negb can then
    log8 "find_service('%s') uid=%d - PERMISSION DENIED" s len uid;;
    mret 0
  else
    si ← find_svc s len;
    if si =? 0 then mret 0
    else
      handle ← load 4 (si + svcinfo.handle);
      if handle =? 0 then mret 0
      else
        allow ← load 4 (si + svcinfo.allow_isolated);
        let appid := uid `mod` AID_USER in
        if (allow =? 0) && (AID_ISOLATED_START <=? appid) && (appid <=? AID_ISOLATED_END)
        then mret 0
        else load 4 (si + svcinfo.handle).

(** The [else] branch of [do_add_service]: a new node at the head;
    [NULL] when out of memory. *)
Definition new_svc (s len handle allow_isolated : Z) : prog Z :=
  si ← do_malloc (u32 (svcinfo.sizeof + u32 (u32 (len + 1) * 2)));
  if si =? 0 then mret 0
  else
    store 4 (si + svcinfo.handle) handle;;
    store 4 (si + svcinfo.len) len;;
    memcpy (si + svcinfo.name) s (u32 (u32 (len + 1) * 2));;
    store 2 (si + svcinfo.name + 2 * len) 0;;
    store 4 (si + svcinfo.death_func) svcinfo_death_fn;;
    store 4 (si + svcinfo.death_ptr) si;;
    store 4 (si + svcinfo.allow_isolated) allow_isolated;;
    g ← get_glob;
    store 4 (si + svcinfo.next) (svclist g);;
    put_glob (mkSvcmgr (svcmgr_handle g) si (str8_buf g));;
    mret si.

Definition do_add_service (bs : binder_state) (s len handle uid allow_isolated spid : Z) :
    prog Z :=
  if (handle =? 0) || (len =? 0) || (127 <? len) then mret (-1)
  else
    can ← svc_can_register s len spid;
    if negb can then
      log8 "add_service('%s',%x) uid=%d - PERMISSION DENIED" s len uid;;
      mret (-1)
    else
      si ← find_svc s len;
      si ← (if negb (si =? 0) then
              old ← load 4 (si + svcinfo.handle);
              (if negb (old =? 0) then
                 log8 "add_service('%s',%x) uid=%d - ALREADY REGISTERED, OVERRIDE" s len uid;;
                 svcinfo_death bs si
               else mret ());;
              store 4 (si + svcinfo.handle) handle;;
              mret si
            else new_svc s len handle allow_isolated);
      if si =? 0 then
        log8 "add_service('%s',%x) uid=%d - OUT OF MEMORY" s len uid;;
        mret (-1)
      else
        log8 "add_service('%s'), handle = %d" s len handle;;
        binder_acquire bs handle;;
        binder_link_to_death bs handle (si + svcinfo.death);;
        mret 0.

(** ** The transaction handler *)

(** [while ((n-- > 0) && si) si = si->next;] *)
Fixpoint list_skip (fuel : nat) (n si : Z) : prog Z :=
  if (0 <? n) && negb (si =? 0) then
    match fuel with
    | O => fail NoFuel
    | S fuel =>
        next ← load 4 (si + svcinfo.next);
        list_skip fuel (n - 1) next
    end
  else mret si.

Definition handle_find (bs : binder_state) (txn : Z) (msg reply : binder_io) :
    prog (Z * binder_io) :=
  '(s, len, msg) ← bio_get_string16 msg;
  if s =? 0 then mret (-1, reply)
  else
    euid ← load 4 (txn + binder_transaction_data.sender_euid);
    pid ← load 4 (txn + binder_transaction_data.sender_pid);
    handle ← do_find_service bs s len euid pid;
    if handle =? 0 then
      reply ← bio_put_uint32 reply 0;
      mret (0, reply)
    else
      reply ← bio_put_ref reply handle;
      mret (0, reply).

Definition handle_add (bs : binder_state) (txn : Z) (msg reply : binder_io) :
    prog (Z * binder_io) :=
  '(s, len, msg) ← bio_get_string16 msg;
  if s =? 0 then mret (-1, reply)
  else
    '(handle, msg) ← bio_get_ref msg;
    '(v, msg) ← bio_get_uint32 msg;
    let allow_isolated := if negb (v =? 0) then 1 else 0 in
    euid ← load 4 (txn + binder_transaction_data.sender_euid);
    pid ← load 4 (txn + binder_transaction_data.sender_pid);
    r ← do_add_service bs s len handle euid allow_isolated pid;
    if negb (r =? 0) then mret (-1, reply)
    else
      reply ← bio_put_uint32 reply 0;
      mret (0, reply).

Definition handle_list (bs : binder_state) (txn : Z) (msg reply : binder_io) :
    prog (Z * binder_io) :=
  '(n, msg) ← bio_get_uint32 msg;
  pid ← load 4 (txn + binder_transaction_data.sender_pid);
  can ← svc_can_list pid;
  if negb can then mret (-1, reply)
  else
    g ← get_glob;
    si ← (fun w => list_skip (scan_fuel w) n (svclist g) w);
    if negb (si =? 0) then
      reply ← bio_put_string16 reply (si + svcinfo.name);
      mret (0, reply)
    else mret (-1, reply).

(** The [switch (txn->code)]. *)
Definition svcmgr_dispatch (bs : binder_state) (txn code : Z) (msg reply : binder_io) :
    prog (Z * binder_io) :=
  if (code =? SVC_MGR_GET_SERVICE) || (code =? SVC_MGR_CHECK_SERVICE) then
    handle_find bs txn msg reply
  else if code =? SVC_MGR_ADD_SERVICE then handle_add bs txn msg reply
  else if code =? SVC_MGR_LIST_SERVICES then handle_list bs txn msg reply
  else mret (-1, reply).

Definition svcmgr_handler (bs : binder_state) (txn : Z) (msg reply : binder_io) :
    prog (Z * binder_io) :=
  target ← load 4 (txn + binder_transaction_data.target);
  g ← get_glob;
  if negb (target =? svcmgr_handle g) then mret (-1, reply)
  else
    code ← load 4 (txn + binder_transaction_data.code);
    if code =? PING_TRANSACTION then mret (0, reply)
    else
      '(strict_policy, msg) ← bio_get_uint32 msg;
      '(s, len, msg) ← bio_get_string16 msg;
      if s =? 0 then mret (-1, reply)
      else
        valid ← (if len =? Z.of_nat (length svcmgr_id)
                 then memcmp_const s (u16s_bytes svcmgr_id) else mret false);
        if negb valid then
          log8 "invalid id %s" s len 0;;
          mret (-1, reply)
        else svcmgr_dispatch bs txn code msg reply.
End ServiceManager.
