(* ===== verification/SvcRegistry.v ===== *)
(** * The service registry: abstract specification and representation

    What the service manager promises: a list of entries with distinct names,
    the newest first, with lookup, registration and death. [chain] relates it
    to the linked list of [struct svcinfo] nodes in memory. *)
From Stdlib Require Import ZArith Strings.Byte.
From stdpp Require Import base gmap list strings.
From S2P Require Import Prelude CMachine BinderProto BinderIo BinderParcel Binder BinderLemmas BinderParse ServiceManager FsConfig.
Open Scope Z_scope.

(** ** The abstract registry *)

Record entry : Type := mkEntry {
    e_name : list Z;        (* 16-bit units *)
    e_handle : Z;           (* 0: the service has died *)
    e_allow : Z;            (* allow_isolated *)
}.

#[export] Instance entry_eq_dec : EqDecision entry.
Proof. solve_decision. Defined.

Definition set_e_handle (h : Z) (e : entry) : entry := mkEntry (e_name e) h (e_allow e).

Fixpoint find_entry (us : list Z) (r : list entry) : option entry :=
  match r with
  | [] => None
  | e :: r => if decide (e_name e = us) then Some e else find_entry us r
  end.

(** A uid of an isolated process, whatever the Android user. *)
Definition isolated (uid : Z) : bool :=
  let appid := uid `mod` AID_USER in (AID_ISOLATED_START <=? appid) && (appid <=? AID_ISOLATED_END).

(** The handle a client with this uid gets; 0 for none. *)
Definition reg_lookup (us : list Z) (uid : Z) (r : list entry) : Z :=
  match find_entry us r with
  | Some e => if (e_allow e =? 0) && isolated uid then 0 else e_handle e
  | None => 0
  end.

(** The handle of the entry named [us] becomes [h]. *)
Definition reg_set (us : list Z) (h : Z) (r : list entry) : list entry :=
  (fun e => if decide (e_name e = us) then set_e_handle h e else e) <$> r.

(** Registration: a known name keeps its place and its isolation flag. *)
Definition reg_add (us : list Z) (h allow : Z) (r : list entry) : list entry :=
  match find_entry us r with
  | Some _ => reg_set us h r
  | None => mkEntry us h allow :: r
  end.

(** ** The representation *)

(** A node: its address and its contents. *)
Definition node : Type := Z * entry.

Definition entries (nodes : list node) : list entry := snd <$> nodes.

Definition head_of (nodes : list node) : Z :=
  match nodes with [] => 0 | n :: _ => fst n end.

Definition node_words (fn next : Z) (n : node) : list Z :=
  [next; e_handle (snd n); fn; fst n; e_allow (snd n); Z.of_nat (length (e_name (snd n)))].

Definition node_at (fn : Z) (m : memory) (next : Z) (n : node) : Prop :=
  words_at m (fst n) (node_words fn next n) /\
  bytes_at m (fst n + svcinfo.name) (u16s_bytes (e_name (snd n) ++ [0])).

Fixpoint chain (fn : Z) (m : memory) (nodes : list node) : Prop :=
  match nodes with
  | [] => True
  | n :: ns => node_at fn m (head_of ns) n /\ chain fn m ns
  end.

Definition node_size (n : node) : Z :=
  svcinfo.sizeof + 2 * (Z.of_nat (length (e_name (snd n))) + 1).

Definition region (n : node) (a : Z) : Prop := fst n <= a < fst n + node_size n.

Definition owned (nodes : list node) (a : Z) : Prop := exists n, n ∈ nodes /\ region n a.

(** Nodes do not overlap. *)
Fixpoint separated (nodes : list node) : Prop :=
  match nodes with
  | [] => True
  | n :: ns => (forall a, region n a -> ~ owned ns a) /\ separated ns
  end.

Record node_wf (n : node) : Prop := {
    nw_lo : 0 < fst n;
    nw_hi : fst n + node_size n < 4294967296;
    nw_len : (1 <= length (e_name (snd n)) <= 127)%nat;
    nw_units : Forall (fun u => 0 <= u < 65536) (e_name (snd n));
    nw_handle : word_ok (e_handle (snd n));
    nw_allow : e_allow (snd n) = 0 \/ e_allow (snd n) = 1;
}.

(** ** Lemmas on the abstract registry *)

Lemma find_entry_name us r e : find_entry us r = Some e -> e_name e = us.
Proof.
  induction r as [|e' r IH]; [done|]. cbn [find_entry]. case_decide; [by intros [= <-]|done].
Qed.

Lemma find_entry_None us r : find_entry us r = None <-> us ∉ e_name <$> r.
Proof.
  induction r as [|e r IH]; cbn [find_entry fmap list_fmap].
  - split; [intros _; apply not_elem_of_nil|done].
  - rewrite not_elem_of_cons, <- IH. case_decide; split; try done; intros; destr_ctx; congruence.
Qed.

Lemma reg_set_names us h r : e_name <$> reg_set us h r = e_name <$> r.
Proof.
  unfold reg_set. rewrite <- list_fmap_compose. apply list_fmap_ext.
  intros i e _. cbn. by case_decide.
Qed.

Lemma find_reg_set us h vs r :
  find_entry vs (reg_set us h r) =
  if decide (vs = us) then set_e_handle h <$> find_entry vs r else find_entry vs r.
Proof.
  induction r as [|e r IH]; [by case_decide|].
  unfold reg_set in *. cbn [fmap list_fmap find_entry]. rewrite IH.
  repeat (case_decide; cbn [e_name set_e_handle] in * ); subst; done || congruence.
Qed.

(** ** Lemmas on the representation *)

Lemma owned_cons n ns a : owned (n :: ns) a <-> region n a \/ owned ns a.
Proof.
  unfold owned. setoid_rewrite elem_of_cons. split.
  - intros (n' & [->|] & ?); eauto.
  - intros [?|(n' & ? & ?)]; eauto.
Qed.

Lemma node_at_agree fn m m' next n :
  agree m m' (fst n) (node_size n) -> node_at fn m next n -> node_at fn m' next n.
Proof.
  unfold node_size, svcinfo.sizeof. intros Ha [H1 H2]. split.
  - eapply bytes_at_agree; [|exact H1]. rewrite length_u32s_bytes. cbn [length node_words].
    eapply agree_sub; [exact Ha|lia..].
  - eapply bytes_at_agree; [|exact H2]. rewrite length_u16s_bytes, length_app. cbn [length].
    unfold svcinfo.name. eapply agree_sub; [exact Ha|lia..].
Qed.

(** Memory outside the nodes is irrelevant. *)
Lemma chain_frame fn m m' nodes :
  (forall a, owned nodes a -> m' !! a = m !! a) -> chain fn m nodes -> chain fn m' nodes.
Proof.
  induction nodes as [|n ns IH]; [done|]. intros Ha [Hn Hc]. split.
  - eapply node_at_agree; [|exact Hn]. intros a Hr. apply Ha, owned_cons. by left.
  - apply IH; [|done]. intros a Ho. apply Ha, owned_cons. by right.
Qed.

Lemma chain_node fn m nodes n :
  chain fn m nodes -> n ∈ nodes -> exists next, node_at fn m next n.
Proof.
  induction nodes as [|n' ns IH]; intros Hc Hin; [destruct (not_elem_of_nil _ Hin)|].
  destruct Hc as [Hn Hc]. apply elem_of_cons in Hin as [->|Hin]; [by exists (head_of ns)|by apply IH].
Qed.

Lemma node_size_pos n : 26 <= node_size n.
Proof. unfold node_size, svcinfo.sizeof. lia. Qed.

(** Distinct nodes have distinct addresses. *)
Lemma separated_addr nodes n n' :
  separated nodes -> n ∈ nodes -> n' ∈ nodes -> fst n = fst n' -> n = n'.
Proof.
  induction nodes as [|n0 ns IH]; intros Hs Hn Hn' E; [destruct (not_elem_of_nil _ Hn)|].
  destruct Hs as [Hd Hs].
  assert (forall x y, x ∈ ns -> fst n0 = fst x -> y = n0 -> y = x) as Hno.
  { intros x y Hx Ex ->. destruct (Hd (fst n0)).
    - unfold region. pose proof (node_size_pos n0). lia.
    - exists x. split; [done|]. unfold region. pose proof (node_size_pos x). lia. }
  apply elem_of_cons in Hn as [->|Hn]; apply elem_of_cons in Hn' as [->|Hn']; eauto.
  by symmetry; apply Hno.
Qed.

Definition set_handle (a h : Z) (nodes : list node) : list node :=
  (fun n : node => if decide (fst n = a) then (fst n, set_e_handle h (snd n)) else n) <$> nodes.

Lemma set_handle_region a h n b :
  region (if decide (fst n = a) then (fst n, set_e_handle h (snd n)) else n) b <-> region n b.
Proof. by case_decide. Qed.

Lemma set_handle_owned a h nodes b : owned (set_handle a h nodes) b <-> owned nodes b.
Proof.
  induction nodes as [|n ns IH]; [done|].
  unfold set_handle in *. cbn [fmap list_fmap]. by rewrite !owned_cons, set_handle_region, IH.
Qed.

Lemma set_handle_separated a h nodes : separated nodes -> separated (set_handle a h nodes).
Proof.
  induction nodes as [|n ns IH]; [done|]. intros [Hd Hs]. split.
  - intros b. rewrite set_handle_region. intros Hr Ho.
    apply (Hd b Hr). by apply (set_handle_owned a h).
  - by apply IH.
Qed.

Lemma set_handle_wf a h nodes :
  word_ok h -> Forall node_wf nodes -> Forall node_wf (set_handle a h nodes).
Proof.
  intros Hh Hf. unfold set_handle. apply Forall_fmap. eapply Forall_impl; [exact Hf|].
  intros n []. cbn. case_decide; by split.
Qed.

Lemma set_handle_head a h nodes : head_of (set_handle a h nodes) = head_of nodes.
Proof. destruct nodes as [|n ns]; [done|]. cbn. by case_decide. Qed.

Lemma set_handle_notin a h nodes : (forall n, n ∈ nodes -> fst n <> a) -> set_handle a h nodes = nodes.
Proof.
  induction nodes as [|n ns IH]; [done|]. intros Hn. unfold set_handle in *. cbn [fmap list_fmap].
  rewrite decide_False by (apply Hn; left). f_equal. apply IH. intros n' Hin. apply Hn. by right.
Qed.

(** Assigning the handle of a node. *)
Lemma node_at_set_handle fn m next n h :
  node_at fn m next n ->
  node_at fn (mem_write m (fst n + svcinfo.handle) (le_bytes 4 h)) next
    (fst n, set_e_handle h (snd n)).
Proof.
  intros [H1 H2]. split.
  - apply (words_at_store m (fst n) (node_words fn next n) 1 h H1). simpl; lia.
  - eapply bytes_at_agree; [|exact H2]. apply mem_write_agree.
    rewrite length_le_bytes. cbn [fst snd]. unfold svcinfo.handle, svcinfo.name. lia.
Qed.

Lemma handle_write_agree m n h ns :
  (forall a, region n a -> ~ owned ns a) ->
  forall a, owned ns a -> mem_write m (fst n + svcinfo.handle) (le_bytes 4 h) !! a = m !! a.
Proof.
  intros Hd a Ho. apply (mem_write_agree _ _ _ a 1); [|lia].
  rewrite length_le_bytes. unfold svcinfo.handle. pose proof (node_size_pos n).
  destruct (decide (fst n + 4 <= a < fst n + 8)) as [Hr|]; [|lia].
  destruct (Hd a); [unfold region; lia|done].
Qed.

Lemma chain_set_handle fn m nodes n h :
  chain fn m nodes -> separated nodes -> n ∈ nodes ->
  chain fn (mem_write m (fst n + svcinfo.handle) (le_bytes 4 h)) (set_handle (fst n) h nodes).
Proof.
  intros Hc Hs Hin. induction nodes as [|n0 ns IH]; [done|].
  pose proof Hs as [Hd Hs']. destruct Hc as [Hn Hc].
  change (set_handle (fst n) h (n0 :: ns)) with
    ((if decide (fst n0 = fst n) then (fst n0, set_e_handle h (snd n0)) else n0)
       :: set_handle (fst n) h ns).
  split; [rewrite set_handle_head|].
  - case_decide as E.
    + rewrite <- E. by apply node_at_set_handle.
    + eapply node_at_agree; [|exact Hn]. intros a Ha. apply (handle_write_agree m n h [n0]).
      * intros b Hb [n' [->%list_elem_of_singleton Hb']].
        apply elem_of_cons in Hin as [->|Hin]; [done|].
        apply (Hd b Hb'). by exists n.
      * exists n0. split; [by left|done].
  - apply elem_of_cons in Hin as [->|Hin]; [|by apply IH].
    rewrite set_handle_notin.
    + eapply chain_frame; [|exact Hc]. by apply handle_write_agree.
    + intros n' Hn' E. apply (Hd (fst n')).
      * unfold region. pose proof (node_size_pos n0). lia.
      * exists n'. split; [done|]. unfold region. pose proof (node_size_pos n'). lia.
Qed.

Lemma names_inj nodes n n' :
  NoDup (e_name <$> entries nodes) -> n ∈ nodes -> n' ∈ nodes ->
  e_name (snd n) = e_name (snd n') -> n = n'.
Proof.
  unfold entries. rewrite <- list_fmap_compose. intros Hnd Hn Hn' E.
  apply list_elem_of_lookup_1 in Hn as [i Hi]. apply list_elem_of_lookup_1 in Hn' as [j Hj].
  assert (i = j) as ->; [|congruence].
  apply (NoDup_lookup _ _ _ (e_name (snd n)) Hnd);
    rewrite list_lookup_fmap; [by rewrite Hi|by rewrite Hj, E].
Qed.

(** The abstract effect of the assignment. *)
Lemma entries_set_handle nodes n h :
  separated nodes -> NoDup (e_name <$> entries nodes) -> n ∈ nodes ->
  entries (set_handle (fst n) h nodes) = reg_set (e_name (snd n)) h (entries nodes).
Proof.
  intros Hs Hnd Hin. unfold entries, set_handle, reg_set. rewrite <- !list_fmap_compose.
  apply list_fmap_ext. intros i n' Hi. cbn. apply list_elem_of_lookup_2 in Hi.
  destruct (decide (fst n' = fst n)) as [E|E].
  - rewrite (separated_addr nodes n' n) by done. by rewrite decide_True.
  - cbn. rewrite decide_False; [done|]. intros En. apply E. f_equal.
    by eapply (names_inj nodes).
Qed.

(** The node found for a name. *)
Fixpoint find_node (us : list Z) (nodes : list node) : option node :=
  match nodes with
  | [] => None
  | n :: ns => if decide (e_name (snd n) = us) then Some n else find_node us ns
  end.

Lemma find_node_entry us nodes : find_entry us (entries nodes) = snd <$> find_node us nodes.
Proof.
  induction nodes as [|n ns IH]; [done|]. cbn. by case_decide.
Qed.

Lemma find_node_Some us nodes n : find_node us nodes = Some n -> n ∈ nodes /\ e_name (snd n) = us.
Proof.
  induction nodes as [|n' ns IH]; [done|]. cbn [find_node].
  case_decide; [intros [= <-]; split; [left|done]|].
  intros H'. apply IH in H' as []. split; [by right|done].
Qed.
