(* ===== verification/SvcOps.v ===== *)
(** * The service manager refines the registry

    The representation invariant of the process, and each operation of
    service_manager.c shown to preserve it, to implement the corresponding
    operation of the abstract registry and to send the driver exactly the
    commands that go with it. *)
From Stdlib Require Import ZArith Strings.Byte.
From stdpp Require Import base gmap list strings.
From S2P Require Import Prelude CMachine BinderProto BinderIo BinderParcel Binder BinderLemmas BinderParse BinderDriver BinderCommands BinderCall ServiceManager SvcRegistry.
Open Scope Z_scope.

(** ** Strings of 16-bit units *)

Definition unit_ok (u : Z) : Prop := 0 <= u < 65536.

Definition units_at (m : memory) (p : Z) (us : list Z) : Prop :=
  bytes_at m p (u16s_bytes us) /\ Forall unit_ok us.

Lemma mapped_units m p n :
  mapped m p (2 * Z.of_nat n) -> exists us, length us = n /\ units_at m p us.
Proof.
  revert p; induction n as [|n IH]; intros p Hm.
  - exists []. split; [done|]. by split.
  - destruct (IH (p + 2)) as (us & Hl & Hb & Hr). { eapply mapped_sub; [exact Hm|lia..]. }
    destruct (mapped_mem_get m p 2) as (bs & E & L). { eapply mapped_sub; [exact Hm|lia..]. }
    exists (le_val bs :: us). split; [simpl; lia|]. split.
    + change (u16s_bytes (le_val bs :: us)) with (le_bytes 2 (le_val bs) ++ u16s_bytes us).
      apply bytes_at_app. split; [|by rewrite length_le_bytes].
      rewrite <- L, le_bytes_val. by eapply mem_get_bytes_at.
    + apply Forall_cons_2; [|done]. by apply le_val_2_range.
Qed.

Lemma units_at_app m p us vs :
  units_at m p (us ++ vs) <->
  units_at m p us /\ units_at m (p + 2 * Z.of_nat (length us)) vs.
Proof.
  unfold units_at. rewrite u16s_bytes_app, bytes_at_app, length_u16s_bytes, Forall_app.
  replace (p + Z.of_nat (2 * length us)) with (p + 2 * Z.of_nat (length us)) by lia.
  intuition.
Qed.

Lemma units_at_mapped m p us : units_at m p us -> mapped m p (2 * Z.of_nat (length us)).
Proof.
  intros [H%bytes_at_mapped _]. rewrite length_u16s_bytes in H.
  by replace (2 * Z.of_nat (length us)) with (Z.of_nat (2 * length us)) by lia.
Qed.

Lemma u16s_bytes_inj us vs :
  Forall unit_ok us -> Forall unit_ok vs -> u16s_bytes us = u16s_bytes vs -> us = vs.
Proof.
  revert vs; induction us as [|u us IH]; intros [|v vs] Hu Hv E; try done.
  apply Forall_cons in Hu as [Hu Hus]. apply Forall_cons in Hv as [Hv Hvs].
  change (le_bytes 2 u ++ u16s_bytes us = le_bytes 2 v ++ u16s_bytes vs) in E.
  apply app_inj_1 in E as [E1 E2]; [|done].
  f_equal; [|by apply IH].
  rewrite <- (le_val_bytes_2 u), <- (le_val_bytes_2 v) by (unfold unit_ok in *; lia). by rewrite E1.
Qed.

(** The units before the first zero. *)
Fixpoint upto_zero (us : list Z) : list Z :=
  match us with
  | [] => []
  | u :: us => if u =? 0 then [] else u :: upto_zero us
  end.

Lemma length_upto_zero us : (length (upto_zero us) <= length us)%nat.
Proof. induction us as [|u us IH]; cbn [upto_zero]; [done|]. case_cmp; simpl; lia. Qed.

(** ** [str8] and the log *)

(** The static buffer after [str8] of the units [us]. *)
Definition str8_put (us : list Z) (buf : list byte) : list byte :=
  let cs := byte_of <$> upto_zero us in cs ++ x00 :: drop (S (length cs)) buf.

Lemma length_str8_put us buf :
  (length us <= 127)%nat -> length buf = 128%nat -> length (str8_put us buf) = 128%nat.
Proof.
  intros Hu Hb. unfold str8_put. rewrite length_app. cbn [length].
  rewrite length_drop, length_fmap. pose proof (length_upto_zero us). lia.
Qed.

(** What the driver was sent. *)
Definition sent (t : list event) : list (list byte) :=
  omap (fun e => match e with EvIoctl _ _ p => Some p | _ => None end) t.

Lemma sent_app a b : sent (a ++ b) = sent a ++ sent b.
Proof. apply omap_app. Qed.

Section Log.
Context {D : Type}.
Implicit Types w : world svcmgr D.

Lemma str8_loop_run n x us w :
  units_at (w_mem w) x us -> length us = n ->
  str8_loop n x w = Ok (byte_of <$> upto_zero us) w.
Proof.
  revert x us; induction n as [|n IH]; intros x us H Hl; destruct us as [|u us]; try done.
  apply (units_at_app _ _ [u]) in H as [[Hu Hok] Hus]. cbn [str8_loop upto_zero].
  apply Forall_cons in Hok as [Hok _].
  erewrite run_bind by (apply run_load; exact Hu).
  cbn [u16s_bytes map concat]. rewrite app_nil_r, le_val_bytes_2 by done.
  case_cmp; [done|]. erewrite run_bind; [done|]. apply IH; [exact Hus|by injection Hl].
Qed.

(** The log changes only the static buffer and the trace. *)
Record logged w w' : Prop := {
  lg_mem : w_mem w' = w_mem w;
  lg_sp : w_sp w' = w_sp w;
  lg_drv : w_drv w' = w_drv w;
  lg_list : svclist (w_glob w') = svclist (w_glob w);
  lg_handle : svcmgr_handle (w_glob w') = svcmgr_handle (w_glob w);
  lg_buf : length (str8_buf (w_glob w)) = 128%nat -> length (str8_buf (w_glob w')) = 128%nat;
  lg_sent : sent (w_trace w') = sent (w_trace w);
}.

Lemma logged_refl w : logged w w.
Proof. by split. Qed.

Lemma logged_trans w1 w2 w3 : logged w1 w2 -> logged w2 w3 -> logged w1 w3.
Proof. intros [] []. split; congruence || auto. Qed.

(** [str8] reads at most 127 units from [x]: one that is not mapped is a
    fault, which [F] must allow. *)
Definition readable (F : fault -> Prop) w (x len : Z) : Prop :=
  x <> 0 /\ 0 <= len /\
  forall k, 0 <= k < Z.min len 127 -> ~ mapped (w_mem w) (x + 2 * k) 2 -> F (Segv (x + 2 * k)).

Lemma readable_mapped F w x len :
  x <> 0 -> 0 <= len -> mapped (w_mem w) x (2 * Z.min len 127) -> readable F w x len.
Proof.
  intros Hx Hlen Hm. split_and!; [done|done|]. intros k Hk Hn. destruct Hn.
  eapply mapped_sub; [exact Hm|lia..].
Qed.

Lemma str8_run x len us w :
  x <> 0 -> 0 <= len -> Z.of_nat (length us) = Z.min len 127 -> units_at (w_mem w) x us ->
  str8 x len w = Ok tt (set_glob (mkSvcmgr (svcmgr_handle (w_glob w)) (svclist (w_glob w))
                                           (str8_put us (str8_buf (w_glob w)))) w).
Proof.
  intros Hx Hlen Hl Hu. unfold str8. destruct (Z.eqb_spec x 0) as [?|_]; [done|]. cbn [negb].
  erewrite run_bind; [done|]. apply str8_loop_run; [done|]. case_cmp; lia.
Qed.

Lemma str8_loop_any (F : fault -> Prop) n : forall x w,
  (forall k, 0 <= k < Z.of_nat n -> ~ mapped (w_mem w) (x + 2 * k) 2 -> F (Segv (x + 2 * k))) ->
  wpf F (str8_loop n x) (fun cs w' => w' = w /\ (length cs <= n)%nat) w.
Proof.
  induction n as [|n IH]; intros x w Hf; cbn [str8_loop]; [by apply wp_ret|].
  apply wp_bind. unfold load. destruct (mem_get (w_mem w) x 2) as [bs|] eqn:E.
  - apply wp_bind. eapply wp_run; [by apply run_load_bytes|]. apply wp_ret.
    case_cmp; [apply wp_ret; split; [done|cbn; lia]|].
    apply wp_bind. eapply wp_mono.
    + apply IH. intros k Hk Hn. replace (x + 2 + 2 * k) with (x + 2 * (k + 1)) in Hn |- * by lia.
      apply Hf; [lia|exact Hn].
    + intros cs w' [-> Hl]. apply wp_ret. split; [done|]. cbn [length]. lia.
  - unfold wpf, mbind, C_bind, load_bytes. rewrite E.
    pose proof (Hf 0) as H0. rewrite Z.add_0_r in H0. apply H0; [lia|].
    intros Hm. destruct (mapped_mem_get (w_mem w) x 2) as (bs & E' & _); [exact Hm|]. by rewrite E in E'.
Qed.

Lemma str8_logged F x len w : readable F w x len -> wpf F (str8 x len) (fun _ => logged w) w.
Proof.
  intros (Hx & Hlen & Hm). unfold str8. destruct (Z.eqb_spec x 0) as [?|_]; [done|]. cbn [negb].
  apply wp_bind. eapply wp_mono.
  - apply str8_loop_any. intros k Hk. apply Hm. case_cmp; lia.
  - intros cs w' [-> Hl]. split; try done. intros Hb. cbn [str8_buf w_glob set_glob].
    rewrite length_app. cbn [length]. rewrite length_drop. case_cmp; lia.
Qed.

Lemma log8_logged F fmt x len n w : readable F w x len -> wpf F (log8 fmt x len n) (fun _ => logged w) w.
Proof.
  intros Hr. apply wp_bind. eapply wp_mono; [by apply str8_logged|].
  intros [] w' L. apply wp_bind. eapply wp_run; [done|]. apply wp_modify.
  eapply logged_trans; [exact L|]. split; try done.
  cbn [w_trace]. rewrite sent_app. by rewrite app_nil_r.
Qed.
End Log.

(** ** Searching the list *)

Lemma chain_size fn m nodes :
  chain fn m nodes -> separated nodes -> (length nodes <= size m)%nat.
Proof.
  intros Hc Hs. set (addr := fst : node -> Z).
  replace (length nodes) with (length (addr <$> nodes)) by apply length_fmap. rewrite <- size_dom.
  assert (NoDup (addr <$> nodes)) as Hnd.
  { clear Hc. induction nodes as [|n ns IH]; [constructor|]. destruct Hs as [Hd Hs].
    rewrite fmap_cons. constructor; [|by apply IH].
    intros (n' & E & Hin)%list_elem_of_fmap. unfold addr in E. apply (Hd (fst n)).
    - unfold region. pose proof (node_size_pos n). lia.
    - exists n'. split; [done|]. unfold region. pose proof (node_size_pos n'). lia. }
  rewrite <- (size_list_to_set (C := gset Z)) by done. apply subseteq_size.
  intros a (n & -> & Hin)%elem_of_list_to_set%list_elem_of_fmap.
  destruct (chain_node _ _ _ _ Hc Hin) as (next & Hw & _).
  apply words_at_mapped in Hw. apply elem_of_dom, Hw. unfold addr. cbn [length node_words]. lia.
Qed.

Section Find.
Context {D : Type} (fn : Z).
Implicit Types w : world svcmgr D.

(** Loading field number [i] of a node. *)
Lemma node_load w next n i v :
  node_at fn (w_mem w) next n -> node_words fn next n !! i = Some v -> word_ok v ->
  load 4 (fst n + 4 * Z.of_nat i) w = Ok v w.
Proof. intros [Hw _]. by apply run_load_word. Qed.

Lemma node_name w next n :
  node_at fn (w_mem w) next n -> node_wf n ->
  units_at (w_mem w) (fst n + svcinfo.name) (e_name (snd n) ++ [0]).
Proof.
  intros [_ Hn] []. split; [done|]. apply Forall_app. split; [done|]. by apply Forall_singleton.
Qed.

Lemma head_ok ns : Forall node_wf ns -> word_ok (head_of ns).
Proof.
  destruct ns as [|n ns]; [done|]. intros [[] _]%Forall_cons. unfold word_ok. cbn.
  pose proof (node_size_pos n). lia.
Qed.

Lemma memcmp_eq_run a b n x y w :
  mem_get (w_mem w) a (Z.to_nat n) = Some x -> mem_get (w_mem w) b (Z.to_nat n) = Some y ->
  memcmp_eq a b n w = Ok (bool_decide (x = y)) w.
Proof.
  intros Ha Hb. unfold memcmp_eq.
  erewrite run_bind by by apply run_load_bytes. by erewrite run_bind by by apply run_load_bytes.
Qed.

(** The comparison of a name of the same length. *)
Lemma compare_run w next n s us :
  node_at fn (w_mem w) next n -> node_wf n -> units_at (w_mem w) s us ->
  length us = length (e_name (snd n)) ->
  memcmp_eq s (fst n + svcinfo.name) (u32 (Z.of_nat (length us) * 2)) w =
  Ok (bool_decide (e_name (snd n) = us)) w.
Proof.
  intros Hn Hwf [Hb Hu] Hl. pose proof (nw_len _ Hwf).
  rewrite u32_small by lia.
  replace (Z.of_nat (length us) * 2) with (Z.of_nat (length (u16s_bytes us)))
    by (rewrite length_u16s_bytes; lia).
  apply (node_name _ _ _ Hn) in Hwf as Hname. apply units_at_app in Hname as [[Hb' Hu'] _].
  unfold bytes_at in Hb, Hb'. rewrite length_u16s_bytes, <- Hl, <- length_u16s_bytes in Hb'.
  rewrite (memcmp_eq_run _ _ _ (u16s_bytes us) (u16s_bytes (e_name (snd n))));
    [|by rewrite Nat2Z.id..].
  f_equal. apply bool_decide_ext. split; [|by intros ->].
  intros E. symmetry. by apply u16s_bytes_inj.
Qed.

Definition addr_of (n : option node) : Z := match n with Some n => fst n | None => 0 end.

Lemma find_svc_loop_run fuel w nodes s us :
  (length nodes < fuel)%nat -> chain fn (w_mem w) nodes -> Forall node_wf nodes ->
  units_at (w_mem w) s us -> (length us <= 127)%nat ->
  find_svc_loop fuel s (Z.of_nat (length us)) (head_of nodes) w =
  Ok (addr_of (find_node us nodes)) w.
Proof.
  revert nodes; induction fuel as [|fuel IH]; intros nodes Hf Hc Hwf Hs Hl; [lia|].
  destruct nodes as [|n ns]; [done|]. cbn [length] in Hf. destruct Hc as [Hn Hc].
  apply Forall_cons in Hwf as [Hwf Hns]. cbn [find_svc_loop head_of find_node].
  pose proof (nw_lo _ Hwf). pose proof (nw_len _ Hwf). case_cmp; [lia|].
  erewrite run_bind by (apply (node_load _ _ _ 5 _ Hn eq_refl); unfold word_ok; lia).
  destruct (Z.eqb_spec (Z.of_nat (length us)) (Z.of_nat (length (e_name (snd n))))) as [E|E].
  - erewrite run_bind by (apply (compare_run w _ n s us Hn); done || lia).
    case_bool_decide as Eb; [by rewrite decide_True|]. rewrite decide_False by done.
    erewrite run_bind.
    { apply IH; try done; lia. }
    replace (fst n + svcinfo.next) with (fst n + 4 * Z.of_nat 0) by (unfold svcinfo.next; lia).
    apply (node_load _ _ _ 0 _ Hn eq_refl). by apply head_ok.
  - erewrite run_bind by done. rewrite decide_False by congruence.
    erewrite run_bind.
    { apply IH; try done; lia. }
    replace (fst n + svcinfo.next) with (fst n + 4 * Z.of_nat 0) by (unfold svcinfo.next; lia).
    apply (node_load _ _ _ 0 _ Hn eq_refl). by apply head_ok.
Qed.

(** A length no node has. *)
Lemma find_svc_loop_long fuel w nodes s len :
  (length nodes < fuel)%nat -> chain fn (w_mem w) nodes -> Forall node_wf nodes -> 127 < len ->
  find_svc_loop fuel s len (head_of nodes) w = Ok 0 w.
Proof.
  revert nodes; induction fuel as [|fuel IH]; intros nodes Hf Hc Hwf Hl; [lia|].
  destruct nodes as [|n ns]; [done|]. cbn [length] in Hf. destruct Hc as [Hn Hc].
  apply Forall_cons in Hwf as [Hwf Hns]. cbn [find_svc_loop head_of].
  pose proof (nw_lo _ Hwf). pose proof (nw_len _ Hwf). case_cmp; [lia|].
  erewrite run_bind by (apply (node_load _ _ _ 5 _ Hn eq_refl); unfold word_ok; lia).
  case_cmp; [lia|]. erewrite run_bind by done. cbv iota beta. erewrite run_bind.
  { apply IH; try done; lia. }
  replace (fst n + svcinfo.next) with (fst n + 4 * Z.of_nat 0) by (unfold svcinfo.next; lia).
  apply (node_load _ _ _ 0 _ Hn eq_refl). by apply head_ok.
Qed.
End Find.

(** ** The invariant of the process *)

(** The address space: the area mapped by the driver, the stack [slo, shi),
    and the heap, where the nodes are. *)
Record layout (area : Z -> Prop) (slo shi : Z) : Prop := {
    ly_stack : 0 <= slo /\ shi < 4294967000;
    ly_area : forall a, area a -> ~ (slo <= a < shi);
}.

(** Assignment of field number [i] of a new node. *)
Ltac svc_store i :=
  eapply (wp_store_word i);
    [eassumption|eassumption|cbn; lia|cbn; lia
    |unfold svcinfo.handle, svcinfo.len, svcinfo.death_func, svcinfo.death_ptr,
       svcinfo.allow_isolated, svcinfo.next; lia|];
  word_intro.

Section Ops.
Context {D : Type} `{BinderDriver D} `{!Malloc} `{!MallocOk}.
Context (area : Z -> Prop) `{!BinderProtocol D area}.
(** The address of [svcinfo_death], the stack, and the top of the part of
    the stack the code at hand may write. *)
Context (fn slo shi top : Z) (Hfn : word_ok fn) (Hly : layout area slo shi) (Htop : top <= shi).
Implicit Types w : world svcmgr D.

Record svc_inv (nodes : list node) w : Prop := {
  sv_head : svclist (w_glob w) = head_of nodes;
  sv_chain : chain fn (w_mem w) nodes;
  sv_sep : separated nodes;
  sv_names : NoDup (e_name <$> entries nodes);
  sv_wf : Forall node_wf nodes;
  sv_away : forall a, owned nodes a -> ~ area a /\ ~ (slo <= a < shi);
  sv_stack : mapped (w_mem w) slo (shi - slo);
  sv_area : forall a, area a -> is_Some (w_mem w !! a);
  sv_buf : length (str8_buf (w_glob w)) = 128%nat;
  sv_cookies : forall c, c ∈ drv_cookies (w_drv w) -> exists n, n ∈ nodes /\ c = fst n + svcinfo.death;
  sv_self : svcmgr_handle (w_glob w) = BINDER_SERVICE_MANAGER;
}.

(** What a step may change: the area, the stack below [top], the nodes, and
    memory that was not mapped. *)
Definition touched nodes w (a : Z) : Prop :=
  area a \/ slo <= a < top \/ owned nodes a \/ w_mem w !! a = None.

(** Nodes are never freed, moved or renamed. *)
Definition kept (nodes nodes' : list node) : Prop :=
  forall n, n ∈ nodes -> exists n', n' ∈ nodes' /\ fst n' = fst n /\ e_name (snd n') = e_name (snd n).

Lemma kept_refl nodes : kept nodes nodes.
Proof. intros n ?. by exists n. Qed.

Lemma kept_trans nodes1 nodes2 nodes3 : kept nodes1 nodes2 -> kept nodes2 nodes3 -> kept nodes1 nodes3.
Proof.
  intros A B n Hn. destruct (A n Hn) as (n' & Hn' & E1 & E2).
  destruct (B n' Hn') as (n'' & Hn'' & E3 & E4). exists n''. split_and!; congruence.
Qed.

Lemma kept_set_handle a h nodes : kept nodes (set_handle a h nodes).
Proof.
  intros n Hn. eexists.
  split; [apply list_elem_of_fmap; exists n; split; [reflexivity|done]|]. by case_decide.
Qed.

(** A step of the process from [nodes] to [nodes'] that sent [cmds]. *)
Record svc_step (nodes : list node) w (cmds : list (list byte)) (nodes' : list node) w' : Prop := {
  ss_inv : svc_inv nodes' w';
  ss_sp : w_sp w' = w_sp w;
  ss_mem : forall a, ~ touched nodes w a -> w_mem w' !! a = w_mem w !! a;
  ss_dom : forall a, is_Some (w_mem w !! a) -> is_Some (w_mem w' !! a);
  ss_sent : sent (w_trace w') = sent (w_trace w) ++ cmds;
  ss_owned : forall a, owned nodes' a -> owned nodes a \/ w_mem w !! a = None;
  ss_kept : kept nodes nodes';
}.

Lemma svc_step_refl nodes w : svc_inv nodes w -> svc_step nodes w [] nodes w.
Proof.
  intros I. split; try done; [by rewrite app_nil_r|by left|apply kept_refl].
Qed.

Lemma svc_step_trans n1 w1 c1 n2 w2 c2 n3 w3 :
  svc_step n1 w1 c1 n2 w2 -> svc_step n2 w2 c2 n3 w3 -> svc_step n1 w1 (c1 ++ c2) n3 w3.
Proof.
  intros A B.
  assert (forall a, w_mem w2 !! a = None -> w_mem w1 !! a = None) as Hnone.
  { intros a E. destruct (w_mem w1 !! a) eqn:E1; [|done].
    destruct (ss_dom _ _ _ _ _ A a) as [? Hb]; [by rewrite E1|congruence]. }
  split.
  - apply B.
  - rewrite (ss_sp _ _ _ _ _ B). apply A.
  - intros a Ha. rewrite (ss_mem _ _ _ _ _ B), (ss_mem _ _ _ _ _ A); try done.
    intros Ht. apply Ha. unfold touched in *.
    destruct Ht as [?|[?|[Ho|Ho]]]; auto.
    apply (ss_owned _ _ _ _ _ A) in Ho. tauto.
  - intros a Ha. by apply (ss_dom _ _ _ _ _ B), (ss_dom _ _ _ _ _ A).
  - by rewrite (ss_sent _ _ _ _ _ B), (ss_sent _ _ _ _ _ A), app_assoc.
  - intros a [Ho|Ho]%(ss_owned _ _ _ _ _ B); [by apply (ss_owned _ _ _ _ _ A)|right; auto].
  - eapply kept_trans; [apply A|apply B].
Qed.

(** Memory changes away from the nodes, and new log lines. *)
Lemma svc_inv_frame nodes w w' :
  svc_inv nodes w ->
  svclist (w_glob w') = svclist (w_glob w) ->
  svcmgr_handle (w_glob w') = svcmgr_handle (w_glob w) ->
  length (str8_buf (w_glob w')) = 128%nat ->
  (forall a, owned nodes a -> w_mem w' !! a = w_mem w !! a) ->
  (forall a, is_Some (w_mem w !! a) -> is_Some (w_mem w' !! a)) ->
  (forall c, c ∈ drv_cookies (w_drv w') -> c ∈ drv_cookies (w_drv w) \/
             exists n, n ∈ nodes /\ c = fst n + svcinfo.death) ->
  svc_inv nodes w'.
Proof.
  intros [] Hl Hh Hb Hm Hd Hc. split; try done; try congruence.
  - by eapply chain_frame.
  - intros a Ha. by apply Hd, sv_stack0.
  - intros a ?. by apply Hd, sv_area0.
  - intros c [?|?]%Hc; [by apply sv_cookies0|done].
Qed.

Lemma logged_step nodes w w' : svc_inv nodes w -> logged w w' -> svc_step nodes w [] nodes w'.
Proof.
  intros I L. pose proof L as []. split; try done; try congruence.
  - eapply svc_inv_frame; try done; try congruence.
    + apply lg_buf0, I.
    + intros c. rewrite lg_drv0. by left.
  - by rewrite app_nil_r.
  - by left.
  - apply kept_refl.
Qed.

(** A command to the driver from a frame of the stack. *)
Lemma command_step nodes w w' (k : Z) fd0 payload :
  svc_inv nodes w -> slo + k <= w_sp w <= top -> 0 <= k ->
  drv_effect area (union (stack w k) area) [EvIoctl fd0 BINDER_WRITE_READ payload] w w' ->
  (forall t c, word_ok c -> payload = link_command t c ->
     exists n, n ∈ nodes /\ c = fst n + svcinfo.death) ->
  svc_step nodes w [payload] nodes w'.
Proof.
  intros I Hsp Hk [[[E1 E2 E3 E4] E5] E6] Hlink.
  assert (forall a, ~ touched nodes w a -> w_mem w' !! a = w_mem w !! a) as Hmem.
  { intros a Ha. apply E3. unfold union, stack, touched in *. intros [?|?]; apply Ha; [right; left; lia|by left]. }
  split; try done.
  - eapply svc_inv_frame; try done; rewrite ?E2; try done; try apply I.
    + intros a Ho. apply E3. pose proof (sv_away _ _ I a Ho) as [? ?].
      unfold union, stack. intros [?|?]; [lia|done].
    + intros c [?|(e & ->%list_elem_of_singleton & Hok & fd1 & t & [= -> ->])]%E6; [by left|right].
      by apply (Hlink t).
  - by rewrite E5, sent_app.
  - by left.
  - apply kept_refl.
Qed.

(** ** Looking a name up *)

Lemma sv_size nodes w : svc_inv nodes w -> (length nodes < scan_fuel w)%nat.
Proof. intros I. pose proof (chain_size _ _ _ (sv_chain _ _ I) (sv_sep _ _ I)). unfold scan_fuel. lia. Qed.

Lemma find_svc_run nodes w s us :
  svc_inv nodes w -> units_at (w_mem w) s us -> (length us <= 127)%nat ->
  find_svc s (Z.of_nat (length us)) w = Ok (addr_of (find_node us nodes)) w.
Proof.
  intros I Hu Hl. unfold find_svc. rewrite (sv_head _ _ I).
  apply (find_svc_loop_run fn); try done; [by apply sv_size|apply I..].
Qed.

Lemma find_svc_long nodes w s len :
  svc_inv nodes w -> 127 < len -> find_svc s len w = Ok 0 w.
Proof.
  intros I Hl. unfold find_svc. rewrite (sv_head _ _ I).
  apply (find_svc_loop_long fn); try done; [by apply sv_size|apply I..].
Qed.

Lemma sv_node nodes w n : svc_inv nodes w -> n ∈ nodes ->
  node_wf n /\ exists next, node_at fn (w_mem w) next n.
Proof.
  intros I Hin. split.
  - pose proof (sv_wf _ _ I) as Hw. rewrite Forall_forall in Hw. by apply Hw.
  - eapply chain_node; [apply I|done].
Qed.

(** The string argument of a request: all of it when its length is that of
    a name, otherwise the part [str8] may read. *)
Definition str_arg (F : fault -> Prop) w (s len : Z) (us : list Z) : Prop :=
  readable F w s len /\
  (len <= 127 -> Z.of_nat (length us) = len /\ units_at (w_mem w) s us).

Definition lookup_result nodes (us : list Z) (len uid : Z) : Z :=
  if len <=? 127 then reg_lookup us uid (entries nodes) else 0.

Lemma load_handle nodes w n : svc_inv nodes w -> n ∈ nodes ->
  load 4 (fst n + svcinfo.handle) w = Ok (e_handle (snd n)) w.
Proof.
  intros I Hin. destruct (sv_node _ _ _ I Hin) as (Hwf & next & Hn).
  apply (node_load fn w next n 1 _ Hn eq_refl), Hwf.
Qed.

Lemma load_allow nodes w n : svc_inv nodes w -> n ∈ nodes ->
  load 4 (fst n + svcinfo.allow_isolated) w = Ok (e_allow (snd n)) w.
Proof.
  intros I Hin. destruct (sv_node _ _ _ I Hin) as (Hwf & next & Hn).
  apply (node_load fn w next n 4 _ Hn eq_refl). pose proof (nw_allow _ Hwf). unfold word_ok. lia.
Qed.

Lemma do_find_service_run F nodes bs s len us uid spid w :
  svc_inv nodes w -> str_arg F w s len us ->
  wpf F (do_find_service bs s len uid spid)
     (fun h w' => h = lookup_result nodes us len uid /\ logged w w') w.
Proof.
  intros I [Hr Hu]. unfold do_find_service, lookup_result.
  apply wp_bind. apply wp_bind. eapply wp_mono; [by apply str8_logged|].
  intros [] w1 L. apply wp_ret. cbn [negb check_mac_perms_from_lookup].
  pose proof (ss_inv _ _ _ _ _ (logged_step _ _ _ I L)) as I1.
  destruct (Z.leb_spec len 127); (apply wp_bind; eapply wp_run).
  3: by eapply (find_svc_long nodes).
  3: by apply wp_ret.
  - destruct Hu as [<- Hu]; [done|]. eapply (find_svc_run nodes); [done| |lia].
    destruct L. by rewrite lg_mem0.
  - unfold reg_lookup. rewrite find_node_entry.
    destruct (find_node us nodes) as [n|] eqn:E; cbn [addr_of fmap option_fmap option_map]; [|by apply wp_ret].
    apply find_node_Some in E as [Hin <-]. destruct (sv_node _ _ _ I1 Hin) as (Hwf & _).
    pose proof (nw_lo _ Hwf). destruct (Z.eqb_spec (fst n) 0); [lia|].
    apply wp_bind. eapply wp_run; [by eapply load_handle|].
    destruct (Z.eqb_spec (e_handle (snd n)) 0) as [->|].
    { apply wp_ret. split; [|done]. by destruct (_ && _). }
    apply wp_bind. eapply wp_run; [by eapply load_allow|].
    unfold isolated. rewrite <- andb_assoc.
    destruct (_ && _); [by apply wp_ret|]. eapply wp_run; [by eapply load_handle|]. done.
Qed.

(** ** Changing a handle *)

Lemma store_handle_step nodes w n h :
  svc_inv nodes w -> n ∈ nodes -> word_ok h ->
  wp (store 4 (fst n + svcinfo.handle) h)
     (fun _ w' => svc_step nodes w [] (set_handle (fst n) h nodes) w') w.
Proof.
  intros I Hin Hh. pose proof (sv_node _ _ _ I Hin) as (Hwf & next & Hnode).
  pose proof (words_at_mapped _ _ _ (proj1 Hnode)) as Hm.
  apply wp_store; [eapply mapped_sub; [exact Hm|unfold svcinfo.handle; cbn; lia..]|].
  assert (forall a, ~ owned nodes a ->
    mem_write (w_mem w) (fst n + svcinfo.handle) (le_bytes 4 h) !! a = w_mem w !! a) as Hout.
  { intros a Ha. apply (mem_write_agree _ _ _ a 1); [|lia]. rewrite length_le_bytes.
    unfold svcinfo.handle. destruct (decide (fst n + 4 <= a < fst n + 8)); [|lia].
    destruct Ha. exists n. split; [done|]. unfold region. pose proof (node_size_pos n). lia. }
  assert (forall a, is_Some (w_mem w !! a) ->
    is_Some (mem_write (w_mem w) (fst n + svcinfo.handle) (le_bytes 4 h) !! a)) as Hdom.
  { intros a Ha. apply (mem_write_mapped _ _ _ a 1); [|lia].
    intros b Hb. by replace b with a by lia. }
  split; try done.
  - destruct I. split; cbn [w_mem set_mem w_glob w_drv]; try done.
    + by rewrite set_handle_head.
    + by apply chain_set_handle.
    + by apply set_handle_separated.
    + by rewrite entries_set_handle, reg_set_names.
    + by apply set_handle_wf.
    + intros a. rewrite set_handle_owned. apply sv_away0.
    + intros a Ha. by apply Hdom, sv_stack0.
    + intros a ?. by apply Hdom, sv_area0.
    + intros c Hc. destruct (sv_cookies0 c Hc) as (n' & Hin' & ->).
      eexists. split; [apply list_elem_of_fmap; exists n'; split; [reflexivity|done]|].
      by case_decide.
  - intros a Ha. apply Hout. intros Ho. apply Ha. unfold touched. tauto.
  - by rewrite app_nil_r.
  - intros a. rewrite set_handle_owned. by left.
  - apply kept_set_handle.
Qed.

Lemma release_step nodes bs w h :
  svc_inv nodes w -> slo + 8 <= w_sp w <= top ->
  wp (binder_release bs h) (fun _ => svc_step nodes w [command2 BC_RELEASE h] nodes) w.
Proof.
  intros I Hsp. eapply wp_mono.
  - apply (binder_write_cmd2_effect area). eapply mapped_sub; [apply (sv_stack _ _ I)|lia..].
  - intros [] w' E. eapply (command_step _ _ _ 8); [done|lia|lia|exact E|].
    intros t c _ Hl. by apply (f_equal length) in Hl.
Qed.

Lemma acquire_step nodes bs w h :
  svc_inv nodes w -> slo + 8 <= w_sp w <= top ->
  wp (binder_acquire bs h) (fun _ => svc_step nodes w [command2 BC_ACQUIRE h] nodes) w.
Proof.
  intros I Hsp. eapply wp_mono.
  - apply (binder_write_cmd2_effect area). eapply mapped_sub; [apply (sv_stack _ _ I)|lia..].
  - intros [] w' E. eapply (command_step _ _ _ 8); [done|lia|lia|exact E|].
    intros t c _ Hl. by apply (f_equal length) in Hl.
Qed.

Lemma link_command_inj t c t' c' :
  word_ok c -> word_ok c' -> link_command t c = link_command t' c' -> c = c'.
Proof.
  intros Hc Hc' E. apply (f_equal (drop 8)) in E.
  change (le_bytes 4 c ++ [] = le_bytes 4 c' ++ []) in E. rewrite !app_nil_r in E.
  rewrite <- (le_val_bytes_4 c), <- (le_val_bytes_4 c') by done. by rewrite E.
Qed.

Lemma node_name_readable F nodes w n :
  svc_inv nodes w -> n ∈ nodes ->
  readable F w (fst n + svcinfo.name) (Z.of_nat (length (e_name (snd n)))).
Proof.
  intros I Hin. destruct (sv_node _ _ _ I Hin) as (Hwf & next & Hn).
  pose proof (node_name _ _ _ _ Hn Hwf) as Hu%units_at_mapped. rewrite length_app in Hu. cbn in Hu.
  pose proof (nw_lo _ Hwf). pose proof (nw_len _ Hwf). unfold svcinfo.name in *.
  apply readable_mapped; [lia|lia|]. eapply mapped_sub; [exact Hu|lia..].
Qed.

Lemma set_handle_same nodes n h :
  separated nodes -> n ∈ nodes -> e_handle (snd n) = h -> set_handle (fst n) h nodes = nodes.
Proof.
  intros Hs Hin Hh. unfold set_handle. rewrite <- (list_fmap_id nodes) at 2.
  apply list_fmap_ext. intros i n' Hi. case_decide as E; [|done].
  apply list_elem_of_lookup_2 in Hi. rewrite (separated_addr nodes n' n) by done.
  destruct n as [a []]. cbn in *. by subst.
Qed.

Definition release_of (h : Z) : list (list byte) :=
  if h =? 0 then [] else [command2 BC_RELEASE h].

(** A service died: its handle is released and forgotten, once. *)
Lemma svcinfo_death_run nodes bs n w :
  svc_inv nodes w -> n ∈ nodes -> slo + 8 <= w_sp w <= top ->
  wp (svcinfo_death bs (fst n))
     (fun _ => svc_step nodes w (release_of (e_handle (snd n))) (set_handle (fst n) 0 nodes)) w.
Proof.
  intros I Hin Hsp. destruct (sv_node _ _ _ I Hin) as (Hwf & next & Hn).
  pose proof (nw_len _ Hwf). unfold svcinfo_death, release_of.
  apply wp_bind. eapply wp_run.
  { apply (node_load fn w next n 5 _ Hn eq_refl). unfold word_ok. lia. }
  apply wp_bind. eapply wp_mono; [by apply log8_logged, (node_name_readable _ nodes)|].
  intros [] w1 L. pose proof (logged_step _ _ _ I L) as S1.
  pose proof (ss_inv _ _ _ _ _ S1) as I1.
  apply wp_bind. eapply wp_run; [by eapply load_handle|].
  destruct (Z.eqb_spec (e_handle (snd n)) 0) as [E|E]; cbn [negb].
  - apply wp_ret. rewrite set_handle_same; [done|apply I|done|done].
  - apply wp_bind. eapply wp_mono; [apply (release_step nodes); [done|by rewrite (lg_sp _ _ L)]|].
    intros [] w2 S2. pose proof (ss_inv _ _ _ _ _ S2) as I2.
    eapply wp_mono; [by apply (store_handle_step nodes)|]. intros [] w3 S3.
    apply (svc_step_trans _ _ [] _ _ _ _ _ S1).
    apply (svc_step_trans _ _ _ _ _ [] _ _ S2 S3).
Qed.

(** ** A new node *)

(** The block written by [new_svc]. *)
Definition new_node (si : Z) (us : list Z) (h allow : Z) : node := (si, mkEntry us h allow).

(** The copy of the name and the store of its terminator. *)
Lemma wp_copy_name {B} s us vlast m dst n (k : unit -> C svcmgr D B) Q w :
  let len := Z.of_nat (length us) in
  mapped m (dst - svcinfo.name) n -> units_at m s (us ++ [vlast]) ->
  svcinfo.name + 2 * (len + 1) <= n ->
  (forall m', bytes_at m' dst (u16s_bytes (us ++ [0])) -> modifies m m' dst (2 * (len + 1)) ->
     wp (k tt) Q (set_mem m' w)) ->
  wp (memcpy dst s (2 * (len + 1)) ≫= fun _ => store 2 (dst + 2 * len) 0 ≫= k) Q (set_mem m w).
Proof.
  intros len Hm [Hb _] Hn Hk. unfold svcinfo.name in *.
  assert (mapped m dst (2 * (len + 1))) as Hmd by (eapply mapped_sub; [exact Hm|lia..]).
  pose proof (length_u16s_bytes (us ++ [vlast])) as Hlen. rewrite length_app in Hlen. cbn in Hlen.
  apply wp_bind. unfold memcpy. apply wp_bind.
  apply (wp_load_bytes _ _ _ _ (u16s_bytes (us ++ [vlast]))).
  { unfold bytes_at in Hb. rewrite <- Hb. f_equal. lia. }
  apply wp_store_bytes. { eapply mapped_sub; [exact Hmd|lia..]. }
  apply wp_bind, wp_store.
  { apply mem_write_mapped. eapply mapped_sub; [exact Hmd|lia..]. }
  apply Hk.
  - rewrite !u16s_bytes_app in *. apply bytes_at_app. split.
    + eapply bytes_at_agree.
      * apply mem_write_agree. left. rewrite length_u16s_bytes. lia.
      * eapply bytes_at_prefix, mem_write_bytes_at.
    + rewrite length_u16s_bytes. replace (dst + Z.of_nat (2 * length us)) with (dst + 2 * len) by lia.
      apply mem_write_bytes_at.
  - eapply modifies_trans; (eapply modifies_weaken; [apply mem_write_modifies; reflexivity|]).
    + lia.
    + rewrite length_le_bytes. lia.
Qed.

Lemma new_svc_writes s us vlast h allow si m g w :
  let len := Z.of_nat (length us) in
  let n := new_node si us h allow in
  (length us <= 127)%nat -> 0 < si -> si + node_size n < 4294967296 ->
  mapped m si (node_size n) -> units_at m s (us ++ [vlast]) ->
  (s + 2 * (len + 1) <= si \/ si + node_size n <= s) ->
  w_glob w = g ->
  wp (store 4 (si + svcinfo.handle) h;;
      store 4 (si + svcinfo.len) len;;
      memcpy (si + svcinfo.name) s (u32 (u32 (len + 1) * 2));;
      store 2 (si + svcinfo.name + 2 * len) 0;;
      store 4 (si + svcinfo.death_func) fn;;
      store 4 (si + svcinfo.death_ptr) si;;
      store 4 (si + svcinfo.allow_isolated) allow;;
      g ← get_glob;
      store 4 (si + svcinfo.next) (svclist g);;
      put_glob (mkSvcmgr (svcmgr_handle g) si (str8_buf g));;
      mret si)
     (fun r w' => r = si /\ exists m',
        w' = set_glob (mkSvcmgr (svcmgr_handle g) si (str8_buf g)) (set_mem m' w) /\
        node_at fn m' (svclist g) n /\ modifies m m' si (node_size n)) (set_mem m w).
Proof.
  intros len n Hl Hsi Hhi Hm Hu Hdis Hg.
  assert (node_size n = 24 + 2 * (len + 1)) as Hsize by done.
  assert (mapped m si 24) as Hm24 by (eapply mapped_sub; [exact Hm|lia..]).
  destruct (mapped_words _ _ 6 Hm24) as (vs & Hlv & Hw & _).
  do 6 (destruct vs as [|? vs]; [done|]). destruct vs; [|done].
  pose proof (modifies_refl m si 24) as M.
  svc_store 1%nat.
  svc_store 5%nat.
  match goal with M : modifies m ?m' _ _ |- _ => rename M into M1, m' into m1 end.
  match goal with H : words_at m1 _ _ |- _ => rename H into Hw1 end.
  assert (units_at m1 s (us ++ [vlast])) as Hu1.
  { destruct Hu as [Hb Hr]. split; [|done]. eapply bytes_at_agree; [|exact Hb].
    eapply modifies_agree; [exact M1|]. rewrite length_u16s_bytes, length_app. cbn. lia. }
  replace (u32 (u32 (len + 1) * 2)) with (2 * (len + 1)) by (rewrite (u32_small (len + 1)), u32_small by lia; lia).
  eapply (wp_copy_name s us vlast m1 _ (node_size n)); [|exact Hu1|rewrite Hsize; unfold svcinfo.name; lia|].
  { eapply modifies_mapped; [exact M1|]. by replace (si + svcinfo.name - svcinfo.name) with si by lia. }
  intros m3 Hname M3.
  assert (words_at m3 si [z; h; z1; z2; z3; len]) as Hw3.
  { eapply bytes_at_agree; [|exact Hw1]. rewrite length_u32s_bytes.
    eapply modifies_agree; [exact M3|]. unfold svcinfo.name. cbn. lia. }
  pose proof (conj M1 M3) as M13. clear M1 M3.
  pose proof (modifies_refl m3 si 24) as M.
  svc_store 2%nat.
  svc_store 3%nat.
  svc_store 4%nat.
  apply wp_bind. eapply wp_run; [done|]. cbn [w_glob set_mem]. rewrite Hg.
  svc_store 0%nat. apply wp_bind, wp_modify, wp_ret. split; [done|]. eexists. split; [reflexivity|].
  split; [split|].
  - eassumption.
  - eapply bytes_at_agree; [|exact Hname]. eapply modifies_agree; [eassumption|].
    unfold svcinfo.name. cbn [fst n new_node]. lia.
  - destruct M13 as [M1 M3]. apply (modifies_trans m m1); [|apply (modifies_trans m1 m3)];
      (eapply modifies_weaken; [eassumption|]); unfold svcinfo.name; lia.
Qed.

Lemma owned_mapped nodes w a : svc_inv nodes w -> owned nodes a -> is_Some (w_mem w !! a).
Proof.
  intros I (n & Hin & Hr). destruct (sv_node _ _ _ I Hin) as (Hwf & next & Hn).
  pose proof (node_name _ _ _ _ Hn Hwf) as Hu%units_at_mapped. rewrite length_app in Hu.
  destruct Hn as [Hw%words_at_mapped _]. unfold region, node_size, svcinfo.sizeof in Hr.
  destruct (Z.lt_ge_cases a (fst n + 24)).
  - apply Hw. cbn. lia.
  - apply Hu. unfold svcinfo.name. cbn. lia.
Qed.

(** A node in fresh memory joins the list. *)
Lemma new_node_inv nodes w n m :
  svc_inv nodes w -> node_wf n -> e_name (snd n) ∉ e_name <$> entries nodes ->
  (forall a, region n a -> w_mem w !! a = None) ->
  (forall a, ~ region n a -> m !! a = w_mem w !! a) ->
  node_at fn m (svclist (w_glob w)) n ->
  svc_inv (n :: nodes)
    (set_glob (mkSvcmgr (svcmgr_handle (w_glob w)) (fst n) (str8_buf (w_glob w))) (set_mem m w)).
Proof.
  intros I Hwf Hname Hfresh Hframe Hn.
  assert (forall a, is_Some (w_mem w !! a) -> ~ region n a) as Hold.
  { intros a Ha Hr. rewrite (Hfresh a Hr) in Ha. by destruct Ha. }
  assert (forall a, is_Some (w_mem w !! a) -> is_Some (m !! a)) as Hdom.
  { intros a Ha. by rewrite Hframe by (by apply Hold). }
  pose proof (fun a => owned_mapped nodes w a I) as Hom.
  destruct I. split; cbn [w_mem w_glob w_drv set_glob set_mem svclist svcmgr_handle str8_buf]; try done.
  - split; [by rewrite <- sv_head0|].
    eapply chain_frame; [|exact sv_chain0]. intros a Ho. by apply Hframe, Hold, Hom.
  - split; [|done]. intros a Hr Ho. by apply (Hold a); [apply Hom|].
  - unfold entries. rewrite !fmap_cons. by constructor.
  - by constructor.
  - intros a [Hr|Ho]%owned_cons; [|by apply sv_away0].
    split; intros Ha; apply (Hold a); try done.
    + by apply sv_area0.
    + apply sv_stack0. lia.
  - intros a Ha. by apply Hdom, sv_stack0.
  - intros a ?. by apply Hdom, sv_area0.
  - intros c Hc. destruct (sv_cookies0 c Hc) as (n' & ? & ?). exists n'. split; [by right|done].
Qed.

Lemma fresh_disjoint m p k q j :
  mapped m p k -> (forall a, q <= a < q + j -> m !! a = None) -> 0 < k -> 0 < j ->
  p + k <= q \/ q + j <= p.
Proof.
  intros Hm Hf Hk Hj. destruct (Z.le_gt_cases (p + k) q); [by left|].
  destruct (Z.le_gt_cases (q + j) p); [by right|]. exfalso.
  destruct (Hm (Z.max p q)) as [b Hb]; [lia|]. by rewrite Hf in Hb by lia.
Qed.

(** The allocation of a node for the name [us] fails. *)
Definition no_memory (us : list Z) (m : memory) : Prop :=
  fst (malloc m (svcinfo.sizeof + 2 * (Z.of_nat (length us) + 1))) = 0.

Lemma new_svc_run nodes w s us vlast h allow :
  svc_inv nodes w -> (1 <= length us <= 127)%nat -> units_at (w_mem w) s (us ++ [vlast]) ->
  find_node us nodes = None -> word_ok h -> allow = 0 \/ allow = 1 ->
  wp (new_svc fn s (Z.of_nat (length us)) h allow)
     (fun si w' => si = 0 /\ no_memory us (w_mem w) /\ w' = w \/
                   0 < si /\ ~ no_memory us (w_mem w) /\
                   svc_step nodes w [] (new_node si us h allow :: nodes) w') w.
Proof.
  intros I Hl Hu Hfind Hh Hallow. set (len := Z.of_nat (length us)) in *.
  unfold new_svc. apply wp_bind. unfold wpf at 1, do_malloc.
  replace (u32 (svcinfo.sizeof + u32 (u32 (len + 1) * 2))) with (24 + 2 * (len + 1))
    by (unfold svcinfo.sizeof; rewrite (u32_small (len + 1)), (u32_small ((len + 1) * 2)),
          u32_small by lia; lia).
  destruct (malloc _ _) as [si m] eqn:Em. destruct (Z.eqb_spec si 0) as [->|Hsi].
  { apply wp_ret. left. split; [done|]. split; [unfold no_memory, svcinfo.sizeof; fold len; by rewrite Em|].
    apply malloc_null in Em as ->. by destruct w. }
  assert (~ no_memory us (w_mem w)) as Hmem by (unfold no_memory, svcinfo.sizeof; fold len; by rewrite Em).
  apply malloc_fresh in Em as (Hlo & Hhi & Hfresh & Hm & Hframe); [|done|lia].
  set (n := new_node si us h allow).
  assert (node_size n = 24 + 2 * (len + 1)) as Hsize by done.
  pose proof (units_at_mapped _ _ _ Hu) as Hsm. rewrite length_app in Hsm. cbn in Hsm.
  assert (s + 2 * (len + 1) <= si \/ si + node_size n <= s) as Hdis.
  { rewrite Hsize. eapply fresh_disjoint; [|exact Hfresh|lia|lia].
    eapply mapped_sub; [exact Hsm|lia..]. }
  eapply wp_mono.
  - apply (new_svc_writes s us vlast h allow si m (w_glob w) w); try done; try lia.
    destruct Hu as [Hb Hr]. split; [|done]. eapply bytes_at_agree; [|exact Hb].
    rewrite length_u16s_bytes, length_app. cbn. intros a Ha. apply Hframe. lia.
  - intros r w' [-> (m' & -> & Hn & Hmod)]. right. split; [done|]. split; [done|].
    assert (node_wf n) as Hwf.
    { destruct Hu as [_ Hr]. apply Forall_app in Hr as [Hr _]. by split; try (cbn; lia). }
    assert (forall a, ~ region n a -> m' !! a = w_mem w !! a) as Hout.
    { intros a Ha. unfold region in Ha. cbn [fst n new_node] in Ha.
      rewrite (mod_frame _ _ _ _ Hmod) by done. apply Hframe. lia. }
    split; try done.
    + apply (new_node_inv nodes w n); try done.
      apply find_entry_None. change (e_name (snd n)) with us. by rewrite find_node_entry, Hfind.
    + intros a Ha. apply Hout. intros Hr. apply Ha. right; right; right. by apply Hfresh.
    + intros a Ha. cbn [w_mem set_glob set_mem]. rewrite Hout; [done|].
      intros Hr. rewrite Hfresh in Ha by exact Hr. by destruct Ha.
    + by rewrite app_nil_r.
    + intros a [Hr|Ho]%owned_cons; [right; by apply Hfresh|by left].
    + intros n' Hn'. exists n'. split; [by right|done].
Qed.

(** ** Registration *)

Lemma readable_dom F w w' s len :
  (forall a, is_Some (w_mem w !! a) -> is_Some (w_mem w' !! a)) -> readable F w s len -> readable F w' s len.
Proof.
  intros Hd (? & ? & Hm). split_and!; try done. intros k Hk Hn. apply Hm; [done|].
  intros Hm'. apply Hn. intros a Ha. by apply Hd, Hm'.
Qed.

(** The end of a successful registration: the client's handle is acquired
    and its death linked to the node. *)
Lemma register_tail nodes bs n s len h w :
  svc_inv nodes w -> n ∈ nodes -> readable no_fault w s len -> slo + 12 <= w_sp w <= top ->
  wp (log8 "add_service('%s'), handle = %d" s len h;;
      binder_acquire bs h;;
      binder_link_to_death bs h (fst n + svcinfo.death);;
      mret 0)
     (fun r w' => r = 0 /\ svc_step nodes w
        [command2 BC_ACQUIRE h; link_command h (fst n + svcinfo.death)] nodes w') w.
Proof.
  intros I Hin Hr Hsp. destruct (sv_node _ _ _ I Hin) as (Hwf & _).
  apply wp_bind. eapply wp_mono; [by apply log8_logged|]. intros [] w1 L.
  pose proof (logged_step _ _ _ I L) as S1. pose proof (ss_inv _ _ _ _ _ S1) as I1.
  pose proof (ss_sp _ _ _ _ _ S1) as E1.
  apply wp_bind. eapply wp_mono; [apply (acquire_step nodes); [done|lia]|]. intros [] w2 S2.
  pose proof (ss_inv _ _ _ _ _ S2) as I2. pose proof (ss_sp _ _ _ _ _ S2) as E2.
  apply wp_bind. eapply wp_mono.
  { apply (binder_link_to_death_effect area). eapply mapped_sub; [apply (sv_stack _ _ I2)|lia..]. }
  intros [] w3 E. apply wp_ret. split; [done|].
  apply (svc_step_trans _ _ [] _ _ _ _ _ S1), (svc_step_trans _ _ [_] _ _ [_] _ _ S2).
  eapply (command_step _ _ _ 12); [done|lia|lia|exact E|].
  intros t c Hok Hc. exists n. split; [done|]. symmetry.
  pose proof (nw_lo _ Hwf). pose proof (nw_hi _ Hwf). pose proof (node_size_pos n).
  eapply link_command_inj; [|exact Hok|exact Hc]. unfold word_ok, svcinfo.death. lia.
Qed.

Lemma set_handle_twice a h h' nodes : set_handle a h (set_handle a h' nodes) = set_handle a h nodes.
Proof.
  unfold set_handle. rewrite <- list_fmap_compose. apply list_fmap_ext. intros i n _. cbn.
  destruct (decide (fst n = a)); cbn; by case_decide.
Qed.

Lemma set_handle_in a h nodes n :
  n ∈ nodes -> fst n = a -> (a, set_e_handle h (snd n)) ∈ set_handle a h nodes.
Proof.
  intros Hin <-. apply list_elem_of_fmap. exists n. split; [|done]. by rewrite decide_True.
Qed.

Lemma override_run nodes bs n s len h uid w :
  svc_inv nodes w -> n ∈ nodes -> readable no_fault w s len -> slo + 8 <= w_sp w <= top -> word_ok h ->
  wp (old ← load 4 (fst n + svcinfo.handle);
      (if negb (old =? 0) then
         log8 "add_service('%s',%x) uid=%d - ALREADY REGISTERED, OVERRIDE" s len uid;;
         svcinfo_death bs (fst n)
       else mret ());;
      store 4 (fst n + svcinfo.handle) h;;
      mret (fst n))
     (fun r w' => r = fst n /\
        svc_step nodes w (release_of (e_handle (snd n))) (set_handle (fst n) h nodes) w') w.
Proof.
  intros I Hin Hr Hsp Hh. apply wp_bind. eapply wp_run; [by eapply load_handle|].
  assert (forall w1 nodes1 n1, svc_inv nodes1 w1 -> n1 ∈ nodes1 -> fst n1 = fst n ->
    wp (store 4 (fst n + svcinfo.handle) h;; mret (fst n))
       (fun r w' => r = fst n /\ svc_step nodes1 w1 [] (set_handle (fst n) h nodes1) w') w1) as Hend.
  { intros w1 nodes1 n1 I1 Hin1 <-. apply wp_bind.
    eapply wp_mono; [by apply (store_handle_step nodes1)|]. intros [] w2 S. by apply wp_ret. }
  apply wp_bind. unfold release_of at 1. destruct (Z.eqb_spec (e_handle (snd n)) 0) as [E|E]; cbn [negb].
  - apply wp_ret. by apply (Hend w nodes n).
  - apply wp_bind. eapply wp_mono; [by apply log8_logged|]. intros [] w1 L.
    pose proof (logged_step _ _ _ I L) as S1.
    eapply wp_mono; [apply (svcinfo_death_run nodes); [apply S1|done|by rewrite (lg_sp _ _ L)]|].
    intros [] w2 S2. eapply wp_mono.
    + eapply (Hend w2 (set_handle (fst n) 0 nodes)); [apply S2|by apply set_handle_in|done].
    + intros r w3 [-> S3]. split; [done|]. rewrite set_handle_twice in S3.
      unfold release_of in S2. destruct (Z.eqb_spec (e_handle (snd n)) 0); [done|].
      apply (svc_step_trans _ _ [] _ _ _ _ _ S1), (svc_step_trans _ _ [_] _ _ [] _ _ S2 S3).
Qed.

(** The string argument of a registration, with the unit after it, which
    [memcpy] copies before it is overwritten. *)
Definition add_arg w (s len : Z) (us : list Z) (vlast : Z) : Prop :=
  s <> 0 /\ 0 <= len /\
  (len <= 127 -> Z.of_nat (length us) = len /\ units_at (w_mem w) s (us ++ [vlast])).

Definition add_accepts (us : list Z) (len h : Z) : Prop := h <> 0 /\ 1 <= len <= 127.

(** The commands of a registration over the registry [r]. *)
Definition add_commands (r : list entry) (us : list Z) (h death : Z) : list (list byte) :=
  (match find_entry us r with Some e => release_of (e_handle e) | None => [] end) ++
  [command2 BC_ACQUIRE h; link_command h death].

(** Refusal (bad arguments, or no memory for a new name), or registration. *)
Definition add_post nodes us len h allow w (r : Z) w' : Prop :=
  (r = -1 /\ (~ add_accepts us len h \/ find_entry us (entries nodes) = None /\ no_memory us (w_mem w)) /\
     svc_step nodes w [] nodes w') \/
  (r = 0 /\ add_accepts us len h /\
   (find_entry us (entries nodes) = None -> ~ no_memory us (w_mem w)) /\ exists nodes' n,
     n ∈ nodes' /\ e_name (snd n) = us /\
     entries nodes' = reg_add us h allow (entries nodes) /\
     svc_step nodes w (add_commands (entries nodes) us h (fst n + svcinfo.death)) nodes' w').

Lemma do_add_service_run nodes bs s len us vlast h uid allow spid w :
  svc_inv nodes w -> add_arg w s len us vlast -> word_ok h -> allow = 0 \/ allow = 1 ->
  slo + 12 <= w_sp w <= top ->
  wp (do_add_service fn bs s len h uid allow spid) (add_post nodes us len h allow w) w.
Proof.
  intros I (Hs & Hlen & Hu) Hh Hallow Hsp. unfold do_add_service.
  destruct (Z.eqb_spec h 0) as [->|Hh0]; cbn [orb].
  { apply wp_ret. left. split; [done|]. split; [|by apply svc_step_refl]. left. by intros [? _]. }
  destruct (Z.eqb_spec len 0) as [->|Hl0]; cbn [orb].
  { apply wp_ret. left. split; [done|]. split; [|by apply svc_step_refl]. left. intros [_ ?]. lia. }
  destruct (Z.ltb_spec 127 len) as [Hl127|Hl127].
  { apply wp_ret. left. split; [done|]. split; [|by apply svc_step_refl]. left. intros [_ ?]. lia. }
  destruct (Hu Hl127) as [<- Hu']. pose proof (proj1 (units_at_app _ _ _ _) Hu') as [Hus _].
  assert (readable no_fault w s (Z.of_nat (length us))) as Hr.
  { apply readable_mapped; [done|lia|]. rewrite Z.min_l by lia. by apply units_at_mapped. }
  apply wp_bind, wp_bind. eapply wp_mono; [by apply str8_logged|].
  intros [] w1 L. apply wp_ret. cbn [negb check_mac_perms_from_lookup].
  pose proof (logged_step _ _ _ I L) as S1. pose proof (ss_inv _ _ _ _ _ S1) as I1.
  assert (w_mem w1 = w_mem w) as Em by apply L. pose proof (ss_sp _ _ _ _ _ S1) as Esp.
  apply wp_bind. eapply wp_run; [apply (find_svc_run nodes); [done|by rewrite Em|lia]|].
  assert (add_accepts us (Z.of_nat (length us)) h) as Hacc by (split; [done|lia]).
  destruct (find_node us nodes) as [n|] eqn:E; cbn [addr_of].
  - apply find_node_Some in E as Hn. destruct Hn as [Hin En].
    destruct (sv_node _ _ _ I1 Hin) as (Hwf & _). pose proof (nw_lo _ Hwf).
    destruct (Z.eqb_spec (fst n) 0) as [?|_]; [lia|]. cbn [negb].
    apply wp_bind. eapply wp_mono.
    { apply (override_run nodes); [done|done| |lia|done]. by apply (readable_dom _ w); [rewrite Em|]. }
    intros r w2 [-> S2]. destruct (Z.eqb_spec (fst n) 0) as [?|_]; [lia|].
    pose proof (set_handle_in (fst n) h nodes n Hin eq_refl) as Hin'.
    eapply wp_mono.
    { apply (register_tail (set_handle (fst n) h nodes) bs (fst n, set_e_handle h (snd n)));
        [apply S2|done| |rewrite (ss_sp _ _ _ _ _ S2); lia].
      apply (readable_dom _ w); [|done]. intros a Ha. apply (ss_dom _ _ _ _ _ S2). by rewrite Em. }
    intros r w3 [-> S3]. right. split; [done|]. split; [done|].
    split; [rewrite find_node_entry, E; discriminate|].
    exists (set_handle (fst n) h nodes), (fst n, set_e_handle h (snd n)).
    unfold reg_add, add_commands. rewrite find_node_entry, E. cbn [fmap option_fmap option_map].
    split_and!; [done|done| |].
    + rewrite <- En. apply entries_set_handle; [apply I|apply I|done].
    + apply (svc_step_trans _ _ [] _ _ _ _ _ S1), (svc_step_trans _ _ _ _ _ _ _ _ S2 S3).
  - cbn [negb Z.eqb]. apply wp_bind. eapply wp_mono.
    { apply (new_svc_run nodes w1 s us vlast h allow); try done; [lia|by rewrite Em]. }
    intros si w2 [(-> & Hnm & ->)|(Hsi & Hnm & S2)].
    + cbn [Z.eqb]. apply wp_bind.
      eapply wp_mono; [apply log8_logged; by apply (readable_dom _ w); [rewrite Em|]|].
      intros [] w3 L3. apply wp_ret. left. split; [done|].
      rewrite find_node_entry, E. split; [right; by rewrite <- Em|].
      apply (svc_step_trans _ _ [] _ _ [] _ _ S1). by apply logged_step.
    + destruct (Z.eqb_spec si 0) as [?|_]; [lia|]. eapply wp_mono.
      { apply (register_tail (new_node si us h allow :: nodes) bs (new_node si us h allow));
          [apply S2|left| |rewrite (ss_sp _ _ _ _ _ S2); lia].
        apply (readable_dom _ w); [|done]. intros a Ha. apply (ss_dom _ _ _ _ _ S2). by rewrite Em. }
      intros r w3 [-> S3]. right. split; [done|]. split; [done|]. split; [by rewrite <- Em|].
      exists (new_node si us h allow :: nodes), (new_node si us h allow).
      unfold reg_add, add_commands. rewrite find_node_entry, E. cbn [fmap option_fmap option_map].
      split_and!; [left|done|done|].
      apply (svc_step_trans _ _ [] _ _ _ _ _ S1), (svc_step_trans _ _ [] _ _ _ _ _ S2 S3).
Qed.
End Ops.
