(* ===== verification/SvcHandler.v ===== *)
(** * The service manager's handler

    Requests decoded from parcels, the registry consulted or updated, replies
    written: [svcmgr_handler] against the abstract registry, for any request
    and for well-formed ones. *)
From Stdlib Require Import ZArith Strings.Byte.
From stdpp Require Import base gmap list strings.
From S2P Require Import Prelude CMachine BinderProto BinderIo BinderParcel Binder BinderLemmas BinderParse BinderDriver BinderCommands BinderCall ServiceManager SvcRegistry SvcOps.
Open Scope Z_scope.

(** ** Cursors stay in their message *)

Definition within (io io' : binder_io) : Prop :=
  data io <= data io' /\ data io' + data_avail io' <= data io + data_avail io.

Lemma bio_get_within m io size :
  bio_in m io -> 0 <= align4 size -> within io (snd (bio_get io size)).
Proof.
  intros [] Hs. unfold bio_get, within.
  destruct (Z.ltb_spec (data_avail io) (align4 size)); cbn; lia.
Qed.

Section Cursor.
Context {G D : Type}.
Implicit Types w : world G D.

Lemma get_uint32_cursor io w v io' :
  bio_get_uint32 io w = Ok (v, io') w ->
  io' = snd (bio_get io 4) /\ (data_avail io < 4 -> v = 0) /\
  (4 <= data_avail io -> data io <> 0 -> bytes_at (w_mem w) (data io) (le_bytes 4 v)).
Proof.
  unfold bio_get_uint32, bio_get. rewrite align4_4.
  destruct (Z.ltb_spec (data_avail io) 4) as [Hlt|Hge]; cbn [negb Z.eqb].
  - intros [= <- <-]. split_and!; [done|done|lia].
  - intros R. split; [|split; [lia|intros _ Hd]]; unfold mbind, C_bind in R.
    + destruct (if negb _ then _ else _); [|done]. by injection R as _ <-.
    + destruct (Z.eqb_spec (data io) 0) as [|_]; [done|]. cbn [negb] in R.
      unfold load, mbind, C_bind, load_bytes in R.
      destruct (mem_get (w_mem w) (data io) 4) as [bs|] eqn:E; [|done].
      injection R as <- _. pose proof (mem_get_length _ _ _ _ E) as L.
      rewrite <- L, le_bytes_val. by eapply mem_get_bytes_at.
Qed.

Lemma get_string16_cursor io w ptr len io' :
  bio_in (w_mem w) io -> bio_get_string16 io w = Ok (ptr, len, io') w ->
  within io io' /\
  (ptr <> 0 -> ptr = data io + 4 /\ 4 <= data_avail io /\
     bytes_at (w_mem w) (data io) (le_bytes 4 len)).
Proof.
  intros B R. unfold bio_get_string16 in R.
  destruct (get_uint32_safe w io B) as (v & io1 & R1 & B1 & _).
  erewrite run_bind in R by exact R1. cbn iota beta in R.
  pose proof (get_uint32_cursor _ _ _ _ R1) as (E1 & Hv & Hb).
  pose proof (bio_get_within _ io 4 B (align4_nonneg 4)) as W1. rewrite <- E1 in W1.
  destruct (bio_get io1 _) as [q io2] eqn:E2. injection R as <- <- <-.
  pose proof (bio_get_within _ io1 (u32 (u32 (v + 1) * 2)) B1 (align4_nonneg _)) as W2.
  rewrite E2 in W2. cbn [snd] in W2. unfold within in *. split; [lia|]. intros Hq.
  pose proof (bi_lo _ _ B). unfold bio_get in E1, E2. rewrite align4_4 in E1.
  destruct (Z.ltb_spec (data_avail io) 4) as [Hlt|Hge]; cbn [snd] in E1; subst io1.
  - rewrite (Hv Hlt) in E2. cbn [data_avail bio_exhaust] in E2.
    change (align4 (u32 (u32 (0 + 1) * 2))) with 4 in E2. cbn [Z.ltb Z.compare] in E2.
    by injection E2 as <- _.
  - cbn [data data_avail bio_advance] in E2. case_cmp; injection E2 as <- _; [done|].
    split_and!; [done|done|]. apply Hb; lia.
Qed.

Lemma get_ref_cursor io w h io' :
  bio_in (w_mem w) io -> bio_get_ref io w = Ok (h, io') w -> within io io'.
Proof.
  intros B R. unfold bio_get_ref, _bio_get_obj in R. unfold mbind, C_bind in R.
  pose proof (bio_get_within _ io flat_binder_object.sizeof B (align4_nonneg _)) as W.
  assert (within io (bio_exhaust io)) as W'.
  { destruct B. unfold within. cbn. lia. }
  destruct (find_offset _ _ _ _ w) as [[] w1|]; [| |done]; cbn in R.
  - destruct (bio_get io _) as [obj io1]. cbn [snd] in W. destruct (obj =? 0).
    { by injection R as _ <- _. }
    destruct (load 4 (obj + flat_binder_object.type) w1) as [ty w2|]; [|done].
    destruct (ty =? BINDER_TYPE_HANDLE); [|by injection R as _ <- _].
    destruct (load 4 (obj + flat_binder_object.handle) w2); [|done]. by injection R as _ <- _.
  - by injection R as _ <- _.
Qed.
End Cursor.

Section Handler.
Context {D : Type} `{BinderDriver D} `{!Malloc} `{!MallocOk}.
Context (area : Z -> Prop) `{!BinderProtocol D area}.
Context (fn slo shi top : Z) (Hfn : word_ok fn) (Hly : layout area slo shi) (Htop : top <= shi).
Implicit Types w : world svcmgr D.

Abbreviation svc_inv := (svc_inv area fn slo shi).
Abbreviation svc_step := (svc_step area fn slo shi top).

(** A request message: readable and in the area. *)
Record msg_ok w (msg : binder_io) : Prop := {
  mo_in : bio_in (w_mem w) msg;
  mo_area : forall a, data msg <= a < data msg + data_avail msg -> area a;
}.

Definition in_msg (msg : binder_io) (a : Z) : Prop := data msg <= a < data msg + data_avail msg.

(** The fault of reading a string that is not there: its length word, in
    [P], is one for which the size [(len + 1) * 2], rounded up, wraps to
    (almost) nothing, so that [bio_get_string16] accepts it, and one of the
    127 units that [str8] may read after it is not mapped. *)
Definition overread (P : Z -> Prop) (m : memory) (f : fault) : Prop :=
  exists s len k, (forall a, s - 4 <= a < s -> P a) /\ bytes_at m (s - 4) (le_bytes 4 len) /\
    2147483646 <= len < 4294967296 /\ 0 <= k < 127 /\ ~ mapped m (s + 2 * k) 2 /\
    f = Segv (s + 2 * k).

Lemma overread_weaken (P P' : Z -> Prop) m f :
  (forall a, P a -> P' a) -> overread P m f -> overread P' m f.
Proof. intros HP (s & len & k & Hs & ?). exists s, len, k. split; [|done]. intros a Ha. by apply HP, Hs. Qed.

(** The string getter on any message: [NULL] or a usable argument. *)
Lemma get_string_arg (F : fault -> Prop) nodes w msg :
  svc_inv nodes w -> msg_ok w msg -> (forall f, overread (in_msg msg) (w_mem w) f -> F f) ->
  exists s len msg' us vlast, bio_get_string16 msg w = Ok (s, len, msg') w /\
    msg_ok w msg' /\ within msg msg' /\
    (s <> 0 -> str_arg F w s len us /\ add_arg w s len us vlast).
Proof.
  intros I [B Ha] HF.
  destruct (get_string16_safe w msg B) as (s & len & msg' & R & B' & Hlen & _ & Hs).
  destruct (get_string16_cursor _ _ _ _ _ B R) as [[W1 W2] Hp].
  assert (msg_ok w msg') as Hok by (split; [done|intros a ?; apply Ha; lia]).
  destruct (decide (s = 0)) as [->|Hnz]; [by exists 0, len, msg', [], 0|].
  destruct (Hs Hnz) as (_ & _ & Hm). destruct (Hp Hnz) as (Ep & Hav & Hlb).
  assert (readable F w s len) as Hr.
  { destruct (Z.le_gt_cases len 2147483645) as [Hle|Hgt].
    - apply readable_mapped; [done|lia|]. eapply mapped_sub; [exact Hm|lia|].
      rewrite (u32_small (len + 1)), u32_small by lia.
      pose proof (align4_bounds ((len + 1) * 2)). lia.
    - split_and!; [done|lia|]. intros k Hk Hn. apply HF. exists s, len, k.
      split_and!; try lia; try done.
      + intros a ?. unfold in_msg. lia.
      + by replace (s - 4) with (data msg) by lia. }
  destruct (Z.le_gt_cases len 127) as [Hle|Hgt].
  - destruct (mapped_units (w_mem w) s (Z.to_nat len + 1)) as (us & Hl & Hu).
    { eapply mapped_sub; [exact Hm|lia|].
      rewrite (u32_small (len + 1)), u32_small by lia.
      pose proof (align4_bounds ((len + 1) * 2)). lia. }
    destruct (exists_last (l := us)) as (us' & v & ->); [intros ->; cbn in Hl; lia|].
    rewrite length_app in Hl. cbn in Hl. exists s, len, msg', us', v.
    assert (Z.of_nat (length us') = len) as El by lia.
    split; [done|]. split; [done|]. split; [done|]. intros _.
    split; [split; [done|]|split_and!; [done|lia|done]]. intros _. split; [done|]. by apply units_at_app in Hu as [].
  - exists s, len, msg', [], 0. split; [done|]. split; [done|]. split; [done|]. intros _.
    split; [split; [done|lia]|]. split_and!; [done|lia|lia].
Qed.

(** ** Replies *)

(** An empty reply in the buffer [lo, lo+256) of the caller's frame. *)
Record reply_ok w (reply : binder_io) (lo : Z) : Prop := {
  ro_writes : bio_writes (w_mem w) reply lo 256 4 [];
  ro_lo : slo <= lo;
  ro_top : lo + 256 <= top;
}.

(** The reply holds exactly the item put, if it fits in 240 bytes; if not it
    is marked as overflowed, and of a string only the length is in it. *)
Record replied (op : put) (lo : Z) (reply : binder_io) w : Prop := {
  rp_bounds : bio_bounds reply lo 256;
  rp_fits : item_size (put_item op) <= 240 -> bio_writes (w_mem w) reply lo 256 4 [put_item op];
  rp_full : 240 < item_size (put_item op) -> overflowed reply;
  rp_cut src us : op = PutStr16 src us -> 240 < item_size (put_item op) ->
    bio_writes (w_mem w) (bio_cleared reply) lo 256 4 [IU32 (Z.of_nat (length us))];
}.

Lemma bio_writes_cleared m io lo n k its : bio_writes m io lo n k its -> bio_writes m (bio_cleared io) lo n k its.
Proof. intros []. split; try done. by destruct bw_bounds; split. Qed.

(** A string too long for the space: the length word is written. *)
Lemma put_string16_cut src us io w lo :
  bio_writes (w_mem w) io lo 256 4 [] -> put_src (w_mem w) lo 256 (PutStr16 src us) -> item_wf (IStr us) ->
  240 < item_size (IStr us) ->
  exists reply m', bio_put_string16 io src w = Ok reply (set_mem m' w) /\
    bio_writes m' (bio_cleared reply) lo 256 4 [IU32 (Z.of_nat (length us))].
Proof.
  intros W (Hnz & Hc & _) Hwf Hsz. pose proof Hwf as [_ Hl]. change (MAX_BIO_SIZE / 2) with 536870912 in Hl.
  pose proof (bw_bounds _ _ _ _ _ _ W) as B. pose proof (bw_avail _ _ _ _ _ _ W) as Ha.
  pose proof (bw_data _ _ _ _ _ _ W) as Hd. pose proof (bw_data0 _ _ _ _ _ _ W) as Hd0.
  change (items_size []) with 0 in Hd.
  unfold bio_put_string16. case_cmp; [done|]. erewrite run_bind by (by apply strlen16_run).
  destruct (Z.leb_spec (MAX_BIO_SIZE / 2) (Z.of_nat (length us))) as [Hle|_];
    [change (MAX_BIO_SIZE / 2) with 536870912 in Hle; lia|].
  rewrite (u32_small (Z.of_nat (length us))) by lia.
  assert (item_fits io (IU32 (Z.of_nat (length us)))) as Hfit.
  { split; cbn [item_size item_objs]; [lia|]. destruct B. lia. }
  destruct (put_u32_effect io (Z.of_nat (length us)) w lo 256 B (bw_mapped _ _ _ _ _ _ W) Hfit) as (m' & R & E).
  erewrite run_bind by exact R. rewrite str_size_cast by lia. cbn [item_size] in Hsz.
  rewrite bio_alloc_full by (cbn [io_after data_avail item_size]; lia).
  eexists _, m'. split; [reflexivity|].
  assert (item_wf (IU32 (Z.of_nat (length us)))) as Hwl by (cbn; lia).
  pose proof (bio_writes_step _ _ _ _ _ _ _ _ W Hwl Hfit E) as W'.
  apply bio_writes_cleared in W'. exact W'.
Qed.

Lemma reply_modifies_step nodes w lo m' :
  svc_inv nodes w -> slo <= lo -> lo + 256 <= top -> modifies (w_mem w) m' lo 256 ->
  svc_step nodes w [] nodes (set_mem m' w).
Proof.
  intros I Hlo Hhi M.
  assert (forall a, ~ touched area slo top nodes w a -> m' !! a = w_mem w !! a) as Hmem.
  { intros a Ha. apply (mod_frame _ _ _ _ M). intros Hr. apply Ha. right; left. lia. }
  split; try done.
  - eapply svc_inv_frame; try done; try apply I; [|apply M|by left].
    intros a Ho. apply (mod_frame _ _ _ _ M). intros Hr.
    destruct (sv_away _ _ _ _ _ _ I a Ho) as [_ Hs]. apply Hs. lia.
  - apply M.
  - by rewrite app_nil_r.
  - by left.
  - apply kept_refl.
Qed.

Lemma put_step nodes w reply lo op :
  svc_inv nodes w -> reply_ok w reply lo ->
  put_src (w_mem w) lo 256 op -> item_wf (put_item op) ->
  wp (run_put op reply) (fun reply' w' => svc_step nodes w [] nodes w' /\ replied op lo reply' w') w.
Proof.
  intros I [W Hlo Hhi] Hsrc Hwf. pose proof W as [B Hm _ Ho0 Hd0 Hd Ho Ha Hoa _ _ _].
  cbn [items_size items_objs foldr] in *. pose proof (item_objs_01 (put_item op)).
  destruct (run_put_safe op reply w lo 256) as (io' & m' & R & B' & M & _ & Hf & Hnf); try done.
  eapply wp_run; [exact R|]. split; [by apply (reply_modifies_step nodes w lo)|].
  split; [done| | |].
  - intros Hsz. assert (item_fits reply (put_item op)) as Hfit by (split; lia).
    destruct (run_put_fits op reply w lo 256) as (m2 & R2 & E2); try done.
    rewrite R in R2. injection R2 as -> E. rewrite E in *.
    by apply (bio_writes_step (w_mem w) m2 reply lo 256 4 []).
  - intros Hsz. apply Hnf. intros [Hs _]. lia.
  - intros src us -> Hsz.
    destruct (put_string16_cut src us reply w lo W Hsrc Hwf Hsz) as (io2 & m2 & R2 & W2).
    cbn [run_put] in R. rewrite R in R2. by injection R2 as -> ->.
Qed.

(** ** The requests *)

Lemma txn_field w p t i v :
  txn_at (w_mem w) p t -> txn_fields t !! i = Some v -> load 4 (p + 4 * Z.of_nat i) w = Ok v w.
Proof. apply txn_load. Qed.

(** What a lookup replies: a reference to the service, or the word 0. *)
Definition find_reply (h : Z) : put := if h =? 0 then PutU32 0 else PutRef h.

Lemma reply_ok_mem w w' reply lo : w_mem w' = w_mem w -> reply_ok w reply lo -> reply_ok w' reply lo.
Proof. intros E []. split; try done. by rewrite E. Qed.

Lemma reg_lookup_ok nodes us uid w : svc_inv nodes w -> word_ok (reg_lookup us uid (entries nodes)).
Proof.
  intros I. unfold reg_lookup. rewrite find_node_entry. destruct (find_node us nodes) as [n|] eqn:E; [|done].
  cbn. destruct (_ && _); [done|]. apply find_node_Some in E as [Hin _].
  destruct (sv_node _ _ _ _ _ _ _ I Hin) as [Hwf _]. apply Hwf.
Qed.

Lemma handle_find_run (F : fault -> Prop) nodes bs p t msg reply lo s len msg' us w :
  svc_inv nodes w -> txn_at (w_mem w) p t -> reply_ok w reply lo ->
  bio_get_string16 msg w = Ok (s, len, msg') w -> (s <> 0 -> str_arg F w s len us) ->
  wpf F (handle_find bs p msg reply)
     (fun '(r, reply') w' =>
        if s =? 0 then r = -1 /\ reply' = reply /\ w' = w
        else r = 0 /\ svc_step nodes w [] nodes w' /\
             replied (find_reply (lookup_result nodes us len (t_sender_euid t))) lo reply' w') w.
Proof.
  intros I Ht Hrep Hs Hus. unfold handle_find. apply wp_bind. eapply wp_run; [exact Hs|]. cbn iota beta.
  destruct (Z.eqb_spec s 0) as [->|Hnz]; [by apply wp_ret|].
  apply wp_bind. eapply wp_run; [by apply (txn_field w p t 5)|].
  apply wp_bind. eapply wp_run; [by apply (txn_field w p t 4)|].
  apply wp_bind. eapply wp_mono; [by apply (do_find_service_run area fn slo shi top F nodes); auto|].
  intros h w1 [-> L]. set (h := lookup_result nodes us len (t_sender_euid t)).
  pose proof (logged_step area fn slo shi top _ _ _ I L) as S1.
  pose proof (ss_inv _ _ _ _ _ _ _ _ _ _ S1) as I1.
  assert (reply_ok w1 reply lo) as Hrep1 by (eapply reply_ok_mem; [apply L|done]).
  assert (word_ok h) as Hh.
  { unfold h, lookup_result. case_cmp; [|done]. by eapply reg_lookup_ok. }
  assert (item_wf (put_item (find_reply h))) as Hwf.
  { unfold find_reply. destruct (Z.eqb_spec h 0); cbn; [lia|].
    destruct (h =? 0); (split; [|exact Hh]); vm_compute; split; done. }
  assert (put_src (w_mem w1) lo 256 (find_reply h)) as Hsrc.
  { unfold find_reply. by destruct (h =? 0). }
  pose proof (put_step nodes w1 reply lo (find_reply h) I1 Hrep1 Hsrc Hwf) as P.
  assert (forall Q, wpf F (run_put (find_reply h) reply ≫= fun reply' => mret (0, reply')) Q w1 ->
            wpf F (if h =? 0 then reply' ← bio_put_uint32 reply 0; mret (0, reply')
                else reply' ← bio_put_ref reply h; mret (0, reply')) Q w1) as Hif.
  { intros Q. unfold find_reply. by destruct (h =? 0). }
  apply Hif, wp_bind. eapply wp_allow; [exact P|]. intros reply' w2 [S2 Hr]. apply wp_ret.
  split_and!; [done| |done]. by apply (svc_step_trans _ _ _ _ _ _ _ [] _ _ [] _ _ S1 S2).
Qed.

Lemma reply_ok_step nodes cmds nodes' w w' reply lo :
  svc_inv nodes w -> reply_ok w reply lo ->
  SvcOps.svc_step area fn slo shi lo nodes w cmds nodes' w' -> reply_ok w' reply lo.
Proof.
  intros I [W Hlo Hhi] S. split; [|done|done]. destruct W. split; try done.
  - intros a Ha. by apply (ss_dom _ _ _ _ _ _ _ _ _ _ S), bw_mapped.
Qed.

Lemma svc_step_top lo nodes cmds nodes' w w' :
  lo <= top -> SvcOps.svc_step area fn slo shi lo nodes w cmds nodes' w' -> svc_step nodes w cmds nodes' w'.
Proof.
  intros Hlo []. split; try done. intros a Ha. apply ss_mem. intros Ht. apply Ha.
  unfold touched in *. destruct Ht as [?|[?|[?|?]]]; [tauto|right; left; lia|tauto|tauto].
Qed.

(** What a registration request replies, and what it does. *)
Definition add_outcome nodes us len h allow lo reply w (r : Z) (reply' : binder_io) w' : Prop :=
  (r = -1 /\ reply' = reply /\ svc_step nodes w [] nodes w' /\
     (~ add_accepts us len h \/ find_entry us (entries nodes) = None /\ no_memory us (w_mem w))) \/
  (r = 0 /\ add_accepts us len h /\
   (find_entry us (entries nodes) = None -> ~ no_memory us (w_mem w)) /\ exists nodes' n,
     n ∈ nodes' /\ e_name (snd n) = us /\
     entries nodes' = reg_add us h allow (entries nodes) /\
     svc_step nodes w (add_commands (entries nodes) us h (fst n + svcinfo.death)) nodes' w' /\
     replied (PutU32 0) lo reply' w').

Definition allow_of (v : Z) : Z := if negb (v =? 0) then 1 else 0.

Lemma handle_add_run nodes bs p t msg reply lo s len msg' us vlast h msg1 v msg2 w :
  svc_inv nodes w -> txn_at (w_mem w) p t -> reply_ok w reply lo ->
  slo + 12 <= w_sp w <= lo -> word_ok h ->
  bio_get_string16 msg w = Ok (s, len, msg') w -> (s <> 0 -> add_arg w s len us vlast) ->
  bio_get_ref msg' w = Ok (h, msg1) w -> bio_get_uint32 msg1 w = Ok (v, msg2) w ->
  wp (handle_add fn bs p msg reply)
     (fun '(r, reply') w' =>
        if s =? 0 then r = -1 /\ reply' = reply /\ w' = w
        else add_outcome nodes us len h (allow_of v) lo reply w r reply' w') w.
Proof.
  intros I Ht Hrep Hsp Hh Hs Hus Hr Hv. unfold handle_add.
  apply wp_bind. eapply wp_run; [exact Hs|]. cbn iota beta.
  destruct (Z.eqb_spec s 0) as [->|Hnz]; [by apply wp_ret|].
  apply wp_bind. eapply wp_run; [exact Hr|]. cbn iota beta.
  apply wp_bind. eapply wp_run; [exact Hv|]. cbn iota beta.
  apply wp_bind. eapply wp_run; [by apply (txn_field w p t 5)|].
  apply wp_bind. eapply wp_run; [by apply (txn_field w p t 4)|].
  pose proof (ro_top _ _ _ Hrep) as Hlotop.
  apply wp_bind. eapply wp_mono.
  { apply (do_add_service_run area fn slo shi lo ltac:(lia) nodes bs s len us vlast);
      [done|auto|done|unfold allow_of; destruct (v =? 0); auto|lia]. }
  intros r w1 [(-> & Href & S1)|(-> & Hacc & Hmem & nodes' & n & Hn & En & Er & S1)].
  - apply wp_ret. left. split_and!; [done|done| |done]. eapply svc_step_top; [|exact S1]. lia.
  - cbn [Z.eqb negb]. apply wp_bind. pose proof (ss_inv _ _ _ _ _ _ _ _ _ _ S1) as I1.
    pose proof (reply_ok_step _ _ _ _ _ _ _ I Hrep S1) as Hrep1.
    eapply wp_mono; [by apply (put_step nodes' w1 reply lo (PutU32 0))|].
    intros reply' w2 [S2 Hrp]. apply wp_ret. right. split; [done|]. split; [done|]. split; [done|].
    exists nodes', n. split_and!; try done.
    rewrite <- (app_nil_r (add_commands _ _ _ _)).
    eapply svc_step_trans; [|exact S2]. eapply svc_step_top; [|exact S1]. lia.
Qed.

(** ** Enumeration *)

Lemma list_skip_run fuel n w nodes :
  (length nodes < fuel)%nat -> 0 <= n -> chain fn (w_mem w) nodes -> Forall node_wf nodes ->
  list_skip fuel n (head_of nodes) w = Ok (head_of (drop (Z.to_nat n) nodes)) w.
Proof.
  revert n nodes; induction fuel as [|fuel IH]; intros n nodes Hf Hn Hc Hwf; [lia|].
  cbn [list_skip]. destruct (Z.ltb_spec 0 n) as [Hpos|]; cbn [andb].
  2: { replace n with 0 by lia. done. }
  destruct nodes as [|nd ns]; [by rewrite drop_nil|]. cbn [length] in Hf. destruct Hc as [Hnd Hc].
  apply Forall_cons in Hwf as [Hwf Hns]. pose proof (nw_lo _ Hwf). cbn [head_of].
  destruct (Z.eqb_spec (fst nd) 0); [lia|]. cbn [negb].
  replace (fst nd + svcinfo.next) with (fst nd + 4 * Z.of_nat 0) by (unfold svcinfo.next; lia).
  erewrite run_bind by (apply (node_load fn w (head_of ns) nd 0 _ Hnd eq_refl); by apply head_ok).
  rewrite IH by (done || lia). by replace (Z.to_nat n) with (S (Z.to_nat (n - 1))) by lia.
Qed.

Lemma upto_zero_split us : exists rest, us ++ [0] = upto_zero us ++ 0 :: rest.
Proof.
  induction us as [|u us [rest E]]; [by exists []|]. cbn [upto_zero].
  destruct (Z.eqb_spec u 0) as [->|]; [by exists (us ++ [0])|].
  exists rest. cbn [app]. by rewrite E.
Qed.

Lemma cstr16_upto_zero m p us :
  units_at m p (us ++ [0]) -> cstr16_at m p (upto_zero us).
Proof.
  intros [Hb Hu]. destruct (upto_zero_split us) as [rest E]. rewrite E in Hb. split.
  - change (0 :: rest) with ([0] ++ rest) in Hb. rewrite app_assoc, u16s_bytes_app in Hb.
    by apply bytes_at_prefix in Hb.
  - apply Forall_app in Hu as [Hu _]. clear -Hu. induction us as [|u us IH]; [done|].
    apply Forall_cons in Hu as [Hu Hus]. cbn [upto_zero]. destruct (Z.eqb_spec u 0); [done|].
    apply Forall_cons_2; [unfold unit_ok in Hu; lia|by apply IH].
Qed.

Lemma upto_zero_wf us :
  Forall unit_ok us -> (length us <= 127)%nat -> item_wf (IStr (upto_zero us)).
Proof.
  intros Hu Hl. split.
  - clear Hl. induction us as [|u us IH]; [done|]. apply Forall_cons in Hu as [Hu Hus].
    cbn [upto_zero]. case_cmp; [done|]. apply Forall_cons_2; [exact Hu|by apply IH].
  - pose proof (length_upto_zero us). change (MAX_BIO_SIZE / 2) with 536870912. lia.
Qed.

Definition list_put (n : node) : put :=
  PutStr16 (fst n + svcinfo.name) (upto_zero (e_name (snd n))).

Lemma handle_list_run nodes bs p t msg reply lo n msg' w :
  svc_inv nodes w -> txn_at (w_mem w) p t -> reply_ok w reply lo -> 0 <= n ->
  bio_get_uint32 msg w = Ok (n, msg') w ->
  wp (handle_list bs p msg reply)
     (fun '(r, reply') w' =>
        match nodes !! Z.to_nat n with
        | Some nd => r = 0 /\ svc_step nodes w [] nodes w' /\ replied (list_put nd) lo reply' w'
        | None => r = -1 /\ reply' = reply /\ w' = w
        end) w.
Proof.
  intros I Ht Hrep Hn Hg. unfold handle_list.
  apply wp_bind. eapply wp_run; [exact Hg|]. cbn iota beta.
  apply wp_bind. eapply wp_run; [by apply (txn_field w p t 4)|].
  apply wp_bind, wp_ret. cbn [negb check_mac_perms_from_getcon].
  apply wp_bind. eapply wp_run; [done|]. rewrite (sv_head _ _ _ _ _ _ I).
  apply wp_bind. eapply wp_run.
  { apply (list_skip_run _ n w nodes); [by eapply sv_size|done|apply I|apply I]. }
  destruct (nodes !! Z.to_nat n) as [nd|] eqn:E.
  - rewrite (drop_S _ _ _ E). cbn [head_of]. apply list_elem_of_lookup_2 in E.
    destruct (sv_node _ _ _ _ _ _ _ I E) as (Hwf & next & Hnd).
    pose proof (nw_lo _ Hwf). destruct (Z.eqb_spec (fst nd) 0); [lia|]. cbn [negb].
    apply wp_bind. eapply wp_mono.
    { apply (put_step nodes w reply lo (list_put nd)); [done|done| |].
      - cbn [list_put put_src]. unfold svcinfo.name. split; [lia|].
        split; [by apply cstr16_upto_zero, (node_name fn w next)|].
        pose proof (length_upto_zero (e_name (snd nd))).
        destruct (Z.le_gt_cases (fst nd + 24 + 2 * (Z.of_nat (length (upto_zero (e_name (snd nd)))) + 1)) lo)
          as [|Hgt]; [by left|right].
        destruct (Z.le_gt_cases (lo + 256) (fst nd + 24)) as [|Hlt]; [done|exfalso].
        destruct Hrep as [_ Hlo Hhi].
        destruct (sv_away _ _ _ _ _ _ I (Z.max lo (fst nd + 24))) as [_ Hst]; [|apply Hst; lia].
        exists nd. split; [done|]. unfold region, node_size, svcinfo.sizeof. lia.
      - apply upto_zero_wf; apply Hwf. }
    intros reply' w' [S R]. by apply wp_ret.
  - apply lookup_ge_None in E. rewrite drop_ge by lia. cbn [head_of negb Z.eqb]. by apply wp_ret.
Qed.

(** ** The handler on any request *)

Lemma get_uint32_ok w msg :
  msg_ok w msg -> exists v msg', bio_get_uint32 msg w = Ok (v, msg') w /\ msg_ok w msg' /\ within msg msg' /\ word_ok v.
Proof.
  intros [B Ha]. destruct (get_uint32_safe w msg B) as (v & msg' & R & B' & Hv & _).
  destruct (get_uint32_cursor _ _ _ _ R) as [E _].
  pose proof (bio_get_within _ msg 4 B (align4_nonneg 4)) as W. rewrite <- E in W.
  exists v, msg'. split_and!; [done| |done|done]. split; [done|].
  destruct W. intros a ?. apply Ha. lia.
Qed.

Lemma get_ref_ok w msg :
  msg_ok w msg -> exists h msg', bio_get_ref msg w = Ok (h, msg') w /\ msg_ok w msg' /\ word_ok h.
Proof.
  intros [B Ha]. destruct (get_ref_safe w msg B) as (h & msg' & R & B' & Hh & _).
  exists h, msg'. split_and!; [done| |done]. split; [done|].
  destruct (get_ref_cursor _ _ _ _ B R). intros a ?. apply Ha. lia.
Qed.

(** The registry after a request: as it was, or with one registration. *)
Definition served nodes w (r : Z) w' : Prop :=
  (r = 0 \/ r = -1) /\ exists nodes' cmds,
    svc_step nodes w cmds nodes' w' /\
    (entries nodes' = entries nodes /\ cmds = [] \/
     exists us len h v n, r = 0 /\ add_accepts us len h /\ n ∈ nodes' /\ e_name (snd n) = us /\
       entries nodes' = reg_add us h (allow_of v) (entries nodes) /\
       cmds = add_commands (entries nodes) us h (fst n + svcinfo.death)).

Lemma served_same nodes w r w' : svc_step nodes w [] nodes w' -> r = 0 \/ r = -1 -> served nodes w r w'.
Proof. intros S Hr. split; [done|]. exists nodes, []. split; [done|by left]. Qed.

Lemma dispatch_served (F : fault -> Prop) nodes bs p t code msg reply lo w :
  svc_inv nodes w -> txn_at (w_mem w) p t -> msg_ok w msg -> reply_ok w reply lo ->
  slo + 12 <= w_sp w <= lo -> (forall f, overread (in_msg msg) (w_mem w) f -> F f) ->
  wpf F (svcmgr_dispatch fn bs p code msg reply) (fun '(r, _) => served nodes w r) w.
Proof.
  intros I Ht Hm Hrep Hsp HF. unfold svcmgr_dispatch.
  pose proof (svc_step_refl area fn slo shi top _ _ I) as S0.
  destruct (get_string_arg F nodes w msg I Hm HF) as (s & len & msg' & us & vl & Rs & Hm' & _ & Hus).
  destruct (_ || _).
  { eapply wp_mono; [apply (handle_find_run F nodes bs p t msg reply lo s len msg' us); try done|].
    - intros Hnz. by destruct (Hus Hnz).
    - intros [r reply'] w'. case_cmp.
      + intros (-> & _ & ->). apply served_same; auto.
      + intros (-> & S & _). apply served_same; auto. }
  destruct (code =? SVC_MGR_ADD_SERVICE).
  { destruct (get_ref_ok w msg' Hm') as (h & msg1 & Rh & Hm1 & Hh).
    destruct (get_uint32_ok w msg1 Hm1) as (v & msg2 & Rv & Hm2 & _).
    eapply wp_allow; [apply (handle_add_run nodes bs p t msg reply lo s len msg' us vl h msg1 v msg2); try done|].
    - intros Hnz. by destruct (Hus Hnz).
    - intros [r reply'] w'. case_cmp; [intros (-> & _ & ->); apply served_same; auto|].
      intros [(-> & _ & S & _)|(-> & Hacc & _ & nodes' & nd & Hn & En & Er & S & _)].
      + apply served_same; auto.
      + split; [by left|]. exists nodes', (add_commands (entries nodes) us h (fst nd + svcinfo.death)).
        split; [done|]. right. by exists us, len, h, v, nd. }
  destruct (code =? SVC_MGR_LIST_SERVICES).
  { destruct (get_uint32_ok w msg Hm) as (v & msg1 & Rv & Hm1 & _ & Hv).
    eapply wp_allow; [apply (handle_list_run nodes bs p t msg reply lo v msg1); try done; apply Hv|].
    intros [r reply'] w'. destruct (nodes !! _).
    - intros (-> & S & _). apply served_same; auto.
    - intros (-> & _ & ->). apply served_same; auto. }
  apply wp_ret. apply served_same; auto.
Qed.

(** The header check: [valid] is whether the interface name is right. *)
Lemma memcmp_header F w s len us :
  str_arg F w s len us ->
  wp (if len =? Z.of_nat (length svcmgr_id)
      then memcmp_const s (u16s_bytes svcmgr_id) else mret false)
     (fun _ w' => w' = w) w.
Proof.
  intros [_ Hus]. destruct (Z.eqb_spec len (Z.of_nat (length svcmgr_id))) as [->|]; [|by apply wp_ret].
  change (Z.of_nat (length svcmgr_id)) with 26 in *. destruct Hus as [El Hu%units_at_mapped]; [lia|].
  destruct (mapped_mem_get (w_mem w) s (length (u16s_bytes svcmgr_id))) as (bs & E & _).
  { change (length (u16s_bytes svcmgr_id)) with 52%nat. eapply mapped_sub; [exact Hu|lia..]. }
  apply wp_bind. eapply wp_run; [by apply run_load_bytes|]. by apply wp_ret.
Qed.

Lemma svcmgr_handler_served (F : fault -> Prop) nodes bs p t msg reply lo w :
  svc_inv nodes w -> txn_at (w_mem w) p t -> msg_ok w msg -> reply_ok w reply lo ->
  slo + 12 <= w_sp w <= lo -> (forall f, overread (in_msg msg) (w_mem w) f -> F f) ->
  wpf F (svcmgr_handler fn bs p msg reply) (fun '(r, _) => served nodes w r) w.
Proof.
  intros I Ht Hm Hrep Hsp HF. unfold svcmgr_handler.
  pose proof (svc_step_refl area fn slo shi top _ _ I) as S0.
  apply wp_bind. eapply wp_run; [by apply (txn_field w p t 0)|].
  apply wp_bind. eapply wp_run; [done|].
  destruct (negb _); [apply wp_ret; apply served_same; auto|].
  apply wp_bind. eapply wp_run; [by apply (txn_field w p t 2)|].
  destruct (_ =? PING_TRANSACTION); [apply wp_ret; apply served_same; auto|].
  destruct (get_uint32_ok w msg Hm) as (v & msg1 & Rv & Hm1 & W1 & _).
  assert (forall f, overread (in_msg msg1) (w_mem w) f -> F f) as HF1.
  { intros f Hf. apply HF. eapply overread_weaken; [|exact Hf]. unfold within, in_msg in *. lia. }
  apply wp_bind. eapply wp_run; [exact Rv|]. cbn iota beta.
  destruct (get_string_arg F nodes w msg1 I Hm1 HF1) as (s & len & msg2 & us & vl & Rs & Hm2 & W2 & Hus).
  apply wp_bind. eapply wp_run; [exact Rs|]. cbn iota beta.
  destruct (Z.eqb_spec s 0) as [|Hs]; [apply wp_ret; apply served_same; auto|].
  destruct (Hus Hs) as [Hstr _]. apply wp_bind. eapply wp_allow; [by eapply memcmp_header|].
  intros valid w' ->. destruct valid; cbn [negb].
  - eapply dispatch_served; try done. intros f Hf. apply HF1.
    eapply overread_weaken; [|exact Hf]. unfold within, in_msg in *. lia.
  - apply wp_bind. eapply wp_mono; [apply log8_logged, Hstr|]. intros [] w' L.
    apply wp_ret. apply served_same; [by apply logged_step|by right].
Qed.
End Handler.
