(* ===== verification/SvcRequests.v ===== *)
(** * Well-formed requests to the service manager

    What [svcmgr_handler] answers to each request a client can write with the
    library, in terms of the abstract registry. *)
From Stdlib Require Import ZArith Strings.Byte.
From stdpp Require Import base gmap list strings.
From S2P Require Import Prelude CMachine BinderProto BinderIo BinderParcel Binder BinderLemmas BinderParse BinderDriver BinderCommands BinderCall ServiceManager SvcRegistry SvcOps SvcHandler.
Open Scope Z_scope.

(** ** Well-formed requests *)

Section Requests.
Context {D : Type} `{BinderDriver D} `{!Malloc}.
Implicit Types w : world svcmgr D.

Lemma bio_reads_pos m io its : bio_reads m io its -> 0 < data io.
Proof. intros []. lia. Qed.

(** The header of a request (strict mode policy, interface name) is
    consumed and the [switch] reached. *)
Lemma handler_header fn bs p t msg reply policy its w :
  txn_at (w_mem w) p t -> t_target t = svcmgr_handle (w_glob w) ->
  t_code t <> PING_TRANSACTION ->
  bio_reads (w_mem w) msg (IU32 policy :: IStr svcmgr_id :: its) ->
  exists msg', bio_reads (w_mem w) msg' its /\
    svcmgr_handler fn bs p msg reply w = svcmgr_dispatch fn bs p (t_code t) msg' reply w /\
    data_avail msg' = data_avail msg - items_size [IU32 policy; IStr svcmgr_id].
Proof.
  intros Ht Htg Hcode Hm. unfold svcmgr_handler.
  erewrite run_bind by (apply (txn_load w p t 0 _ Ht eq_refl)).
  erewrite run_bind by done. rewrite Htg, Z.eqb_refl. cbn [negb].
  erewrite run_bind by (apply (txn_load w p t 2 _ Ht eq_refl)).
  destruct (Z.eqb_spec (t_code t) PING_TRANSACTION) as [|_]; [done|].
  erewrite run_bind by by eapply get_uint32_run. cbn iota beta.
  pose proof (bio_reads_step _ _ _ _ Hm) as Hm1.
  destruct (get_string16_run w _ _ _ Hm1) as [R Hb].
  erewrite run_bind by exact R. cbn iota beta.
  pose proof (bio_reads_pos _ _ _ Hm1). case_cmp; [lia|]. rewrite Z.eqb_refl.
  eexists. split; [by eapply bio_reads_step|].
  split; [|cbn [bio_advance data_avail]; rewrite !items_size_cons; change (items_size []) with 0; lia].
  erewrite run_bind; [|unfold memcmp_const; erewrite run_bind; [done|]].
  2: { apply run_load_bytes. unfold str_bytes in Hb. rewrite u16s_bytes_app in Hb.
       apply bytes_at_prefix in Hb. exact Hb. }
  by rewrite bool_decide_eq_true_2.
Qed.

(** The string of a request as an argument. *)
Lemma request_string (F : fault -> Prop) w msg us its :
  bio_reads (w_mem w) msg (IStr us :: its) ->
  exists s msg', s <> 0 /\ bio_get_string16 msg w = Ok (s, Z.of_nat (length us), msg') w /\
    bio_reads (w_mem w) msg' its /\ data_avail msg' = data_avail msg - item_size (IStr us) /\
    str_arg F w s (Z.of_nat (length us)) us /\ add_arg w s (Z.of_nat (length us)) us 0.
Proof.
  intros Hm. destruct (get_string16_run w _ _ _ Hm) as [R Hb].
  pose proof (bio_reads_pos _ _ _ Hm).
  pose proof (br_wf _ _ _ Hm) as [[Hu _] _]%Forall_cons.
  assert (units_at (w_mem w) (data msg + 4) (us ++ [0])) as Hun.
  { split; [exact Hb|]. apply Forall_app. split; [exact Hu|]. by apply Forall_singleton. }
  exists (data msg + 4), (bio_advance (item_size (IStr us)) msg).
  split; [lia|]. split; [exact R|]. split; [by eapply bio_reads_step|]. split; [done|].
  pose proof (proj1 (units_at_app _ _ _ _) Hun) as [Hus _].
  split; [split; [|done]|split_and!; [lia|lia|done]].
  apply readable_mapped; [lia|lia|]. eapply mapped_sub; [by apply units_at_mapped|lia..].
Qed.
End Requests.

(** ** Laws of the registry *)

Lemma reg_lookup_add us h allow vs uid r :
  reg_lookup vs uid (reg_add us h allow r) =
  if decide (vs = us) then
    let allow' := match find_entry us r with Some e => e_allow e | None => allow end in
    if (allow' =? 0) && isolated uid then 0 else h
  else reg_lookup vs uid r.
Proof.
  unfold reg_lookup, reg_add. destruct (find_entry us r) as [e|] eqn:E.
  - rewrite find_reg_set. case_decide as Ev; [|done]. subst vs. by rewrite E.
  - cbn [find_entry e_name]. case_decide as Ev; case_decide as Ev'; congruence || done.
Qed.

Lemma reg_lookup_death us vs uid r :
  reg_lookup vs uid (reg_set us 0 r) = if decide (vs = us) then 0 else reg_lookup vs uid r.
Proof.
  unfold reg_lookup. rewrite find_reg_set. case_decide; [|done].
  destruct (find_entry vs r); [|done]. cbn. by destruct (_ && _).
Qed.

(** ** The answers *)

(** No entry has a name longer than 127 units. *)
Lemma lookup_result_any {D} `{BinderProtocol D area} fn slo shi nodes us len uid (w : world svcmgr D) :
  svc_inv area fn slo shi nodes w -> len = Z.of_nat (length us) ->
  lookup_result nodes us len uid = reg_lookup us uid (entries nodes).
Proof.
  intros I ->. unfold lookup_result. destruct (Z.leb_spec (Z.of_nat (length us)) 127); [done|].
  unfold reg_lookup. rewrite find_node_entry. destruct (find_node us nodes) as [n|] eqn:E; [|done].
  apply find_node_Some in E as [Hin <-]. destruct (sv_node _ _ _ _ _ _ _ I Hin) as [Hwf _].
  pose proof (nw_len _ Hwf). lia.
Qed.

(** A well-formed lookup. *)
Lemma handler_find {D} `{BinderProtocol D area} `{MallocOk} fn slo shi top nodes bs p t msg
    reply lo policy us (w : world svcmgr D) :
  top <= shi -> svc_inv area fn slo shi nodes w -> txn_at (w_mem w) p t ->
  t_target t = BINDER_SERVICE_MANAGER ->
  t_code t = SVC_MGR_GET_SERVICE \/ t_code t = SVC_MGR_CHECK_SERVICE ->
  bio_reads (w_mem w) msg [IU32 policy; IStr svcmgr_id; IStr us] ->
  reply_ok slo top w reply lo ->
  wp (svcmgr_handler fn bs p msg reply)
     (fun '(r, reply') w' => r = 0 /\ svc_step area fn slo shi top nodes w [] nodes w' /\
        let h := reg_lookup us (t_sender_euid t) (entries nodes) in
        bio_writes (w_mem w') reply' lo 256 4 [if h =? 0 then IU32 0 else IObj BINDER_TYPE_HANDLE h]) w.
Proof.
  intros Htop I Ht Htg Hc Hm Hrep.
  destruct (handler_header fn bs p t msg reply policy [IStr us] w Ht) as (msg1 & Hm1 & R1 & Hav).
  { by rewrite (sv_self _ _ _ _ _ _ I). }
  { by destruct Hc as [-> | ->]. }
  { exact Hm. }
  unfold wpf. rewrite R1.
  assert (svcmgr_dispatch fn bs p (t_code t) msg1 reply = handle_find bs p msg1 reply) as ->
    by (unfold svcmgr_dispatch; by destruct Hc as [-> | ->]).
  destruct (request_string no_fault w msg1 us [] Hm1) as (s & msg2 & Hs & R & _ & _ & Hstr & _).
  eapply wp_mono; [apply (handle_find_run area fn slo shi top Htop no_fault nodes bs p t msg1 reply lo s _ msg2 us w
                I Ht Hrep R (fun _ => Hstr))|].
  intros [r reply'] w'. destruct (Z.eqb_spec s 0) as [|_]; [done|]. intros (-> & S & Hr).
  split; [done|]. split; [exact S|].
  rewrite (lookup_result_any fn slo shi nodes us _ _ _ I eq_refl) in Hr.
  pose proof (rp_fits _ _ _ _ Hr) as Hf. unfold find_reply in Hf.
  cbv zeta. destruct (reg_lookup us (t_sender_euid t) (entries nodes) =? 0) eqn:E0;
    cbn [put_item] in Hf; rewrite ?E0 in Hf; by apply Hf.
Qed.

(** A well-formed registration; the word after the reference may be
    missing, and then counts as 0. *)
Lemma handler_add {D} `{BinderProtocol D area} `{MallocOk} fn slo shi top nodes bs p t msg
    reply lo policy us h its v (w : world svcmgr D) :
  top <= shi -> svc_inv area fn slo shi nodes w -> txn_at (w_mem w) p t ->
  t_target t = BINDER_SERVICE_MANAGER -> t_code t = SVC_MGR_ADD_SERVICE ->
  bio_reads (w_mem w) msg ([IU32 policy; IStr svcmgr_id; IStr us; IObj BINDER_TYPE_HANDLE h] ++ its) ->
  its = [IU32 v] \/ its = [] /\ v = 0 /\
    data_avail msg = items_size [IU32 policy; IStr svcmgr_id; IStr us; IObj BINDER_TYPE_HANDLE h] ->
  reply_ok slo top w reply lo -> slo + 12 <= w_sp w <= lo ->
  wp (svcmgr_handler fn bs p msg reply)
     (fun '(r, reply') w' =>
        (r = -1 /\ svc_step area fn slo shi top nodes w [] nodes w' /\
           (~ add_accepts us (Z.of_nat (length us)) h \/ find_entry us (entries nodes) = None /\ no_memory us (w_mem w))) \/
        (r = 0 /\ add_accepts us (Z.of_nat (length us)) h /\
         (find_entry us (entries nodes) = None -> ~ no_memory us (w_mem w)) /\ exists nodes' n,
           n ∈ nodes' /\ e_name (snd n) = us /\
           entries nodes' = reg_add us h (allow_of v) (entries nodes) /\
           svc_step area fn slo shi top nodes w
             (add_commands (entries nodes) us h (fst n + svcinfo.death)) nodes' w' /\
           bio_writes (w_mem w') reply' lo 256 4 [IU32 0])) w.
Proof.
  intros Htop I Ht Htg Hc Hm Hv Hrep Hsp.
  destruct (handler_header fn bs p t msg reply policy ([IStr us; IObj BINDER_TYPE_HANDLE h] ++ its) w Ht) as (msg1 & Hm1 & R1 & Hav).
  { by rewrite (sv_self _ _ _ _ _ _ I). }
  { by rewrite Hc. }
  { exact Hm. }
  unfold wpf. rewrite R1, Hc.
  change (svcmgr_dispatch fn bs p SVC_MGR_ADD_SERVICE msg1 reply) with (handle_add fn bs p msg1 reply).
  destruct (request_string no_fault w msg1 us _ Hm1) as (s & msg2 & Hs & R & Hm2 & Hav2 & _ & Hadd).
  pose proof (get_ref_run w msg2 _ _ _ Hm2) as Rh. rewrite Z.eqb_refl in Rh.
  pose proof (bio_reads_step _ _ _ _ Hm2) as Hm3. change (item_size (IObj BINDER_TYPE_HANDLE h)) with 16 in Hm3.
  assert (exists msg4, bio_get_uint32 (bio_advance 16 msg2) w = Ok (v, msg4) w) as [msg4 Rv].
  { destruct Hv as [->|(-> & -> & Ea)]; [eexists; by eapply get_uint32_run|].
    eexists. unfold bio_get_uint32. rewrite bio_get_full; [reflexivity|].
    change (align4 4) with 4. cbn [data_avail bio_advance]. rewrite Hav2, Hav, Ea.
    rewrite !items_size_cons. change (items_size []) with 0. change (item_size (IObj _ _)) with 16. lia. }
  pose proof (br_wf _ _ _ Hm2) as [[_ Hh] _]%Forall_cons.
  eapply wp_mono; [apply (handle_add_run area fn slo shi top Htop nodes bs p t msg1 reply lo s _ msg2 us 0 h _ v msg4 w
                I Ht Hrep Hsp Hh R (fun _ => Hadd) Rh Rv)|].
  intros [r reply'] w'. destruct (Z.eqb_spec s 0) as [|_]; [done|].
  intros [(-> & _ & S & Href)|(-> & Hacc & Hmem & nodes' & n & Hn & En & Er & S & Hr)]; [by left|right].
  split; [done|]. split; [done|]. split; [done|]. exists nodes', n. split_and!; try done. by apply (rp_fits _ _ _ _ Hr).
Qed.


(** What LIST answers for an entry: its name up to the first zero unit, or
    only the length of that when it does not fit. *)
Definition list_answer (e : entry) : item :=
  let name := upto_zero (e_name e) in
  if (length name <=? 117)%nat then IStr name else IU32 (Z.of_nat (length name)).

Lemma list_put_size nd : (length (e_name (snd nd)) <= 127)%nat ->
  item_size (put_item (list_put nd)) <= 240 <-> (length (upto_zero (e_name (snd nd))) <= 117)%nat.
Proof.
  intros Hl. pose proof (length_upto_zero (e_name (snd nd))) as Hle.
  cbn [list_put put_item item_size]. rewrite align4_spec by lia.
  set (k := Z.of_nat (length (upto_zero (e_name (snd nd))))). split; intros Hk; div_lia.
Qed.

Lemma list_replied nd lo reply {D} (w : world svcmgr D) :
  (length (e_name (snd nd)) <= 127)%nat -> replied (list_put nd) lo reply w ->
  bio_writes (w_mem w) (bio_cleared reply) lo 256 4 [list_answer (snd nd)].
Proof.
  intros Hl [_ Hf _ Hcut]. unfold list_answer. pose proof (list_put_size nd Hl) as Hsz.
  destruct (Nat.leb_spec (length (upto_zero (e_name (snd nd)))) 117) as [Hle|Hgt].
  - apply bio_writes_cleared, Hf, Hsz, Hle.
  - apply (Hcut (fst nd + svcinfo.name)); [done|lia].
Qed.

(** A well-formed enumeration. *)
Lemma handler_list {D} `{BinderProtocol D area} `{MallocOk} fn slo shi top nodes bs p t msg
    reply lo policy n (w : world svcmgr D) :
  top <= shi -> svc_inv area fn slo shi nodes w -> txn_at (w_mem w) p t ->
  t_target t = BINDER_SERVICE_MANAGER -> t_code t = SVC_MGR_LIST_SERVICES ->
  bio_reads (w_mem w) msg [IU32 policy; IStr svcmgr_id; IU32 n] ->
  reply_ok slo top w reply lo ->
  wp (svcmgr_handler fn bs p msg reply)
     (fun '(r, reply') w' =>
        match nodes !! Z.to_nat n with
        | Some nd => r = 0 /\ svc_step area fn slo shi top nodes w [] nodes w' /\ replied (list_put nd) lo reply' w'
        | None => r = -1 /\ reply' = reply /\ w' = w
        end) w.
Proof.
  intros Htop I Ht Htg Hc Hm Hrep.
  destruct (handler_header fn bs p t msg reply policy [IU32 n] w Ht) as (msg1 & Hm1 & R1 & _).
  { by rewrite (sv_self _ _ _ _ _ _ I). }
  { by rewrite Hc. }
  { exact Hm. }
  unfold wpf. rewrite R1, Hc.
  change (svcmgr_dispatch fn bs p SVC_MGR_LIST_SERVICES msg1 reply) with (handle_list (D := D) bs p msg1 reply).
  pose proof (get_uint32_run w _ _ _ Hm1) as Rn. pose proof (br_wf _ _ _ Hm1) as [Hn _]%Forall_cons.
  exact (handle_list_run area fn slo shi top Htop nodes bs p t msg1 reply lo n _ w I Ht Hrep (proj1 Hn) Rn).
Qed.

(** A ping, whatever it carries. *)
Lemma handler_ping {D} `{BinderProtocol D area} `{!Malloc} fn bs p t msg reply (w : world svcmgr D) :
  txn_at (w_mem w) p t -> t_target t = svcmgr_handle (w_glob w) -> t_code t = PING_TRANSACTION ->
  svcmgr_handler fn bs p msg reply w = Ok (0, reply) w.
Proof.
  intros Ht Htg Hc. unfold svcmgr_handler.
  erewrite run_bind by (apply (txn_load w p t 0 _ Ht eq_refl)).
  erewrite run_bind by done. rewrite Htg, Z.eqb_refl. cbn [negb].
  erewrite run_bind by (apply (txn_load w p t 2 _ Ht eq_refl)). by rewrite Hc, Z.eqb_refl.
Qed.

(** A code that is not of the interface. *)
Definition unknown_code (code : Z) : Prop :=
  code <> PING_TRANSACTION /\ code <> SVC_MGR_GET_SERVICE /\ code <> SVC_MGR_CHECK_SERVICE /\
  code <> SVC_MGR_ADD_SERVICE /\ code <> SVC_MGR_LIST_SERVICES.

Lemma handler_unknown {D} `{BinderProtocol D area} `{!Malloc} fn bs p t msg reply policy its (w : world svcmgr D) :
  txn_at (w_mem w) p t -> t_target t = svcmgr_handle (w_glob w) -> unknown_code (t_code t) ->
  bio_reads (w_mem w) msg (IU32 policy :: IStr svcmgr_id :: its) ->
  svcmgr_handler fn bs p msg reply w = Ok (-1, reply) w.
Proof.
  intros Ht Htg (Hc0 & Hc1 & Hc2 & Hc3 & Hc4) Hm.
  destruct (handler_header fn bs p t msg reply policy its w Ht Htg Hc0 Hm) as (msg1 & _ & -> & _).
  unfold svcmgr_dispatch. by repeat (case_cmp; [done|]; cbn [orb]).
Qed.

(** A request to another interface. *)
Lemma foreign_header {D} F (w : world svcmgr D) s id :
  str_arg F w s (Z.of_nat (length id)) id -> id <> svcmgr_id ->
  (if Z.of_nat (length id) =? Z.of_nat (length svcmgr_id)
   then memcmp_const s (u16s_bytes svcmgr_id) else mret false) w = Ok false w.
Proof.
  intros [_ Hus] Hne. destruct (Z.eqb_spec (Z.of_nat (length id)) (Z.of_nat (length svcmgr_id))) as [El|]; [|done].
  destruct Hus as [_ [Hb Hu]]; [rewrite El; by vm_compute|]. apply Nat2Z.inj in El.
  assert (length (u16s_bytes svcmgr_id) = length (u16s_bytes id)) as L by (rewrite !length_u16s_bytes; lia).
  unfold memcmp_const. erewrite run_bind.
  2: { apply run_load_bytes. rewrite L. exact Hb. }
  rewrite bool_decide_eq_false_2; [done|]. intros E. apply Hne. apply u16s_bytes_inj; [done| |done].
  apply (bool_decide_unpack _). by vm_compute.
Qed.

Lemma handler_foreign {D} `{BinderProtocol D area} `{MallocOk} fn slo shi top nodes bs p t msg
    reply policy id its (w : world svcmgr D) :
  top <= shi -> svc_inv area fn slo shi nodes w -> txn_at (w_mem w) p t ->
  t_target t = BINDER_SERVICE_MANAGER -> t_code t <> PING_TRANSACTION ->
  bio_reads (w_mem w) msg (IU32 policy :: IStr id :: its) -> id <> svcmgr_id ->
  wp (svcmgr_handler fn bs p msg reply)
     (fun '(r, reply') w' => r = -1 /\ reply' = reply /\ svc_step area fn slo shi top nodes w [] nodes w') w.
Proof.
  intros Htop I Ht Htg Hc Hm Hne. unfold svcmgr_handler.
  apply wp_bind. eapply wp_run; [apply (txn_load w p t 0 _ Ht eq_refl)|].
  apply wp_bind. eapply wp_run; [done|]. rewrite Htg, (sv_self _ _ _ _ _ _ I), Z.eqb_refl. cbn [negb].
  apply wp_bind. eapply wp_run; [apply (txn_load w p t 2 _ Ht eq_refl)|].
  destruct (Z.eqb_spec (t_code t) PING_TRANSACTION) as [|_]; [done|].
  apply wp_bind. eapply wp_run; [by eapply get_uint32_run|]. cbn iota beta.
  destruct (request_string no_fault w _ id its (bio_reads_step _ _ _ _ Hm)) as (s & msg2 & Hs & R & _ & _ & Hstr & _).
  apply wp_bind. eapply wp_run; [exact R|]. cbn iota beta.
  destruct (Z.eqb_spec s 0) as [|_]; [done|].
  apply wp_bind. eapply wp_run; [by eapply foreign_header|]. cbn [negb].
  apply wp_bind. eapply wp_mono; [apply log8_logged, Hstr|]. intros [] w1 L.
  apply wp_ret. split_and!; [done|done|by apply logged_step].
Qed.
