(* ===== verification/SvcRefs.v ===== *)
(** * References held by the service manager

    The handles it has acquired from the driver and not released, counted in
    the commands it sent and in the registry: every operation keeps the two
    accounts equal. *)
From Stdlib Require Import ZArith Strings.Byte.
From stdpp Require Import base gmap list strings.
From S2P Require Import Prelude CMachine BinderProto BinderIo BinderParcel Binder BinderLemmas BinderParse BinderDriver BinderCommands BinderCall ServiceManager SvcRegistry SvcOps SvcHandler.
Open Scope Z_scope.

(** How often the command [p] occurs. *)
Definition times (p : list byte) (cmds : list (list byte)) : Z :=
  Z.of_nat (length (filter (fun q => q = p) cmds)).

(** The references to the handle [h] gained by the commands. *)
Definition refs (h : Z) (cmds : list (list byte)) : Z :=
  times (command2 BC_ACQUIRE h) cmds - times (command2 BC_RELEASE h) cmds.

(** The entries that hold [h]. *)
Definition holders (h : Z) (r : list entry) : Z :=
  Z.of_nat (length (filter (fun e => e_handle e = h) r)).

Definition one_if (P : Prop) `{Decision P} : Z := if decide P then 1 else 0.

(** The commands account for the change of the registry. *)
Definition balanced (r : list entry) (cmds : list (list byte)) (r' : list entry) : Prop :=
  forall h, word_ok h -> h <> 0 -> refs h cmds = holders h r' - holders h r.

Lemma refs_app h a b : refs h (a ++ b) = refs h a + refs h b.
Proof. unfold refs, times. rewrite !filter_app, !length_app. lia. Qed.

Lemma refs_cons h p cmds : refs h (p :: cmds) = refs h [p] + refs h cmds.
Proof. apply (refs_app h [p]). Qed.

Lemma times_one p q : times p [q] = one_if (q = p).
Proof. unfold times, one_if. cbn [filter list_filter]. by case_decide. Qed.

Lemma holders_cons h e r : holders h (e :: r) = one_if (e_handle e = h) + holders h r.
Proof.
  unfold holders, one_if. rewrite filter_cons. case_decide; cbn [length]; lia.
Qed.

Lemma balanced_refl r : balanced r [] r.
Proof. intros h _ _. rewrite Z.sub_diag. done. Qed.

Lemma balanced_trans r1 c1 r2 c2 r3 :
  balanced r1 c1 r2 -> balanced r2 c2 r3 -> balanced r1 (c1 ++ c2) r3.
Proof. intros A B h Hh Hnz. rewrite refs_app, (A h Hh Hnz), (B h Hh Hnz). lia. Qed.

(** ** The commands *)

Lemma command2_inj c h c' h' :
  word_ok c -> word_ok h -> word_ok c' -> word_ok h' ->
  command2 c h = command2 c' h' -> c = c' /\ h = h'.
Proof.
  intros Hc Hh Hc' Hh' E. unfold command2, u32s_bytes in E. cbn [map concat] in E.
  rewrite !app_nil_r in E. apply app_inj_1 in E as [E1 E2]; [|done].
  apply (f_equal le_val) in E1, E2. by rewrite !le_val_bytes_4 in E1, E2.
Qed.

(** A command of another length counts for nothing. *)
Lemma refs_other h p : length p <> 8%nat -> refs h [p] = 0.
Proof.
  intros Hl. unfold refs. rewrite !times_one. unfold one_if.
  repeat case_decide; by subst.
Qed.

Lemma refs_acquire h h' :
  word_ok h -> word_ok h' -> refs h [command2 BC_ACQUIRE h'] = one_if (h' = h).
Proof.
  intros Hh Hh'. unfold refs. rewrite !times_one. unfold one_if.
  repeat case_decide; subst; try done.
  all: match goal with H : command2 _ _ = command2 _ _ |- _ =>
         apply command2_inj in H as [? ?]; try done; by vm_compute end.
Qed.

Lemma refs_release h h' :
  word_ok h -> word_ok h' -> refs h [command2 BC_RELEASE h'] = - one_if (h' = h).
Proof.
  intros Hh Hh'. unfold refs. rewrite !times_one. unfold one_if.
  repeat case_decide; subst; try done.
  all: match goal with H : command2 _ _ = command2 _ _ |- _ =>
         apply command2_inj in H as [? ?]; try done; by vm_compute end.
Qed.

Lemma refs_release_of h h' :
  word_ok h -> word_ok h' -> h <> 0 -> refs h (release_of h') = - one_if (h' = h).
Proof.
  intros Hh Hh' Hnz. unfold release_of. destruct (Z.eqb_spec h' 0) as [->|].
  - unfold one_if. by rewrite decide_False.
  - by apply refs_release.
Qed.

(** ** The registry *)

Lemma holders_reg_set h us h' r e :
  NoDup (e_name <$> r) -> find_entry us r = Some e ->
  holders h (reg_set us h' r) = holders h r - one_if (e_handle e = h) + one_if (h' = h).
Proof.
  induction r as [|e0 r IH]; intros Hnd Hf; [done|].
  rewrite fmap_cons in Hnd. apply NoDup_cons in Hnd as [Hni Hnd]. cbn [find_entry] in Hf.
  unfold reg_set in *. rewrite fmap_cons, !holders_cons.
  destruct (decide (e_name e0 = us)) as [E|E].
  - injection Hf as ->. cbn [set_e_handle e_handle].
    rewrite (list_fmap_ext _ id r), list_fmap_id; [lia|].
    intros i x Hx. rewrite decide_False; [done|]. intros E'. apply Hni. rewrite E, <- E'.
    apply list_elem_of_fmap. exists x. split; [done|]. by eapply list_elem_of_lookup_2.
  - rewrite IH by done. lia.
Qed.

Lemma find_entry_in us r e : find_entry us r = Some e -> e ∈ r.
Proof.
  induction r as [|e0 r IH]; [done|]. cbn [find_entry].
  case_decide; [intros [= ->]; left|right; by apply IH].
Qed.

Lemma reg_add_handle us h allow r : exists e, e ∈ reg_add us h allow r /\ e_handle e = h.
Proof.
  unfold reg_add. destruct (find_entry us r) as [e|] eqn:E.
  - exists (set_e_handle h e). split; [|done]. apply list_elem_of_fmap. exists e.
    rewrite decide_True by (by eapply find_entry_name). split; [done|]. by eapply find_entry_in.
  - exists (mkEntry us h allow). split; [left|done].
Qed.

Definition handles_ok (r : list entry) : Prop := Forall (fun e => word_ok (e_handle e)) r.

Lemma find_handle_ok us r e : handles_ok r -> find_entry us r = Some e -> word_ok (e_handle e).
Proof.
  induction 1 as [|e0 r Hok _ IH]; [done|]. cbn [find_entry]. case_decide; [by intros [= <-]|done].
Qed.

Lemma find_entry_node nodes n :
  NoDup (e_name <$> entries nodes) -> n ∈ nodes -> find_entry (e_name (snd n)) (entries nodes) = Some (snd n).
Proof.
  intros Hnd Hin. rewrite find_node_entry. destruct (find_node _ nodes) as [n'|] eqn:E.
  - apply find_node_Some in E as [Hin' En]. by rewrite (names_inj nodes n' n).
  - apply (f_equal (fmap snd)) in E. rewrite <- find_node_entry in E. apply find_entry_None in E.
    destruct E. unfold entries. rewrite <- list_fmap_compose. apply list_elem_of_fmap. by exists n.
Qed.

(** ** The operations *)

Lemma balanced_add r us h allow death :
  NoDup (e_name <$> r) -> handles_ok r -> word_ok h ->
  balanced r (add_commands r us h death) (reg_add us h allow r).
Proof.
  intros Hnd Hr Hh h0 Hh0 Hnz. unfold add_commands, reg_add.
  assert (refs h0 [command2 BC_ACQUIRE h; link_command h death] = one_if (h = h0)) as Ea.
  { rewrite refs_cons, refs_acquire, refs_other by done. lia. }
  rewrite refs_app, Ea. destruct (find_entry us r) as [e|] eqn:E.
  - rewrite refs_release_of, (holders_reg_set _ _ _ _ e); try done; [lia|by eapply find_handle_ok].
  - rewrite holders_cons. cbn [e_handle]. unfold refs, times. cbn. lia.
Qed.

Lemma balanced_death r us e :
  NoDup (e_name <$> r) -> handles_ok r -> find_entry us r = Some e ->
  balanced r (release_of (e_handle e)) (reg_set us 0 r).
Proof.
  intros Hnd Hr Hf h Hh Hnz. rewrite refs_release_of by (done || by eapply find_handle_ok).
  rewrite (holders_reg_set _ _ _ _ e) by done. unfold one_if at 3. rewrite decide_False by congruence. lia.
Qed.

(** The looper's own events. *)
Lemma balanced_looper evs r : Forall looper_event evs -> balanced r (sent evs) r.
Proof.
  intros Hev h _ _. rewrite Z.sub_diag. induction Hev as [|e evs He _ IH]; [done|].
  destruct e; try exact IH. unfold sent. cbn [omap list_omap]. rewrite refs_cons.
  rewrite refs_other by (cbn in He; lia). exact IH.
Qed.

Section Operations.
Context {D : Type} `{BinderDriver D} `{!Malloc} `{!MallocOk}.
Context (area : Z -> Prop) `{!BinderProtocol D area} (fn slo shi top : Z).
Implicit Types w : world svcmgr D.

Lemma svc_inv_handles nodes w : svc_inv area fn slo shi nodes w -> handles_ok (entries nodes).
Proof.
  intros I. unfold handles_ok, entries. apply Forall_fmap. eapply Forall_impl; [apply I|].
  intros n Hn. apply Hn.
Qed.

(** A request served. *)
Lemma served_balanced nodes w r w' :
  svc_inv area fn slo shi nodes w -> served area fn slo shi top nodes w r w' ->
  exists nodes' cmds, svc_step area fn slo shi top nodes w cmds nodes' w' /\
    balanced (entries nodes) cmds (entries nodes').
Proof.
  intros I (_ & nodes' & cmds & S & Hs). exists nodes', cmds. split; [done|].
  destruct Hs as [[-> ->]|(us & len & h & v & n & _ & _ & _ & _ & E & ->)]; [apply balanced_refl|].
  rewrite E. apply balanced_add; [apply I|by eapply svc_inv_handles|].
  destruct (reg_add_handle us h (allow_of v) (entries nodes)) as (e & He & <-). rewrite <- E in He.
  pose proof (svc_inv_handles _ _ (ss_inv _ _ _ _ _ _ _ _ _ _ S)) as Hok.
  unfold handles_ok in Hok. rewrite Forall_forall in Hok. by apply Hok.
Qed.

(** A death reported. *)
Lemma dead_balanced nodes w n :
  svc_inv area fn slo shi nodes w -> n ∈ nodes ->
  balanced (entries nodes) (release_of (e_handle (snd n))) (entries (set_handle (fst n) 0 nodes)).
Proof.
  intros I Hin. rewrite entries_set_handle by (done || apply I).
  apply balanced_death; [apply I|by eapply svc_inv_handles|]. apply find_entry_node; [apply I|done].
Qed.
End Operations.
