(* ===== verification/SvcProcess.v ===== *)
(** * The service manager as a process

    The invariant of the registry holds in every state the looper reaches,
    whatever requests arrive and whichever services die: the process never
    faults under the driver's contract, and the references it holds are those
    of the registry. *)
From Stdlib Require Import ZArith Strings.Byte.
From stdpp Require Import base gmap list strings.
From S2P Require Import Prelude CMachine BinderProto BinderIo BinderParcel Binder BinderLemmas BinderParse BinderDriver BinderCommands BinderCall ServiceManager SvcRegistry SvcOps SvcHandler SvcRefs.
Open Scope Z_scope.

(** ** The nodes are determined by memory *)

Lemma words_at_inj m p vs vs' :
  words_at m p vs -> words_at m p vs' -> Forall word_ok vs -> Forall word_ok vs' ->
  length vs = length vs' -> vs = vs'.
Proof.
  intros H H' Hv Hv' Hl. apply list_eq_same_length with (length vs); [done|done|].
  intros i x y _ Hx Hy. rewrite words_at_lookup in H, H'.
  specialize (H i x Hx). specialize (H' i y Hy). unfold bytes_at in H, H'.
  rewrite length_le_bytes in H, H'. 
  assert (le_bytes 4 x = le_bytes 4 y) as E by (apply (inj Some); by rewrite <- H, <- H').
  rewrite Forall_lookup in Hv, Hv'. specialize (Hv i x Hx). specialize (Hv' i y Hy).
  apply (f_equal le_val) in E. by rewrite !le_val_bytes_4 in E.
Qed.

Lemma node_words_ok fn next n : word_ok fn -> word_ok next -> node_wf n ->
  Forall word_ok (node_words fn next n).
Proof.
  intros Hf Hn Hwf. pose proof (nw_lo _ Hwf). pose proof (nw_hi _ Hwf). pose proof (node_size_pos n).
  pose proof (nw_len _ Hwf). pose proof (nw_allow _ Hwf). pose proof (nw_handle _ Hwf).
  unfold word_ok in *. forall_list; lia.
Qed.

Lemma chain_unique fn m ns1 ns2 :
  word_ok fn -> chain fn m ns1 -> chain fn m ns2 -> Forall node_wf ns1 -> Forall node_wf ns2 ->
  head_of ns1 = head_of ns2 -> ns1 = ns2.
Proof.
  intros Hf. revert ns2; induction ns1 as [|[a e] ns1 IH]; intros [|[a2 e2] ns2] H1 H2 W1 W2 E.
  - done.
  - apply Forall_cons in W2 as [[] _]. cbn in *. lia.
  - apply Forall_cons in W1 as [[] _]. cbn in *. lia.
  - apply Forall_cons in W1 as [W1 Ws1]. apply Forall_cons in W2 as [W2 Ws2].
    cbn [head_of fst] in E. subst a2. destruct H1 as [[Hw1 Hn1] H1]. destruct H2 as [[Hw2 Hn2] H2].
    pose proof (words_at_inj m a (node_words fn (head_of ns1) (a, e)) (node_words fn (head_of ns2) (a, e2))
      Hw1 Hw2) as E.
    specialize (E (node_words_ok _ _ _ Hf (head_ok _ Ws1) W1) (node_words_ok _ _ _ Hf (head_ok _ Ws2) W2) eq_refl).
    injection E as Eh Eha Eal El.
    cbn [fst snd] in *. destruct e as [us1 h1 al1], e2 as [us2 h2 al2]. cbn [e_name e_handle e_allow] in *.
    subst h2 al2. f_equal; [|by apply IH]. do 2 f_equal.
    apply (app_inv_tail [0]). apply u16s_bytes_inj.
    + apply Forall_app. split; [apply W1|by apply Forall_singleton].
    + apply Forall_app. split; [apply W2|by apply Forall_singleton].
    + unfold bytes_at in Hn1, Hn2. rewrite length_u16s_bytes, length_app in Hn1, Hn2.
      replace (length us2) with (length us1) in Hn2 by lia. rewrite Hn1 in Hn2. by injection Hn2.
Qed.

(** ** The one fault *)

(** Memory is only ever added. *)
Definition grown (m m' : memory) : Prop := forall a, is_Some (m !! a) -> is_Some (m' !! a).

(** In a memory grown from [m], a message in the area has a string whose
    length word wraps, and reading the string leaves mapped memory. *)
Definition overread_later (area : Z -> Prop) (m : memory) (f : fault) : Prop :=
  exists m', grown m m' /\ overread area m' f.

(** It cannot happen where the area is followed by mapped memory: the words
    of the lengths and 127 units are 258 bytes. *)
Definition margin (area : Z -> Prop) (m : memory) : Prop :=
  forall a k, area a -> 0 <= k < 258 -> is_Some (m !! (a + k)).

Lemma overread_no_margin area m f : overread_later area m f -> ~ margin area m.
Proof.
  intros (m' & Hg & s & len & k & Ha & _ & _ & Hk & Hn & _) Hs. apply Hn. intros a Hr. apply Hg.
  replace a with ((s - 4) + (a - (s - 4))) by lia. apply Hs; [apply Ha; lia|lia].
Qed.

(** ** The invariant of the loop *)

Section Process.
Context {D : Type} `{BinderDriver D} `{!Malloc} `{!MallocOk}.
Context (area : Z -> Prop) `{!BinderProtocol D area}.
Context (fn slo shi readbuf : Z) (Hfn : word_ok fn) (Hly : layout area slo shi).
(** Below the read buffer there is room for the reply buffer and the largest
    command (56 bytes). *)
Context (Hroom : slo + 312 <= readbuf) (Hbuf : readbuf + 128 <= shi).
(** The registry when the process entered its loop, what it had sent and the
    memory it had. *)
Context (start : list entry) (said : list (list byte)) (m0 : memory).
Implicit Types w : world svcmgr D.

Abbreviation svc_inv := (svc_inv area fn slo shi).
Abbreviation svc_step := (svc_step area fn slo shi readbuf).

(** What was sent since accounts for the registry. *)
Definition accounted (nodes : list node) w : Prop :=
  exists cmds, sent (w_trace w) = said ++ cmds /\ balanced start cmds (entries nodes).

Definition svc_I w : Prop :=
  w_sp w = readbuf /\ grown m0 (w_mem w) /\ exists nodes, svc_inv nodes w /\ accounted nodes w.

(** The cookie addresses the death record of a node. *)
Definition svc_K (c : Z) w : Prop :=
  exists nodes n, svc_inv nodes w /\ n ∈ nodes /\ c = fst n + svcinfo.death.

Lemma svc_inv_unique nodes nodes' w : svc_inv nodes w -> svc_inv nodes' w -> nodes = nodes'.
Proof.
  intros I I'. eapply (chain_unique fn (w_mem w)); try done; [apply I|apply I'|apply I|apply I'|].
  by rewrite <- (sv_head _ _ _ _ _ _ I), <- (sv_head _ _ _ _ _ _ I').
Qed.

Lemma svc_inv_sp nodes w sp : svc_inv nodes w -> svc_inv nodes (set_sp sp w).
Proof. intros []. by split. Qed.

Lemma svc_step_sp nodes w sp cmds nodes' w' :
  svc_step nodes (set_sp sp w) cmds nodes' w' -> svc_step nodes w cmds nodes' (set_sp (w_sp w) w').
Proof. intros []. split; try done. by apply svc_inv_sp. Qed.

Lemma buffer_untouched nodes w a :
  svc_inv nodes w -> readbuf <= a < readbuf + 128 -> ~ touched area slo readbuf nodes w a.
Proof.
  intros I Ha [Hr|[Hr|[Hr|Hr]]].
  - apply (ly_area _ _ _ Hly a Hr). lia.
  - lia.
  - destruct (sv_away _ _ _ _ _ _ I a Hr) as [_ Hs]. apply Hs. lia.
  - destruct (sv_stack _ _ _ _ _ _ I a) as [b Hb]; [lia|]. congruence.
Qed.

Lemma step_stable nodes w cmds nodes' w' :
  svc_inv nodes w -> accounted nodes w -> svc_step nodes w cmds nodes' w' ->
  balanced (entries nodes) cmds (entries nodes') -> w_sp w = readbuf -> grown m0 (w_mem w) ->
  svc_I w' /\ stable readbuf svc_K w w'.
Proof.
  intros I (c0 & Es & B0) S B Hsp Hg. split.
  { split; [by rewrite (ss_sp _ _ _ _ _ _ _ _ _ _ S)|].
    split; [intros a Ha; by apply (ss_dom _ _ _ _ _ _ _ _ _ _ S), Hg|]. exists nodes'. split; [apply S|].
    exists (c0 ++ cmds). split; [by rewrite (ss_sent _ _ _ _ _ _ _ _ _ _ S), Es, app_assoc|].
    by eapply balanced_trans. }
  split.
  - apply S.
  - apply S.
  - intros a Ha. apply (ss_mem _ _ _ _ _ _ _ _ _ _ S). by apply buffer_untouched.
  - intros c (nodes2 & n & I2 & Hin & ->). rewrite (svc_inv_unique _ _ _ I2 I) in Hin.
    destruct (ss_kept _ _ _ _ _ _ _ _ _ _ S n Hin) as (n' & Hin' & E & _).
    exists nodes', n'. split_and!; [apply S|done|by rewrite E].
Qed.

(** ** A transaction *)

Lemma send_reply_step nodes bs reply buf status w :
  svc_inv nodes w -> slo + 56 <= w_sp w <= readbuf ->
  wp (binder_send_reply bs reply buf status)
     (fun _ w' => exists cmd, svc_step nodes w [cmd] nodes w' /\ length cmd = 52%nat) w.
Proof.
  intros I Hsp. eapply wp_mono.
  - apply (binder_send_reply_effect area). eapply mapped_sub; [apply (sv_stack _ _ _ _ _ _ I)|lia..].
  - intros [] w' (pid & euid & [E _]). eexists.
    assert (length (u32s_bytes (reply_words reply buf status pid euid (w_sp w))) = 52%nat) as Hl
      by (rewrite length_u32s_bytes; unfold reply_words; by destruct (negb (status =? 0))).
    split; [|exact Hl]. eapply (command_step area fn slo shi readbuf ltac:(lia) _ _ _ 56); [done|lia|lia|exact E|].
    intros t c _ E'. by rewrite E' in Hl.
Qed.

Lemma txn_at_untouched nodes w cmds nodes' w' p t :
  svc_inv nodes w -> svc_step nodes w cmds nodes' w' -> txn_at (w_mem w) p t ->
  readbuf <= p -> p + 40 <= readbuf + 128 -> txn_at (w_mem w') p t.
Proof.
  intros I S [Ht Hwf] Hp Hp'. split; [|done]. eapply bytes_at_agree; [|exact Ht].
  change (Z.of_nat (length (txn_bytes t))) with 40.
  intros a Ha. apply (ss_mem _ _ _ _ _ _ _ _ _ _ S). apply (buffer_untouched nodes); [done|lia].
Qed.

Lemma handle_txn_step nodes bs t p w :
  svc_inv nodes w -> w_sp w = readbuf -> txn_at (w_mem w) p t -> txn_valid area (w_mem w) t ->
  readbuf <= p -> p + 40 <= readbuf + 128 ->
  wpf (overread area (w_mem w)) (handle_txn bs (Some (svcmgr_handler fn)) p)
     (fun _ w' => exists cmds nodes', svc_step nodes w cmds nodes' w' /\
        balanced (entries nodes) cmds (entries nodes')) w.
Proof.
  intros I Hsp Ht Hv Hp Hp'. unfold handle_txn. apply wp_with_frame.
  set (lo := w_sp w - 256). set (w0 := set_sp lo w).
  assert (svc_inv nodes w0) as I0 by by apply svc_inv_sp.
  pose proof (ly_stack _ _ _ Hly) as [? ?].
  assert (reply_ok slo readbuf w0 (bio_init (mkBio 0 0 0 0 0 0 0 0) lo 256 4) lo) as Hrep.
  { split; [apply bio_init_writes; try lia|lia|lia].
    eapply mapped_sub; [apply (sv_stack _ _ _ _ _ _ I0)|lia..]. }
  apply wp_bind. eapply wp_run; [by apply (bio_init_from_txn_run _ w0 p t)|].
  assert (msg_ok area w0 (txn_bio t (mkBio 0 0 0 0 0 0 0 0))) as Hm.
  { destruct Hv. by split. }
  apply wp_bind. eapply wp_mono.
  { apply (svcmgr_handler_served area fn slo shi readbuf ltac:(lia) _ nodes bs p t _ _ lo w0);
      [done|done|exact Hm|exact Hrep|cbn [w0 set_sp w_sp]; lia|].
    intros f Hf. eapply overread_weaken; [|exact Hf]. apply Hm. }
  intros [r reply'] w1 (nodes1 & cmds & S1 & B1)%served_balanced; [|done]. cbn iota beta.
  apply wp_bind. eapply wp_run.
  { apply (txn_load w1 p t 8); [|done]. by apply (txn_at_untouched nodes w0 cmds nodes1). }
  eapply wp_allow.
  { apply (send_reply_step nodes1); [apply S1|].
    rewrite (ss_sp _ _ _ _ _ _ _ _ _ _ S1). cbn [w0 set_sp w_sp]. lia. }
  intros [] w2 (cmd & S2 & Hl). exists (cmds ++ [cmd]), nodes1. split.
  - eapply svc_step_sp. eapply svc_step_trans; [exact S1|exact S2].
  - eapply balanced_trans; [exact B1|]. intros h _ _. rewrite refs_other by (rewrite Hl; lia). lia.
Qed.

(** ** A death *)

Lemma handle_dead_step nodes bs n w :
  svc_inv nodes w -> n ∈ nodes -> w_sp w = readbuf ->
  wp (handle_dead (call_death fn) bs (fst n + svcinfo.death))
     (fun _ w' => svc_step nodes w (release_of (e_handle (snd n))) (set_handle (fst n) 0 nodes) w') w.
Proof.
  intros I Hin Hsp. destruct (sv_node _ _ _ _ _ _ _ I Hin) as (Hwf & next & Hn).
  pose proof (nw_lo _ Hwf). pose proof (nw_hi _ Hwf). pose proof (node_size_pos n).
  unfold handle_dead. apply wp_bind. eapply wp_run.
  { unfold svcinfo.death. apply (node_load fn w next n 2 _ Hn eq_refl). done. }
  apply wp_bind. eapply wp_run.
  { replace (fst n + svcinfo.death + 4) with (fst n + 4 * Z.of_nat 3) by (unfold svcinfo.death; lia).
    apply (node_load fn w next n 3 _ Hn eq_refl). unfold word_ok. lia. }
  unfold call_death. rewrite Z.eqb_refl.
  apply (svcinfo_death_run area fn slo shi readbuf ltac:(lia)); [done|done|lia].
Qed.

(** ** The looper *)

Lemma svcmgr_looper_inv bs :
  looper_inv area (call_death fn) (overread_later area m0) bs (svcmgr_handler fn) readbuf svc_I svc_K.
Proof.
  split.
  - intros w w' evs (Hsp & Hg & nodes & I & c0 & Es & B0) [[[E1 E2 E3 E4] E5] E6] Hev.
    split; [by rewrite E1|]. split; [intros a Ha; by apply E4, Hg|]. exists nodes. split.
    + eapply svc_inv_frame; try done; rewrite ?E2; try done; try apply I.
      * intros a Ho. apply E3. destruct (sv_away _ _ _ _ _ _ I a Ho) as [? Hs].
        intros [?|Hb]; [done|]. apply Hs. unfold buffer_at in Hb. lia.
      * intros c [?|(e & He & _ & fd0 & t & ->)]%E6; [by left|].
        rewrite Forall_forall in Hev. apply Hev in He. cbn in He. lia.
    + exists (c0 ++ sent evs). split; [by rewrite E5, sent_app, Es, app_assoc|].
      eapply balanced_trans; [exact B0|]. by apply balanced_looper.
  - intros w c (_ & _ & nodes & I & _) Hc. destruct (sv_cookies _ _ _ _ _ _ I c Hc) as (n & ? & ?).
    by exists nodes, n.
  - intros w (Hsp & Hg & nodes & I & A).
    apply (step_stable nodes _ [] nodes); [done|done| |apply balanced_refl|done|done].
    split; try done; [..|by left|apply kept_refl].
    + destruct I. by split.
    + unfold spawned. cbn [w_trace]. by rewrite sent_app.
  - intros w t p (Hsp & Hg & nodes & I & A) Ht Hv [Hp Hp'].
    eapply wpf_mono; [by apply (handle_txn_step nodes bs t)|by intros f Hf; exists (w_mem w)|].
    intros [] w' (cmds & nodes' & S & B). by eapply step_stable.
  - intros w c (Hsp & Hg & nodes & I & A) (nodes2 & n & I2 & Hin & ->).
    rewrite (svc_inv_unique _ _ _ I2 I) in Hin.
    eapply wp_allow; [by apply (handle_dead_step nodes)|].
    intros [] w' S. apply (step_stable nodes w _ _ _ I A S); [by eapply dead_balanced|done|done].
Qed.
End Process.

(** The loop, from the state it is entered in. *)
Lemma svcmgr_loop_run {D} `{BinderProtocol D area} `{MallocOk} fn slo shi nodes n bs (w : world svcmgr D) :
  word_ok fn -> layout area slo shi -> slo + 440 <= w_sp w <= shi -> svc_inv area fn slo shi nodes w ->
  wpf (overread_later area (w_mem w)) (binder_loop (call_death fn) n bs (svcmgr_handler fn))
     (fun _ w' => w_sp w' = w_sp w /\ exists nodes' cmds, svc_inv area fn slo shi nodes' w' /\
        sent (w_trace w') = sent (w_trace w) ++ cmds /\ balanced (entries nodes) cmds (entries nodes')) w.
Proof.
  intros Hfn Hly Hsp I. pose proof (ly_stack _ _ _ Hly). eapply wp_mono.
  - eapply (looper_run area).
    + apply (svcmgr_looper_inv area fn slo shi _ Hfn Hly)
        with (start := entries nodes) (said := sent (w_trace w)) (m0 := w_mem w); lia.
    + lia.
    + eapply mapped_sub; [apply (sv_stack _ _ _ _ _ _ I)|lia..].
    + split; [done|]. split; [by intros a|]. exists nodes. split; [by apply svc_inv_sp|].
      exists []. split; [symmetry; apply app_nil_r|apply balanced_refl].
  - intros e w' (wi & (_ & _ & nodes' & Hi & cmds & Es & B) & ->). split; [done|].
    exists nodes', cmds. split; [by apply svc_inv_sp|]. by split.
Qed.

Lemma svcmgr_loop_returns {D} `{BinderProtocol D area} `{MallocOk} fn slo shi nodes n bs (w : world svcmgr D) :
  word_ok fn -> layout area slo shi -> slo + 440 <= w_sp w <= shi -> svc_inv area fn slo shi nodes w ->
  margin area (w_mem w) ->
  wp (binder_loop (call_death fn) n bs (svcmgr_handler fn))
     (fun _ w' => w_sp w' = w_sp w /\ exists nodes' cmds, svc_inv area fn slo shi nodes' w' /\
        sent (w_trace w') = sent (w_trace w) ++ cmds /\ balanced (entries nodes) cmds (entries nodes')) w.
Proof.
  intros Hfn Hly Hsp I Hm. eapply wpf_mono; [by apply (svcmgr_loop_run fn slo shi nodes)| |done].
  intros f Hf. by destruct (overread_no_margin _ _ _ Hf).
Qed.
