(* ===== verification/SvcDemo.v ===== *)
(** * A concrete service manager process

    A world with one registered service, the stack, the driver's area and a
    request message, in which the theorems on the service manager are
    instantiated; [Demo.inv] checks the invariant by evaluation. *)
From Stdlib Require Import ZArith Strings.Byte.
From stdpp Require Import base gmap list strings.
From S2P Require Import Prelude CMachine BinderProto BinderIo BinderParcel Binder BinderLemmas BinderParse BinderDriver BinderCommands BinderCall ServiceManager SvcRegistry SvcOps SvcHandler SvcProcess.
Open Scope Z_scope.

(** ** A concrete process *)

Module Demo.
(** Stack [4096, 8192), one node on the heap at 16384, the driver's area
    [65536, 69632) followed by mapped memory. *)
Definition slo : Z := 4096.
Definition shi : Z := 8192.
Definition death_fn : Z := 512.
Definition hello : list Z := byte_val <$> chars "hello".
Definition hello_node : node := (16384, mkEntry hello 7 0).
Definition nodes : list node := [hello_node].

Definition pad (bs : list byte) : list byte :=
  bs ++ replicate (Z.to_nat (align4 (Z.of_nat (length bs))) - length bs) x00.
Definition parcel (its : list item) : list byte := concat (map (fun it => pad (item_bytes it)) its).

Definition blank : memory :=
  mem_write (mem_write ∅ slo (replicate 4096 x00)) 65536 (replicate 4400 x00).

(** The heap, a message at 65600 with its offsets table at 65536, and a
    transaction at 8100 in the stack. *)
Definition mem (its : list item) (t : txn_data) : memory :=
  let m := mem_write blank 16384 (u32s_bytes (node_words death_fn 0 hello_node) ++
                                  u16s_bytes (hello ++ [0])) in
  let m := mem_write m 65536 (u32s_bytes (item_offsets 0 its)) in
  let m := mem_write m 65600 (parcel its) in
  mem_write m 8100 (txn_bytes t).

Definition txn (its : list item) (code uid : Z) : txn_data :=
  mkTxn 0 0 code 0 1 uid (items_size its) (4 * items_objs its) 65600 65536.

Definition glob : svcmgr := mkSvcmgr 0 16384 (replicate 128 x00).

Definition world (its : list item) (code uid : Z) (script : list (list br_msg)) :
    world svcmgr Script.state :=
  mkWorld _ _ (mem its (txn its code uid)) 7000 glob (Script.mkState script []) [].

Definition msg (its : list item) : binder_io :=
  mkBio 65600 65536 (items_size its) (items_objs its) 65600 65536 BIO_F_SHARED 0.

Definition reply : binder_io := bio_init (mkBio 0 0 0 0 0 0 0 0) 7000 256 4.

Lemma layout_ok : layout Script.area slo shi.
Proof. split; [done|]. unfold Script.area, Script.lo, slo, shi. intros. lia. Qed.

Definition header (its : list item) : list item := IU32 0 :: IStr svcmgr_id :: its.

(** Checks of a concrete memory by evaluation. *)
Definition bytes_atb (m : memory) (p : Z) (bs : list byte) : bool :=
  bool_decide (mem_get m p (length bs) = Some bs).

Fixpoint parcel_atb (m : memory) (p : Z) (its : list item) : bool :=
  match its with
  | [] => true
  | it :: its => bytes_atb m p (item_bytes it) && parcel_atb m (p + item_size it) its
  end.

Lemma parcel_atb_at m p its : parcel_atb m p its = true -> parcel_at m p its.
Proof.
  revert p; induction its as [|it its IH]; intros p; [done|].
  cbn [parcel_atb]. rewrite andb_true_iff. intros [H1 H2]. split; [|by apply IH].
  by apply bool_decide_eq_true in H1.
Qed.

Lemma inv_of (w : CMachine.world svcmgr Script.state) :
  w_glob w = glob -> Script.cookies (w_drv w) = [] ->
  mappedb (w_mem w) slo 4096 && mappedb (w_mem w) 65536 4400 &&
  bytes_atb (w_mem w) 16384 (u32s_bytes (node_words death_fn 0 hello_node)) &&
  bytes_atb (w_mem w) 16408 (u16s_bytes (hello ++ [0])) = true ->
  svc_inv Script.area death_fn slo shi nodes w.
Proof.
  intros Hg Hc. rewrite !andb_true_iff. intros [[[H1 H2] H3] H4].
  apply mappedb_mapped in H1, H2. apply bool_decide_eq_true in H3, H4.
  split; rewrite ?Hg; try done.
  - split; [intros a _ [n [[]%not_elem_of_nil _]]|done].
  - apply (bool_decide_unpack _). vm_compute. exact I.
  - apply Forall_singleton. split; try done; [vm_compute; lia..| |by left].
    apply (bool_decide_unpack _). vm_compute. exact I.
  - intros a (n & ->%list_elem_of_singleton & Hr).
    change (16384 <= a < 16384 + 36) in Hr.
    unfold Script.area, Script.lo, Script.hi, slo, shi. lia.
  - intros a Ha. unfold Script.area, Script.lo, Script.hi in Ha. apply H2. lia.
  - intros c Hin. cbn in Hin. rewrite Hc in Hin. by apply not_elem_of_nil in Hin.
Qed.

Lemma inv its code uid script :
  mappedb (mem its (txn its code uid)) slo 4096 &&
  mappedb (mem its (txn its code uid)) 65536 4400 &&
  bytes_atb (mem its (txn its code uid)) 16384 (u32s_bytes (node_words death_fn 0 hello_node)) &&
  bytes_atb (mem its (txn its code uid)) 16408 (u16s_bytes (hello ++ [0])) = true ->
  svc_inv Script.area death_fn slo shi nodes (world its code uid script).
Proof. intros Hb. by apply (inv_of (world its code uid script)). Qed.
End Demo.

(** The demonstration message holds its items. *)
Lemma demo_mem_reads its t :
  Demo.parcel_atb (Demo.mem its t) 65600 its &&
  Demo.bytes_atb (Demo.mem its t) 65536 (u32s_bytes (item_offsets 0 its)) = true ->
  Forall item_wf its -> items_size its < 65536 ->
  bio_reads (Demo.mem its t) (Demo.msg its) its.
Proof.
  intros [Hp Ht]%andb_true_iff Hwf Hsz. pose proof (items_size_nonneg its Hwf).
  split; cbn [data data0 data_avail offs offs_avail Demo.msg]; try lia; [by apply Demo.parcel_atb_at|done|].
  exists (item_offsets 0 its). apply bool_decide_eq_true in Ht. split_and!.
  - exact Ht.
  - apply length_item_offsets.
  - eapply Forall_impl; [apply item_offsets_bounds; [done|lia]|]. cbn. lia.
  - by rewrite Z.sub_diag.
Qed.

Lemma demo_reads its code uid script :
  Demo.parcel_atb (Demo.mem its (Demo.txn its code uid)) 65600 its &&
  Demo.bytes_atb (Demo.mem its (Demo.txn its code uid)) 65536 (u32s_bytes (item_offsets 0 its)) = true ->
  Forall item_wf its -> items_size its < 65536 ->
  bio_reads (w_mem (Demo.world its code uid script)) (Demo.msg its) its.
Proof. apply demo_mem_reads. Qed.

Lemma demo_txn its code uid script :
  Demo.bytes_atb (Demo.mem its (Demo.txn its code uid)) 8100 (txn_bytes (Demo.txn its code uid)) = true ->
  txn_wf (Demo.txn its code uid) ->
  txn_at (w_mem (Demo.world its code uid script)) 8100 (Demo.txn its code uid).
Proof. intros H%bool_decide_eq_true Hwf. by split. Qed.

Lemma demo_reply its code uid script :
  mappedb (Demo.mem its (Demo.txn its code uid)) 7000 256 = true ->
  reply_ok Demo.slo Demo.shi (Demo.world its code uid script) Demo.reply 7000.
Proof.
  intros Hm%mappedb_mapped. split; [|done|done]. by apply bio_init_writes.
Qed.

(** Discharges a check on a concrete world by evaluation. *)
Ltac demo_check := apply (bool_decide_unpack _); vm_compute; exact I.
