(* ===== verification/SvcProps.v ===== *)
(** * Properties of the service manager *)
From Stdlib Require Import ZArith Strings.Byte.
From stdpp Require Import base gmap list strings.
From S2P Require Import Prelude CMachine BinderProto BinderIo BinderParcel Binder BinderLemmas BinderParse BinderDriver BinderCommands BinderCall ServiceManager SvcRegistry SvcOps SvcHandler SvcRefs SvcProcess SvcDemo SvcRequests.
Open Scope Z_scope.

(** ** The process *)



Lemma demo_margin its code uid script :
  mappedb (w_mem (Demo.world its code uid script)) 65536 4400 = true ->
  margin Script.area (w_mem (Demo.world its code uid script)).
Proof.
  intros Hm%mappedb_mapped a k Ha Hk. apply Hm. unfold Script.area, Script.lo, Script.hi in Ha. lia.
Qed.


(** The exception is real: memory ends with the driver's area, and a request
    of eight bytes at its end declares a string of 2^32 - 1 units. The
    handler rejects it as an invalid id and crashes printing it. *)
Definition edge_txn : txn_data := mkTxn 0 0 SVC_MGR_CHECK_SERVICE 0 1 10000 8 0 69624 69632.

Definition edge_world : world svcmgr Script.state :=
  mkWorld _ _
    (mem_write (mem_write (mem_write ∅ 4096 (replicate 4096 x00)) 65536 (replicate 4096 x00))
       69624 (le_bytes 4 0 ++ le_bytes 4 4294967295))
    8150 (mkSvcmgr 0 0 (replicate 128 x00)) (Script.mkState [[MTxn edge_txn]] []) [].

Lemma wrapped_length_crashes :
  svc_inv Script.area Demo.death_fn Demo.slo Demo.shi [] edge_world /\
  binder_loop (call_death Demo.death_fn) 1 (mkBs 3 0 0) (svcmgr_handler Demo.death_fn) edge_world = Fault (Segv 69632).
Proof.
  split; [|vm_compute; reflexivity].
  assert (mappedb (w_mem edge_world) Demo.slo 4096 && mappedb (w_mem edge_world) 65536 4096 = true) as [H1 H2]%andb_true_iff
    by (vm_compute; reflexivity).
  apply mappedb_mapped in H1, H2. split; try done.
  - constructor.
  - intros a (n & Hn & _). by apply elem_of_nil in Hn.
  - intros c Hc. by apply elem_of_nil in Hc.
Qed.

(** C25. Any single request. Whatever message a transaction carries (any bytes,
    any offsets table), the handler returns 0 or -1, touches only the area,
    its stack, the nodes and fresh heap memory, and leaves the registry as it
    was or with exactly one registration, sending the driver nothing or the
    commands of that registration. The only other end is a fault: the
    message has a string whose length word is 2147483646 or more, so that its
    size wraps, and one of the 127 units after it, which str8 reads, is not
    mapped. *)
Theorem handler_any_request {D} `{BinderProtocol D area} `{MallocOk} fn slo shi top nodes bs p t
    msg reply lo (w : world svcmgr D) :
  top <= shi -> svc_inv area fn slo shi nodes w -> txn_at (w_mem w) p t ->
  msg_ok area w msg -> reply_ok slo top w reply lo -> slo + 12 <= w_sp w <= lo ->
  (exists r reply' w', svcmgr_handler fn bs p msg reply w = Ok (r, reply') w' /\
    (r = 0 \/ r = -1) /\ exists nodes' cmds,
      svc_step area fn slo shi top nodes w cmds nodes' w' /\
      (entries nodes' = entries nodes /\ cmds = [] \/
       exists us len h v n, r = 0 /\ add_accepts us len h /\ n ∈ nodes' /\ e_name (snd n) = us /\
         entries nodes' = reg_add us h (allow_of v) (entries nodes) /\
         cmds = add_commands (entries nodes) us h (fst n + svcinfo.death))) \/
  (exists s len k, svcmgr_handler fn bs p msg reply w = Fault (Segv (s + 2 * k)) /\
    data msg <= s - 4 /\ s <= data msg + data_avail msg /\
    bytes_at (w_mem w) (s - 4) (le_bytes 4 len) /\ 2147483646 <= len < 4294967296 /\
    0 <= k < 127 /\ ~ mapped (w_mem w) (s + 2 * k) 2).
Proof.
  intros Htop I Ht Hm Hrep Hsp.
  pose proof (svcmgr_handler_served area fn slo shi top Htop (overread (in_msg msg) (w_mem w)) nodes bs p t msg
    reply lo w I Ht Hm Hrep Hsp) as R.
  destruct (wpf_ends _ _ _ _ (R (fun f Hf => Hf)))
    as [([r reply'] & w' & E & Hs)|(f & E & s & len & k & Hin & Hb & Hl & Hk & Hn & ->)]; [left|right].
  - exists r, reply', w'. by split.
  - exists s, len, k. unfold in_msg in Hin. pose proof (Hin (s - 4)). pose proof (Hin (s - 1)).
    split_and!; [exact E|lia|lia|exact Hb|lia|lia|lia|lia|exact Hn].
Qed.

(** A message whose data are not items at all. *)
Lemma handler_any_request_witness :
  let w := Demo.world (Demo.header [IStr Demo.hello]) SVC_MGR_ADD_SERVICE 10000 [] in
  exists r reply' w', svcmgr_handler Demo.death_fn (mkBs 3 0 0) 8100
     (mkBio 65610 65537 77 3 65610 65537 1 0) Demo.reply w = Ok (r, reply') w' /\ (r = 0 \/ r = -1).
Proof.
  intros w.
  destruct (handler_any_request (area := Script.area) Demo.death_fn Demo.slo Demo.shi Demo.shi Demo.nodes
    (mkBs 3 0 0) 8100 (Demo.txn (Demo.header [IStr Demo.hello]) SVC_MGR_ADD_SERVICE 10000)
    (mkBio 65610 65537 77 3 65610 65537 1 0) Demo.reply 7000 w) as [(r & reply' & w' & E & Hr & _)|(s & len & k & _ & Hlo & Hhi & _ & _ & Hk & Hn)].
  - done.
  - apply Demo.inv. vm_compute. reflexivity.
  - split; [vm_compute; reflexivity|].
    apply (bool_decide_unpack _). vm_compute. exact I.
  - split; [split; cbn [data data_avail offs offs_avail]; try lia; apply mappedb_mapped; vm_compute; reflexivity|].
    cbn [data data_avail]. unfold Script.area, Script.lo, Script.hi. lia.
  - split; [apply bio_init_writes; try lia; apply mappedb_mapped; vm_compute; reflexivity|done|done].
  - unfold Demo.slo. cbn. lia.
  - exists r, reply', w'. split; [exact E|exact Hr].
  - destruct Hn. cbn [data data_avail] in Hlo, Hhi. assert (mappedb (w_mem w) 65536 4400 = true) as Hm
      by (vm_compute; reflexivity). apply mappedb_mapped in Hm. eapply mapped_sub; [exact Hm|lia..].
Defined.

(** ** The requests *)

(** C10. Lookup. A well-formed GET or CHECK request for the name [us] is
    answered with a reference to the handle the registry holds for it, or with
    the word 0 when there is none, it has died, or the caller's uid is isolated
    and the service does not allow that; the registry and the driver are left
    alone. *)
Theorem find_request {D} `{BinderProtocol D area} `{MallocOk} fn slo shi top nodes bs p t msg
    reply lo policy us (w : world svcmgr D) :
  top <= shi -> svc_inv area fn slo shi nodes w -> txn_at (w_mem w) p t ->
  t_target t = BINDER_SERVICE_MANAGER ->
  t_code t = SVC_MGR_GET_SERVICE \/ t_code t = SVC_MGR_CHECK_SERVICE ->
  bio_reads (w_mem w) msg [IU32 policy; IStr svcmgr_id; IStr us] ->
  reply_ok slo top w reply lo ->
  exists reply' w', svcmgr_handler fn bs p msg reply w = Ok (0, reply') w' /\
    svc_step area fn slo shi top nodes w [] nodes w' /\
    let h := reg_lookup us (t_sender_euid t) (entries nodes) in
    bio_writes (w_mem w') reply' lo 256 4
      [if h =? 0 then IU32 0 else IObj BINDER_TYPE_HANDLE h].
Proof.
  intros Htop I Ht Htg Hc Hm Hrep.
  pose proof (handler_find fn slo shi top nodes bs p t msg reply lo policy us w Htop I Ht Htg Hc Hm Hrep)
    as ([r reply'] & w' & E & -> & S & W)%wp_ok.
  by exists reply', w'.
Qed.

Lemma find_request_witness :
  let its := Demo.header [IStr Demo.hello] in
  let w := Demo.world its SVC_MGR_CHECK_SERVICE 10000 [] in
  exists reply' w', svcmgr_handler Demo.death_fn (mkBs 3 0 0) 8100 (Demo.msg its) Demo.reply w
                    = Ok (0, reply') w' /\
    bio_writes (w_mem w') reply' 7000 256 4 [IObj BINDER_TYPE_HANDLE 7].
Proof.
  intros its w.
  destruct (find_request (area := Script.area) Demo.death_fn Demo.slo Demo.shi Demo.shi Demo.nodes (mkBs 3 0 0)
    8100 (Demo.txn its SVC_MGR_CHECK_SERVICE 10000) (Demo.msg its) Demo.reply 7000 0 Demo.hello w)
    as (reply' & w' & E & _ & Hr).
  - done.
  - apply Demo.inv. demo_check.
  - apply (demo_txn its SVC_MGR_CHECK_SERVICE 10000 []); demo_check.
  - done.
  - by right.
  - apply (demo_reads its SVC_MGR_CHECK_SERVICE 10000 []); demo_check.
  - apply (demo_reply its SVC_MGR_CHECK_SERVICE 10000 []). demo_check.
  - exists reply', w'. split; [exact E|exact Hr].
Defined.

(** C9. Registration. A well-formed ADD request for the name [us] and the
    handle [h] is refused with -1, the registry unchanged, when [h] is 0, the
    name is empty or longer than 127 units, or there is no memory for a new
    node; otherwise it is answered with the word 0, the registry becomes
    [reg_add us h allow], and the driver receives, in this order, the release
    of the handle it replaces (if any), the acquisition of [h] and the request
    to be told of its death, whose cookie is the node of [us]. *)
Theorem add_request {D} `{BinderProtocol D area} `{MallocOk} fn slo shi top nodes bs p t msg
    reply lo policy us h v (w : world svcmgr D) :
  top <= shi -> svc_inv area fn slo shi nodes w -> txn_at (w_mem w) p t ->
  t_target t = BINDER_SERVICE_MANAGER -> t_code t = SVC_MGR_ADD_SERVICE ->
  bio_reads (w_mem w) msg [IU32 policy; IStr svcmgr_id; IStr us; IObj BINDER_TYPE_HANDLE h; IU32 v] ->
  reply_ok slo top w reply lo -> slo + 12 <= w_sp w <= lo ->
  exists r reply' w', svcmgr_handler fn bs p msg reply w = Ok (r, reply') w' /\
    ((r = -1 /\ svc_step area fn slo shi top nodes w [] nodes w' /\
        (~ add_accepts us (Z.of_nat (length us)) h \/ find_entry us (entries nodes) = None /\ no_memory us (w_mem w))) \/
     (r = 0 /\ add_accepts us (Z.of_nat (length us)) h /\
      (find_entry us (entries nodes) = None -> ~ no_memory us (w_mem w)) /\ exists nodes' n,
        n ∈ nodes' /\ e_name (snd n) = us /\
        entries nodes' = reg_add us h (allow_of v) (entries nodes) /\
        svc_step area fn slo shi top nodes w
          (add_commands (entries nodes) us h (fst n + svcinfo.death)) nodes' w' /\
        bio_writes (w_mem w') reply' lo 256 4 [IU32 0])).
Proof.
  intros Htop I Ht Htg Hc Hm Hrep Hsp.
  pose proof (handler_add fn slo shi top nodes bs p t msg reply lo policy us h [IU32 v] v w Htop I Ht Htg Hc Hm
    (or_introl eq_refl) Hrep Hsp) as ([r reply'] & w' & E & Hw)%wp_ok.
  by exists r, reply', w'.
Qed.

(** Registering "hello" again replaces its handle 7. *)
Lemma add_request_witness :
  let its := Demo.header [IStr Demo.hello; IObj BINDER_TYPE_HANDLE 9; IU32 1] in
  let w := Demo.world its SVC_MGR_ADD_SERVICE 10000 [] in
  exists reply' w', svcmgr_handler Demo.death_fn (mkBs 3 0 0) 8100 (Demo.msg its) Demo.reply w
                    = Ok (0, reply') w' /\
    sent (w_trace w') = [command2 BC_RELEASE 7; command2 BC_ACQUIRE 9; link_command 9 16392].
Proof.
  intros its w.
  destruct (add_request (area := Script.area) Demo.death_fn Demo.slo Demo.shi Demo.shi Demo.nodes (mkBs 3 0 0)
    8100 (Demo.txn its SVC_MGR_ADD_SERVICE 10000) (Demo.msg its) Demo.reply 7000 0 Demo.hello 9 1 w)
    as (r & reply' & w' & E & Hr).
  - done.
  - apply Demo.inv. demo_check.
  - apply (demo_txn its SVC_MGR_ADD_SERVICE 10000 []); demo_check.
  - done.
  - done.
  - apply (demo_reads its SVC_MGR_ADD_SERVICE 10000 []); demo_check.
  - apply (demo_reply its SVC_MGR_ADD_SERVICE 10000 []). demo_check.
  - unfold Demo.slo. cbn. lia.
  - assert (match svcmgr_handler Demo.death_fn (mkBs 3 0 0) 8100 (Demo.msg its) Demo.reply w with
            | Ok (r, _) w' => bool_decide (r = 0) && bool_decide (sent (w_trace w') =
                [command2 BC_RELEASE 7; command2 BC_ACQUIRE 9; link_command 9 16392])
            | Fault _ => false
            end = true) as V by demo_check.
    rewrite E in V. apply andb_true_iff in V as [V1 V2].
    apply bool_decide_eq_true in V1, V2. exists reply', w'. split; [rewrite E, V1; reflexivity|exact V2].
Defined.

(** ** References *)

(** C4. References. However many turns the looper makes, whatever requests
    arrive, malformed or not, and whichever services die, the references the
    service manager has acquired from the driver and not released are those
    its registry holds: for every handle but 0 the number of BC_ACQUIRE minus
    the number of BC_RELEASE it sent for it is the change of the number of
    entries with that handle. None is leaked and none released twice. The
    looper returns but for the crash on a string length that wraps, which needs
    an address of the driver's area that is not followed by 258 mapped bytes. *)
Theorem references_balanced {D} `{BinderProtocol D area} `{MallocOk} fn slo shi nodes n bs
    (w : world svcmgr D) :
  word_ok fn -> layout area slo shi -> slo + 440 <= w_sp w <= shi -> svc_inv area fn slo shi nodes w ->
  (exists e w' nodes' cmds,
    binder_loop (call_death fn) n bs (svcmgr_handler fn) w = Ok e w' /\
    svc_inv area fn slo shi nodes' w' /\ sent (w_trace w') = sent (w_trace w) ++ cmds /\
    forall h, word_ok h -> h <> 0 ->
      times (command2 BC_ACQUIRE h) cmds - times (command2 BC_RELEASE h) cmds =
      holders h (entries nodes') - holders h (entries nodes)) \/
  (exists f, binder_loop (call_death fn) n bs (svcmgr_handler fn) w = Fault f /\
    overread_later area (w_mem w) f /\ ~ margin area (w_mem w)).
Proof.
  intros Hfn Hly Hsp I.
  destruct (wpf_ends _ _ _ _ (svcmgr_loop_run fn slo shi nodes n bs w Hfn Hly Hsp I))
    as [(e & w' & E & _ & nodes' & cmds & I' & Es & B)|(f & E & Hf)]; [left|right].
  - exists e, w', nodes', cmds. split; [exact E|]. split; [exact I'|]. split; [exact Es|exact B].
  - exists f. split; [exact E|]. split; [exact Hf|]. by eapply overread_no_margin.
Qed.

(** A second registration of "hello" with the handle 9, which then dies. *)
Definition refs_script : list (list br_msg) :=
  let its := Demo.header [IStr Demo.hello; IObj BINDER_TYPE_HANDLE 9; IU32 0] in
  [[MNoop; MTxn (Demo.txn its SVC_MGR_ADD_SERVICE 10000)]; [MDead 16392]].

Lemma references_balanced_witness :
  let its := Demo.header [IStr Demo.hello; IObj BINDER_TYPE_HANDLE 9; IU32 0] in
  let w := Demo.world its SVC_MGR_ADD_SERVICE 10000 refs_script in
  exists e w' nodes', binder_loop (call_death Demo.death_fn) 2 (mkBs 3 0 0) (svcmgr_handler Demo.death_fn) w = Ok e w' /\
    svc_inv Script.area Demo.death_fn Demo.slo Demo.shi nodes' w' /\
    times (command2 BC_ACQUIRE 9) (sent (w_trace w')) = 1 /\ times (command2 BC_RELEASE 9) (sent (w_trace w')) = 1 /\
    times (command2 BC_RELEASE 7) (sent (w_trace w')) = 1 /\
    holders 9 (entries nodes') = 0 /\ holders 7 (entries nodes') = 0.
Proof.
  intros its w.
  destruct (references_balanced (area := Script.area) Demo.death_fn Demo.slo Demo.shi Demo.nodes 2 (mkBs 3 0 0) w)
    as [(e & w' & nodes' & cmds & E & I' & Es & B)|(f & _ & _ & Hm)].
  - done.
  - apply Demo.layout_ok.
  - unfold Demo.slo, Demo.shi. cbn. lia.
  - apply Demo.inv. demo_check.
  - pose proof (B 9 ltac:(unfold word_ok; lia) ltac:(lia)) as B9.
    pose proof (B 7 ltac:(unfold word_ok; lia) ltac:(lia)) as B7.
    assert (sent (w_trace w') = cmds) as Ec by exact Es. rewrite <- Ec in B9, B7.
    assert (match binder_loop (call_death Demo.death_fn) 2 (mkBs 3 0 0) (svcmgr_handler Demo.death_fn) w with
            | Ok _ w' => let p := sent (w_trace w') in
                bool_decide ([times (command2 BC_ACQUIRE 9) p; times (command2 BC_RELEASE 9) p;
                              times (command2 BC_ACQUIRE 7) p; times (command2 BC_RELEASE 7) p] = [1; 1; 0; 1])
            | Fault _ => false
            end = true) as V by demo_check.
    rewrite E in V. apply bool_decide_eq_true in V. injection V as V1 V2 V3 V4.
    rewrite V1, V2 in B9. rewrite V3, V4 in B7.
    assert (holders 9 (entries Demo.nodes) = 0 /\ holders 7 (entries Demo.nodes) = 1) as [H9 H7] by (split; reflexivity).
    rewrite H9 in B9. rewrite H7 in B7.
    exists e, w', nodes'. split_and!; first [exact E|exact I'|exact V1|exact V2|exact V4|lia].
  - destruct Hm. apply demo_margin. demo_check.
Defined.

(** [str8] is a bounded conversion: of an array of at least
    [min(len, 127)] units it leaves in the static 128-byte buffer the string of
    its units up to the first zero, cut at 127 characters, always terminated;
    nothing else changes. *)
Theorem str8_converts {D} x len us (w : world svcmgr D) :
  x <> 0 -> 0 <= len -> Z.of_nat (length us) = Z.min len 127 -> units_at (w_mem w) x us ->
  Forall (fun u => 0 < u < 256) (upto_zero us) -> length (str8_buf (w_glob w)) = 128%nat ->
  exists w', str8 x len w = Ok tt w' /\
    cstr (str8_buf (w_glob w')) = byte_of <$> upto_zero us /\
    length (str8_buf (w_glob w')) = 128%nat /\ w_mem w' = w_mem w /\
    svclist (w_glob w') = svclist (w_glob w) /\ w_trace w' = w_trace w.
Proof.
  intros Hx Hlen Hl Hu Hc Hb. eexists. split; [by apply (str8_run x len us)|].
  cbn [w_glob set_glob str8_buf w_mem svclist w_trace]. split_and!; try done.
  - unfold str8_put. revert Hc. generalize (upto_zero us). intros cs.
    generalize (drop (S (length (byte_of <$> cs))) (str8_buf (w_glob w))). intros tl.
    induction cs as [|c cs IH]; intros Hc; [done|].
    apply Forall_cons in Hc as [Hc Hcs]. cbn [fmap list_fmap app cstr].
    rewrite bool_decide_eq_false_2; [f_equal; by apply IH|].
    intros E. apply (f_equal byte_val) in E. rewrite byte_val_of, u8_small in E by lia.
    change (byte_val x00) with 0 in E. lia.
  - apply length_str8_put; [lia|done].
Qed.

Lemma str8_converts_witness :
  let w := Demo.world [] 0 0 [] in
  exists w', str8 16408 5 w = Ok tt w' /\ cstr (str8_buf (w_glob w')) = chars "hello".
Proof.
  intros w. destruct (str8_converts 16408 5 Demo.hello w) as (w' & E & Hc & _).
  - done.
  - lia.
  - cbn. lia.
  - split; demo_check.
  - demo_check.
  - done.
  - exists w'. split; [exact E|exact Hc].
Defined.
