(* ===== verification/BinderOpen.v ===== *)
(** * Opening and closing the driver: [binder_open], [binder_close]

    The system calls are the kernel's: [BinderOs] gives their results. What
    the program holds (descriptors, mappings, heap blocks) is read off the
    trace of the calls it makes. *)
From Stdlib Require Import ZArith Strings.Byte.
From stdpp Require Import base gmap list strings.
From S2P Require Import Prelude CMachine BinderProto BinderIo Binder BinderDriver ServiceManager.
Open Scope Z_scope.

(** [open("/dev/binder", O_RDWR)]; [ioctl(fd, BINDER_VERSION, &vers)] with the
    version written; [mmap] of [size] bytes of [fd]. *)
Class BinderOs (D : Type) : Type := {
    os_open : D -> Z * D;
    os_version : D -> Z -> Z * Z * D;
    os_mmap : D -> Z -> Z -> Z * D;
}.

Definition MAP_FAILED : Z := 4294967295.
Definition sizeof_binder_state : Z := 12.

Section Open.
Context {G D : Type} `{BinderOs D} `{Malloc}.

Definition sys (call : string) (args : list Z) : C G D unit := emit (EvSys call args).

Definition do_open : C G D Z := fun w =>
  let '(fd, d') := os_open (w_drv w) in
  (sys "open" [fd];; mret fd) (set_drv d' w).

Definition do_version (fd : Z) : C G D (Z * Z) := fun w =>
  let '(res, vers, d') := os_version (w_drv w) fd in
  (sys "version" [fd];; mret (res, vers)) (set_drv d' w).

Definition do_mmap (fd size : Z) : C G D Z := fun w =>
  let '(p, d') := os_mmap (w_drv w) fd size in
  (sys "mmap" [p; size];; mret p) (set_drv d' w).

(** The structure allocated for the state is identified with its contents;
    its address is that of the heap block. *)
Definition binder_open (mapsize : Z) : C G D (option (Z * binder_state)) :=
  bs ← do_malloc sizeof_binder_state;
  if bs =? 0 then mret None
  else
    sys "malloc" [bs];;
    fd ← do_open;
    if fd <? 0 then
      sys "free" [bs];; mret None
    else
      '(res, vers) ← do_version fd;
      if (res =? -1) || negb (vers =? BINDER_CURRENT_PROTOCOL_VERSION) then
        sys "free" [bs];; mret None
      else
        mapped ← do_mmap fd mapsize;
        if mapped =? MAP_FAILED then
          sys "close" [fd];;
          sys "free" [bs];; mret None
        else mret (Some (bs, mkBs fd mapped mapsize)).

Definition binder_close (bs : Z * binder_state) : C G D unit :=
  sys "munmap" [bs_mapped (snd bs); mapsize (snd bs)];;
  sys "close" [fd (snd bs)];;
  sys "free" [fst bs].
End Open.

(** ** What a process holds *)

Record held : Type := mkHeld {
    h_fds : list Z;
    h_maps : list Z;
    h_blocks : list Z;
}.

Fixpoint remove1 (x : Z) (l : list Z) : list Z :=
  match l with [] => [] | y :: l => if x =? y then l else y :: remove1 x l end.

Definition hold (h : held) (e : event) : held :=
  match e with
  | EvSys call (x :: _) =>
      if String.eqb call "open" then
        mkHeld (if x <? 0 then h_fds h else x :: h_fds h) (h_maps h) (h_blocks h)
      else if String.eqb call "close" then mkHeld (remove1 x (h_fds h)) (h_maps h) (h_blocks h)
      else if String.eqb call "mmap" then
        mkHeld (h_fds h) (if x =? MAP_FAILED then h_maps h else x :: h_maps h) (h_blocks h)
      else if String.eqb call "munmap" then mkHeld (h_fds h) (remove1 x (h_maps h)) (h_blocks h)
      else if String.eqb call "malloc" then mkHeld (h_fds h) (h_maps h) (x :: h_blocks h)
      else if String.eqb call "free" then mkHeld (h_fds h) (h_maps h) (remove1 x (h_blocks h))
      else h
  | _ => h
  end.

Definition holds (t : list event) : held := fold_left hold t (mkHeld [] [] []).

Lemma holds_app t e : holds (t ++ e) = fold_left hold e (holds t).
Proof. apply fold_left_app. Qed.

(** ** Properties *)

(** The ways [binder_open] can end. *)
Inductive open_end : Type :=
  | OpenNoMem
  | OpenNoDevice
  | OpenVersion (fd : Z)
  | OpenNoMap (fd : Z)
  | OpenOk (bs : Z) (s : binder_state).

Definition open_result (e : open_end) : option (Z * binder_state) :=
  match e with OpenOk bs s => Some (bs, s) | _ => None end.

Definition open_held (e : open_end) (h : held) : held :=
  match e with
  | OpenVersion fd => mkHeld (fd :: h_fds h) (h_maps h) (h_blocks h)
  | OpenOk bs s => mkHeld (fd s :: h_fds h) (bs_mapped s :: h_maps h) (bs :: h_blocks h)
  | _ => h
  end.

Section OpenProps.
Context {G D : Type} `{BinderOs D} `{Malloc}.
Implicit Types w : world G D.

(** The version of the driver could not be read or is another one. *)
Definition bad_version (fd : Z) : Prop :=
  exists d res vers d', os_version d fd = (res, vers, d') /\
    (res = -1 \/ vers <> BINDER_CURRENT_PROTOCOL_VERSION).

Lemma binder_open_end mapsize w :
  exists e w', binder_open mapsize w = Ok (open_result e) w' /\
    holds (w_trace w') = open_held e (holds (w_trace w)) /\
    match e with OpenVersion fd => bad_version fd | _ => True end.
Proof.
  unfold binder_open, do_malloc, do_open, do_version, do_mmap, sys, emit, modify,
    mbind, C_bind, mret, C_ret.
  destruct (malloc _ _) as [p m'].
  destruct (p =? 0); [by exists OpenNoMem; eexists|].
  cbn [set_mem set_drv w_drv w_trace w_mem w_sp w_glob].
  destruct (os_open _) as [fd0 d1]. destruct (fd0 <? 0) eqn:Efd.
  { exists OpenNoDevice. eexists. split; [reflexivity|split; [|try done]]; cbn [w_trace set_drv].
    rewrite !holds_app. cbn -[Z.eqb Z.ltb]. rewrite Efd, Z.eqb_refl. by destruct (holds _). }
  cbn [set_mem set_drv w_drv w_trace w_mem w_sp w_glob].
  destruct (os_version _ _) as [[res vers] d2] eqn:Eq. destruct ((res =? -1) || _) eqn:Ev.
  { exists (OpenVersion fd0). eexists. split; [reflexivity|split]; cbn [w_trace set_drv].
    - rewrite !holds_app. cbn -[Z.eqb Z.ltb]. rewrite Efd, Z.eqb_refl. by destruct (holds _).
    - do 4 eexists. split; [exact Eq|]. apply orb_true_iff in Ev as [Ev|Ev]; [left; lia|right].
      apply negb_true_iff in Ev. lia. }
  cbn [set_mem set_drv w_drv w_trace w_mem w_sp w_glob].
  destruct (os_mmap _ _ _) as [a d3]. destruct (a =? MAP_FAILED) eqn:Em.
  - exists (OpenNoMap fd0). eexists. split; [reflexivity|split; [|try done]]; cbn [w_trace set_drv].
    rewrite !holds_app. cbn -[Z.eqb Z.ltb MAP_FAILED]. rewrite Efd, Em. cbn [h_fds h_maps h_blocks remove1].
    rewrite !Z.eqb_refl. by destruct (holds _).
  - exists (OpenOk p (mkBs fd0 a mapsize)). eexists. split; [reflexivity|split; [|try done]]; cbn [w_trace set_drv].
    rewrite !holds_app. cbn -[Z.eqb Z.ltb MAP_FAILED]. by rewrite Efd, Em.
Qed.
End OpenProps.

(** ** [main] of the service manager *)

Section Main.
Context {D : Type} `{BinderDriver D} `{BinderOs D} `{Malloc} (svcinfo_death_fn : Z).

(** [n] bounds the iterations of the loop; the end of the loop is returned
    with the exit status. *)
Definition svcmgr_main (n : nat) : C svcmgr D (Z * option loop_end) :=
  o ← binder_open (128 * 1024);
  match o with
  | None => mret (-1, None)
  | Some (_, bs) =>
      r ← binder_become_context_manager bs;
      if negb (r =? 0) then mret (-1, None)
      else
        g ← get_glob;
        put_glob (mkSvcmgr BINDER_SERVICE_MANAGER (svclist g) (str8_buf g));;
        e ← binder_loop (call_death svcinfo_death_fn) n bs (svcmgr_handler svcinfo_death_fn);
        mret (0, Some e)
  end.
End Main.
