(* ===== verification/BinderOpenProps.v ===== *)
(** * Properties of opening and closing the driver *)
From Stdlib Require Import ZArith Strings.Byte.
From stdpp Require Import base gmap list strings.
From S2P Require Import Prelude CMachine BinderProto BinderIo Binder BinderDriver ServiceManager BinderOpen.
Open Scope Z_scope.

(** The descriptor is open, the driver's version and the mapping as given. *)
Definition os_with (fd vers map : Z) : BinderOs unit := {|
    os_open d := (fd, d);
    os_version d _ := (0, vers, d);
    os_mmap d _ _ := (map, d);
  |}.

Definition empty_world : world unit unit := mkWorld _ _ ∅ 0 tt tt [].

(** Opening holds what closing gives back. When [binder_open] succeeds the
    process holds one more descriptor, mapping and heap block, and
    [binder_close] releases exactly those; when it fails for want of memory, of
    the device or of the mapping, it holds what it held before; only a driver of
    another version makes a difference (see the next theorem). *)
Theorem open_close_balanced {G D} `{BinderOs D} `{Malloc} mapsize (w : world G D) :
  exists r w', binder_open mapsize w = Ok r w' /\
    match r with
    | Some (p, bs) =>
        holds (w_trace w') = mkHeld (fd bs :: h_fds (holds (w_trace w)))
          (bs_mapped bs :: h_maps (holds (w_trace w))) (p :: h_blocks (holds (w_trace w))) /\
        exists w'', binder_close (p, bs) w' = Ok tt w'' /\ holds (w_trace w'') = holds (w_trace w)
    | None =>
        holds (w_trace w') = holds (w_trace w) \/
        exists fd, bad_version fd /\ holds (w_trace w') =
          mkHeld (fd :: h_fds (holds (w_trace w))) (h_maps (holds (w_trace w))) (h_blocks (holds (w_trace w)))
    end.
Proof.
  destruct (binder_open_end mapsize w) as (e & w' & R & Hh & Hv).
  exists (open_result e), w'. split; [exact R|].
  destruct e as [| |fd| |p bs]; cbn [open_result open_held] in *; [by left|by left|right; by exists fd|by left|]. clear Hv.
  split; [done|]. unfold binder_close, sys, emit, modify, mbind, C_bind.
  eexists. split; [reflexivity|]. cbn [w_trace fst snd].
  rewrite !holds_app, Hh. cbn -[Z.eqb]. rewrite !Z.eqb_refl. by destruct (holds (w_trace w)).
Qed.

(** A driver of another version leaks the descriptor: when the version does
    not match, [binder_open] returns [NULL] through [fail_open], which frees
    the structure but does not close the descriptor it opened. *)
Theorem open_version_mismatch_leaks {G D} `{BinderOs D} `{Malloc} mapsize (w : world G D)
    p m fd d1 res vers d2 :
  malloc (w_mem w) sizeof_binder_state = (p, m) -> p <> 0 ->
  os_open (w_drv w) = (fd, d1) -> 0 <= fd ->
  os_version d1 fd = (res, vers, d2) -> vers <> BINDER_CURRENT_PROTOCOL_VERSION ->
  exists w', binder_open mapsize w = Ok None w' /\
    holds (w_trace w') =
      mkHeld (fd :: h_fds (holds (w_trace w))) (h_maps (holds (w_trace w))) (h_blocks (holds (w_trace w))).
Proof.
  intros Em Hp Eo Hfd Ev Hv.
  unfold binder_open, do_malloc, do_open, do_version, do_mmap, sys, emit, modify,
    mbind, C_bind, mret, C_ret.
  rewrite Em. destruct (Z.eqb_spec p 0); [done|].
  cbn [set_mem set_drv w_drv w_trace w_mem w_sp w_glob]. rewrite Eo.
  destruct (Z.ltb_spec fd 0); [lia|]. cbn [set_mem set_drv w_drv w_trace w_mem w_sp w_glob]. rewrite Ev.
  destruct (Z.eqb_spec vers BINDER_CURRENT_PROTOCOL_VERSION); [done|]. rewrite orb_true_r.
  eexists. split; [reflexivity|]. cbn [w_trace set_drv].
  rewrite !holds_app. cbn -[Z.eqb Z.ltb]. destruct (Z.ltb_spec fd 0); [lia|].
  by rewrite Z.eqb_refl.
Qed.

Lemma open_version_mismatch_leaks_witness :
  let os := os_with 3 8 65536 in
  exists w', binder_open 131072 empty_world = Ok None w' /\ holds (w_trace w') = mkHeld [3] [] [].
Proof.
  intros os.
  destruct (open_version_mismatch_leaks 131072 empty_world 1 (mem_write ∅ 1 (replicate 12 x00)) 3 tt 0 8 tt)
    as (w' & E & Hh); try done.
  exists w'. split; [exact E|exact Hh].
Defined.
