(* ===== verification/ManagerMain.v ===== *)
(** * The life of the service manager

    [main] of service_manager.c: the device opened, the process made the
    context manager, the looper entered with an empty registry. *)
From Stdlib Require Import ZArith Strings.Byte.
From stdpp Require Import base gmap list strings.
From S2P Require Import Prelude CMachine BinderProto BinderIo BinderParcel Binder BinderLemmas BinderParse BinderDriver BinderCommands BinderCall BinderOpen ServiceManager SvcRegistry SvcOps SvcHandler SvcRefs SvcProcess SvcDemo.
Open Scope Z_scope.

(** Opening, asking the version and mapping ask for no death notification. *)
Class BinderOsOk (D : Type) (area : Z -> Prop) `{BinderProtocol D area} `{BinderOs D} : Prop := {
    os_open_cookies d : drv_cookies (snd (os_open d)) = drv_cookies d;
    os_version_cookies d fd : drv_cookies (snd (os_version d fd)) = drv_cookies d;
    os_mmap_cookies d fd size : drv_cookies (snd (os_mmap d fd size)) = drv_cookies d;
}.

Section Main.
Context {D : Type} `{BinderProtocol D area} `{BinderOs D} `{!BinderOsOk D area} `{MallocOk}.
Context (fn slo shi : Z) (Hfn : word_ok fn) (Hly : layout area slo shi).
Implicit Types w : world svcmgr D.












End Main.


(** The device can be opened, its version is right, its area is mapped. *)
#[local] Instance script_os : BinderOs Script.state := {|
    os_open d := (3, d);
    os_version d _ := (0, BINDER_CURRENT_PROTOCOL_VERSION, d);
    os_mmap d _ _ := (Script.lo, d);
  |}.

#[local] Instance script_os_ok : BinderOsOk Script.state Script.area.
Proof. by split. Defined.

(** A process whose first client registers "hello"; its node is the block
    after that of the binder state. *)
Module Launch.



End Launch.

