(* ===== verification/TestServer.v ===== *)
(** * The demonstration services: src/binder/test_server.c

    Two services, hello and goodbye, in one process: each answers a greeting
    and a greeting by name with the number of times it has greeted. The
    process publishes both with the service manager, under the addresses of
    their handlers, and is called back through those addresses. *)
From Stdlib Require Import ZArith Strings.Byte.
From stdpp Require Import base gmap list strings.
From S2P Require Import Prelude CMachine BinderProto BinderIo Binder ServiceManager BinderOpen.
Open Scope Z_scope.

Definition HELLO_SVR_CMD_SAYHELLO : Z := 1.
Definition HELLO_SVR_CMD_SAYHELLO_TO : Z := 2.
Definition GOODBYE_SVR_CMD_SAYGOODBYE : Z := 1.
Definition GOODBYE_SVR_CMD_SAYGOODBYE_TO : Z := 2.

(** The static counters [cnt] of the four functions. *)
Record greetings : Type := mkGreetings {
    hello_cnt : Z;
    hello_to_cnt : Z;
    goodbye_cnt : Z;
    goodbye_to_cnt : Z;
}.

(** Where the string literals of a program are. *)
Class Literals : Type := { lit : string -> Z }.

(** Neither demonstration program asks to be told of a death, so no function
    of that type is ever called. *)
Definition no_callbacks {G D} (bs : binder_state) (fn ptr : Z) : C G D unit := fail (BadCall fn).

(** The string an argument of [%s] points to. *)
Definition load_cstr {G D} (p : Z) : C G D (list byte) :=
  n ← strlen p; load_bytes p (Z.to_nat n).

(** ** Publishing *)

Section Publish.
Context {G D : Type} `{BinderDriver D} `{Literals}.

(** [unsigned iodata[512/4]]; [ptr] is the address of the handler. *)
Definition svcmgr_publish (fuel : nat) (bs : binder_state) (target name ptr : Z) : C G D Z :=
  with_frame 512 (fun iodata =>
    let msg := bio_init (mkBio 0 0 0 0 0 0 0 0) iodata 512 4 in
    msg ← bio_put_uint32 msg 0;
    msg ← bio_put_string16_x msg (lit SVC_MGR_NAME);
    msg ← bio_put_string16_x msg name;
    msg ← bio_put_obj msg ptr;
    '(res, reply) ← binder_call no_callbacks fuel bs msg (mkBio 0 0 0 0 0 0 0 0) target SVC_MGR_ADD_SERVICE;
    if negb (res =? 0) then mret (-1)
    else
      '(status, reply) ← bio_get_uint32 reply;
      binder_done bs msg reply;;
      mret (s32 status)).
End Publish.

Section TestServer.
Context {D : Type} `{BinderDriver D}.
Abbreviation prog := (C greetings D).

(** ** The greetings *)

Definition sayhello : prog unit :=
  g ← get_glob;
  let cnt := s32 (hello_cnt g + 1) in
  put_glob (mkGreetings cnt (hello_to_cnt g) (goodbye_cnt g) (goodbye_to_cnt g));;
  emit (EvPrint "say hello : %d" [] cnt).

Definition sayhello_to (name : Z) : prog Z :=
  g ← get_glob;
  let cnt := s32 (hello_to_cnt g + 1) in
  put_glob (mkGreetings (hello_cnt g) cnt (goodbye_cnt g) (goodbye_to_cnt g));;
  s ← load_cstr name;
  emit (EvPrint "say hello to %s : %d" s cnt);;
  mret cnt.

Definition saygoodbye : prog unit :=
  g ← get_glob;
  let cnt := s32 (goodbye_cnt g + 1) in
  put_glob (mkGreetings (hello_cnt g) (hello_to_cnt g) cnt (goodbye_to_cnt g));;
  emit (EvPrint "say goodbye : %d" [] cnt).

Definition saygoodbye_to (name : Z) : prog Z :=
  g ← get_glob;
  let cnt := s32 (goodbye_to_cnt g + 1) in
  put_glob (mkGreetings (hello_cnt g) (hello_to_cnt g) (goodbye_cnt g) cnt);;
  s ← load_cstr name;
  emit (EvPrint "say goodbye to %s : %d" s cnt);;
  mret cnt.

(** ** The handlers *)

(** [for (i = 0; i < len; i++) name[i] = s[i];] — the units of the string
    are cut to [char]. *)
Fixpoint copy_name (n : nat) (i name s : Z) : prog unit :=
  match n with
  | O => mret ()
  | S n =>
      c ← load 2 (s + 2 * i);
      store 1 (name + i) c;;
      copy_name n (i + 1) name s
  end.

(** The text the two handlers share: [say] and [say_to] are the functions of
    the service, [cmd] and [cmd_to] its codes; [char name[512]] is the
    frame. *)
Definition service_handler (cmd cmd_to : Z) (say : prog unit) (say_to : Z -> prog Z)
    (bs : binder_state) (txn : Z) (msg reply : binder_io) : prog (Z * binder_io) :=
  with_frame 512 (fun name =>
    '(strict_policy, msg) ← bio_get_uint32 msg;
    code ← load 4 (txn + binder_transaction_data.code);
    if code =? cmd then
      say;;
      reply ← bio_put_uint32 reply 0;
      mret (0, reply)
    else if code =? cmd_to then
      '(s, len, msg) ← bio_get_string16 msg;
      '(s, len, msg) ← bio_get_string16 msg;
      if s =? 0 then mret (-1, reply)
      else
        copy_name (Z.to_nat len) 0 name s;;
        store 1 (name + len) 0;;
        i ← say_to name;
        reply ← bio_put_uint32 reply 0;
        reply ← bio_put_uint32 reply (u32 i);
        mret (0, reply)
    else
      emit (EvPrint "unknown code %d" [] (s32 code));;
      mret (-1, reply)).

Definition hello_service_handler : binder_handler :=
  service_handler HELLO_SVR_CMD_SAYHELLO HELLO_SVR_CMD_SAYHELLO_TO sayhello sayhello_to.

Definition goodbye_service_handler : binder_handler :=
  service_handler GOODBYE_SVR_CMD_SAYGOODBYE GOODBYE_SVR_CMD_SAYGOODBYE_TO saygoodbye saygoodbye_to.

(** The addresses of the two handlers; the transaction carries the one the
    service was published with. *)
Context (hello_fn goodbye_fn : Z).

Definition test_server_handler : binder_handler := fun bs txn msg reply =>
  handler ← load 4 (txn + binder_transaction_data.target);
  if handler =? hello_fn then hello_service_handler bs txn msg reply
  else if handler =? goodbye_fn then goodbye_service_handler bs txn msg reply
  else fail (BadCall handler).

(** ** [main] *)

Context `{BinderOs D} `{Malloc} `{Literals}.

(** [fuel] bounds the reads of a call, [n] the iterations of the loop, whose
    end is returned with the exit status. *)
Definition server_main (fuel n : nat) : prog (Z * option loop_end) :=
  o ← binder_open (128 * 1024);
  match o with
  | None =>
      emit (EvPrint "failed to open binder driver" [] 0);;
      mret (-1, None)
  | Some (_, bs) =>
      ret ← svcmgr_publish fuel bs BINDER_SERVICE_MANAGER (lit "hello") hello_fn;
      if negb (ret =? 0) then
        emit (EvPrint "failed to publish hello service" [] 0);;
        mret (-1, None)
      else
        ret ← svcmgr_publish fuel bs BINDER_SERVICE_MANAGER (lit "goodbye") goodbye_fn;
        (if negb (ret =? 0) then emit (EvPrint "failed to publish goodbye service" [] 0)
         else mret ());;
        binder_set_maxthreads bs 10;;
        e ← binder_loop no_callbacks n bs test_server_handler;
        mret (0, Some e)
  end.
End TestServer.
