(* ===== verification/TestClient.v ===== *)
(** * The demonstration client: src/binder/test_client.c

    Looks up the two services of test_server.c with the service manager and
    calls one of them, with or without a name. *)
From Stdlib Require Import ZArith Strings.Byte.
From stdpp Require Import base gmap list strings.
From S2P Require Import Prelude CMachine BinderProto BinderIo Binder ServiceManager BinderOpen TestServer.
Open Scope Z_scope.

(** [g_bs], [g_hello_handle], [g_goodbye_handle] *)
Record client : Type := mkClient {
    g_bs : binder_state;
    g_hello_handle : Z;
    g_goodbye_handle : Z;
}.

Section TestClient.
Context {D : Type} `{BinderDriver D} `{Literals}.
Abbreviation prog := (C client D).

Definition svcmgr_lookup (fuel : nat) (bs : binder_state) (target name : Z) : prog Z :=
  with_frame 512 (fun iodata =>
    let msg := bio_init (mkBio 0 0 0 0 0 0 0 0) iodata 512 4 in
    msg ← bio_put_uint32 msg 0;
    msg ← bio_put_string16_x msg (lit SVC_MGR_NAME);
    msg ← bio_put_string16_x msg name;
    '(res, reply) ← binder_call no_callbacks fuel bs msg (mkBio 0 0 0 0 0 0 0 0) target SVC_MGR_CHECK_SERVICE;
    if negb (res =? 0) then mret 0
    else
      '(handle, reply) ← bio_get_ref reply;
      (if negb (handle =? 0) then binder_acquire bs handle else mret ());;
      binder_done bs msg reply;;
      mret handle).

(** ** Calls of the services *)

(** The text [sayhello] and [saygoodbye] share. *)
Definition say (fuel : nat) (iface handle code : Z) : prog unit :=
  with_frame 512 (fun iodata =>
    g ← get_glob;
    let msg := bio_init (mkBio 0 0 0 0 0 0 0 0) iodata 512 4 in
    msg ← bio_put_uint32 msg 0;
    msg ← bio_put_string16_x msg iface;
    '(res, reply) ← binder_call no_callbacks fuel (g_bs g) msg (mkBio 0 0 0 0 0 0 0 0) handle code;
    if negb (res =? 0) then mret ()
    else
      binder_done (g_bs g) msg reply;;
      mret ()).

(** The text [sayhello_to] and [saygoodbye_to] share. *)
Definition say_to (fuel : nat) (iface handle code name : Z) : prog Z :=
  with_frame 512 (fun iodata =>
    g ← get_glob;
    let msg := bio_init (mkBio 0 0 0 0 0 0 0 0) iodata 512 4 in
    msg ← bio_put_uint32 msg 0;
    msg ← bio_put_string16_x msg iface;
    msg ← bio_put_string16_x msg name;
    '(res, reply) ← binder_call no_callbacks fuel (g_bs g) msg (mkBio 0 0 0 0 0 0 0 0) handle code;
    if negb (res =? 0) then mret 0
    else
      '(exception, reply) ← bio_get_uint32 reply;
      '(ret, reply) ←
        (if negb (s32 exception =? 0) then mret (-1, reply)
         else '(v, reply) ← bio_get_uint32 reply; mret (s32 v, reply));
      binder_done (g_bs g) msg reply;;
      mret ret).

Definition sayhello (fuel : nat) : prog unit :=
  g ← get_glob;
  say fuel (lit "IHelloService") (g_hello_handle g) HELLO_SVR_CMD_SAYHELLO.

Definition sayhello_to (fuel : nat) (name : Z) : prog Z :=
  g ← get_glob;
  say_to fuel (lit "IHelloService") (g_hello_handle g) HELLO_SVR_CMD_SAYHELLO_TO name.

Definition saygoodbye (fuel : nat) : prog unit :=
  g ← get_glob;
  say fuel (lit "IGoodbyeService") (g_goodbye_handle g) GOODBYE_SVR_CMD_SAYGOODBYE.

Definition saygoodbye_to (fuel : nat) (name : Z) : prog Z :=
  g ← get_glob;
  say_to fuel (lit "IGoodbyeService") (g_goodbye_handle g) GOODBYE_SVR_CMD_SAYGOODBYE_TO name.

(** ** [main] *)

(** [!strcmp(p, s)] *)
Fixpoint streq (p : Z) (s : list byte) : prog bool :=
  c ← load 1 p;
  match s with
  | [] => mret (c =? 0)
  | b :: s => if c =? byte_val b then streq (p + 1) s else mret false
  end.

Context `{BinderOs D} `{Malloc}.

(** The calls [main] makes once it has both handles. *)
Definition client_call (fuel : nat) (argv : list Z) : prog unit :=
  hello ← streq (nth 1 argv 0) (chars "hello");
  goodbye ← (if hello : bool then mret false else streq (nth 1 argv 0) (chars "goodbye"));
  if hello : bool then
    if Z.of_nat (length argv) =? 2 then sayhello fuel
    else if Z.of_nat (length argv) =? 3 then
      ret ← sayhello_to fuel (nth 2 argv 0);
      emit (EvPrint "get ret of sayhello_to = %d" [] ret)
    else mret ()
  else if goodbye : bool then
    if Z.of_nat (length argv) =? 2 then saygoodbye fuel
    else if Z.of_nat (length argv) =? 3 then
      ret ← saygoodbye_to fuel (nth 2 argv 0);
      emit (EvPrint "get ret of sayhello_to = %d" [] ret)
    else mret ()
  else mret ().

(** [argv]: the addresses of the arguments; [fuel] bounds the reads of a
    call. *)
Definition client_main (fuel : nat) (argv : list Z) : prog Z :=
  if Z.of_nat (length argv) <? 2 then
    emit (EvPrint "Usage:" [] 0);;
    prog_name ← load_cstr (nth 0 argv 0);
    emit (EvPrint "%s <hello|goodbye>" prog_name 0);;
    emit (EvPrint "%s <hello|goodbye> <name>" prog_name 0);;
    mret (-1)
  else
    o ← binder_open (128 * 1024);
    match o with
    | None =>
        emit (EvPrint "failed to open binder driver" [] 0);;
        mret (-1)
    | Some (_, bs) =>
        g ← get_glob;
        put_glob (mkClient bs (g_hello_handle g) (g_goodbye_handle g));;
        handle ← svcmgr_lookup fuel bs BINDER_SERVICE_MANAGER (lit "goodbye");
        if handle =? 0 then
          emit (EvPrint "failed to get goodbye service" [] 0);;
          mret (-1)
        else
          g ← get_glob;
          put_glob (mkClient (g_bs g) (g_hello_handle g) handle);;
          emit (EvPrint "Handle for goodbye service = %d" [] (s32 handle));;
          handle ← svcmgr_lookup fuel bs BINDER_SERVICE_MANAGER (lit "hello");
          if handle =? 0 then
            emit (EvPrint "failed to get hello service" [] 0);;
            mret (-1)
          else
            g ← get_glob;
            put_glob (mkClient (g_bs g) handle (g_goodbye_handle g));;
            emit (EvPrint "Handle for hello service = %d" [] (s32 handle));;
            client_call fuel argv;;
            binder_release bs handle;;
            mret 0
    end.
End TestClient.
