(* ===== verification/Relay.v ===== *)
(** * A driver between two processes

    An environment in which the programs of src/binder meet: a driver that
    answers a call at once by having the process behind the handle serve it.
    [Peer] is what the caller sees of that process; [Process] makes a peer of
    a program of this library sitting in its looper. The messages pass through
    the streams and areas of [BinderDriver.Script]. *)
From Stdlib Require Import ZArith Strings.Byte.
From stdpp Require Import base gmap list strings.
From S2P Require Import Prelude CMachine BinderProto BinderIo BinderParcel Binder BinderLemmas BinderParse BinderDriver BinderCommands BinderCall.
Open Scope Z_scope.

(** ** The interface *)

(** A reply as the kernel sees it: flags, data, offsets table. *)
Record answer : Type := mkAnswer {
    a_flags : Z;
    a_data : list byte;
    a_offsets : list byte;
}.

(** [peer_call s target code dat offs]: what becomes of a call of the handle
    [target]; [None] when nobody answers. *)
Class Peer (S : Type) : Type :=
  peer_call : S -> Z -> Z -> list byte -> list byte -> option answer * S.

(** The bytes of a message that holds the items [its]. *)
Record encodes (its : list item) (dat offs : list byte) : Prop := {
    en_size : Z.of_nat (length dat) = items_size its;
    en_wf : Forall item_wf its;
    en_offs : offs = u32s_bytes (item_offsets 0 its);
    en_parcel : parcel_at (mem_write ∅ 0 dat) 0 its;
}.

(** ** The driver *)

(** Where the data and the offsets of a message go in the area of the
    receiver, and how long they may be. *)
Definition msg_data : Z := Script.lo.
Definition msg_offs : Z := Script.lo + 2048.
Definition msg_max : Z := 2048.

Definition msg_fits (dat offs : list byte) : bool :=
  (Z.of_nat (length dat) <=? msg_max) && (Z.of_nat (length offs) <=? msg_max).

Definition put_msg (m : memory) (dat offs : list byte) : memory :=
  mem_write (mem_write m msg_data dat) msg_offs offs.

Definition word (m : memory) (p : Z) : Z := le_val (default [] (mem_get m p 4)).

(** The call in a write buffer: target, code, data and offsets. *)
Definition call_of (m : memory) (b : binder_write_read) : option (Z * Z * list byte * list byte) :=
  let p := write_buffer b + write_consumed b in
  if (write_size b - write_consumed b =? 44) && (0 <? read_size b) && (word m p =? BC_TRANSACTION) then
    dat ← mem_get m (word m (p + 36)) (Z.to_nat (word m (p + 28)));
    offs ← mem_get m (word m (p + 40)) (Z.to_nat (word m (p + 32)));
    Some (word m (p + 4), word m (p + 12), dat, offs)
  else None.

Definition msg_txn (target code flags euid : Z) (dat offs : list byte) : txn_data :=
  mkTxn target 0 code flags 0 euid (Z.of_nat (length dat)) (Z.of_nat (length offs)) msg_data msg_offs.

Definition deliver (a : option answer) (m : memory) : list br_msg * memory :=
  match a with
  | None => ([MComplete; MDeadReply], m)
  | Some a =>
      if msg_fits (a_data a) (a_offsets a) then
        ([MComplete; MReply (msg_txn 0 0 (a_flags a) 0 (a_data a) (a_offsets a))],
         put_msg m (a_data a) (a_offsets a))
      else ([MComplete; MFailed], m)
  end.

Record relay (S : Type) : Type := mkRelay { r_peer : S; r_cookies : list Z }.
Arguments mkRelay {S}.
Arguments r_peer {S}.
Arguments r_cookies {S}.

Section Relay.
Context {S : Type} `{Peer S}.

(** What is there to read after a write: the answer to the call in it, if
    there is one. *)
Definition relay_answer (d : relay S) (m : memory) (b : binder_write_read) :
    list (list br_msg) * memory * S :=
  match call_of m b with
  | Some (target, code, dat, offs) =>
      let '(a, s) := peer_call (r_peer d) target code dat offs in
      let '(ms, m) := deliver a m in ([ms], m, s)
  | None => ([], m, r_peer d)
  end.

Definition relay_write_read (d : relay S) (m : memory) (b : binder_write_read) :
    Z * binder_write_read * memory * relay S :=
  let '(ms, m, s) := relay_answer d m b in
  let '(res, b', m', d') := Script.write_read (Script.mkState ms (r_cookies d)) m b in
  (res, b', m', mkRelay s (Script.cookies d')).

#[export] Instance relay_driver : BinderDriver (relay S) := {|
    drv_write_read := relay_write_read;
    drv_control d _ _ := (0, d);
  |}.

(** Memory that differs in the area only. *)
Record area_only (m m' : memory) : Prop := {
    ao_frame : forall a, ~ Script.area a -> m' !! a = m !! a;
    ao_dom : forall a, is_Some (m !! a) -> is_Some (m' !! a);
}.

Lemma put_msg_area m dat offs : msg_fits dat offs = true -> area_only m (put_msg m dat offs).
Proof.
  intros [Hl%Z.leb_le Hl'%Z.leb_le]%andb_true_iff.
  unfold put_msg, msg_data, msg_offs, msg_max, Script.lo in *.
  split; intros a Ha; rewrite !mem_write_lookup.
  - unfold Script.area, Script.lo, Script.hi in Ha. do 2 (case_decide; [lia|]). done.
  - do 2 (case_decide; [apply lookup_lt_is_Some; lia|]). done.
Qed.

Lemma deliver_area a m : area_only m (snd (deliver a m)).
Proof.
  unfold deliver. destruct a as [a|]; [|by split]. destruct (msg_fits _ _) eqn:E; [|by split].
  by apply put_msg_area.
Qed.

(** Every write is one of the scripted driver. *)
Lemma relay_script d m b res b' m' d' :
  relay_write_read d m b = (res, b', m', d') ->
  exists ms m1 sd, Script.write_read (Script.mkState ms (r_cookies d)) m1 b = (res, b', m', sd) /\
    r_cookies d' = Script.cookies sd /\ area_only m m1 /\
    (m1 = m \/ write_size b - write_consumed b = 44).
Proof.
  unfold relay_write_read. destruct (relay_answer d m b) as [[ms m1] s] eqn:E.
  destruct (Script.write_read _ m1 b) as [[[? ?] ?] sd] eqn:Es. intros [= <- <- <- <-].
  exists ms, m1, sd. split; [done|]. split; [done|].
  unfold relay_answer in E. destruct (call_of m b) as [[[[target code] dat] offs]|] eqn:Ec.
  - destruct (peer_call _ _ _ _ _) as [a s']. pose proof (deliver_area a m) as Ha.
    destruct (deliver a m) as [ms' m']. injection E as <- <- <-. split; [exact Ha|right].
    unfold call_of in Ec. by destruct (Z.eqb_spec (write_size b - write_consumed b) 44).
  - injection E as <- <- <-. split; [by split|by left].
Qed.

#[export] Instance relay_protocol : BinderProtocol (relay S) Script.area.
Proof.
  refine {| drv_cookies := r_cookies |}.
  - split; cbn [drv_write_read relay_driver]; intros d m b res b' m' d' E;
      apply relay_script in E as (ms & m1 & sd & E & _ & [Hf Hd] & _).
    + intros a Ha Ha'. rewrite <- (Hf a Ha').
      by eapply (drv_frame (D := Script.state) (area := Script.area)).
    + intros a Ha%Hd. by eapply (drv_dom (D := Script.state) (area := Script.area)).
    + by eapply (drv_consumed (D := Script.state) (area := Script.area)).
  - intros d m b res b' m' d' E Hr Hc. apply relay_script in E as (ms & m1 & sd & E & -> & _).
    exact (drv_read (D := Script.state) (area := Script.area) (Script.mkState ms (r_cookies d)) m1 b res b' m' sd E Hr Hc).
  - intros d m b res b' m' d' E Hr. apply relay_script in E as (ms & m1 & sd & E & _).
    exact (drv_written (D := Script.state) (area := Script.area) (Script.mkState ms (r_cookies d)) m1 b res b' m' sd E Hr).
  - intros d m b res b' m' d' c E. apply relay_script in E as (ms & m1 & sd & E & -> & _ & Hm).
    intros Hc. pose proof (drv_registers (D := Script.state) (area := Script.area)) as Hreg.
    destruct (Hreg (Script.mkState ms (r_cookies d)) m1 b res b' m' sd c E Hc)
      as [?|(t & Hok & Hs & Hb)]; [by left|right].
    destruct Hm as [->|Hm]; [by exists t|lia].
  - done.
Defined.
End Relay.
