(* ===== verification/RelayCall.v ===== *)
(** * Calls through the relay

    What a caller gets back: [binder_call] over [Relay] returns the answer of
    the peer, whose items the cursor reads. *)
From Stdlib Require Import ZArith Strings.Byte.
From stdpp Require Import base gmap list strings.
From S2P Require Import Prelude CMachine BinderProto BinderIo BinderParcel Binder BinderLemmas BinderParse BinderDriver BinderCommands BinderCall TestServer Relay.
Open Scope Z_scope.

(** ** Messages as bytes *)

Lemma mem_get_copied m p n bs m' q :
  mem_get m p n = Some bs -> bytes_at m' q bs -> copied m p m' q (Z.of_nat n).
Proof.
  intros [Hl H]%mem_get_Some Hb i Hi. rewrite bytes_at_lookup in Hb.
  destruct (lookup_lt_is_Some_2 bs (Z.to_nat i)) as [b E]; [lia|].
  pose proof (Hb _ _ E) as E'. rewrite Z2Nat.id in E' by lia. rewrite E'.
  specialize (H (Z.to_nat i) ltac:(lia)). rewrite Z2Nat.id in H by lia. by rewrite H.
Qed.

(** The receiver reads the items from the bytes. *)
Lemma encodes_reads its dat os m rd :
  encodes its dat os -> bytes_at m (data rd) dat -> bytes_at m (offs rd) os ->
  data0 rd = data rd -> 0 < data rd -> data_avail rd = Z.of_nat (length dat) ->
  data rd + data_avail rd < 4294967296 -> offs_avail rd = Z.of_nat (length os) / 4 ->
  bio_reads m rd its.
Proof.
  intros [Hs Hwf -> Hp] Hb Ho E0 Hpos Ea Hhi Eo.
  pose proof (items_size_nonneg its Hwf). pose proof (length_item_offsets 0 its).
  split; try done; try lia.
  - rewrite <- (Z.add_0_r (data rd)).
    eapply (parcel_at_copied (mem_write ∅ 0 dat) 0); [done| |lia| |by rewrite Z.add_0_r].
    + eapply mem_get_copied; [apply mem_write_bytes_at|exact Hb].
    + lia.
  - exists (item_offsets 0 its). split_and!; [done| | |].
    + rewrite Eo, length_u32s_bytes, Nat2Z.inj_mul, Z.mul_comm, Z.div_mul by lia. lia.
    + eapply Forall_impl; [apply item_offsets_bounds; [done|lia]|]. cbn. lia.
    + by rewrite E0, Z.sub_diag.
Qed.

(** The bytes a writer produced. *)
Lemma writes_encodes m io lo n k its :
  bio_writes m io lo n k its ->
  exists dat os, mem_get m (data0 io) (Z.to_nat (data io - data0 io)) = Some dat /\
    mem_get m (offs0 io) (Z.to_nat (offs io - offs0 io)) = Some os /\ encodes its dat os.
Proof.
  intros [[] Hm Hits Ho0 Hd0 Hd Ho Ha Hoa Hf Hp Ht].
  pose proof (items_objs_nonneg its). pose proof (items_size_nonneg its Hits).
  pose proof (length_item_offsets 0 its).
  destruct (mapped_mem_get m (data0 io) (Z.to_nat (data io - data0 io))) as (dat & E & L).
  { eapply mapped_sub; [exact Hm|lia..]. }
  exists dat, (u32s_bytes (item_offsets 0 its)). split; [exact E|]. split.
  { unfold bytes_at in Ht. rewrite Ho0, <- Ht. f_equal. rewrite length_u32s_bytes. lia. }
  split; [lia|done|done|]. rewrite <- (Z.add_0_r 0).
  eapply (parcel_at_copied m (data0 io)); [done| |lia| |by rewrite Z.add_0_r].
  - eapply mem_get_copied; [exact E|apply mem_write_bytes_at].
  - lia.
Qed.

(** ** What a process prints *)

Definition is_print (e : event) : Prop := match e with EvPrint _ _ _ => True | _ => False end.
#[export] Instance is_print_dec e : Decision (is_print e).
Proof. destruct e; apply _. Defined.

Definition prints (t : list event) : list event := filter is_print t.

Lemma prints_app a b : prints (a ++ b) = prints a ++ prints b.
Proof. apply filter_app. Qed.

(** ** The call *)

Lemma word_at m p vs i v :
  words_at m p vs -> vs !! i = Some v -> word_ok v -> word m (p + 4 * Z.of_nat i) = v.
Proof.
  intros Hw Hi Hv. unfold word. rewrite words_at_lookup in Hw. specialize (Hw i v Hi).
  unfold bytes_at in Hw. rewrite length_le_bytes in Hw. rewrite Hw. by apply le_val_bytes_4.
Qed.

(** The write of a call is recognised. *)
Lemma call_of_words m b msg target code cookie pid euid dat os :
  words_at m (write_buffer b) (call_words msg target code cookie pid euid) ->
  write_consumed b = 0 -> write_size b = 44 -> 0 < read_size b ->
  word_ok target -> word_ok code -> word_ok (data0 msg) -> word_ok (offs0 msg) ->
  word_ok (data msg - data0 msg) -> word_ok (offs msg - offs0 msg) ->
  mem_get m (data0 msg) (Z.to_nat (data msg - data0 msg)) = Some dat ->
  mem_get m (offs0 msg) (Z.to_nat (offs msg - offs0 msg)) = Some os ->
  call_of m b = Some (target, code, dat, os).
Proof.
  intros Hw Hc Hs Hr Ht Hcode Hd0 Ho0 Hd Ho Ed Eo. unfold word_ok in Hd, Ho.
  unfold call_of. rewrite Hc, Hs, Z.sub_0_r, Z.add_0_r. set (p := write_buffer b) in *.
  rewrite (proj2 (Z.ltb_lt 0 _)) by done.
  assert (forall (i : nat) v, call_words msg target code cookie pid euid !! i = Some v -> word_ok v ->
            word m (p + 4 * Z.of_nat i) = v) as Hword by (intros; by eapply word_at).
  pose proof (Hword 0%nat _ eq_refl ltac:(by vm_compute)) as H0. rewrite Z.add_0_r in H0.
  assert (word m (p + 4) = target) as H1 by exact (Hword 1%nat _ eq_refl Ht).
  assert (word m (p + 12) = code) as H3 by exact (Hword 3%nat _ eq_refl Hcode).
  assert (word m (p + 28) = u32 (data msg - data0 msg)) as H7 by exact (Hword 7%nat _ eq_refl (u32_range _)).
  assert (word m (p + 32) = u32 (offs msg - offs0 msg)) as H8 by exact (Hword 8%nat _ eq_refl (u32_range _)).
  assert (word m (p + 36) = data0 msg) as H9 by exact (Hword 9%nat _ eq_refl Hd0).
  assert (word m (p + 40) = offs0 msg) as H10 by exact (Hword 10%nat _ eq_refl Ho0).
  rewrite u32_small in H7, H8 by done.
  rewrite H0, H1, H3, H7, H8, H9, H10, Ed. cbn [mbind option_bind]. rewrite Eo. done.
Qed.

Lemma mapped_mappedb m p n : 0 <= n -> mapped m p n -> mappedb m p n = true.
Proof.
  intros Hn Hm. unfold mappedb. destruct (mapped_mem_get m p (Z.to_nat n)) as (bs & -> & _); [|done].
  by rewrite Z2Nat.id.
Qed.

Definition answer_txn (a : answer) : txn_data := msg_txn 0 0 (a_flags a) 0 (a_data a) (a_offsets a).
Definition answer_msgs (a : answer) : list br_msg := [MComplete; MReply (answer_txn a)].

Definition answer_ok (a : answer) : Prop :=
  msg_fits (a_data a) (a_offsets a) = true /\ word_ok (a_flags a).

Lemma answer_txn_wf a : answer_ok a -> txn_wf (answer_txn a).
Proof.
  intros [[Hl%Z.leb_le Hl'%Z.leb_le]%andb_true_iff Hf]. unfold msg_max, word_ok in *.
  unfold txn_wf. forall_list; cbn; unfold msg_data, msg_offs, Script.lo; lia.
Qed.

Section RelayCall.
Context {G S : Type} `{Peer S}.
Abbreviation D := (relay S).
Implicit Types w : world G (relay S).

(** Memory the relay needs: its area mapped. *)
Definition area_mapped (m : memory) : Prop := mapped m Script.lo (Script.hi - Script.lo).

(** A write with a call is answered at once. *)
Lemma relay_answered (d : relay S) m b target code dat os a s :
  call_of m b = Some (target, code, dat, os) ->
  peer_call (r_peer d) target code dat os = (Some a, s) -> answer_ok a ->
  write_size b - write_consumed b = 44 -> read_size b = 128 ->
  area_mapped m -> mapped m (read_buffer b) 128 ->
  relay_write_read d m b =
  (0, mkBwr (write_size b) (write_size b) (write_buffer b) 128 48 (read_buffer b),
   mem_write (put_msg m (a_data a) (a_offsets a)) (read_buffer b) (u32s_bytes (stream (answer_msgs a))),
   mkRelay s (r_cookies d)).
Proof.
  intros Hc Hp [Hf Hfl] Hw Hr Hma Hmr. unfold relay_write_read, relay_answer.
  rewrite Hc, Hp. unfold deliver. rewrite Hf. fold (answer_txn a). fold (answer_msgs a).
  set (m1 := put_msg m (a_data a) (a_offsets a)).
  assert (area_only m m1) as [_ Hdom] by by apply put_msg_area.
  unfold Script.write_read.
  assert (Script.registered m1 b = []) as ->.
  { unfold Script.registered. rewrite Hw. destruct (mem_get _ _ 12); [|done].
    by rewrite (bool_decide_eq_false_2 (44 = 12)). }
  rewrite Hr, (proj2 (Z.eqb_neq 128 0)) by done. cbn [Script.script Script.cookies app].
  change (4 * Z.of_nat (length (stream (answer_msgs a)))) with 48.
  set (m2 := mem_write m1 (read_buffer b) _).
  rewrite mapped_mappedb; [|done|intros x Hx; apply Hdom, Hmr; lia].
  rewrite bool_decide_eq_true_2; [done|].
  pose proof (answer_txn_wf a (conj Hf Hfl)) as Hwf.
  apply andb_true_iff in Hf as [Hl%Z.leb_le Hl'%Z.leb_le]. unfold msg_max in *.
  assert (forall vs, Forall word_ok vs ->
    bool_decide (Forall (fun v => (0 <=? v) && (v <? 4294967296) = true) vs) = true) as Hbd.
  { intros vs Hvs. apply bool_decide_eq_true_2. eapply Forall_impl; [exact Hvs|].
    intros v [? ?]. cbn. lia. }
  forall_list; unfold Script.msg_validb.
  - by vm_compute.
  - cbn [msg_words]. rewrite Hbd by (constructor; [done|exact Hwf]). cbn [andb].
    unfold Script.txn_validb, answer_txn, msg_txn, msg_data, msg_offs, Script.lo, Script.hi.
    cbn [t_buffer t_data_size t_offsets t_offsets_size].
    rewrite mapped_mappedb; [|done|].
    + rewrite !andb_true_r. lia.
    + apply mem_write_mapped. intros x Hx. apply Hdom. by apply Hma.
Qed.

(** What a call of a peer that answers leaves behind. *)
Record called (a : answer) (s : S) (F : Z -> Prop) w w' : Prop := {
  ca_data : bytes_at (w_mem w') msg_data (a_data a);
  ca_offs : bytes_at (w_mem w') msg_offs (a_offsets a);
  ca_peer : w_drv w' = mkRelay s (r_cookies (w_drv w));
  ca_frames : frames F w w';
  ca_prints : prints (w_trace w') = prints (w_trace w);
}.

(** The part of memory a caller's message occupies. *)
Record message_at (m : memory) (msg : binder_io) (top : Z) (dat os : list byte) : Prop := {
  me_data : mem_get m (data0 msg) (Z.to_nat (data msg - data0 msg)) = Some dat;
  me_offs : mem_get m (offs0 msg) (Z.to_nat (offs msg - offs0 msg)) = Some os;
  me_data_above : top <= data0 msg <= data msg;
  me_offs_above : top <= offs0 msg <= offs msg;
  me_hi : data msg < 4294967296 /\ offs msg < 4294967296;
}.

Lemma message_at_agree m m' msg top dat os :
  message_at m msg top dat os -> (forall x, top <= x -> m' !! x = m !! x) -> message_at m' msg top dat os.
Proof.
  intros [] Hm. split; try done; rewrite (mem_get_agree m m'); try done; intros x Hx; apply Hm; lia.
Qed.

(** The loop of a call whose write buffer holds the words of the call. *)
Lemma relay_loop_run fuel bs b msg reply target code cookie pid euid dat os top a s readbuf w :
  words_at (w_mem w) (write_buffer b) (call_words msg target code cookie pid euid) ->
  write_consumed b = 0 -> write_size b = 44 ->
  0 <= readbuf < 4294967000 -> mapped (w_mem w) readbuf 128 -> area_mapped (w_mem w) ->
  (forall x, readbuf <= x < readbuf + 128 -> ~ Script.area x) ->
  word_ok target -> word_ok code -> 0 <= top -> message_at (w_mem w) msg top dat os ->
  peer_call (r_peer (w_drv w)) target code dat os = (Some a, s) -> answer_ok a ->
  wp (call_loop no_callbacks (Datatypes.S fuel) bs b readbuf reply)
     (fun r w' => r = Some (txn_bio (answer_txn a) reply) /\
        called a s (union (buffer_at readbuf 128) Script.area) w w') w.
Proof.
  intros Hw Hc Hs Hrb Hmr Hma Haway Ht Hcode Htop [Ed Eo Hd Ho [Hhi Hhi']] Hp Ha.
  set (b1 := mkBwr (write_size b) (write_consumed b) (write_buffer b) 128 0 readbuf).
  assert (call_of (w_mem w) b1 = Some (target, code, dat, os)) as Hcall.
  { eapply (call_of_words _ b1 msg); try done; unfold word_ok; lia. }
  cbn [call_loop]. apply wp_bind. eapply wp_run.
  { unfold ioctl_write_read. cbn [drv_write_read relay_driver]. fold b1.
    erewrite relay_answered; [reflexivity|exact Hcall|exact Hp|exact Ha|..]; try done.
    cbn [write_size write_consumed b1]. lia. }
  cbv beta iota. rewrite (proj2 (Z.ltb_ge 0 0)) by done. cbn [read_consumed].
  set (m1 := put_msg _ _ _). set (m2 := mem_write m1 _ _).
  pose proof (put_msg_area (w_mem w) _ _ (proj1 Ha)) as [Hfr Hdom].
  apply wp_bind. change 48 with (4 * Z.of_nat (length (stream (answer_msgs a)))).
  eapply wp_mono.
  { apply (client_parse (D := D) no_callbacks bs true reply readbuf (answer_msgs a)).
    - pose proof (answer_txn_wf a Ha) as Hwf. forall_list; split; try done.
      + forall_list. by vm_compute.
      + by constructor.
    - by forall_list.
    - cbn [w_mem]. apply mem_write_bytes_at.
    - lia.
    - cbn. lia. }
  intros [r io'] w' (-> & -> & ->). change (parse_status (answer_msgs a)) with 0. cbn [Z.eqb].
  apply wp_ret. split; [done|]. destruct Ha as [Hf _].
  apply andb_true_iff in Hf as [Hl%Z.leb_le Hl'%Z.leb_le].
  assert (forall p bs, Script.lo <= p -> p + Z.of_nat (length bs) <= Script.hi ->
            bytes_at m1 p bs -> bytes_at m2 p bs) as Hkeep.
  { intros p bs' Hlo Hhi0. apply bytes_at_agree. intros x Hx. unfold m2. rewrite mem_write_lookup.
    case_decide as Hx'; [|done]. change (length (u32s_bytes (stream (answer_msgs a)))) with 48%nat in Hx'.
    cbn [read_buffer b1] in Hx'. destruct (Haway x); [lia|]. unfold Script.area. lia. }
  unfold msg_max, Script.lo, Script.hi in *.
  assert (msg_data = 65536 /\ msg_offs = 67584) as [Emd Emo] by done.
  split; cbn [spawned w_mem w_drv w_trace].
  - apply Hkeep; [lia|lia|]. unfold m1, put_msg.
    eapply bytes_at_agree; [|apply mem_write_bytes_at]. apply mem_write_agree. lia.
  - apply Hkeep; [lia|lia|]. apply mem_write_bytes_at.
  - done.
  - split; try done; cbn [w_mem spawned].
    + intros x Hx. unfold m2. rewrite mem_write_lookup. case_decide as Hx'.
      * change (length (u32s_bytes (stream (answer_msgs a)))) with 48%nat in Hx'.
        cbn [read_buffer b1] in Hx'. destruct Hx. left. unfold buffer_at. lia.
      * apply Hfr. intros ?. apply Hx. by right.
    + intros x Hx. apply (mem_write_mapped m1 _ _ x 1); [|lia].
      intros y ?. replace y with x by lia. by apply Hdom.
  - rewrite !prints_app. unfold prints at 2 3. rewrite filter_cons_False by by intros [].
    change (spawn_count (answer_msgs a)) with 0%nat.
    by rewrite !app_nil_r.
Qed.
Lemma called_locals a s F w n m w' :
  modifies (w_mem w) m (w_sp w - n) n ->
  called a s (union (stack w n) F) (set_mem m (set_sp (w_sp w - n) w)) w' ->
  called a s (union (stack w n) F) w (set_sp (w_sp w) w').
Proof.
  intros M [Hd Ho Hp [E1 E2 E3 E4] Hpr]. split; try done. split; try done.
  - intros x Hx. cbn [w_mem set_sp]. rewrite E3 by done. cbn [w_mem set_mem].
    apply (mod_frame _ _ _ _ M). intros Hs. apply Hx. left. unfold stack. lia.
  - intros x Hx. apply E4. by apply (mod_dom _ _ _ _ M).
Qed.

Lemma called_weaken a s (F F' : Z -> Prop) w w' :
  (forall x, F x -> F' x) -> called a s F w w' -> called a s F' w w'.
Proof. intros HF []. split; try done. by eapply frames_weaken. Qed.

Lemma relay_call_run fuel bs msg reply target code dat os a s w :
  172 <= w_sp w < 4294967000 -> mapped (w_mem w) (w_sp w - 172) 172 -> area_mapped (w_mem w) ->
  (forall x, stack w 172 x -> ~ Script.area x) -> Z.land (flags msg) BIO_F_OVERFLOW = 0 ->
  word_ok target -> word_ok code -> message_at (w_mem w) msg (w_sp w) dat os ->
  peer_call (r_peer (w_drv w)) target code dat os = (Some a, s) -> answer_ok a ->
  wp (binder_call no_callbacks (Datatypes.S fuel) bs msg reply target code)
     (fun '(r, io) w' => r = 0 /\ io = txn_bio (answer_txn a) reply /\
        called a s (union (stack w 172) Script.area) w w') w.
Proof.
  intros Hsp Hm Hma Haway Hfl Ht Hcode Hmsg Hp Ha. apply wp_with_frame. rewrite Hfl. cbn [negb Z.eqb].
  assert (mapped (w_mem w) (w_sp w - 172) 44) as Hm11 by (eapply mapped_sub; [exact Hm|lia..]).
  destruct (mapped_words _ _ 11 Hm11) as (vs & Hl & Hw & _).
  do 11 (destruct vs as [|? vs]; [done|]). destruct vs; [|done].
  pose proof (modifies_refl (w_mem w) (w_sp w - 172) 44) as M.
  change (set_sp (w_sp w - 172) w) with (set_mem (w_mem w) (set_sp (w_sp w - 172) w)).
  word_store 0%nat. word_store 1%nat. word_store 3%nat. word_store 4%nat. word_store 7%nat.
  word_store 8%nat. word_store 9%nat. word_store 10%nat.
  match type of Hw with words_at ?m _ [_; _; ?c; _; _; ?p; ?e; _; _; _; _] =>
    set (mc := m) in *; set (cookie := c) in *; set (pid := p) in *; set (euid := e) in * end.
  apply wp_bind. eapply wp_mono.
  { apply (relay_loop_run fuel bs _ msg reply target code cookie pid euid dat os (w_sp w) a s);
      cbn [w_mem set_mem set_sp w_drv write_buffer write_consumed write_size]; try done; try lia.
    - eapply modifies_mapped; [exact Hmod0|]. eapply mapped_sub; [exact Hm|lia..].
    - eapply modifies_mapped; [exact Hmod0|]. exact Hma.
    - intros x Hx. apply Haway. unfold stack. lia.
    - eapply message_at_agree; [exact Hmsg|]. intros x Hx. apply (mod_frame _ _ _ _ Hmod0). lia. }
  intros r w' [-> Hcd]. apply wp_ret. split; [done|]. split; [done|].
  eapply called_locals; [eapply modifies_weaken; [exact Hmod0|right; lia]|].
  eapply called_weaken; [|exact Hcd]. intros x [Hx|Hx]; [left|by right].
  unfold buffer_at, stack in *. lia.
Qed.
End RelayCall.
