(* ===== verification/TestClientLemmas.v ===== *)
(** * The calls of the demonstration client, through the relay

    Building a message in the stack, calling the peer, reading its answer and
    giving the buffer back: the stubs of test_client.c against any peer. *)
From Stdlib Require Import ZArith Strings.Byte.
From stdpp Require Import base gmap list strings.
From S2P Require Import Prelude CMachine BinderProto BinderIo BinderParcel Binder BinderLemmas BinderParse BinderDriver BinderCommands BinderCall ServiceManager TestServer TestClient Relay RelayCall.
Open Scope Z_scope.

(** ** Sequences of puts in a stub *)

Fixpoint puts_then {G D A} (ops : list put) (K : binder_io -> C G D A) (io : binder_io) : C G D A :=
  match ops with
  | [] => K io
  | op :: ops => io ← run_put op io; puts_then ops K io
  end.

Lemma puts_then_run {G D A} ops (K : binder_io -> C G D A) io w io' w' :
  run_puts ops io w = Ok io' w' -> puts_then ops K io w = K io' w'.
Proof.
  revert io w; induction ops as [|op ops IH]; intros io w; cbn [run_puts puts_then].
  - by intros [= -> ->].
  - unfold mbind, C_bind. destruct (run_put op io w); [apply IH|done].
Qed.

(** ** Programs that leave the peer alone *)

Section Peer.
Context {G S : Type} `{Peer S}.
Abbreviation D := (relay S).
Implicit Types w : world G (relay S).

Definition keeps_peer {A} (m : C G D A) : Prop :=
  forall w a w', m w = Ok a w' -> r_peer (w_drv w') = r_peer (w_drv w).

Lemma keeps_ret {A} (a : A) : keeps_peer (mret a).
Proof. by intros w b w' [= <- <-]. Qed.

Lemma keeps_bind {A B} (m : C G D A) (f : A -> C G D B) :
  keeps_peer m -> (forall a, keeps_peer (f a)) -> keeps_peer (m ≫= f).
Proof.
  intros Hm Hf w b w'. unfold mbind, C_bind. destruct (m w) as [a w1|] eqn:E; [|done].
  intros E'. apply Hf in E'. apply Hm in E. congruence.
Qed.

Lemma keeps_store n p v : keeps_peer (store n p v).
Proof. intros w a w'. unfold store, store_bytes. by destruct (mem_get _ _ _); intros [= <- <-]. Qed.

Lemma keeps_frame {A} n (body : Z -> C G D A) : (forall p, keeps_peer (body p)) -> keeps_peer (with_frame n body).
Proof.
  intros Hb w a w'. unfold with_frame. destruct (body _ _) as [b w1|] eqn:E; [|done].
  intros [= -> <-]. by apply Hb in E.
Qed.

(** A write that reads nothing carries no call. *)
Lemma keeps_write bs dat len : keeps_peer (binder_write bs dat len).
Proof.
  apply keeps_bind; [|intros []; apply keeps_ret].
  intros w [res b'] w'. unfold ioctl_write_read. cbn [drv_write_read relay_driver].
  unfold relay_write_read, relay_answer, call_of. cbn [read_size]. rewrite andb_false_r. cbn [andb].
  match goal with |- context [Script.write_read ?d ?m ?b] => destruct (Script.write_read d m b) as [[[? ?] ?] ?] end.
  by intros [= _ _ <-].
Qed.

Lemma keeps_done bs msg reply : keeps_peer (binder_done bs msg reply).
Proof.
  unfold binder_done. destruct (negb _); [|apply keeps_ret].
  apply keeps_frame. intros p. repeat (apply keeps_bind; [auto using keeps_store, keeps_write|intros _]).
  apply keeps_ret.
Qed.

Lemma keeps_cmd2 bs c target : keeps_peer (binder_write_cmd2 bs c target).
Proof.
  apply keeps_frame. intros p. repeat (apply keeps_bind; [auto using keeps_store, keeps_write|intros _]).
  apply keeps_ret.
Qed.

(** ** What a stub does to the process *)

(** The addresses [lo, hi) of the stack and the area. *)
Definition window (lo hi : Z) : Z -> Prop := union (fun a => lo <= a < hi) Script.area.

(** Only the window changes, nothing is printed, the peer is in state
    [s]. *)
Record rpc (s : S) (lo hi : Z) w w' : Prop := {
  rpc_frames : frames (window lo hi) w w';
  rpc_peer : r_peer (w_drv w') = s;
  rpc_prints : prints (w_trace w') = prints (w_trace w);
}.

Lemma rpc_trans s1 s2 lo hi w1 w2 w3 : rpc s1 lo hi w1 w2 -> rpc s2 lo hi w2 w3 -> rpc s2 lo hi w1 w3.
Proof.
  intros [A1 A2 A3] [B1 B2 B3]. split; [|done|congruence]. by eapply frames_trans.
Qed.

Lemma frames_window w w' (F : Z -> Prop) lo hi :
  frames (union F Script.area) w w' -> (forall a, F a -> lo <= a < hi) -> frames (window lo hi) w w'.
Proof. intros Hf HF. eapply frames_weaken; [|exact Hf]. intros a [Ha|Ha]; [left; auto|by right]. Qed.

(** A command without a reply. *)
Lemma write_rpc n payload bs lo hi w w' :
  drv_effect Script.area (union (stack w n) Script.area) [write_event bs payload] w w' ->
  r_peer (w_drv w') = r_peer (w_drv w) -> lo <= w_sp w - n -> w_sp w <= hi ->
  rpc (r_peer (w_drv w)) lo hi w w'.
Proof.
  intros [[E1 E2] _] Hp Hlo Hhi. split; [|done|].
  - eapply frames_window; [exact E1|]. unfold stack. lia.
  - rewrite E2, prints_app. unfold prints at 2.
    rewrite filter_cons_False by by intros []. by rewrite app_nil_r.
Qed.

Lemma done_rpc bs msg reply lo hi w :
  lo <= w_sp w - 8 -> w_sp w <= hi -> mapped (w_mem w) lo (hi - lo) ->
  Z.land (flags reply) BIO_F_SHARED <> 0 ->
  wp (binder_done bs msg reply) (fun _ w' => rpc (r_peer (w_drv w)) lo hi w w') w.
Proof.
  intros Hlo Hhi Hm Hf.
  assert (mapped (w_mem w) (w_sp w - 8) 8) as Hm8 by (eapply mapped_sub; [exact Hm|lia..]).
  pose proof (binder_done_effect Script.area bs msg reply w Hm8 Hf) as (r & w' & E & _ & Hd)%wp_ok.
  apply (wp_run _ _ _ _ _ E). eapply write_rpc; [exact Hd|by eapply keeps_done|lia|lia].
Qed.

Lemma cmd2_rpc bs c target lo hi w :
  lo <= w_sp w - 8 -> w_sp w <= hi -> mapped (w_mem w) lo (hi - lo) ->
  wp (binder_write_cmd2 bs c target) (fun _ w' => rpc (r_peer (w_drv w)) lo hi w w') w.
Proof.
  intros Hlo Hhi Hm.
  assert (mapped (w_mem w) (w_sp w - 8) 8) as Hm8 by (eapply mapped_sub; [exact Hm|lia..]).
  pose proof (binder_write_cmd2_effect Script.area bs c target w Hm8) as (r & w' & E & Hd)%wp_ok.
  apply (wp_run _ _ _ _ _ E). eapply write_rpc; [exact Hd|by eapply keeps_cmd2|lia|lia].
Qed.

(** ** A message in the frame and the call *)

(** The world inside the frame of a stub: 512 bytes for the message above
    the stack pointer, 172 below for the call. *)
Record stub_frame w : Prop := {
  sf_lo : 172 <= w_sp w;
  sf_hi : w_sp w + 512 < 4294967000;
  sf_mapped : mapped (w_mem w) (w_sp w - 172) 684;
  sf_area : area_mapped (w_mem w);
  sf_away : forall a, w_sp w - 172 <= a < w_sp w + 512 -> ~ Script.area a;
}.

Definition no_io : binder_io := mkBio 0 0 0 0 0 0 0 0.

(** The answer is in the area and can be read. *)
Record answered (a : answer) w : Prop := {
  an_data : bytes_at (w_mem w) msg_data (a_data a);
  an_offs : bytes_at (w_mem w) msg_offs (a_offsets a);
  an_ok : answer_ok a;
}.

Lemma answered_reads a its w :
  answered a w -> encodes its (a_data a) (a_offsets a) ->
  bio_reads (w_mem w) (txn_bio (answer_txn a) no_io) its.
Proof.
  intros [Hd Ho [Hf _]] He. apply andb_true_iff in Hf as [Hl%Z.leb_le _]. unfold msg_max in Hl.
  apply (encodes_reads its (a_data a) (a_offsets a)); try done.
  cbn. unfold msg_data, Script.lo. lia.
Qed.

Lemma writes_message m io lo n k its :
  bio_writes m io lo n k its -> lo + n < 4294967296 ->
  exists dat os, message_at m io lo dat os /\ encodes its dat os.
Proof.
  intros W Hhi. destruct (writes_encodes _ _ _ _ _ _ W) as (dat & os & Hd & Ho & He).
  exists dat, os. split; [|exact He]. destruct W as [[] _ Hwf ? ? ? ? ? ? ? _ _].
  pose proof (items_objs_nonneg its). pose proof (items_size_nonneg its Hwf).
  split; try done; lia.
Qed.

Lemma wp_message_call {A} ops fuel bs target code (K : Z * binder_io -> binder_io -> C G D A) R Q w :
  let its := put_item <$> ops in
  stub_frame w -> word_ok target -> word_ok code ->
  Forall (put_src (w_mem w) (w_sp w) 512) ops -> Forall (fun op => item_wf (put_item op)) ops ->
  items_size its <= 496 -> items_objs its <= 4 ->
  (forall dat os, encodes its dat os -> exists a s,
     peer_call (r_peer (w_drv w)) target code dat os = (Some a, s) /\ answer_ok a /\ R a s) ->
  (forall a s msg w', R a s -> rpc s (w_sp w - 172) (w_sp w + 512) w w' -> answered a w' ->
     wp (K (0, txn_bio (answer_txn a) no_io) msg) Q w') ->
  wp (puts_then ops (fun msg => binder_call no_callbacks (Datatypes.S fuel) bs msg no_io target code ≫=
                                fun x => K x msg) (bio_init no_io (w_sp w) 512 4)) Q w.
Proof.
  intros its [Hlo Hhi Hm Hma Haway] Ht Hcode Hsrc Hwf Hsize Hobjs Hpeer HK.
  assert (bio_writes (w_mem w) (bio_init no_io (w_sp w) 512 4) (w_sp w) 512 4 []) as W0.
  { apply bio_init_writes; try lia. eapply mapped_sub; [exact Hm|lia..]. }
  destruct (run_puts_fits ops _ w _ _ _ _ W0 Hsrc Hwf) as (io & m' & R1 & W & M); [cbn; fold its; lia|cbn; fold its; lia|].
  cbn [app] in W. destruct (writes_message _ _ _ _ _ _ W) as (dat & os & Hmsg & He); [lia|].
  destruct (Hpeer dat os He) as (a & s & Hp & Ha & HR).
  unfold wpf. rewrite (puts_then_run _ _ _ _ _ _ R1).
  apply wp_bind. eapply wp_mono.
  { apply (relay_call_run fuel bs io no_io target code dat os a s); cbn [w_sp w_mem w_drv set_mem]; try done; try lia.
    - eapply modifies_mapped; [exact M|]. eapply mapped_sub; [exact Hm|lia..].
    - eapply modifies_mapped; [exact M|exact Hma].
    - intros x Hx. apply Haway. unfold stack in Hx. cbn in Hx. lia.
    - by rewrite (bw_flags _ _ _ _ _ _ W). }
  intros [r reply] w' (-> & -> & [C1 C2 C3 C4 C5]). apply (HK a s io); [done| |by split].
  split; [|by rewrite C3|done].
  eapply (frames_trans _ _ (set_mem m' w)).
  - eapply frames_set_mem; [exact M|]. intros x Hx. left. lia.
  - eapply frames_window; [exact C4|]. unfold stack. cbn. lia.
Qed.

(** A message that does not fit is not sent. *)
Lemma wp_message_overflow {A} ops fuel bs target code (K : Z * binder_io -> binder_io -> C G D A) Q w :
  let its := put_item <$> ops in
  stub_frame w ->
  Forall (put_src (w_mem w) (w_sp w) 512) ops -> Forall (fun op => item_wf (put_item op)) ops ->
  ~ (items_size its <= 496 /\ items_objs its <= 4) ->
  (forall msg w', rpc (r_peer (w_drv w)) (w_sp w - 172) (w_sp w + 512) w w' ->
     wp (K (-1, failed_reply) msg) Q w') ->
  wp (puts_then ops (fun msg => binder_call no_callbacks fuel bs msg no_io target code ≫=
                                fun x => K x msg) (bio_init no_io (w_sp w) 512 4)) Q w.
Proof.
  intros its [Hlo Hhi Hm Hma Haway] Hsrc Hwf Hsize HK.
  assert (mapped (w_mem w) (w_sp w) 512) as Hm0 by (eapply mapped_sub; [exact Hm|lia..]).
  assert (bio_writes (w_mem w) (bio_init no_io (w_sp w) 512 4) (w_sp w) 512 4 []) as W0
    by (apply bio_init_writes; [lia|done|done|lia|done]).
  destruct (run_puts_safe ops (bio_init no_io (w_sp w) 512 4) w (w_sp w) 512)
    as (io & m' & R1 & B & M & _ & _ & N); [apply W0|done|done|done|].
  rewrite bio_init_fits in N by lia. cbn [data_avail offs_avail] in N. specialize (N Hsize).
  unfold wpf. rewrite (puts_then_run _ _ _ _ _ _ R1). apply wp_bind. eapply wp_run.
  { apply (binder_call_overflow (D := D)). intros E.
    apply (f_equal (fun z => Z.testbit z 1)) in E. rewrite Z.land_spec, Z.bits_0 in E.
    unfold overflowed in N. by rewrite N in E. }
  apply HK. split; [|done|done]. eapply frames_set_mem; [exact M|]. intros x Hx. left. lia.
Qed.
End Peer.

(** ** The stubs *)

Section Stubs.
Context {G S : Type} `{Peer S} `{Literals}.
Implicit Types w : world G (relay S).

(** Stack enough for a stub, below everything else. *)
Record client_ok w : Prop := {
  cl_lo : 684 <= w_sp w;
  cl_hi : w_sp w < 4294967000;
  cl_mapped : mapped (w_mem w) (w_sp w - 684) 684;
  cl_area : area_mapped (w_mem w);
  cl_away : forall a, stack w 684 a -> ~ Script.area a;
}.

(** A C string outside the stack and the area. *)
Record cstring w (p : Z) (cs : list byte) : Prop := {
  cs_nonnull : p <> 0;
  cs_at : cstr8_at (w_mem w) p cs;
  cs_above : w_sp w <= p;
  cs_away : forall a, p <= a < p + Z.of_nat (length cs) + 1 -> ~ Script.area a;
  cs_short : Z.of_nat (length cs) < MAX_BIO_SIZE / 2;
}.

Abbreviation step s w w' := (rpc s (w_sp w - 684) (w_sp w) w w').

Lemma client_ok_step s w w' : client_ok w -> step s w w' -> client_ok w'.
Proof.
  intros [] [Hf _ _]. split; rewrite ?(fr_sp _ _ _ Hf); try done.
  - by eapply frames_mapped.
  - by eapply frames_mapped.
  - intros a. unfold stack. rewrite (fr_sp _ _ _ Hf). auto.
Qed.

Lemma cstring_step s w w' p cs : cstring w p cs -> step s w w' -> cstring w' p cs.
Proof.
  intros [H1 [H2 H2'] H3 H4 H5] [Hf _ _]. split; try done.
  - split; [|done]. eapply bytes_at_agree; [|exact H2]. intros a Ha. apply (fr_mem _ _ _ Hf).
    rewrite length_app in Ha. cbn in Ha. intros [?|?]; [lia|]. by eapply H4; [|done]; lia.
  - by rewrite (fr_sp _ _ _ Hf).
Qed.

Lemma client_frame w : client_ok w -> stub_frame (set_sp (w_sp w - 512) w).
Proof.
  intros [H1 H2 H3 H4 H5]. split; cbn [w_sp set_sp w_mem]; try lia; [|done|].
  - replace (w_sp w - 512 - 172) with (w_sp w - 684) by lia. exact H3.
  - intros a Ha. apply H5. unfold stack. lia.
Qed.

Lemma cstring_src w p cs :
  cstring w p cs -> let w1 := set_sp (w_sp w - 512) w in put_src (w_mem w1) (w_sp w1) 512 (PutStr8 p cs).
Proof. intros []. split; [done|]. split; [done|cbn; lia]. Qed.

Lemma cstring_wf w p cs : cstring w p cs -> item_wf (IStr (byte_val <$> cs)).
Proof.
  intros []. split; [|by rewrite length_fmap]. apply Forall_fmap, Forall_true.
  intros b. pose proof (byte_val_range b). cbn. lia.
Qed.

(** Leaving the frame of a stub. *)
Lemma leave_frame s w w' :
  rpc s (w_sp w - 512 - 172) (w_sp w - 512 + 512) (set_sp (w_sp w - 512) w) w' ->
  step s w (set_sp (w_sp w) w').
Proof.
  intros [Hf Hp Hpr]. split; try done.
  replace (w_sp w - 684) with (w_sp w - 512 - 172) by lia.
  replace (w_sp w) with (w_sp w - 512 + 512) at 2 by lia. by eapply frames_with_frame.
Qed.

(** The end of a stub: [binder_done], with the frame still there. *)
Lemma wp_done_stub {A} bs msg io (x : A) s w0 w Q :
  client_ok w0 ->
  rpc s (w_sp w0 - 512 - 172) (w_sp w0 - 512 + 512) (set_sp (w_sp w0 - 512) w0) w ->
  Z.land (flags io) BIO_F_SHARED <> 0 ->
  (forall w', step s w0 w' -> Q x w') ->
  wp (binder_done bs msg io ≫= fun _ => mret x) (fun y w' => Q y (set_sp (w_sp w0) w')) w.
Proof.
  intros Hok Hr Hf HQ. pose proof (client_frame w0 Hok) as [Hlo Hhi Hm _ _].
  cbn [w_sp set_sp w_mem] in Hlo, Hhi, Hm.
  pose proof (fr_sp _ _ _ (rpc_frames _ _ _ _ _ Hr)) as Esp. cbn [w_sp set_sp] in Esp.
  apply wp_bind. eapply wp_mono.
  { apply (done_rpc bs msg io (w_sp w0 - 512 - 172) (w_sp w0 - 512 + 512)); [lia|lia| |done].
    replace (w_sp w0 - 512 + 512 - (w_sp w0 - 512 - 172)) with 684 by lia.
    eapply frames_mapped; [apply Hr|exact Hm]. }
  intros r w' Hd. apply wp_ret, HQ, leave_frame. rewrite (rpc_peer _ _ _ _ _ Hr) in Hd.
  eapply rpc_trans; [exact Hr|exact Hd].
Qed.

(** The answer of the peer to a message. *)
Definition peer_answers (s : S) (target code : Z) (its : list item) (rep : list item) (P : S -> Prop) : Prop :=
  forall dat os, encodes its dat os -> exists a s',
    peer_call s target code dat os = (Some a, s') /\ answer_ok a /\
    encodes rep (a_data a) (a_offsets a) /\ P s'.

(** Publishing: the message ends with the object, the reply is a status. *)
Lemma svcmgr_publish_run fuel bs target name cs ptr (P : Z -> S -> Prop) w :
  client_ok w -> cstring w (lit SVC_MGR_NAME) (chars SVC_MGR_NAME) -> cstring w name cs ->
  (length cs <= 205)%nat -> word_ok ptr -> word_ok target ->
  (forall dat os, encodes [IU32 0; IStr svcmgr_id; IStr (byte_val <$> cs); IObj BINDER_TYPE_BINDER ptr] dat os ->
     exists a s n, peer_call (r_peer (w_drv w)) target SVC_MGR_ADD_SERVICE dat os = (Some a, s) /\ answer_ok a /\
       encodes [IU32 n] (a_data a) (a_offsets a) /\ P n s) ->
  wp (svcmgr_publish (Datatypes.S fuel) bs target name ptr)
     (fun r w' => exists n s, r = s32 n /\ P n s /\ step s w w') w.
Proof.
  intros Hok Hi Hn Hl Hptr Ht Hp. apply wp_with_frame.
  set (w1 := set_sp (w_sp w - 512) w). pose proof (client_frame w Hok) as Hf. fold w1 in Hf.
  eapply (wp_message_call [PutU32 0; PutStr8 (lit SVC_MGR_NAME) (chars SVC_MGR_NAME); PutStr8 name cs; PutObj ptr]
            fuel _ target SVC_MGR_ADD_SERVICE _
            (fun a s => exists n, encodes [IU32 n] (a_data a) (a_offsets a) /\ P n s) _ w1 Hf); [done|done|..].
  - forall_list; [done|by apply cstring_src..|done].
  - forall_list; cbn [put_item]; [done|by eapply cstring_wf..|by split].
  - cbn [fmap list_fmap put_item]. rewrite 4!items_size_cons. cbn [item_size items_size foldr].
    rewrite !length_fmap. change (length (chars SVC_MGR_NAME)) with 26%nat.
    change (align4 (2 * (Z.of_nat 26 + 1))) with 56. change flat_binder_object.sizeof with 16.
    rewrite align4_spec by lia. div_lia.
  - done.
  - intros dat os He. destruct (Hp dat os He) as (a & s & n & E & Ha & He' & HP). exists a, s. split_and!; [done|done|by exists n].
  - intros a s msg w' (n & He & HP) Hr Han. cbn [negb Z.eqb].
    pose proof (answered_reads _ _ _ Han He) as Hrd.
    apply wp_bind. eapply wp_run; [by eapply get_uint32_run|]. cbv beta iota.
    apply (wp_done_stub _ _ _ (s32 n) s w w' (fun r w' => exists n s, r = s32 n /\ P n s /\ step s w w'));
      [done|exact Hr|done|]. intros w2 Hs. by exists n, s.
Qed.

(** A name that does not fit is not sent, and the result is -1. *)
Lemma svcmgr_publish_overflow fuel bs target name cs ptr w :
  client_ok w -> cstring w (lit SVC_MGR_NAME) (chars SVC_MGR_NAME) -> cstring w name cs ->
  (205 < length cs)%nat -> word_ok ptr ->
  wp (svcmgr_publish fuel bs target name ptr)
     (fun r w' => r = -1 /\ step (r_peer (w_drv w)) w w') w.
Proof.
  intros Hok Hi Hn Hl Hptr. apply wp_with_frame.
  set (w1 := set_sp (w_sp w - 512) w). pose proof (client_frame w Hok) as Hf. fold w1 in Hf.
  eapply (wp_message_overflow [PutU32 0; PutStr8 (lit SVC_MGR_NAME) (chars SVC_MGR_NAME); PutStr8 name cs; PutObj ptr]
            fuel _ target SVC_MGR_ADD_SERVICE _ _ w1 Hf).
  - forall_list; [done|by apply cstring_src..|done].
  - forall_list; cbn [put_item]; [done|by eapply cstring_wf..|by split].
  - cbn [fmap list_fmap put_item]. rewrite 4!items_size_cons. cbn [item_size items_size foldr].
    rewrite !length_fmap. change (length (chars SVC_MGR_NAME)) with 26%nat.
    change (align4 (2 * (Z.of_nat 26 + 1))) with 56. change flat_binder_object.sizeof with 16.
    pose proof (cstring_wf _ _ _ Hn) as [_ Hmax]. rewrite length_fmap in Hmax.
    change (MAX_BIO_SIZE / 2) with 536870912 in Hmax. rewrite align4_spec by lia. div_lia.
  - intros msg w' Hr. apply wp_ret. split; [done|]. by apply leave_frame.
Qed.
End Stubs.

Section ClientStubs.
Context {S : Type} `{Peer S} `{Literals}.
Implicit Types w : world client (relay S).
Abbreviation step s w w' := (rpc s (w_sp w - 684) (w_sp w) w w').

Lemma say_to_run fuel iface ics handle code name cs n P w :
  client_ok w -> cstring w iface ics -> cstring w name cs -> word_ok handle -> word_ok code ->
  items_size [IStr (byte_val <$> ics); IStr (byte_val <$> cs)] <= 492 ->
  peer_answers (r_peer (w_drv w)) handle code
    [IU32 0; IStr (byte_val <$> ics); IStr (byte_val <$> cs)] [IU32 0; IU32 n] P ->
  wp (say_to (Datatypes.S fuel) iface handle code name)
     (fun r w' => r = s32 n /\ exists s, P s /\ step s w w') w.
Proof.
  intros Hok Hi Hn Hh Hc Hsz Hp. apply wp_with_frame. apply wp_bind. eapply wp_run; [reflexivity|].
  set (w1 := set_sp (w_sp w - 512) w). pose proof (client_frame w Hok) as Hf. fold w1 in Hf.
  eapply (wp_message_call [PutU32 0; PutStr8 iface ics; PutStr8 name cs] fuel _ handle code _
            (fun a s => encodes [IU32 0; IU32 n] (a_data a) (a_offsets a) /\ P s) _ w1 Hf Hh Hc).
  - forall_list; [done|by apply cstring_src..].
  - forall_list; cbn [put_item]; [done|by eapply cstring_wf..].
  - cbn [fmap list_fmap put_item]. rewrite items_size_cons. cbn [item_size]. lia.
  - done.
  - intros dat os He. destruct (Hp dat os He) as (a & s & E & Ha & He' & HP).
    exists a, s. split_and!; done.
  - intros a s msg w' [He HP] Hr Han. cbn [negb Z.eqb].
    pose proof (answered_reads _ _ _ Han He) as Hrd.
    apply wp_bind. eapply wp_run; [by eapply get_uint32_run|]. cbv beta iota.
    change (negb (s32 0 =? 0)) with false. cbv iota.
    apply wp_bind, wp_bind. eapply wp_run.
    { eapply (get_uint32_run _ _ n []). exact (bio_reads_step _ _ _ _ Hrd). }
    cbv beta iota. apply wp_ret. cbv beta iota.
    apply (wp_done_stub _ _ _ (s32 n) s w w' (fun r w' => r = s32 n /\ exists s, P s /\ step s w w'));
      [done|exact Hr|done|]. intros w2 Hs. split; [done|]. by exists s.
Qed.

(** A name that does not fit is not sent, and the result is 0. *)
Lemma say_to_overflow fuel iface ics handle code name cs w :
  client_ok w -> cstring w iface ics -> cstring w name cs ->
  492 < items_size [IStr (byte_val <$> ics); IStr (byte_val <$> cs)] ->
  wp (say_to fuel iface handle code name)
     (fun r w' => r = 0 /\ step (r_peer (w_drv w)) w w') w.
Proof.
  intros Hok Hi Hn Hsz. apply wp_with_frame. apply wp_bind. eapply wp_run; [reflexivity|].
  set (w1 := set_sp (w_sp w - 512) w). pose proof (client_frame w Hok) as Hf. fold w1 in Hf.
  eapply (wp_message_overflow [PutU32 0; PutStr8 iface ics; PutStr8 name cs] fuel _ handle code _ _ w1 Hf).
  - forall_list; [done|by apply cstring_src..].
  - forall_list; cbn [put_item]; [done|by eapply cstring_wf..].
  - cbn [fmap list_fmap put_item]. rewrite items_size_cons. cbn [item_size]. lia.
  - intros msg w' Hr. apply wp_ret. split; [done|]. by apply leave_frame.
Qed.

Lemma say_run fuel iface ics handle code P w :
  client_ok w -> cstring w iface ics -> word_ok handle -> word_ok code ->
  items_size [IStr (byte_val <$> ics)] <= 492 ->
  peer_answers (r_peer (w_drv w)) handle code [IU32 0; IStr (byte_val <$> ics)] [IU32 0] P ->
  wp (say (Datatypes.S fuel) iface handle code) (fun _ w' => exists s, P s /\ step s w w') w.
Proof.
  intros Hok Hi Hh Hc Hsz Hp. apply wp_with_frame. apply wp_bind. eapply wp_run; [reflexivity|].
  set (w1 := set_sp (w_sp w - 512) w). pose proof (client_frame w Hok) as Hf. fold w1 in Hf.
  eapply (wp_message_call [PutU32 0; PutStr8 iface ics] fuel _ handle code _ (fun a s => P s) _ w1 Hf Hh Hc).
  - forall_list; [done|by apply cstring_src].
  - forall_list; cbn [put_item]; [done|by eapply cstring_wf].
  - cbn [fmap list_fmap put_item]. rewrite items_size_cons. cbn [item_size]. lia.
  - done.
  - intros dat os He. destruct (Hp dat os He) as (a & s & E & Ha & He' & HP). by exists a, s.
  - intros a s msg w' HP Hr Han. cbn [negb Z.eqb].
    apply (wp_done_stub _ _ _ tt s w w' (fun _ w' => exists s, P s /\ step s w w'));
      [done|exact Hr|done|]. intros w2 Hs. by exists s.
Qed.

(** The reply to a lookup: a reference to the handle, or the word 0. *)
Definition found (h : Z) : item := if h =? 0 then IU32 0 else IObj BINDER_TYPE_HANDLE h.

Lemma get_ref_found w io h :
  bio_reads (w_mem w) io [found h] -> (h = 0 -> offs_avail io = 0) ->
  exists io', bio_get_ref io w = Ok (h, io') w /\ flags io' = Z.lor (flags io) (flags io').
Proof.
  intros Hr Hz. unfold found in Hr. destruct (Z.eqb_spec h 0) as [E|Hh]; [subst h; specialize (Hz eq_refl)|].
  - exists (bio_exhaust io). split.
    + apply (get_ref_missing w io []); [done| |done|by intros ?%elem_of_nil]. by rewrite Hz.
    + cbn. by rewrite Z.lor_assoc, Z.lor_diag.
  - exists (bio_advance 16 io). split; [|cbn; by rewrite Z.lor_diag].
    rewrite (get_ref_run w io _ _ [] Hr). by rewrite Z.eqb_refl.
Qed.

Lemma svcmgr_lookup_run fuel bs name cs h P w :
  client_ok w -> cstring w (lit SVC_MGR_NAME) (chars SVC_MGR_NAME) -> cstring w name cs ->
  (length cs <= 127)%nat ->
  peer_answers (r_peer (w_drv w)) BINDER_SERVICE_MANAGER SVC_MGR_CHECK_SERVICE
    [IU32 0; IStr svcmgr_id; IStr (byte_val <$> cs)] [found h] P ->
  wp (svcmgr_lookup (Datatypes.S fuel) bs BINDER_SERVICE_MANAGER name)
     (fun r w' => r = h /\ exists s, P s /\ step s w w') w.
Proof.
  intros Hok Hi Hn Hl Hp. apply wp_with_frame.
  set (w1 := set_sp (w_sp w - 512) w). pose proof (client_frame w Hok) as Hf. fold w1 in Hf.
  eapply (wp_message_call [PutU32 0; PutStr8 (lit SVC_MGR_NAME) (chars SVC_MGR_NAME); PutStr8 name cs] fuel _
            BINDER_SERVICE_MANAGER SVC_MGR_CHECK_SERVICE _
            (fun a s => encodes [found h] (a_data a) (a_offsets a) /\ P s) _ w1 Hf); [done|done|..].
  - forall_list; [done|by apply cstring_src..].
  - forall_list; cbn [put_item]; [done|by eapply cstring_wf..].
  - cbn [fmap list_fmap put_item]. rewrite 3!items_size_cons. cbn [item_size items_size foldr].
    rewrite !length_fmap. change (length (chars SVC_MGR_NAME)) with 26%nat.
    change (align4 (2 * (Z.of_nat 26 + 1))) with 56.
    pose proof (align4_bounds (2 * (Z.of_nat (length cs) + 1))). lia.
  - done.
  - intros dat os He. destruct (Hp dat os He) as (a & s & E & Ha & He' & HP). by exists a, s.
  - intros a s msg w' [He HP] Hr Han. cbn [negb Z.eqb].
    pose proof (answered_reads _ _ _ Han He) as Hrd.
    destruct (get_ref_found w' _ h Hrd) as (io' & Eg & Hfl).
    { intros ->. cbn. by rewrite (en_offs _ _ _ He). }
    apply wp_bind. eapply wp_run; [exact Eg|]. cbv beta iota.
    assert (Z.land (flags io') BIO_F_SHARED <> 0) as Hsh.
    { rewrite Hfl. cbn [flags txn_bio]. intros E. apply (f_equal (fun z => Z.testbit z 0)) in E.
      by rewrite Z.land_spec, Z.lor_spec, Z.bits_0 in E. }
    apply wp_bind. pose proof (client_frame w Hok) as [Hlo Hhi Hm _ _]. cbn [w_sp set_sp w_mem] in Hlo, Hhi, Hm.
    eapply (wp_mono _ (fun _ w2 => rpc s (w_sp w - 512 - 172) (w_sp w - 512 + 512) w1 w2)).
    + destruct (negb (h =? 0)); [|by apply wp_ret].
      pose proof (fr_sp _ _ _ (rpc_frames _ _ _ _ _ Hr)) as Esp. cbn [w_sp set_sp w1] in Esp.
      eapply wp_mono.
      { apply (cmd2_rpc bs BC_ACQUIRE h (w_sp w - 512 - 172) (w_sp w - 512 + 512)); [lia|lia|].
        replace (w_sp w - 512 + 512 - (w_sp w - 512 - 172)) with 684 by lia.
        eapply frames_mapped; [apply Hr|exact Hm]. }
      intros [] w2 Hd. rewrite (rpc_peer _ _ _ _ _ Hr) in Hd. eapply rpc_trans; [exact Hr|exact Hd].
    + intros _ w2 Hr2.
      apply (wp_done_stub _ _ _ h s w w2 (fun r w' => r = h /\ exists s, P s /\ step s w w'));
        [done|exact Hr2|done|]. intros w3 Hs. split; [done|]. by exists s.
Qed.
End ClientStubs.
