(* ===== verification/TestServerLemmas.v ===== *)
(** * The handlers of the demonstration services

    What a handler does with a well-formed request: the name is copied to the
    array, cut to characters, the greeting counted and printed, the count put
    in the reply. *)
From Stdlib Require Import ZArith Strings.Byte.
From stdpp Require Import base gmap list strings.
From S2P Require Import Prelude CMachine BinderProto BinderIo BinderParcel Binder BinderLemmas BinderParse ServiceManager TestServer TestClientLemmas.
Open Scope Z_scope.

Section Handler.
Context {D : Type} `{BinderDriver D}.
Implicit Types w : world greetings D.

(** ** The array *)

(** The characters of the units. *)
Definition narrow (us : list Z) : list byte := byte_of <$> us.

Lemma copy_name_run us : forall i name s w,
  bytes_at (w_mem w) (s + 2 * i) (u16s_bytes us) -> Forall (fun u => 0 <= u < 65536) us ->
  mapped (w_mem w) (name + i) (Z.of_nat (length us)) ->
  (forall a, name + i <= a < name + i + Z.of_nat (length us) ->
             ~ (s + 2 * i <= a < s + 2 * (i + Z.of_nat (length us)))) ->
  copy_name (length us) i name s w = Ok tt (set_mem (mem_write (w_mem w) (name + i) (narrow us)) w).
Proof.
  induction us as [|u us IH]; intros i name s w Hb Hu Hm Hd; [by destruct w|].
  apply Forall_cons in Hu as [Hu Hus]. cbn [length copy_name narrow fmap list_fmap].
  change (u16s_bytes (u :: us)) with (le_bytes 2 u ++ u16s_bytes us) in Hb.
  apply bytes_at_app in Hb as [Hb1 Hb2]. rewrite length_le_bytes in Hb2. cbn [length] in *.
  erewrite run_bind by (apply run_load; exact Hb1). rewrite le_val_bytes_2 by done.
  erewrite run_bind by (apply run_store; eapply mapped_sub; [exact Hm|lia..]).
  change (le_bytes 1 u) with [byte_of u].
  rewrite IH; cbn [w_mem set_mem]; [|..|done| |].
  - rewrite set_mem_set_mem. f_equal. f_equal.
    rewrite Z.add_assoc. by rewrite <- (mem_write_app (w_mem w) (name + i) [byte_of u]).
  - replace (s + 2 * (i + 1)) with (s + 2 * i + Z.of_nat 2) by lia.
    eapply bytes_at_agree; [|exact Hb2]. apply mem_write_agree.
    rewrite length_u16s_bytes. cbn [length].
    destruct (Z.le_gt_cases (name + i + 1) (s + 2 * i + 2)); [by right|left].
    destruct (Z.le_gt_cases (s + 2 * i + 2 + Z.of_nat (2 * length us)) (name + i)); [done|].
    destruct (Hd (name + i)); lia.
  - apply mem_write_mapped. eapply mapped_sub; [exact Hm|lia..].
  - intros a Ha Ha'. apply (Hd a); lia.
Qed.

Lemma narrow_chars cs : narrow (byte_val <$> cs) = cs.
Proof. unfold narrow. rewrite <- list_fmap_compose. induction cs; [done|]. cbn. by rewrite byte_of_val, IHcs. Qed.

(** The array after the loop and the terminator, and the message still
    there. *)
Lemma store_name us name s w :
  bytes_at (w_mem w) s (u16s_bytes us) -> Forall (fun u => 0 <= u < 65536) us ->
  (length us <= 511)%nat -> mapped (w_mem w) name 512 ->
  (s + 2 * Z.of_nat (length us) <= name \/ name + 512 <= s) ->
  exists m, bytes_at m name (narrow us ++ [x00]) /\ modifies (w_mem w) m name 512 /\
    forall B (k : unit -> C greetings D B),
      (copy_name (length us) 0 name s ≫= fun _ => store 1 (name + Z.of_nat (length us)) 0 ≫= k) w =
      k tt (set_mem m w).
Proof.
  intros Hb Hu Hl Hm Hd. set (m1 := mem_write (w_mem w) name (narrow us)).
  assert (length (narrow us) = length us) as Ln by apply length_fmap.
  assert (modifies (w_mem w) m1 name 512) as M1 by (apply mem_write_modifies; lia).
  exists (mem_write m1 (name + Z.of_nat (length us)) [x00]). split_and!.
  - apply bytes_at_app. rewrite Ln. split; [|apply mem_write_bytes_at].
    eapply bytes_at_agree; [|apply (mem_write_bytes_at (w_mem w))]. apply mem_write_agree. lia.
  - eapply modifies_trans; [exact M1|]. eapply modifies_weaken; [by apply (mem_write_modifies _ _ _ 1)|right; lia].
  - intros B k. erewrite run_bind.
    2: { rewrite copy_name_run; [rewrite Z.add_0_r; reflexivity|by rewrite Z.mul_0_r, Z.add_0_r|done|..].
         - rewrite Z.add_0_r. eapply mapped_sub; [exact Hm|lia..].
         - intros a. lia. }
    erewrite run_bind; [|apply run_store].
    + rewrite set_mem_set_mem. reflexivity.
    + cbn [w_mem set_mem]. eapply modifies_mapped; [exact M1|]. eapply mapped_sub; [exact Hm|lia..].
Qed.

Lemma load_cstr_run (w : world greetings D) p cs :
  bytes_at (w_mem w) p (cs ++ [x00]) -> x00 ∉ cs -> load_cstr p w = Ok cs w.
Proof.
  intros Hb Hz. unfold load_cstr. erewrite run_bind by (by apply strlen_run). rewrite Nat2Z.id.
  apply run_load_bytes. by apply bytes_at_prefix in Hb.
Qed.

(** ** A service *)

(** What a service does: its counters, the lines it prints. *)
Record service : Type := mkService {
  sv_bump : greetings -> greetings;
  sv_line : greetings -> event;
  sv_bump_to : greetings -> greetings;
  sv_line_to : greetings -> list byte -> event;
  sv_total : greetings -> Z;            (* greetings by name so far *)
}.

Definition said (g : greetings) (e : event) w : world greetings D :=
  mkWorld _ _ (w_mem w) (w_sp w) g (w_drv w) (w_trace w ++ [e]).

(** [say] and [say_to] implement the service. *)
Record implements (say : C greetings D unit) (say_to : Z -> C greetings D Z) (v : service) : Prop := {
  im_say w : say w = Ok tt (said (sv_bump v (w_glob w)) (sv_line v (w_glob w)) w);
  im_say_to p cs w : bytes_at (w_mem w) p (cs ++ [x00]) -> x00 ∉ cs ->
    say_to p w = Ok (sv_total v (sv_bump_to v (w_glob w)))
                    (said (sv_bump_to v (w_glob w)) (sv_line_to v (w_glob w) cs) w);
}.

Definition hello_service : service := {|
  sv_bump g := mkGreetings (s32 (hello_cnt g + 1)) (hello_to_cnt g) (goodbye_cnt g) (goodbye_to_cnt g);
  sv_line g := EvPrint "say hello : %d" [] (s32 (hello_cnt g + 1));
  sv_bump_to g := mkGreetings (hello_cnt g) (s32 (hello_to_cnt g + 1)) (goodbye_cnt g) (goodbye_to_cnt g);
  sv_line_to g cs := EvPrint "say hello to %s : %d" cs (s32 (hello_to_cnt g + 1));
  sv_total := hello_to_cnt;
|}.

Definition goodbye_service : service := {|
  sv_bump g := mkGreetings (hello_cnt g) (hello_to_cnt g) (s32 (goodbye_cnt g + 1)) (goodbye_to_cnt g);
  sv_line g := EvPrint "say goodbye : %d" [] (s32 (goodbye_cnt g + 1));
  sv_bump_to g := mkGreetings (hello_cnt g) (hello_to_cnt g) (goodbye_cnt g) (s32 (goodbye_to_cnt g + 1));
  sv_line_to g cs := EvPrint "say goodbye to %s : %d" cs (s32 (goodbye_to_cnt g + 1));
  sv_total := goodbye_to_cnt;
|}.

Lemma hello_implements : implements sayhello sayhello_to hello_service.
Proof.
  split; [done|]. intros p cs w Hb Hz. unfold sayhello_to.
  erewrite run_bind by done. erewrite run_bind by done.
  erewrite run_bind by (by apply load_cstr_run). done.
Qed.

Lemma goodbye_implements : implements saygoodbye saygoodbye_to goodbye_service.
Proof.
  split; [done|]. intros p cs w Hb Hz. unfold saygoodbye_to.
  erewrite run_bind by done. erewrite run_bind by done.
  erewrite run_bind by (by apply load_cstr_run). done.
Qed.

(** ** The handler *)

(** A handler of one of the two services, called on a request [t] with the
    items [its] and an empty reply buffer at [lo]. *)
Record request_ok w (txn : Z) (t : txn_data) (msg reply : binder_io) (lo : Z) (its : list item) : Prop := {
  rq_txn : txn_at (w_mem w) txn t;
  rq_msg : bio_reads (w_mem w) msg its;
  rq_reply : bio_writes (w_mem w) reply lo 256 4 [];
  rq_frame : mapped (w_mem w) (w_sp w - 512) 512;
  rq_apart : w_sp w <= lo;
  rq_away : data msg + items_size its <= w_sp w - 512 \/ w_sp w <= data msg;
}.

(** The frame and the reply buffer may change; the counters become [g], the
    line [e] is printed. *)
Record handled (g : greetings) (e : event) (lo : Z) w w' : Prop := {
  hd_sp : w_sp w' = w_sp w;
  hd_glob : w_glob w' = g;
  hd_drv : w_drv w' = w_drv w;
  hd_trace : w_trace w' = w_trace w ++ [e];
  hd_mem a : ~ (w_sp w - 512 <= a < w_sp w) -> ~ (lo <= a < lo + 256) -> w_mem w' !! a = w_mem w !! a;
  hd_dom a : is_Some (w_mem w !! a) -> is_Some (w_mem w' !! a);
}.

(** The strings of a request by name: the interface and the name. *)
Lemma two_strings_run w msg policy us vs :
  bio_reads (w_mem w) msg [IU32 policy; IStr us; IStr vs] ->
  exists s0 s msg1 msg2 msg3,
    bio_get_uint32 msg w = Ok (policy, msg1) w /\
    bio_get_string16 msg1 w = Ok (s0, Z.of_nat (length us), msg2) w /\
    bio_get_string16 msg2 w = Ok (s, Z.of_nat (length vs), msg3) w /\
    s <> 0 /\ bytes_at (w_mem w) s (u16s_bytes vs) /\ data msg <= s /\
    s + 2 * Z.of_nat (length vs) <= data msg + items_size [IU32 policy; IStr us; IStr vs].
Proof.
  intros Hm. pose proof (br_wf _ _ _ Hm) as Hwf. pose proof (br_lo _ _ _ Hm) as Hpos.
  apply Forall_cons in Hwf as [_ [Hwf1 [Hwf2 _]%Forall_cons]%Forall_cons].
  pose proof (bio_reads_step _ _ _ _ Hm) as Hm1. destruct (get_string16_run w _ _ _ Hm1) as [R1 _].
  pose proof (bio_reads_step _ _ _ _ Hm1) as Hm2. destruct (get_string16_run w _ _ _ Hm2) as [R2 Hb].
  pose proof (item_size_bytes _ Hwf2) as Hsb. pose proof (item_size_pos _ Hwf1).
  do 5 eexists. split; [by eapply get_uint32_run|]. split; [exact R1|]. split; [exact R2|].
  cbn [data bio_advance] in *. change (item_size (IU32 policy)) with 4 in *.
  split; [lia|]. split; [|split; [lia|]].
  - unfold str_bytes in Hb. rewrite u16s_bytes_app in Hb. by apply bytes_at_prefix in Hb.
  - rewrite !items_size_cons. change (item_size (IU32 policy)) with 4. change (items_size []) with 0.
    cbn [item_bytes] in Hsb. rewrite length_app, length_le_bytes, length_str_bytes in Hsb. lia.
Qed.

(** Writing the words of the reply. *)
Lemma reply_words_run ns reply lo m w :
  bio_writes (w_mem w) reply lo 256 4 [] -> modifies (w_mem w) m (w_sp w - 512) 512 -> w_sp w <= lo ->
  Forall word_ok ns -> (length ns <= 60)%nat ->
  exists reply' m', run_puts (PutU32 <$> ns) reply (set_mem m (set_sp (w_sp w - 512) w)) =
      Ok reply' (set_mem m' (set_sp (w_sp w - 512) w)) /\
    bio_writes m' reply' lo 256 4 (IU32 <$> ns) /\ modifies m m' lo 256.
Proof.
  intros [] M Hlo Hns Hl.
  assert (put_item <$> (PutU32 <$> ns) = IU32 <$> ns) as Ei by by rewrite <- list_fmap_compose.
  assert (items_size (IU32 <$> ns) = 4 * Z.of_nat (length ns) /\ items_objs (IU32 <$> ns) = 0) as [Es Eo].
  { clear. induction ns as [|n ns [IH1 IH2]]; [done|]. rewrite fmap_cons, items_size_cons, items_objs_cons.
    cbn [item_size item_objs length]. lia. }
  destruct (run_puts_fits (PutU32 <$> ns) reply (set_mem m (set_sp (w_sp w - 512) w)) lo 256 4 [])
    as (reply' & m' & R & W & Mr); cbn [w_mem set_mem].
  - split; try done. by eapply modifies_mapped.
  - by apply Forall_fmap, Forall_true.
  - apply Forall_fmap. eapply Forall_impl; [exact Hns|]. by intros n.
  - rewrite Ei, Es. cbn. lia.
  - rewrite Ei, Eo. cbn. lia.
  - exists reply', m'. rewrite set_mem_set_mem in R. rewrite Ei in W. by split_and!.
Qed.

Context (cmd cmd_to : Z) (say : C greetings D unit) (say_to : Z -> C greetings D Z) (v : service).
Context (Himpl : implements say say_to v).

Lemma handled_intro g e lo w m m' :
  modifies (w_mem w) m (w_sp w - 512) 512 -> modifies m m' lo 256 ->
  handled g e lo w (set_sp (w_sp w) (set_mem m' (set_sp (w_sp w - 512) (said g e w)))).
Proof.
  intros [M1 M2] [M3 M4]. split; try done; cbn [w_mem set_sp set_mem].
  - intros a H1 H2. rewrite M3 by done. apply M1. lia.
  - auto.
Qed.

Lemma handler_say bs txn t msg reply lo policy its w :
  request_ok w txn t msg reply lo (IU32 policy :: its) -> t_code t = cmd ->
  wp (service_handler cmd cmd_to say say_to bs txn msg reply)
     (fun '(r, reply') w' => r = 0 /\ bio_writes (w_mem w') reply' lo 256 4 [IU32 0] /\
        handled (sv_bump v (w_glob w)) (sv_line v (w_glob w)) lo w w') w.
Proof.
  intros [Ht Hm Hr Hf Hlo Haway] Hcode. apply wp_with_frame. set (w1 := set_sp (w_sp w - 512) w).
  apply wp_bind. eapply wp_run; [by eapply get_uint32_run|]. cbv beta iota.
  apply wp_bind. eapply wp_run; [apply (txn_load w1 txn t 2 _ Ht eq_refl)|].
  rewrite Hcode, Z.eqb_refl. apply wp_bind. eapply wp_run; [apply (im_say _ _ _ Himpl)|].
  destruct (reply_words_run [0] reply lo (w_mem w) (said (sv_bump v (w_glob w)) (sv_line v (w_glob w)) w))
    as (reply' & m' & R & W & M); [exact Hr|apply modifies_refl|done|by forall_list|cbn; lia|].
  apply (wp_run _ _ _ (0, reply') (set_mem m' (set_sp (w_sp w - 512) (said (sv_bump v (w_glob w)) (sv_line v (w_glob w)) w)))).
  { change (puts_then [PutU32 0] (fun reply => mret (0, reply)) reply (said (sv_bump v (w_glob w1)) (sv_line v (w_glob w1)) w1)
            = Ok (0, reply') (set_mem m' (set_sp (w_sp w - 512) (said (sv_bump v (w_glob w)) (sv_line v (w_glob w)) w)))).
    by rewrite (puts_then_run _ _ _ _ _ _ R). }
  split; [done|]. split; [exact W|]. apply (handled_intro _ _ _ w (w_mem w)); [apply modifies_refl|done].
Qed.

Lemma handler_say_to bs txn t msg reply lo policy us cs w :
  request_ok w txn t msg reply lo [IU32 policy; IStr us; IStr (byte_val <$> cs)] -> t_code t = cmd_to -> cmd <> cmd_to ->
  (length cs <= 511)%nat -> x00 ∉ cs ->
  let g := sv_bump_to v (w_glob w) in
  wp (service_handler cmd cmd_to say say_to bs txn msg reply)
     (fun '(r, reply') w' => r = 0 /\ bio_writes (w_mem w') reply' lo 256 4 [IU32 0; IU32 (u32 (sv_total v g))] /\
        handled g (sv_line_to v (w_glob w) cs) lo w w') w.
Proof.
  intros [Ht Hm Hr Hf Hlo Haway] Hcode Hne Hl Hz g. apply wp_with_frame. set (w1 := set_sp (w_sp w - 512) w).
  destruct (two_strings_run w1 msg _ _ _ Hm) as (s0 & s & msg1 & msg2 & msg3 & R0 & R1 & R2 & Hs & Hus & Hlow & Hhigh).
  pose proof (br_wf _ _ _ Hm) as Hwf. apply Forall_cons in Hwf as [_ [_ [Hwf2 _]%Forall_cons]%Forall_cons].
  apply wp_bind. eapply wp_run; [exact R0|]. cbv beta iota.
  apply wp_bind. eapply wp_run; [apply (txn_load w1 txn t 2 _ Ht eq_refl)|].
  rewrite Hcode, (proj2 (Z.eqb_neq cmd_to cmd)), Z.eqb_refl by congruence.
  apply wp_bind. eapply wp_run; [exact R1|]. cbv beta iota.
  apply wp_bind. eapply wp_run; [exact R2|]. cbv beta iota.
  rewrite (proj2 (Z.eqb_neq s 0)) by done.
  destruct (store_name (byte_val <$> cs) (w_sp w - 512) s w1 Hus (proj1 Hwf2)) as (m & Hname & M & Hrun);
    [by rewrite length_fmap|exact Hf|lia|].
  rewrite length_fmap in Hrun |- *. rewrite narrow_chars in Hname. rewrite Nat2Z.id.
  destruct (reply_words_run [0; u32 (sv_total v g)] reply lo m (said g (sv_line_to v (w_glob w) cs) w))
    as (reply' & m' & R & W & Mr); [exact Hr|exact M|done|forall_list; [done|apply u32_range]|cbn; lia|].
  eapply wp_run.
  { rewrite Hrun. erewrite run_bind by (by apply (im_say_to _ _ _ Himpl)).
    exact (puts_then_run [PutU32 0; PutU32 _] _ _ _ _ _ R). }
  split; [done|]. split; [exact W|]. by apply (handled_intro _ _ _ w m).
Qed.

(** A code of no function of the service. *)
Lemma handler_other bs txn t msg reply lo policy its w :
  request_ok w txn t msg reply lo (IU32 policy :: its) -> t_code t <> cmd -> t_code t <> cmd_to ->
  wp (service_handler cmd cmd_to say say_to bs txn msg reply)
     (fun '(r, reply') w' => r = -1 /\ reply' = reply /\
        handled (w_glob w) (EvPrint "unknown code %d" [] (s32 (t_code t))) lo w w') w.
Proof.
  intros [Ht Hm Hr Hf Hlo Haway] Hc Hc'. apply wp_with_frame. set (w1 := set_sp (w_sp w - 512) w).
  apply wp_bind. eapply wp_run; [by eapply get_uint32_run|]. cbv beta iota.
  apply wp_bind. eapply wp_run; [apply (txn_load w1 txn t 2 _ Ht eq_refl)|].
  rewrite (proj2 (Z.eqb_neq _ _) Hc), (proj2 (Z.eqb_neq _ _) Hc').
  apply wp_bind, wp_modify, wp_ret. split; [done|]. split; [done|]. by split.
Qed.

(** ** A name that does not fit *)

Lemma copy_name_app n1 n2 i name s w :
  copy_name (n1 + n2) i name s w =
  (copy_name n1 i name s ≫= fun _ => copy_name n2 (i + Z.of_nat n1) name s) w.
Proof.
  revert i w; induction n1 as [|n1 IH]; intros i w.
  - cbn [Nat.add copy_name]. by rewrite Z.add_0_r.
  - cbn [Nat.add copy_name]. unfold mbind, C_bind.
    destruct (load 2 (s + 2 * i) w) as [c w1|]; [|done].
    destruct (store 1 (name + i) c w1) as [[] w2|]; [|done].
    rewrite IH. unfold mbind, C_bind. by replace (i + 1 + Z.of_nat n1) with (i + Z.of_nat (S n1)) by lia.
Qed.

Lemma run_store_fault n p x w : (0 < n)%nat -> w_mem w !! p = None -> store n p x w = Fault (Segv p).
Proof.
  intros Hn Hp. unfold store, store_bytes. rewrite length_le_bytes.
  destruct n as [|n]; [lia|]. cbn [mem_get]. unfold mem_get; fold mem_get. by rewrite Hp.
Qed.

(** The loop and the terminator run off the array. *)
Lemma store_name_overrun us name s w B (k : unit -> C greetings D B) :
  bytes_at (w_mem w) s (u16s_bytes us) -> Forall (fun u => 0 <= u < 65536) us ->
  (512 <= length us)%nat -> mapped (w_mem w) name 512 -> w_mem w !! (name + 512) = None ->
  (s + 2 * Z.of_nat (length us) <= name \/ name + 512 <= s) ->
  (copy_name (length us) 0 name s ≫= fun _ => store 1 (name + Z.of_nat (length us)) 0 ≫= k) w =
  Fault (Segv (name + 512)).
Proof.
  intros Hb Hu Hl Hm Hn Hd.
  rewrite <- (take_drop 512 us) in Hb, Hu. set (us1 := take 512 us) in *. set (us2 := drop 512 us) in *.
  assert (length us1 = 512%nat /\ length us = (512 + length us2)%nat) as [L1 L2]
    by (unfold us1, us2; rewrite length_take, length_drop; lia).
  rewrite u16s_bytes_app in Hb. apply bytes_at_app in Hb as [Hb1 Hb2]. rewrite length_u16s_bytes, L1 in Hb2.
  apply Forall_app in Hu as [Hu1 Hu2].
  assert (copy_name 512 0 name s w = Ok tt (set_mem (mem_write (w_mem w) name (narrow us1)) w)) as R.
  { rewrite <- L1, copy_name_run; [by rewrite Z.add_0_r|by rewrite Z.mul_0_r, Z.add_0_r|done|..].
    - rewrite Z.add_0_r, L1. exact Hm.
    - rewrite L1. intros a. lia. }
  assert (forall q bs, (q + Z.of_nat (length bs) <= name \/ name + 512 <= q) -> bytes_at (w_mem w) q bs ->
            bytes_at (mem_write (w_mem w) name (narrow us1)) q bs) as Hkeep.
  { intros q bs Hq. apply bytes_at_agree, mem_write_agree. unfold narrow. rewrite length_fmap, L1. lia. }
  assert (mem_write (w_mem w) name (narrow us1) !! (name + 512) = None) as Hn1.
  { rewrite mem_write_lookup. unfold narrow. rewrite length_fmap, L1. case_decide; [lia|done]. }
  rewrite L2. unfold mbind at 1, C_bind at 1. rewrite copy_name_app. unfold mbind at 1, C_bind at 1. rewrite R.
  destruct us2 as [|u us2]; cbn [length copy_name].
  - cbn [copy_name mret C_ret]. unfold mret, C_ret. replace (Z.of_nat (512 + 0)) with 512 by lia.
    unfold mbind, C_bind. by rewrite run_store_fault by (done || lia).
  - change (u16s_bytes (u :: us2)) with (le_bytes 2 u ++ u16s_bytes us2) in Hb2. apply bytes_at_app in Hb2 as [Hb2 _].
    cbn [length] in *. apply Hkeep in Hb2; [|rewrite length_le_bytes; lia].
    unfold mbind, C_bind. erewrite run_load by exact Hb2.
    replace (name + Z.of_nat 512) with (name + 512) by lia. by rewrite run_store_fault by (done || lia).
Qed.

Lemma handler_overrun bs txn t msg reply policy us vs w :
  txn_at (w_mem w) txn t -> t_code t = cmd_to -> cmd <> cmd_to ->
  bio_reads (w_mem w) msg [IU32 policy; IStr us; IStr vs] -> (512 <= length vs)%nat ->
  mapped (w_mem w) (w_sp w - 512) 512 -> w_mem w !! w_sp w = None -> 
  data msg + items_size [IU32 policy; IStr us; IStr vs] <= w_sp w - 512 \/ w_sp w <= data msg ->
  service_handler cmd cmd_to say say_to bs txn msg reply w = Fault (Segv (w_sp w)).
Proof.
  intros Ht Hcode Hne Hm Hl Hf Hn Haway. unfold service_handler, with_frame. set (w1 := set_sp (w_sp w - 512) w).
  destruct (two_strings_run w1 msg _ _ _ Hm) as (s0 & s & msg1 & msg2 & msg3 & R0 & R1 & R2 & Hs & Hus & Hlow & Hhigh).
  pose proof (br_wf _ _ _ Hm) as Hwf. apply Forall_cons in Hwf as [_ [_ [Hwf2 _]%Forall_cons]%Forall_cons].
  erewrite run_bind by exact R0. cbv beta iota. erewrite run_bind by exact (txn_load w1 txn t 2 _ Ht eq_refl).
  rewrite Hcode, (proj2 (Z.eqb_neq cmd_to cmd)), Z.eqb_refl by congruence.
  erewrite run_bind by exact R1. cbv beta iota. erewrite run_bind by exact R2. cbv beta iota.
  rewrite (proj2 (Z.eqb_neq s 0)), Nat2Z.id by done. cbv iota.
  rewrite (store_name_overrun vs (w_sp w - 512) s w1 _ _ Hus (proj1 Hwf2) Hl Hf); [f_equal; f_equal; lia| |lia].
  by replace (w_sp w - 512 + 512) with (w_sp w) by lia.
Qed.
End Handler.
