(* ===== verification/TestClientProps.v ===== *)
(** * The demonstration client against the services it calls

    [GreetingServices] is what the client relies on: a service manager that
    knows both services, and services that count and print their greetings.
    Against any peer that offers this, [main] does what its command line
    asks. *)
From Stdlib Require Import ZArith Strings.Byte.
From stdpp Require Import base gmap list strings.
From S2P Require Import Prelude CMachine BinderProto BinderIo BinderParcel Binder BinderLemmas BinderParse BinderDriver ServiceManager BinderOpen TestServer TestClient Relay RelayCall TestClientLemmas TestServerLemmas.
Open Scope Z_scope.

(** ** The interface *)

(** What is left of a client's message for the strings: 512 bytes less four
    slots of the offsets table and the policy word. *)
Definition strings_max : Z := 492.

(** [ready g out s]: the peer in state [s] has the counters [g] and has
    printed [out]. *)
Class GreetingServices (S : Type) `{Peer S} (hello goodbye : Z)
    (ready : greetings -> list event -> S -> Prop) : Prop := {
    gs_handles : hello <> 0 /\ goodbye <> 0 /\ word_ok hello /\ word_ok goodbye;
    gs_lookup name h g out s :
      (name, h) ∈ [("hello"%string, hello); ("goodbye"%string, goodbye)] -> ready g out s ->
      peer_answers s BINDER_SERVICE_MANAGER SVC_MGR_CHECK_SERVICE
        [IU32 0; IStr svcmgr_id; IStr (byte_val <$> chars name)] [found h] (ready g out);
    gs_say v h ics g out s :
      (v, h) ∈ [(hello_service, hello); (goodbye_service, goodbye)] -> ready g out s ->
      items_size [IStr (byte_val <$> ics)] <= strings_max ->
      peer_answers s h HELLO_SVR_CMD_SAYHELLO [IU32 0; IStr (byte_val <$> ics)] [IU32 0]
        (ready (sv_bump v g) (out ++ [sv_line v g]));
    gs_say_to v h ics cs g out s :
      (v, h) ∈ [(hello_service, hello); (goodbye_service, goodbye)] -> ready g out s ->
      items_size [IStr (byte_val <$> ics); IStr (byte_val <$> cs)] <= strings_max -> x00 ∉ cs ->
      peer_answers s h HELLO_SVR_CMD_SAYHELLO_TO [IU32 0; IStr (byte_val <$> ics); IStr (byte_val <$> cs)]
        [IU32 0; IU32 (u32 (sv_total v (sv_bump_to v g)))]
        (ready (sv_bump_to v g) (out ++ [sv_line_to v g cs]));
}.

(** ** What a command line asks for *)

(** The service and the longest name that fits the client's message. *)
Definition service_of (arg : list byte) : option (service * nat) :=
  if decide (arg = chars "hello") then Some (hello_service, 227%nat)
  else if decide (arg = chars "goodbye") then Some (goodbye_service, 225%nat)
  else None.

(** What the client prints, and the services afterwards. *)
Definition client_spec (args : list (list byte)) (g : greetings) (out : list event) :
    list event * greetings * list event :=
  match args with
  | [_; arg] =>
      match service_of arg with
      | Some (v, _) => ([], sv_bump v g, out ++ [sv_line v g])
      | None => ([], g, out)
      end
  | [_; arg; name] =>
      match service_of arg with
      | Some (v, longest) =>
          if decide (length name <= longest)%nat then
            ([EvPrint "get ret of sayhello_to = %d" [] (sv_total v (sv_bump_to v g))],
             sv_bump_to v g, out ++ [sv_line_to v g name])
          else ([EvPrint "get ret of sayhello_to = %d" [] 0], g, out)
      | None => ([], g, out)
      end
  | _ => ([], g, out)
  end.

(** ** The environment of [main] *)

(** The device can be opened and mapped. *)
#[export] Instance relay_os {S} : BinderOs (relay S) := {|
    os_open d := (3, d);
    os_version d _ := (0, BINDER_CURRENT_PROTOCOL_VERSION, d);
    os_mmap d _ _ := (Script.lo, d);
  |}.

Section Opening.
Context {G S : Type}.
Implicit Types w : world G (relay S).

(** The stack pointer is the same, memory is the same or larger. *)
Record extends w w' : Prop := {
  ex_sp : w_sp w' = w_sp w;
  ex_mem a b : w_mem w !! a = Some b -> w_mem w' !! a = Some b;
}.

Lemma extends_mapped w w' p n : extends w w' -> mapped (w_mem w) p n -> mapped (w_mem w') p n.
Proof. intros [_ E] Hm a Ha. destruct (Hm a Ha) as [b Hb]. exists b. auto. Qed.

Lemma cstring_extends w w' p cs : cstring w p cs -> extends w w' -> cstring w' p cs.
Proof.
  intros [C1 [C2 C2'] C3 C4 C5] [E1 E2]. split; rewrite ?E1; try done. split; [|done].
  rewrite bytes_at_lookup in *. auto.
Qed.

Lemma client_ok_extends w w' : client_ok w -> extends w w' -> client_ok w'.
Proof.
  intros [C1 C2 C3 C4 C5] E. split; rewrite ?(ex_sp _ _ E); try done.
  - by eapply extends_mapped.
  - by eapply extends_mapped.
  - intros a. unfold stack. rewrite (ex_sp _ _ E). apply C5.
Qed.

(** The device is opened: the statics and the peer are as before. *)
Lemma open_run `{MallocOk} size w p m :
  malloc (w_mem w) sizeof_binder_state = (p, m) -> p <> 0 ->
  exists w', binder_open size w = Ok (Some (p, mkBs 3 Script.lo size)) w' /\
    extends w w' /\ w_glob w' = w_glob w /\ w_drv w' = w_drv w /\
    exists evs, w_trace w' = w_trace w ++ evs /\ prints evs = [].
Proof.
  intros Em Hp. eexists. split.
  { unfold binder_open, do_malloc. erewrite run_bind by (rewrite Em; reflexivity). cbv beta.
    rewrite (proj2 (Z.eqb_neq p 0)) by done. reflexivity. }
  split; [|split; [done|split; [done|]]].
  - split; [done|]. intros a b Ha. cbn [w_mem set_drv set_mem].
    destruct (malloc_fresh _ _ _ _ Em Hp) as (_ & _ & Hf & _ & Ho); [done|].
    rewrite Ho; [done|]. intros Hin. apply Hf in Hin. congruence.
  - eexists [_; _; _; _]. cbn [w_trace set_drv]. rewrite <- !app_assoc. cbn [app]. split; [reflexivity|].
    done.
Qed.
End Opening.

Section Main.
Context {S : Type} `{GreetingServices S hello goodbye ready} `{Literals}.
Implicit Types w : world client (relay S).

(** The string literals of the program. *)
Definition literals : list string := [SVC_MGR_NAME; "hello"; "goodbye"; "IHelloService"; "IGoodbyeService"]%string.

Record client_world w : Prop := {
  cw_ok : client_ok w;
  cw_lits s : s ∈ literals -> cstring w (lit s) (chars s);
}.

Lemma client_world_step s w w' :
  client_world w -> rpc s (w_sp w - 684) (w_sp w) w w' -> client_world w'.
Proof.
  intros [Hok Hl] Hs. split; [by eapply client_ok_step|]. intros x Hx. eapply cstring_step; [|exact Hs]. auto.
Qed.

Lemma client_world_extends w w' : client_world w -> extends w w' -> client_world w'.
Proof.
  intros [Hok Hl] E. split; [by eapply client_ok_extends|]. intros s Hs. eapply cstring_extends; eauto.
Qed.

(** [strcmp] against a literal. *)
Lemma streq_run p cs s w :
  bytes_at (w_mem w) p (cs ++ [x00]) -> x00 ∉ cs -> x00 ∉ s ->
  streq p s w = Ok (bool_decide (cs = s)) w.
Proof.
  revert p cs; induction s as [|b s IH]; intros p cs Hb Hc Hs; cbn [streq].
  - destruct cs as [|c cs].
    + erewrite run_bind by (apply run_load; exact Hb). done.
    + change ((c :: cs) ++ [x00]) with ([c] ++ (cs ++ [x00])) in Hb. apply bytes_at_app in Hb as [Hb _].
      erewrite run_bind by (apply run_load; exact Hb). rewrite le_val_1.
      apply not_elem_of_cons in Hc as [Hc _]. destruct (Z.eqb_spec (byte_val c) 0) as [E|_].
      * apply byte_val_0 in E. congruence.
      * by rewrite bool_decide_eq_false_2.
  - apply not_elem_of_cons in Hs as [Hb0 Hs]. destruct cs as [|c cs].
    + erewrite run_bind by (apply run_load; exact Hb). change (le_val ([] ++ [x00])) with 0.
      destruct (Z.eqb_spec 0 (byte_val b)) as [E|_]; [symmetry in E; apply byte_val_0 in E; congruence|].
      by rewrite bool_decide_eq_false_2.
    + change ((c :: cs) ++ [x00]) with ([c] ++ (cs ++ [x00])) in Hb. apply bytes_at_app in Hb as [Hb1 Hb2].
      erewrite run_bind by (apply run_load; exact Hb1). rewrite le_val_1.
      apply not_elem_of_cons in Hc as [_ Hc]. destruct (Z.eqb_spec (byte_val c) (byte_val b)) as [E|E].
      * apply (f_equal byte_of) in E. rewrite !byte_of_val in E. subst c.
        rewrite (IH (p + 1) cs); [|exact Hb2|done|done]. do 2 f_equal. apply bool_decide_ext.
        split; [by intros ->|by intros [= ->]].
      * rewrite bool_decide_eq_false_2; [done|]. intros [= -> _]. done.
Qed.

(** ** Where [main] stands *)

(** The statics are [c], the services have the counters [g] and have printed
    [out], the client has printed [lines] since [w0]; the strings [args] are at
    [argv]. *)
Record point (w0 : world client (relay S)) (argv : list Z) (args : list (list byte)) (c : client)
    (g : greetings) (out lines : list event) w : Prop := {
  pt_world : client_world w;
  pt_glob : w_glob w = c;
  pt_ready : ready g out (r_peer (w_drv w));
  pt_prints : prints (w_trace w) = prints (w_trace w0) ++ lines;
  pt_args : Forall2 (cstring w) argv args;
}.

Section Points.
Context (w0 : world client (relay S)) (argv : list Z) (args : list (list byte)).
Abbreviation point := (point w0 argv args).

(** A call that leaves the services in state [s]. *)
Lemma point_rpc c g out g' out' lines s w w' :
  point c g out lines w -> rpc s (w_sp w - 684) (w_sp w) w w' -> ready g' out' s -> point c g' out' lines w'.
Proof.
  intros [P1 P2 P3 P4 P5] Hs Hr. pose proof Hs as [[F1 F2 F3 F4] R2 R3]. split.
  - by eapply client_world_step.
  - congruence.
  - by rewrite R2.
  - by rewrite R3.
  - eapply Forall2_impl; [exact P5|]. intros p cs Hc. by eapply cstring_step.
Qed.

Lemma point_extends c c' g out lines evs w w' :
  point c g out lines w -> extends w w' -> w_glob w' = c' -> w_drv w' = w_drv w -> w_trace w' = w_trace w ++ evs ->
  point c' g out (lines ++ prints evs) w'.
Proof.
  intros [P1 P2 P3 P4 P5] E Hg Hd Ht. split.
  - by eapply client_world_extends.
  - done.
  - by rewrite Hd.
  - by rewrite Ht, prints_app, P4, app_assoc.
  - eapply Forall2_impl; [exact P5|]. intros p cs Hc. by eapply cstring_extends.
Qed.

Lemma point_print fmt bs n c g out lines w :
  point c g out lines w ->
  wp (emit (EvPrint fmt bs n)) (fun _ => point c g out (lines ++ [EvPrint fmt bs n])) w.
Proof. intros P. apply wp_modify. by apply (point_extends c c g out lines [EvPrint fmt bs n] w); [|split|destruct P|..]. Qed.

Lemma point_glob c' c g out lines w :
  point c g out lines w -> wp (put_glob c') (fun _ => point c' g out lines) w.
Proof.
  intros P. apply wp_modify. rewrite <- (app_nil_r lines).
  apply (point_extends c c' g out lines [] w); try done. cbn. by rewrite app_nil_r.
Qed.

Lemma point_get c g out lines w :
  point c g out lines w -> wp get_glob (fun c' w' => c' = c /\ w' = w) w.
Proof. intros P. split; [|done]. apply P. Qed.

Lemma point_lookup fuel bs name h c g out lines w :
  (name, h) ∈ [("hello"%string, hello); ("goodbye"%string, goodbye)] -> point c g out lines w ->
  wp (svcmgr_lookup (Datatypes.S fuel) bs BINDER_SERVICE_MANAGER (lit name))
     (fun r w' => r = h /\ point c g out lines w') w.
Proof.
  intros Hn P. pose proof P as [[Hok Hl] _ Hr _ _].
  assert (name ∈ literals /\ (length (chars name) <= 127)%nat) as [Hin Hlen].
  { rewrite !elem_of_cons, elem_of_nil in Hn.
    destruct Hn as [[= -> ->]|[[= -> ->]|[]]]; (split; [apply (bool_decide_unpack _); by vm_compute|cbn; lia]). }
  eapply wp_mono.
  { apply (svcmgr_lookup_run fuel bs (lit name) (chars name) h (ready g out)); try done.
    - apply Hl. by left.
    - by apply Hl.
    - by apply gs_lookup. }
  intros r w' (-> & s & Hs & Hstep). split; [done|]. by eapply point_rpc.
Qed.

Lemma point_release bs h c g out lines w :
  point c g out lines w -> wp (binder_release bs h) (fun _ => point c g out lines) w.
Proof.
  intros P. pose proof P as [[[C1 C2 C3 C4 C5] _] _ Hr _ _]. eapply wp_mono.
  { apply (cmd2_rpc bs BC_RELEASE h (w_sp w - 684) (w_sp w)); [lia|lia|].
    eapply mapped_sub; [exact C3|lia..]. }
  intros [] w' Hs. by eapply point_rpc.
Qed.

(** The services with the handle, the interface name and the longest name
    the client can send. *)
Definition offered : list (service * Z * string * nat) :=
  [(hello_service, hello, "IHelloService"%string, 227%nat); (goodbye_service, goodbye, "IGoodbyeService"%string, 225%nat)].

Lemma offered_facts v h iface longest :
  (v, h, iface, longest) ∈ offered ->
  (v, h) ∈ [(hello_service, hello); (goodbye_service, goodbye)] /\ iface ∈ literals /\ word_ok h /\
  items_size [IStr (byte_val <$> chars iface)] <= 492 /\
  (forall cs, Z.of_nat (length cs) < MAX_BIO_SIZE / 2 ->
     items_size [IStr (byte_val <$> chars iface); IStr (byte_val <$> cs)] <= 492 <-> (length cs <= longest)%nat) /\
  (longest <= 511)%nat /\ forall g, s32 (u32 (sv_total v (sv_bump_to v g))) = sv_total v (sv_bump_to v g).
Proof.
  assert (forall x, s32 (u32 (s32 x)) = s32 x) as Hs32.
  { intros x. unfold s32, u32. repeat case_cmp; div_lia. }
  pose proof (gs_handles (S := S)) as (_ & _ & Hh & Hg).
  unfold offered. intros Hin. rewrite !elem_of_cons, elem_of_nil in Hin.
  destruct Hin as [[= -> -> -> ->]|[[= -> -> -> ->]|[]]]; (split_and!; try done);
    try solve [repeat (first [left | right])]; try match goal with |- items_size _ <= 492 => vm_compute; discriminate end;
    try (intros cs Hcs; rewrite !items_size_cons; change (items_size []) with 0; cbn [item_size]; rewrite !length_fmap).
  - change (align4 (2 * (Z.of_nat (length (chars "IHelloService")) + 1))) with 28.
    change (MAX_BIO_SIZE / 2) with 536870912 in Hcs. rewrite align4_spec by lia. div_lia.
  - intros g. apply Hs32.
  - change (align4 (2 * (Z.of_nat (length (chars "IGoodbyeService")) + 1))) with 32.
    change (MAX_BIO_SIZE / 2) with 536870912 in Hcs. rewrite align4_spec by lia. div_lia.
  - intros g. apply Hs32.
Qed.

Lemma point_say fuel v h iface longest c g out lines w :
  (v, h, iface, longest) ∈ offered -> point c g out lines w ->
  wp (say (Datatypes.S fuel) (lit iface) h HELLO_SVR_CMD_SAYHELLO)
     (fun _ => point c (sv_bump v g) (out ++ [sv_line v g]) lines) w.
Proof.
  intros Ho P. destruct (offered_facts _ _ _ _ Ho) as (Hv & Hi & Hh & Hsz & _).
  pose proof P as [[Hok Hl] _ Hr _ _]. eapply wp_mono.
  { apply (say_run fuel (lit iface) (chars iface) h HELLO_SVR_CMD_SAYHELLO
             (ready (sv_bump v g) (out ++ [sv_line v g]))); try done; [by apply Hl|by apply gs_say]. }
  intros [] w' (s & Hs & Hstep). by eapply point_rpc.
Qed.

Lemma point_say_to fuel v h iface longest p cs c g out lines w :
  (v, h, iface, longest) ∈ offered -> point c g out lines w -> cstring w p cs ->
  wp (say_to (Datatypes.S fuel) (lit iface) h HELLO_SVR_CMD_SAYHELLO_TO p)
     (fun r w' => if decide (length cs <= longest)%nat
        then r = sv_total v (sv_bump_to v g) /\ point c (sv_bump_to v g) (out ++ [sv_line_to v g cs]) lines w'
        else r = 0 /\ point c g out lines w') w.
Proof.
  intros Ho P Hc. destruct (offered_facts _ _ _ _ Ho) as (Hv & Hi & Hh & _ & Hfit & Hlong & Hs32).
  pose proof P as [[Hok Hl] _ Hr _ _]. specialize (Hfit cs (cs_short _ _ _ Hc)). case_decide as Hd.
  - eapply wp_mono.
    { apply (say_to_run fuel (lit iface) (chars iface) h HELLO_SVR_CMD_SAYHELLO_TO p cs
               (u32 (sv_total v (sv_bump_to v g))) (ready (sv_bump_to v g) (out ++ [sv_line_to v g cs]))); try done.
      - by apply Hl.
      - by apply Hfit.
      - apply gs_say_to; [done|done|by apply Hfit|apply (cs_at _ _ _ Hc)]. }
    intros r w' (-> & s & Hs & Hstep). split; [by apply Hs32|]. by eapply point_rpc.
  - eapply wp_mono.
    { apply (say_to_overflow (Datatypes.S fuel) (lit iface) (chars iface) h HELLO_SVR_CMD_SAYHELLO_TO p cs); try done.
      - by apply Hl.
      - apply Z.lt_nge. by rewrite Hfit. }
    intros r w' [-> Hstep]. split; [done|]. by eapply point_rpc.
Qed.
End Points.

(** The branch of a service: [call] and [call_to] are its two stubs. *)
Lemma service_branch w0 argv args fuel v h iface longest c g out lines w (call : C client (relay S) unit)
    (call_to : Z -> C client (relay S) Z) :
  (v, h, iface, longest) ∈ offered -> point w0 argv args c g out lines w -> (2 <= length argv)%nat ->
  (forall Q, wp (say (Datatypes.S fuel) (lit iface) h HELLO_SVR_CMD_SAYHELLO) Q w -> wp call Q w) ->
  (forall p Q, wp (say_to (Datatypes.S fuel) (lit iface) h HELLO_SVR_CMD_SAYHELLO_TO p) Q w -> wp (call_to p) Q w) ->
  service_of (nth 1 args []) = Some (v, longest) ->
  wp (if Z.of_nat (length argv) =? 2 then call
      else if Z.of_nat (length argv) =? 3 then
        ret ← call_to (nth 2 argv 0); emit (EvPrint "get ret of sayhello_to = %d" [] ret)
      else mret ())
     (fun _ w' => let '(l, g', out') := client_spec args g out in point w0 argv args c g' out' (lines ++ l) w') w.
Proof.
  intros Ho P Hl Hcall Hcall_to Hsv. pose proof (pt_args _ _ _ _ _ _ _ _ P) as Ha.
  destruct argv as [|p0 [|p1 ps]]; cbn in Hl; [lia|lia|].
  apply Forall2_cons_inv_l in Ha as (a0 & as0 & _ & Ha & ->).
  apply Forall2_cons_inv_l in Ha as (a1 & as1 & _ & Ha & ->). cbn [nth] in Hsv.
  destruct ps as [|p2 [|p3 ps]].
  - apply Forall2_nil_inv_l in Ha as ->. cbn [client_spec length]. rewrite Hsv, app_nil_r.
    apply Hcall. by eapply point_say.
  - apply Forall2_cons_inv_l in Ha as (a2 & as2 & Ha2 & Ha & ->). apply Forall2_nil_inv_l in Ha as ->.
    cbn [client_spec length nth]. rewrite Hsv. cbn [Z.of_nat Pos.of_succ_nat Pos.succ Z.eqb Pos.eqb].
    apply wp_bind, Hcall_to. eapply wp_mono; [by eapply point_say_to|].
    intros r w'. cbv beta. case_decide; intros [-> P']; by apply point_print.
  - assert (client_spec (a0 :: a1 :: as1) g out = ([], g, out)) as ->.
    { apply Forall2_cons_inv_l in Ha as (a2 & as2 & _ & Ha & ->).
      by apply Forall2_cons_inv_l in Ha as (a3 & as3 & _ & _ & ->). }
    rewrite app_nil_r. cbn [length]. rewrite !(proj2 (Z.eqb_neq _ _)) by lia. by apply wp_ret.
Qed.

Lemma client_call_run w0 argv args fuel bs g out lines w :
  let c := mkClient bs hello goodbye in
  point w0 argv args c g out lines w -> (2 <= length argv)%nat ->
  wp (client_call (Datatypes.S fuel) argv)
     (fun _ w' => let '(l, g', out') := client_spec args g out in point w0 argv args c g' out' (lines ++ l) w') w.
Proof.
  intros c P Hl. pose proof (pt_args _ _ _ _ _ _ _ _ P) as Ha.
  assert (exists a1, nth 1 args [] = a1 /\ cstring w (nth 1 argv 0) a1) as (a1 & Ea & [_ [Hb Hz] _ _ _]).
  { destruct argv as [|p0 [|p1 ps]]; cbn in Hl; [lia|lia|].
    apply Forall2_cons_inv_l in Ha as (a0 & as0 & _ & Ha & ->).
    apply Forall2_cons_inv_l in Ha as (a1 & as1 & Ha1 & Ha & ->). by exists a1. }
  assert (forall name, name ∈ literals -> x00 ∉ chars name) as Hlit.
  { intros name Hin. apply (cw_lits _ (pt_world _ _ _ _ _ _ _ _ P) name Hin). }
  unfold client_call. apply wp_bind. eapply wp_run.
  { apply (streq_run _ a1); [exact Hb|exact Hz|]. apply Hlit. by right; left. }
  apply wp_bind. unfold service_of in *. case_bool_decide as Eh.
  - apply wp_ret. eapply (service_branch w0 argv args fuel hello_service hello "IHelloService" 227 c); [by left|done|done| | |].
    + intros Q HQ. apply wp_bind. eapply wp_run; [reflexivity|]. rewrite (pt_glob _ _ _ _ _ _ _ _ P). exact HQ.
    + intros p Q HQ. apply wp_bind. eapply wp_run; [reflexivity|]. rewrite (pt_glob _ _ _ _ _ _ _ _ P). exact HQ.
    + unfold service_of. by rewrite Ea, decide_True.
  - eapply wp_run.
    { apply (streq_run _ a1); [exact Hb|exact Hz|]. apply Hlit. by do 2 right; left. }
    cbv iota. case_bool_decide as Eg.
    + eapply (service_branch w0 argv args fuel goodbye_service goodbye "IGoodbyeService" 225 c); [by right; left|done|done| | |].
      * intros Q HQ. apply wp_bind. eapply wp_run; [reflexivity|]. rewrite (pt_glob _ _ _ _ _ _ _ _ P). exact HQ.
      * intros p Q HQ. apply wp_bind. eapply wp_run; [reflexivity|]. rewrite (pt_glob _ _ _ _ _ _ _ _ P). exact HQ.
      * unfold service_of. by rewrite Ea, decide_False, decide_True.
    + assert (client_spec args g out = ([], g, out)) as ->; [|rewrite app_nil_r; by apply wp_ret].
      unfold client_spec, service_of. destruct args as [|? [|a [|? []]]]; try done; cbn [nth] in Ea; subst a1;
        by rewrite !decide_False.
Qed.

(** ** [main] *)

Context `{MallocOk}.

(** Steps over a [get_glob] at a point of [main]. *)
Ltac with_glob :=
  apply wp_bind; eapply wp_mono; [by eapply point_get|];
  let c := fresh in let w := fresh "w" in intros c w [-> ->].

(** What the client prints once it has a handle. *)
Definition handle_lines : list event :=
  [EvPrint "Handle for goodbye service = %d" [] (s32 goodbye);
   EvPrint "Handle for hello service = %d" [] (s32 hello)].

Lemma client_main_run fuel argv args g out c w p m :
  point w argv args c g out [] w -> (2 <= length argv)%nat ->
  malloc (w_mem w) sizeof_binder_state = (p, m) -> p <> 0 ->
  wp (client_main (Datatypes.S fuel) argv)
     (fun r w' => r = 0 /\ let '(l, g', out') := client_spec args g out in
        exists c', point w argv args c' g' out' (handle_lines ++ l) w') w.
Proof.
  intros P Hl Em Hp. pose proof (gs_handles (S := S)) as (Hh & Hg & _ & _).
  unfold client_main. case_cmp; [lia|].
  destruct (open_run (128 * 1024) w p m Em Hp) as (w1 & R1 & Hex & Egl & Edr & evs & Htr & Hpr).
  apply wp_bind. eapply wp_run; [exact R1|]. cbv beta iota.
  assert (point w argv args (w_glob w) g out [] w1) as P1.
  { pose proof (point_extends w argv args c (w_glob w) g out [] evs w w1 P Hex Egl Edr Htr) as P1.
    by rewrite Hpr in P1. }
  set (bs := mkBs 3 Script.lo (128 * 1024)).
  with_glob. apply wp_bind. eapply wp_mono; [by eapply point_glob|]. intros [] w2 P2.
  apply wp_bind. eapply wp_mono.
  { apply (point_lookup w argv args fuel bs "goodbye" goodbye); [by right; left|exact P2]. }
  intros h w3 [-> P3]. rewrite (proj2 (Z.eqb_neq goodbye 0)) by done.
  with_glob. apply wp_bind. eapply wp_mono; [by eapply point_glob|]. intros [] w4 P4.
  apply wp_bind. eapply wp_mono; [by eapply point_print|]. intros [] w5 P5.
  apply wp_bind. eapply wp_mono.
  { apply (point_lookup w argv args fuel bs "hello" hello); [by left|exact P5]. }
  intros h w6 [-> P6]. rewrite (proj2 (Z.eqb_neq hello 0)) by done.
  with_glob. apply wp_bind. eapply wp_mono; [by eapply point_glob|]. intros [] w7 P7.
  apply wp_bind. eapply wp_mono; [by eapply point_print|]. intros [] w8 P8.
  apply wp_bind. eapply wp_mono; [by eapply (client_call_run w argv args fuel bs)|].
  intros [] w9 P9. destruct (client_spec args g out) as [[l g'] out'].
  apply wp_bind. eapply wp_mono; [by eapply point_release|]. intros [] w10 P10.
  apply wp_ret. split; [done|]. by eexists.
Qed.
End Main.
