(* ===== verification/Process.v ===== *)
(** * A process as a peer

    A program of this library that sits in its looper: a call is put in its
    read buffer and area, [binder_parse] runs its handler, and the reply is
    what the process last wrote to the driver. *)
From Stdlib Require Import ZArith Strings.Byte.
From stdpp Require Import base gmap list strings.
From S2P Require Import Prelude CMachine BinderProto BinderIo BinderParcel Binder BinderLemmas BinderParse BinderDriver BinderCommands BinderCall Relay RelayCall TestClientLemmas.
Open Scope Z_scope.

(** The answer carries the items. *)
Definition answers_with (its : list item) (a : answer) : Prop :=
  answer_ok a /\ encodes its (a_data a) (a_offsets a).

(** Word [i] of the bytes handed to the driver. *)
Definition payload_word (bs : list byte) (i : nat) : Z := le_val (take 4 (drop (4 * i) bs)).

(** The BC_REPLY behind the BC_FREE_BUFFER of [binder_send_reply], with the
    memory it refers to. *)
Definition reply_of {G} (w : world G Script.state) : option answer :=
  match last (w_trace w) with
  | Some (EvIoctl _ _ payload) =>
      if payload_word payload 2 =? BC_REPLY then
        dat ← mem_get (w_mem w) (payload_word payload 11) (Z.to_nat (payload_word payload 9));
        os ← mem_get (w_mem w) (payload_word payload 12) (Z.to_nat (payload_word payload 10));
        Some (mkAnswer (payload_word payload 6) dat os)
      else None
  | _ => None
  end.

Section Process.
Context {G : Type} (call_death : binder_state -> Z -> Z -> C G Script.state unit).
Context (bs : binder_state) (func : @binder_handler G Script.state).
Implicit Types w : world G Script.state.

(** The process with the message in its area and the transaction in its
    read buffer, which is at the stack pointer. *)
Definition with_call (t : txn_data) (dat os : list byte) w : world G Script.state :=
  set_mem (mem_write (put_msg (w_mem w) dat os) (w_sp w) (u32s_bytes (stream [MTxn t]))) w.

(** [ptr]: what the transaction carries as its target; [euid]: the caller's
    user id. *)
Definition process_call (ptr euid code : Z) (dat os : list byte) w : option answer * world G Script.state :=
  if msg_fits dat os then
    match binder_parse call_death bs false no_io (w_sp w) 44 (Some func)
            (with_call (msg_txn ptr code 0 euid dat os) dat os w) with
    | Ok _ w' => (reply_of w', w')
    | Fault _ => (None, w)
    end
  else (None, w).

(** ** What a call does *)

(** A process in its looper: the read buffer at the stack pointer, [room]
    bytes of stack below it, all of it outside the area. *)
Record looping (room : Z) w : Prop := {
  lp_lo : room <= w_sp w;
  lp_hi : w_sp w + 128 < 4294967000;
  lp_stack : mapped (w_mem w) (w_sp w - room) (room + 128);
  lp_area : area_mapped (w_mem w);
  lp_away : forall a, w_sp w - room <= a < w_sp w + 128 -> ~ Script.area a;
}.

(** The handler's world: the reply buffer is the frame of the parser. *)
Definition at_handler (w1 : world G Script.state) : world G Script.state := set_sp (w_sp w1 - 256) w1.

(** What a handler leaves when it has served the call: its items in the
    reply and status 0 (a flag raised in the reply is not sent), or another
    status, which is then the reply; the read buffer is as it was. *)
Record served (its : list item) (w1 : world G Script.state) (r : Z) (reply : binder_io) (w2 : world G Script.state) : Prop := {
  se_reply : r = 0 /\ bio_writes (w_mem w2) (bio_cleared reply) (w_sp w1 - 256) 256 4 its \/
             r <> 0 /\ its = [IU32 (u32 r)];
  se_sp : w_sp w2 = w_sp w1 - 256;
  se_dom : forall a, is_Some (w_mem w1 !! a) -> is_Some (w_mem w2 !! a);
  se_buffer : agree (w_mem w1) (w_mem w2) (w_sp w1) 44;
}.

Lemma stream_txn_at m p t : words_at m p (stream [MTxn t]) -> txn_wf t -> txn_at m (p + 4) t.
Proof.
  intros Hw Hwf. split; [|done].
  apply (words_at_app m p [BR_TRANSACTION] (txn_fields t)) in Hw as [_ Hw]. exact Hw.
Qed.

Lemma parse_one_txn t w Q :
  0 <= w_sp w -> w_sp w + 128 < 4294967000 -> txn_wf t ->
  words_at (w_mem w) (w_sp w) (stream [MTxn t]) ->
  (txn_at (w_mem w) (w_sp w + 4) t -> wp (handle_txn bs (Some func) (w_sp w + 4)) (fun _ => Q) w) ->
  wp (binder_parse call_death bs false no_io (w_sp w) 44 (Some func)) (fun _ => Q) w.
Proof.
  intros Hlo Hhi Hwf Hw Hh. unfold binder_parse. change (parse_fuel 44) with 12%nat.
  rewrite u32_small by lia. cbn [parse_loop ps_ptr]. rewrite (proj2 (Z.ltb_lt _ _)) by lia.
  apply wp_bind. eapply wp_run.
  { pose proof (run_load_word w (w_sp w) (stream [MTxn t]) 0 BR_TRANSACTION Hw eq_refl) as R.
    rewrite Z.add_0_r in R. apply R. by vm_compute. }
  apply wp_bind. unfold parse_cmd. decide_code.
  assert (ps_ptr (ps_skip 4 (mkPs (w_sp w) 1 false no_io)) = w_sp w + 4) as Ep
    by (cbn; apply u32_small; lia).
  apply wp_parse_txn; rewrite ?Ep; [lia|lia|]. apply wp_bind.
  eapply wp_mono; [apply Hh|].
  - by apply stream_txn_at.
  - intros [] w2 HQ. apply wp_ret. cbn [parse_loop].
    rewrite ps_skip_txn by lia. rewrite Ep. cbn [ps_ptr]. rewrite (proj2 (Z.ltb_ge _ _)) by lia. by apply wp_ret.
Qed.

(** The process when the driver reports the death that the cookie stands
    for. *)
Definition process_dead (c : Z) w : option (world G Script.state) :=
  match binder_parse call_death bs false no_io (w_sp w) 8 (Some func)
          (set_mem (mem_write (w_mem w) (w_sp w) (u32s_bytes (stream [MDead c]))) w) with
  | Ok _ w' => Some w'
  | Fault _ => None
  end.

(** The parser runs the death record. *)
Lemma process_dead_run c w Q :
  0 <= w_sp w -> w_sp w + 128 < 4294967000 -> word_ok c ->
  wp (handle_dead call_death bs c) (fun _ => Q)
     (set_mem (mem_write (w_mem w) (w_sp w) (u32s_bytes (stream [MDead c]))) w) ->
  exists w', process_dead c w = Some w' /\ Q w'.
Proof.
  intros Hlo Hhi Hc Hh. unfold process_dead. set (w1 := set_mem _ w) in *.
  assert (words_at (w_mem w1) (w_sp w) [BR_DEAD_BINDER; c]) as Hw by apply mem_write_bytes_at.
  enough (wp (binder_parse call_death bs false no_io (w_sp w) 8 (Some func)) (fun _ => Q) w1) as Hp.
  { apply wp_ok in Hp as (r & w' & -> & HQ). by exists w'. }
  unfold binder_parse. change (parse_fuel 8) with 3%nat.
  rewrite u32_small by lia. cbn [parse_loop ps_ptr]. rewrite (proj2 (Z.ltb_lt _ _)) by lia.
  apply wp_bind. eapply wp_run.
  { pose proof (run_load_word w1 (w_sp w) _ 0 BR_DEAD_BINDER Hw eq_refl) as R.
    rewrite Z.add_0_r in R. apply R. by vm_compute. }
  apply wp_bind. unfold parse_cmd. decide_code. unfold parse_dead_binder. cbn [ps_ptr ps_skip].
  rewrite (u32_small (w_sp w + 4)) by lia. apply wp_bind. eapply wp_run.
  { exact (run_load_word w1 (w_sp w) _ 1 c Hw eq_refl Hc). }
  unfold handle_dead in Hh. unfold wpf, mbind, C_bind in *.
  destruct (load 4 c w1) as [fn wa|]; [|done].
  destruct (load 4 (c + 4) wa) as [ptr wb|]; [|done].
  destruct (call_death bs fn ptr wb) as [[] wc|]; [|done].
  cbn. rewrite (u32_small (w_sp w + 4)), u32_small by lia. rewrite (proj2 (Z.ltb_ge _ _)) by lia. exact Hh.
Qed.

Lemma payload_word_u32s vs i v : vs !! i = Some v -> payload_word (u32s_bytes vs) i = u32 v.
Proof.
  intros Hi. unfold payload_word. rewrite <- (take_drop_middle vs i v Hi).
  pose proof (lookup_lt_Some _ _ _ Hi) as Hl.
  assert (forall a b, u32s_bytes (a ++ b) = u32s_bytes a ++ u32s_bytes b) as Happ
    by (intros a b; unfold u32s_bytes; by rewrite map_app, concat_app).
  rewrite Happ, drop_app_length' by (rewrite length_u32s_bytes, length_take; lia).
  change (u32s_bytes (v :: drop (S i) vs)) with (le_bytes 4 v ++ u32s_bytes (drop (S i) vs)).
  rewrite take_app_length' by done. by rewrite le_val_bytes.
Qed.

(** The reply is read off the last write. *)
Lemma reply_of_run its reply lo buf pid euid w2 w3 :
  bio_writes (w_mem w2) (bio_cleared reply) lo 256 4 its -> lo + 256 < 4294967296 ->
  reply_sent Script.area bs reply buf 0 pid euid w2 w3 ->
  (forall a, lo <= a < lo + 256 -> ~ stack w2 56 a /\ ~ Script.area a) ->
  exists a, reply_of w3 = Some a /\ answer_ok a /\ encodes its (a_data a) (a_offsets a).
Proof.
  intros W Hlo [[[[E1 E2 E3 E4] E5] _] _] Haway. set (sp := w_sp w2) in *.
  destruct (writes_encodes _ _ _ _ _ _ W) as (dat & os & Hd & Ho & He).
  pose proof W as [[B1 B2 B3 B4 B5 B6 B7 B8] _ Hwf W1 W2 W3 W4 W5 W6 _ _ _].
  cbn [bio_cleared data offs data_avail offs_avail data0 offs0] in *.
  pose proof (items_objs_nonneg its). pose proof (items_size_nonneg its Hwf).
  assert (forall p n, lo <= p -> p + Z.of_nat n <= lo + 256 -> mem_get (w_mem w3) p n = mem_get (w_mem w2) p n) as Hm.
  { intros p n Hp Hn. apply mem_get_agree. intros a Ha. apply E3.
    destruct (Haway a) as [H1 H2]; [lia|]. by intros [?|?]. }
  exists (mkAnswer 0 dat os). unfold reply_of. rewrite E5, last_snoc. unfold write_event. cbv beta iota.
  assert (forall (i : nat) v, reply_words reply buf 0 pid euid sp !! i = Some v -> 0 <= v < 4294967296 ->
            payload_word (u32s_bytes (reply_words reply buf 0 pid euid sp)) i = v) as Hw.
  { intros i v Hi Hv. rewrite (payload_word_u32s _ _ v Hi). by apply u32_small. }
  rewrite (Hw 2%nat BC_REPLY eq_refl), (Hw 6%nat 0 eq_refl), (Hw 9%nat _ eq_refl (u32_range _)),
    (Hw 10%nat _ eq_refl (u32_range _)), (Hw 11%nat (data0 reply) eq_refl), (Hw 12%nat (offs0 reply) eq_refl)
    by (done || lia).
  rewrite Z.eqb_refl, !u32_small by lia. rewrite 2!Hm by lia.
  rewrite Hd, Ho. cbn [mbind option_bind]. split; [done|]. split; [|exact He].
  split; [|done]. cbn [a_data a_offsets]. unfold msg_fits, msg_max.
  apply mem_get_length in Hd, Ho. rewrite Hd, Ho. rewrite andb_true_iff, !Z.leb_le. lia.
Qed.

(** One word as a message. *)
Lemma encodes_word n : word_ok n -> encodes [IU32 n] (le_bytes 4 n) [].
Proof.
  intros Hn. split; [done|by apply Forall_singleton|done|].
  cbn [parcel_at item_bytes]. split; [|done]. apply mem_write_bytes_at.
Qed.

Lemma le_bytes_u32 n : le_bytes 4 (u32 n) = le_bytes 4 n.
Proof.
  rewrite <- (le_bytes_val (le_bytes 4 n)), length_le_bytes, le_val_bytes. done.
Qed.

(** A status other than 0 is the reply. *)
Lemma reply_of_status_run status reply buf pid euid w2 w3 :
  status <> 0 -> 56 <= w_sp w2 < 4294967296 -> (forall a, stack w2 56 a -> ~ Script.area a) ->
  reply_sent Script.area bs reply buf status pid euid w2 w3 ->
  exists a, reply_of w3 = Some a /\ answer_ok a /\ encodes [IU32 (u32 status)] (a_data a) (a_offsets a).
Proof.
  intros Hst Hsp Haway [[[_ E5] _] Hb]. set (sp := w_sp w2) in *.
  exists (mkAnswer TF_STATUS_CODE (le_bytes 4 status) []). split; [|split].
  - unfold reply_of. rewrite E5, last_snoc. unfold write_event. cbv beta iota.
    unfold reply_words. rewrite (proj2 (Z.eqb_neq _ _) Hst). cbn [negb app].
    set (vs := _ :: _). rewrite (payload_word_u32s vs 2 _ eq_refl), (payload_word_u32s vs 6 _ eq_refl),
      (payload_word_u32s vs 9 _ eq_refl), (payload_word_u32s vs 10 _ eq_refl), (payload_word_u32s vs 11 _ eq_refl),
      (payload_word_u32s vs 12 _ eq_refl).
    change (u32 BC_REPLY) with BC_REPLY. rewrite Z.eqb_refl. rewrite (u32_small (sp - 4)) by lia.
    change (Z.to_nat (u32 4)) with (length (le_bytes 4 status)).
    unfold bytes_at in Hb. rewrite Hb; [done|]. intros a Ha. apply Haway. unfold stack in *. lia.
  - split; [done|]. vm_compute. split; [discriminate|reflexivity].
  - cbn [a_data a_offsets]. rewrite <- le_bytes_u32. apply encodes_word. apply u32_range.
Qed.

Lemma handle_txn_served t P w :
  looping 312 w -> txn_at (w_mem w) (w_sp w + 4) t ->
  wp (func bs (w_sp w + 4) (txn_bio t no_io) (bio_init no_io (w_sp w - 256) 256 4))
     (fun '(r, reply) w2 => exists its, served its w r reply w2 /\ P its w2) (at_handler w) ->
  wp (handle_txn bs (Some func) (w_sp w + 4))
     (fun _ w' => exists its r reply w2 w3 pid euid,
        served its w r reply w2 /\ P its w2 /\ w' = set_sp (w_sp w) w3 /\
        reply_sent Script.area bs reply (t_buffer t) r pid euid w2 w3) w.
Proof.
  intros [Hlo Hhi Hst Har Haway] Ht Hf. apply wp_with_frame. fold (at_handler w).
  apply wp_bind. eapply wp_run; [by apply bio_init_from_txn_run|]. apply wp_bind.
  eapply wp_mono; [exact Hf|]. intros [r reply] w2 (its & Hs & HP).
  pose proof Hs as [_ Hsp Hdom Hbuf]. cbv beta iota. apply wp_bind. eapply wp_run.
  { apply (txn_load w2 (w_sp w + 4) t 8); [|done]. destruct Ht as [Ht Hwf]. split; [|done].
    eapply bytes_at_agree; [|exact Ht]. change (Z.of_nat (length (txn_bytes t))) with 40.
    intros a Ha. apply Hbuf. lia. }
  eapply wp_mono.
  { apply (binder_send_reply_effect Script.area). rewrite Hsp.
    intros a Ha. apply Hdom, Hst. lia. }
  intros [] w3 (pid & euid & E). by exists its, r, reply, w2, w3, pid, euid.
Qed.

Lemma with_call_facts t dat os room w :
  looping room w -> 0 <= room -> msg_fits dat os = true ->
  let w1 := with_call t dat os w in
  looping room w1 /\ words_at (w_mem w1) (w_sp w) (stream [MTxn t]) /\
  bytes_at (w_mem w1) msg_data dat /\ bytes_at (w_mem w1) msg_offs os /\
  (forall a, ~ Script.area a -> ~ (w_sp w <= a < w_sp w + 44) -> w_mem w1 !! a = w_mem w !! a) /\
  (forall a, is_Some (w_mem w !! a) -> is_Some (w_mem w1 !! a)).
Proof.
  intros [Hlo Hhi Hst Har Haway] Hroom Hf w1. pose proof (put_msg_area (w_mem w) _ _ Hf) as [Hfr Hdom].
  assert (forall a, is_Some (w_mem w !! a) -> is_Some (w_mem w1 !! a)) as Hdom1.
  { intros a Ha. cbn [w1 with_call w_mem set_mem]. rewrite mem_write_lookup. case_decide; [|by apply Hdom].
    apply lookup_lt_is_Some. lia. }
  assert (length (u32s_bytes (stream [MTxn t])) = 44%nat) as L by done.
  apply andb_true_iff in Hf as [Hl%Z.leb_le Hl'%Z.leb_le]. unfold msg_max in *.
  assert (msg_data = 65536 /\ msg_offs = 67584) as [Emd Emo] by done.
  assert (forall p b, 65536 <= p -> p + Z.of_nat (length b) <= 69632 ->
            bytes_at (put_msg (w_mem w) dat os) p b -> bytes_at (w_mem w1) p b) as Hkeep.
  { intros p b Hp Hn. apply bytes_at_agree. intros a Ha. cbn [w1 with_call w_mem set_mem].
    rewrite mem_write_lookup, L. case_decide; [|done]. destruct (Haway a); [lia|].
    unfold Script.area, Script.lo, Script.hi. lia. }
  split_and!; try done.
  - split; cbn [w1 with_call w_sp set_mem]; try done; intros a Ha; apply Hdom1; auto.
  - apply mem_write_bytes_at.
  - apply Hkeep; [lia|lia|]. unfold put_msg. eapply bytes_at_agree; [|apply (mem_write_bytes_at (w_mem w))].
    apply mem_write_agree. lia.
  - apply Hkeep; [lia|lia|]. apply mem_write_bytes_at.
  - intros a Ha Ha'. cbn [w1 with_call w_mem set_mem]. rewrite mem_write_lookup, L. case_decide; [lia|by apply Hfr].
Qed.

(** What is mapped stays mapped, and nothing else is. *)
Lemma with_call_dom t dat os w :
  looping 312 w -> msg_fits dat os = true ->
  forall a, is_Some (w_mem (with_call t dat os w) !! a) <-> is_Some (w_mem w !! a).
Proof.
  intros Hl Hf a. split.
  - destruct Hl as [_ _ Hst Har _]. apply andb_true_iff in Hf as [H1%Z.leb_le H2%Z.leb_le].
    cbn [with_call w_mem set_mem]. unfold put_msg, msg_max, msg_data, msg_offs, Script.lo in *. rewrite !mem_write_lookup.
    change (length (u32s_bytes (stream [MTxn t]))) with 44%nat.
    case_decide; [intros _; apply Hst; lia|].
    do 2 (case_decide; [intros _; apply Har; unfold Script.lo, Script.hi in *; lia|]). done.
  - by apply (with_call_facts t dat os 312 w Hl).
Qed.

(** A call that the handler serves is answered with its items. *)
Lemma process_call_run ptr euid code dat os w P :
  looping 312 w -> msg_fits dat os = true -> word_ok ptr -> word_ok euid -> word_ok code ->
  let t := msg_txn ptr code 0 euid dat os in
  let w1 := with_call t dat os w in
  wp (func bs (w_sp w + 4) (txn_bio t no_io) (bio_init no_io (w_sp w - 256) 256 4))
     (fun '(r, reply) w2 => exists its, served its w1 r reply w2 /\ P its w2) (at_handler w1) ->
  exists a its w2 w3 cmd, process_call ptr euid code dat os w = (Some a, set_sp (w_sp w) w3) /\
    answer_ok a /\ encodes its (a_data a) (a_offsets a) /\ P its w2 /\
    w_sp w2 = w_sp w - 256 /\ length cmd = 13%nat /\
    drv_effect Script.area (union (stack w2 56) Script.area) [write_event bs (u32s_bytes cmd)] w2 w3.
Proof.
  intros Hl Hf Hp He Hc t w1 Hh.
  destruct (with_call_facts t dat os 312 w Hl ltac:(lia) Hf) as (Hl1 & Hw & _). fold w1 in Hl1, Hw.
  assert (txn_wf t) as Hwf.
  { apply andb_true_iff in Hf as [?%Z.leb_le ?%Z.leb_le]. unfold msg_max, word_ok in *.
    unfold txn_wf. forall_list; cbn; unfold msg_data, msg_offs, Script.lo; lia. }
  pose proof (lp_lo _ _ Hl). pose proof (lp_hi _ _ Hl). pose proof (lp_away _ _ Hl) as Haway.
  pose proof (parse_one_txn t w1 _ ltac:(cbn; lia) ltac:(cbn; lia) Hwf Hw
    (fun Ht => handle_txn_served t P w1 Hl1 Ht Hh)) as Hparse.
  apply wp_ok in Hparse as (r0 & w' & E & its & r & reply & w2 & w3 & pid & euid' & Hs & HP & -> & Hd).
  pose proof Hs as [HW Hsp _ _]. change (w_sp w1) with (w_sp w) in *.
  assert (exists a, reply_of w3 = Some a /\ answer_ok a /\ encodes its (a_data a) (a_offsets a)) as (a & Ea & Hok & Henc).
  { destruct HW as [[-> HW]|[Hr ->]].
    - apply (reply_of_run its reply (w_sp w - 256) _ _ _ w2 w3 HW ltac:(lia) Hd).
      intros x Hx. split; [unfold stack; lia|]. apply Haway. lia.
    - apply (reply_of_status_run r reply (t_buffer t) pid euid' w2 w3); [exact Hr|lia| |exact Hd].
      unfold stack. intros x Hx. apply Haway. lia. }
  exists a, its, w2, w3, (reply_words reply (t_buffer t) r pid euid' (w_sp w2)).
  split; [|split; [done|split; [done|split; [done|split; [done|split]]]]].
  - unfold process_call. rewrite Hf. fold t. fold w1. change (w_sp w1) with (w_sp w) in E. rewrite E. by rewrite <- Ea.
  - unfold reply_words. by destruct (negb (r =? 0)).
  - apply Hd.
Qed.
End Process.
