(* ===== verification/System.v ===== *)
(** * The service manager and the services as peers

    A system of two processes behind the relay: the service manager and the
    process of test_server.c, with the references in messages translated
    between them as a driver does. *)
From Stdlib Require Import ZArith Strings.Byte.
From stdpp Require Import base gmap list strings.
From S2P Require Import Prelude CMachine BinderProto BinderIo BinderParcel Binder BinderLemmas BinderParse BinderDriver BinderCommands BinderCall ServiceManager SvcRegistry SvcOps SvcHandler SvcRequests SvcProcess SvcDemo TestServer Relay RelayCall TestClientLemmas TestServerLemmas TestClientProps Process.
Open Scope Z_scope.

(** ** References *)

(** [f type val]: the object the receiver sees. *)
Definition translation : Type := Z -> Z -> Z * Z.

Definition patch_obj (f : translation) (m : memory) (o : Z) : memory :=
  let '(ty, v) := f (word m o) (word m (o + 8)) in
  mem_write (mem_write m o (le_bytes 4 ty)) (o + 8) (le_bytes 4 v).

(** The words of an offsets table. *)
Definition table_words (os : list byte) : list Z := payload_word os <$> seq 0 (length os / 4).

(** The data with every object of the table translated. *)
Definition translate (f : translation) (dat os : list byte) : list byte :=
  default dat (mem_get (foldl (patch_obj f) (mem_write ∅ 0 dat) (table_words os)) 0 (length dat)).

Definition translate_item (f : translation) (it : item) : item :=
  match it with IObj ty v => let '(ty', v') := f ty v in IObj ty' v' | it => it end.

(** A translation yields words. *)
Definition word_translation (f : translation) : Prop :=
  forall ty v, word_ok ty -> word_ok v -> word_ok (fst (f ty v)) /\ word_ok (snd (f ty v)).

Lemma patch_obj_run f m o ty v :
  word_translation f -> word_ok ty -> word_ok v -> bytes_at m o (obj_bytes ty v) ->
  bytes_at (patch_obj f m o) o (item_bytes (translate_item f (IObj ty v))) /\
  modifies m (patch_obj f m o) o 16.
Proof.
  intros Hf Hty Hv Hb. destruct (Hf ty v Hty Hv) as [Hty' Hv'].
  set (vs := [ty; Z.lor 127 FLAT_BINDER_FLAG_ACCEPTS_FDS; v; 0]).
  assert (words_at m o vs) as Hw by exact Hb.
  assert (word m o = ty) as E1.
  { rewrite <- (Z.add_0_r o). exact (word_at m o vs 0 ty Hw eq_refl Hty). }
  assert (word m (o + 8) = v) as E2 by exact (word_at m o vs 2 v Hw eq_refl Hv).
  unfold patch_obj, translate_item. rewrite E1, E2. destruct (f ty v) as [ty' v']. split.
  - pose proof (words_at_store m o vs 0 ty' Hw ltac:(cbn; lia)) as H1. rewrite Z.add_0_r in H1.
    pose proof (words_at_store _ o _ 2 v' H1 ltac:(cbn; lia)) as H2. exact H2.
  - eapply modifies_trans.
    + eapply modifies_weaken; [apply (mem_write_modifies _ o (le_bytes 4 ty') 4); by rewrite length_le_bytes|right; lia].
    + eapply modifies_weaken; [apply (mem_write_modifies _ _ (le_bytes 4 v') 4); by rewrite length_le_bytes|right; lia].
Qed.

Lemma foldl_patch_run f its : forall m p,
  word_translation f -> Forall item_wf its -> 0 <= p -> parcel_at m p its ->
  parcel_at (foldl (patch_obj f) m (item_offsets p its)) p (translate_item f <$> its) /\
  modifies m (foldl (patch_obj f) m (item_offsets p its)) p (items_size its).
Proof.
  induction its as [|it its IH]; intros m p Hf Hwf Hp Hat; [split; [done|apply modifies_refl]|].
  apply Forall_cons in Hwf as [Hit Hwf]. destruct Hat as [Hb Hat].
  pose proof (item_size_pos it Hit). pose proof (items_size_nonneg its Hwf). pose proof (item_size_bytes it Hit).
  rewrite items_size_cons.
  assert (exists m1, foldl (patch_obj f) m (item_offsets p (it :: its)) =
            foldl (patch_obj f) m1 (item_offsets (p + item_size it) its) /\
          bytes_at m1 p (item_bytes (translate_item f it)) /\ modifies m m1 p (item_size it)) as (m1 & -> & Hb1 & M1).
  { destruct it as [n|us|ty v|ty v]; cbn [item_offsets foldl translate_item] in *;
      try (exists m; split; [done|]; split; [done|apply modifies_refl]).
    destruct Hit as [Hty Hv]. destruct (patch_obj_run f m p ty v Hf Hty Hv Hb) as [Hb1 M1].
    by exists (patch_obj f m p). }
  assert (agree m m1 (p + item_size it) (items_size its)) as Ha by (eapply modifies_agree; [exact M1|lia]).
  destruct (IH m1 (p + item_size it) Hf Hwf ltac:(lia)) as [Hp2 M2]; [by eapply parcel_at_agree|].
  split.
  - rewrite fmap_cons. cbn [parcel_at].
    assert (item_size (translate_item f it) = item_size it) as -> by (destruct it; cbn; try done; by destruct (f type val)).
    split; [|exact Hp2]. eapply bytes_at_agree; [|exact Hb1]. eapply modifies_agree; [exact M2|left].
    assert (length (item_bytes (translate_item f it)) = length (item_bytes it)) as ->; [|lia].
    destruct it; cbn [translate_item]; try done. destruct (f type val). cbn [item_bytes]. by rewrite !length_obj_bytes.
  - eapply modifies_trans; (eapply modifies_weaken; [eassumption|right; lia]).
Qed.

Lemma table_words_u32s os : Forall word_ok os -> table_words (u32s_bytes os) = os.
Proof.
  intros Hos. unfold table_words. rewrite length_u32s_bytes, (Nat.mul_comm 4), Nat.div_mul by done.
  apply list_eq. intros i. rewrite list_lookup_fmap. destruct (os !! i) as [o|] eqn:E.
  - rewrite lookup_seq_lt by by eapply lookup_lt_Some. cbn [fmap option_fmap option_map Nat.add]. f_equal. rewrite (payload_word_u32s _ _ o E).
    rewrite Forall_lookup in Hos. specialize (Hos i o E). by apply u32_small.
  - rewrite lookup_seq_ge by by apply lookup_ge_None. done.
Qed.

(** The receiver reads the translated items. *)
Lemma translate_encodes f its dat os :
  word_translation f -> encodes its dat os -> Z.of_nat (length dat) < 4294967296 ->
  encodes (translate_item f <$> its) (translate f dat os) os /\ length (translate f dat os) = length dat.
Proof.
  intros Hf [Hs Hwf Ho Hp] Hlen. unfold translate. rewrite Ho, table_words_u32s.
  2: { eapply Forall_impl; [apply item_offsets_bounds; [done|lia]|]. intros o [? ?]. unfold word_ok. lia. }
  destruct (foldl_patch_run f its (mem_write ∅ 0 dat) 0 Hf Hwf ltac:(lia) Hp) as [Hp' [_ Hdom]].
  set (m' := foldl _ _ _) in *.
  destruct (mapped_mem_get m' 0 (length dat)) as (dat' & E & L).
  { intros a Ha. apply Hdom. rewrite mem_write_lookup. case_decide; [|lia]. apply lookup_lt_is_Some. lia. }
  rewrite E. change (default dat (Some dat')) with dat'. split; [|done].
  assert (items_size (translate_item f <$> its) = items_size its) as Es.
  { clear. induction its as [|it its IH]; [done|]. rewrite fmap_cons, !items_size_cons, IH. f_equal.
    destruct it; cbn; try done. by destruct (f type val). }
  assert (Forall item_wf (translate_item f <$> its)) as Hwf'.
  { apply Forall_fmap. eapply Forall_impl; [exact Hwf|]. intros it Hit. destruct it as [| |ty v|]; try done.
    destruct Hit as [Hty Hv]. cbn. specialize (Hf ty v Hty Hv). by destruct (f ty v). }
  split; [rewrite L, Hs; by rewrite Es|done| |].
  - f_equal. clear. generalize 0. induction its as [|it its IH]; intros p; [done|].
    rewrite fmap_cons. destruct it; cbn [translate_item item_offsets item_size]; try apply IH.
    destruct (f type val). cbn [item_offsets item_size]. f_equal. apply IH.
  - rewrite <- (Z.add_0_r 0). eapply (parcel_at_copied m' 0); [done| |lia| |by rewrite Z.add_0_r].
    + eapply mem_get_copied; [exact E|apply mem_write_bytes_at].
    + rewrite Es. lia.
Qed.

(** ** The process of test_server.c *)

(** Intervals without a common point. *)
Lemma intervals_apart a b c d :
  (forall x, a <= x < b -> ~ (c <= x < d)) -> a < b -> c < d -> b <= c \/ d <= a.
Proof. intros Hx Hab Hcd. destruct (Z.le_gt_cases b c); [by left|right]. specialize (Hx (Z.max a c)). lia. Qed.

Section Server.
Context (hello_fn goodbye_fn : Z) (Hfns : hello_fn <> goodbye_fn) (Hword : word_ok hello_fn /\ word_ok goodbye_fn).
Context (bs : binder_state).
Implicit Types w : world greetings Script.state.

Abbreviation func := (test_server_handler (D := Script.state) hello_fn goodbye_fn).
Abbreviation server_call := (process_call no_callbacks bs func).

Lemma looping_keep room w w' :
  looping room w -> w_sp w' = w_sp w -> (forall a, is_Some (w_mem w !! a) -> is_Some (w_mem w' !! a)) ->
  looping room w'.
Proof.
  intros [L1 L2 L3 L4 L5] Hsp Hd. split; rewrite ?Hsp; try done; intros a Ha; apply Hd; auto.
Qed.

(** The request as the handler finds it. *)
Lemma handler_entry ptr euid code dat os its w :
  looping 768 w -> msg_fits dat os = true -> word_ok ptr -> word_ok euid -> word_ok code -> encodes its dat os ->
  let t := msg_txn ptr code 0 euid dat os in
  request_ok (at_handler (with_call t dat os w)) (w_sp w + 4) t (txn_bio t no_io)
    (bio_init no_io (w_sp w - 256) 256 4) (w_sp w - 256) its.
Proof.
  intros Hl Hf Hp He Hc Henc t. set (w1 := with_call t dat os w).
  destruct (with_call_facts t dat os 768 w Hl ltac:(lia) Hf) as ([L1 L2 L3 L4 L5] & Hw & Hd & Ho & _).
  fold w1 in L1, L2, L3, L4, L5, Hw, Hd, Ho. change (w_sp w1) with (w_sp w) in *.
  apply andb_true_iff in Hf as [Hf1%Z.leb_le Hf2%Z.leb_le]. unfold msg_max in *.
  assert (msg_data = 65536 /\ msg_offs = 67584) as [Emd Emo] by done.
  pose proof (items_size_nonneg its (en_wf _ _ _ Henc)). pose proof (en_size _ _ _ Henc).
  split; cbn [at_handler w_mem w_sp set_sp]; change (w_sp w1) with (w_sp w).
  - apply stream_txn_at; [exact Hw|]. unfold word_ok in *. unfold txn_wf. forall_list; cbn; lia.
  - apply (encodes_reads its dat os); try done. cbn. lia.
  - apply bio_init_writes; try lia. eapply mapped_sub; [exact L3|lia..].
  - eapply mapped_sub; [exact L3|lia..].
  - lia.
  - cbn [data txn_bio t msg_txn t_buffer]. rewrite Emd.
    destruct (intervals_apart (w_sp w - 768) (w_sp w + 128) 65536 69632) as [?|?]; try lia; [|by left; lia..].
    exact L5.
Qed.

Lemma server_call_run ptr euid code dat os its reps g e w :
  looping 768 w -> msg_fits dat os = true -> word_ok ptr -> word_ok euid -> word_ok code ->
  encodes its dat os -> is_print e ->
  (forall w1 txn t msg reply lo, request_ok w1 txn t msg reply lo its -> t_code t = code -> t_target t = ptr ->
     w_glob w1 = w_glob w ->
     wp (func bs txn msg reply) (fun '(r, reply') w2 =>
        (r = 0 /\ bio_writes (w_mem w2) reply' lo 256 4 reps \/ r <> 0 /\ reps = [IU32 (u32 r)]) /\
        handled g e lo w1 w2) w1) ->
  exists a w', server_call ptr euid code dat os w = (Some a, w') /\ answer_ok a /\
    encodes reps (a_data a) (a_offsets a) /\ looping 768 w' /\ w_glob w' = g /\
    prints (w_trace w') = prints (w_trace w) ++ [e].
Proof.
  intros Hl Hf Hp He Hc Henc Hpr Hh.
  set (t := msg_txn ptr code 0 euid dat os). set (w1 := with_call t dat os w).
  pose proof (handler_entry ptr euid code dat os its w Hl Hf Hp He Hc Henc) as Hreq. fold t w1 in Hreq.
  destruct (with_call_facts t dat os 768 w Hl ltac:(lia) Hf) as (Hl1 & _ & _ & _ & _ & Hdom). fold w1 in Hl1, Hdom.
  assert (looping 312 w) as Hl312.
  { destruct Hl as [L1 L2 L3 L4 L5]. split; try done; try lia; [eapply mapped_sub; [exact L3|lia..]|].
    intros a Ha. apply L5. lia. }
  destruct (process_call_run no_callbacks bs func ptr euid code dat os w
              (fun its' w2 => its' = reps /\ handled g e (w_sp w - 256) (at_handler w1) w2)
              Hl312 Hf Hp He Hc) as (a & its' & w2 & w3 & cmd & E & Ha & Henc' & [-> Hhd] & Hsp & _ & [[[F1 F2 F3 F4] Ft] _]).
  { fold t w1. eapply wp_mono; [by apply (Hh _ _ t _ _ (w_sp w - 256) Hreq)|]. intros [r reply] w2 [W Hhd]. exists reps. split; [|by split].
    pose proof Hhd as [E1 E2 E3 E4 E5 E6]. cbn [at_handler w_sp set_sp w_mem] in *.
    change (w_sp w1) with (w_sp w) in *. split; [destruct W as [[-> W]|W]; [left; split; [done|by apply bio_writes_cleared]|by right]|exact E1|exact E6|].
    intros x Hx. apply E5; change (w_sp (with_call t dat os w)) with (w_sp w); change (w_sp w1) with (w_sp w) in Hx; lia. }
  exists a, (set_sp (w_sp w) w3). split; [exact E|]. split; [done|]. split; [done|].
  destruct Hhd as [E1 E2 E3 E4 E5 E6]. split_and!.
  - apply (looping_keep 768 w); [done|done|]. intros x Hx. apply F4, E6, Hdom, Hx.
  - by rewrite <- E2, <- F2.
  - cbn [w_trace set_sp]. rewrite Ft, E4, !prints_app. cbn [at_handler w1 with_call w_trace set_sp set_mem].
    unfold prints at 2 3. rewrite filter_cons_True by done. rewrite (filter_cons_False _ (write_event _ _)) by by intros [].
    by rewrite app_nil_r.
Qed.

(** The services with the addresses of their handlers. *)
Definition service_fns : list (service * Z) := [(hello_service, hello_fn); (goodbye_service, goodbye_fn)].

(** The call through the pointer in the transaction. *)
Lemma dispatch_run v ptr :
  (v, ptr) ∈ service_fns -> exists say say_to, implements say say_to v /\ word_ok ptr /\
    (forall g cs, is_print (sv_line v g) /\ is_print (sv_line_to v g cs)) /\
    forall b txn t msg reply w, txn_at (w_mem w) txn t -> t_target t = ptr ->
      func b txn msg reply w = service_handler HELLO_SVR_CMD_SAYHELLO HELLO_SVR_CMD_SAYHELLO_TO say say_to b txn msg reply w.
Proof.
  unfold service_fns. rewrite !elem_of_cons, elem_of_nil. destruct Hword as [Hw1 Hw2].
  intros [[= -> ->]|[[= -> ->]|[]]].
  - exists sayhello, sayhello_to. split; [apply hello_implements|]. split; [done|]. split; [done|].
    intros b txn t msg reply w Ht Etg. unfold test_server_handler.
    erewrite run_bind by (exact (txn_load w txn t 0 _ Ht eq_refl)).
    by rewrite Etg, Z.eqb_refl.
  - exists saygoodbye, saygoodbye_to. split; [apply goodbye_implements|]. split; [done|]. split; [done|].
    intros b txn t msg reply w Ht Etg. unfold test_server_handler.
    erewrite run_bind by (exact (txn_load w txn t 0 _ Ht eq_refl)).
    by rewrite Etg, (proj2 (Z.eqb_neq goodbye_fn hello_fn)), Z.eqb_refl by congruence.
Qed.

Lemma server_say {policy} v ptr euid dat os its w :
  (v, ptr) ∈ service_fns -> looping 768 w -> msg_fits dat os = true -> word_ok euid ->
  encodes (IU32 policy :: its) dat os ->
  exists a w', server_call ptr euid HELLO_SVR_CMD_SAYHELLO dat os w = (Some a, w') /\ answer_ok a /\
    encodes [IU32 0] (a_data a) (a_offsets a) /\ looping 768 w' /\ w_glob w' = sv_bump v (w_glob w) /\
    prints (w_trace w') = prints (w_trace w) ++ [sv_line v (w_glob w)].
Proof.
  intros Hv Hl Hf He Henc. destruct (dispatch_run v ptr Hv) as (say & say_to & Him & Hp & Hpr & Hd).
  eapply server_call_run; try done; [by apply (Hpr _ [])|].
  intros w1 txn t msg reply lo Hreq Hcode Htg Hg. unfold wpf. rewrite (Hd _ _ t) by (done || apply Hreq).
  rewrite <- Hg. eapply wp_mono; [by apply (handler_say _ _ say say_to v Him bs txn t msg reply lo policy its)|].
  intros [r reply'] w2 (-> & W & Hh). split; [by left|exact Hh].
Qed.

Lemma server_say_to {policy} v ptr euid dat os us cs w :
  (v, ptr) ∈ service_fns -> looping 768 w -> msg_fits dat os = true -> word_ok euid ->
  encodes [IU32 policy; IStr us; IStr (byte_val <$> cs)] dat os -> (length cs <= 511)%nat -> x00 ∉ cs ->
  let g := sv_bump_to v (w_glob w) in
  exists a w', server_call ptr euid HELLO_SVR_CMD_SAYHELLO_TO dat os w = (Some a, w') /\ answer_ok a /\
    encodes [IU32 0; IU32 (u32 (sv_total v g))] (a_data a) (a_offsets a) /\ looping 768 w' /\ w_glob w' = g /\
    prints (w_trace w') = prints (w_trace w) ++ [sv_line_to v (w_glob w) cs].
Proof.
  intros Hv Hl Hf He Henc Hlen Hz g. destruct (dispatch_run v ptr Hv) as (say & say_to & Him & Hp & Hpr & Hd).
  eapply server_call_run; try done; [apply Hpr|].
  intros w1 txn t msg reply lo Hreq Hcode Htg Hg. unfold wpf. rewrite (Hd _ _ t) by (done || apply Hreq).
  unfold g. rewrite <- Hg.
  eapply wp_mono; [by apply (handler_say_to _ _ say say_to v Him bs txn t msg reply lo policy us)|].
  intros [r reply'] w2 (-> & W & Hh). split; [by left|exact Hh].
Qed.

Lemma server_other v ptr euid code dat os policy its w :
  (v, ptr) ∈ service_fns -> looping 768 w -> msg_fits dat os = true -> word_ok euid -> word_ok code ->
  code <> HELLO_SVR_CMD_SAYHELLO -> code <> HELLO_SVR_CMD_SAYHELLO_TO -> encodes (IU32 policy :: its) dat os ->
  exists a w', server_call ptr euid code dat os w = (Some a, w') /\ answer_ok a /\
    encodes [IU32 4294967295] (a_data a) (a_offsets a) /\ looping 768 w' /\ w_glob w' = w_glob w /\
    prints (w_trace w') = prints (w_trace w) ++ [EvPrint "unknown code %d" [] (s32 code)].
Proof.
  intros Hv Hl Hf He Hc Hne Hne' Henc. destruct (dispatch_run v ptr Hv) as (say & say_to & Him & Hp & Hpr & Hd).
  eapply server_call_run; try done.
  intros w1 txn t msg reply lo Hreq Hcode Htg Hg. unfold wpf. rewrite (Hd _ _ t) by (done || apply Hreq).
  rewrite <- Hg, <- Hcode. eapply wp_mono.
  { apply (handler_other _ _ say say_to bs txn t msg reply lo policy its); [done|congruence|congruence]. }
  intros [r reply'] w2 (-> & -> & Hh). split; [by right|exact Hh].
Qed.
End Server.

(** ** The process of service_manager.c *)

Section Manager.
Context `{!Malloc} `{!MallocOk} (fn slo shi : Z) (Hfn : word_ok fn) (Hly : layout Script.area slo shi).
Context (bs : binder_state).
Implicit Types w : world svcmgr Script.state.

Abbreviation svc_inv := (svc_inv Script.area fn slo shi).
Abbreviation manager_call := (process_call (call_death fn) bs (svcmgr_handler fn) BINDER_SERVICE_MANAGER).

(** In its looper, with room in the stack. *)
Record managing (nodes : list node) w : Prop := {
  mg_inv : svc_inv nodes w;
  mg_lo : slo + 440 <= w_sp w;
  mg_hi : w_sp w + 128 <= shi;
}.

Lemma managing_looping nodes w : managing nodes w -> looping 312 w.
Proof.
  intros [I Hlo Hhi]. pose proof (ly_stack _ _ _ Hly). split; try lia.
  - eapply mapped_sub; [apply (sv_stack _ _ _ _ _ _ I)|lia..].
  - intros a Ha. unfold Script.lo, Script.hi in Ha.
    apply (sv_area _ _ _ _ _ _ I). unfold Script.area, Script.lo, Script.hi. lia.
  - intros a Ha Har. apply (ly_area _ _ _ Hly a Har). lia.
Qed.

Lemma with_call_inv nodes t dat os w :
  managing nodes w -> msg_fits dat os = true -> svc_inv nodes (with_call t dat os w).
Proof.
  intros M Hf. pose proof M as [I Hlo Hhi].
  destruct (with_call_facts t dat os 312 w (managing_looping _ _ M) ltac:(lia) Hf) as (_ & _ & _ & _ & Hm & Hd).
  eapply svc_inv_frame; try done; [apply I| |by left].
  intros a Ho. destruct (sv_away _ _ _ _ _ _ I a Ho) as [Ha Hs]. apply Hm; [done|]. lia.
Qed.

(** The request as the handler finds it. *)
Lemma manager_entry nodes euid code dat os its w :
  managing nodes w -> msg_fits dat os = true -> word_ok euid -> word_ok code -> encodes its dat os ->
  let t := msg_txn BINDER_SERVICE_MANAGER code 0 euid dat os in
  let w1 := at_handler (with_call t dat os w) in
  svc_inv nodes w1 /\ txn_at (w_mem w1) (w_sp w + 4) t /\ bio_reads (w_mem w1) (txn_bio t no_io) its /\
  reply_ok slo (w_sp w) w1 (bio_init no_io (w_sp w - 256) 256 4) (w_sp w - 256).
Proof.
  intros M Hf He Hc Henc t w1. pose proof M as [I Hlo Hhi]. pose proof (ly_stack _ _ _ Hly).
  pose proof (with_call_inv nodes t dat os w M Hf) as I1.
  destruct (with_call_facts t dat os 312 w (managing_looping _ _ M) ltac:(lia) Hf) as ([L1 L2 L3 L4 L5] & Hw & Hd & Ho & _ & Hdom).
  apply andb_true_iff in Hf as [Hf1%Z.leb_le Hf2%Z.leb_le]. unfold msg_max in *.
  assert (msg_data = 65536 /\ msg_offs = 67584) as [Emd Emo] by done.
  split; [by apply svc_inv_sp|]. split; [|split].
  - apply stream_txn_at; [exact Hw|]. unfold word_ok in *. unfold txn_wf. forall_list; cbn; unfold BINDER_SERVICE_MANAGER; lia.
  - apply (encodes_reads its dat os); try done. cbn. lia.
  - split; [|lia|lia]. apply bio_init_writes; try lia. change (w_mem w1) with (w_mem (with_call t dat os w)).
    change (w_sp (with_call t dat os w)) with (w_sp w) in *. eapply mapped_sub; [exact L3|lia..].
Qed.

Lemma manager_word : word_ok BINDER_SERVICE_MANAGER.
Proof. split; [apply Z.le_refl|by vm_compute]. Qed.

(** A call the handler serves by a step of the registry: [R] relates the
    items of the answer to the registry afterwards and the commands sent,
    which the reply command follows. *)
Lemma manager_call_run nodes euid code dat os (R : list item -> list node -> list (list byte) -> Prop) w :
  managing nodes w -> msg_fits dat os = true -> word_ok euid -> word_ok code ->
  let t := msg_txn BINDER_SERVICE_MANAGER code 0 euid dat os in
  let w1 := at_handler (with_call t dat os w) in
  wp (svcmgr_handler fn bs (w_sp w + 4) (txn_bio t no_io) (bio_init no_io (w_sp w - 256) 256 4))
     (fun '(res, reply) w2 => exists its cmds nodes',
        (res = 0 /\ bio_writes (w_mem w2) (bio_cleared reply) (w_sp w - 256) 256 4 its \/
         res <> 0 /\ its = [IU32 (u32 res)]) /\
        R its nodes' cmds /\ svc_step Script.area fn slo shi (w_sp w) nodes w1 cmds nodes' w2) w1 ->
  exists a w' its nodes' cmds cmd, manager_call euid code dat os w = (Some a, w') /\ answer_ok a /\
    encodes its (a_data a) (a_offsets a) /\ R its nodes' cmds /\ managing nodes' w' /\
    kept nodes nodes' /\ sent (w_trace w') = sent (w_trace w) ++ cmds ++ [cmd] /\ length cmd = 52%nat.
Proof.
  intros M Hf He Hc t w1 Hh. pose proof M as [I Hlo Hhi].
  pose proof (with_call_inv nodes t dat os w M Hf) as I1.
  destruct (process_call_run (call_death fn) bs (svcmgr_handler fn) BINDER_SERVICE_MANAGER euid code dat os w
    (fun its w2 => exists cmds nodes', R its nodes' cmds /\
       svc_step Script.area fn slo shi (w_sp w) nodes w1 cmds nodes' w2)
    (managing_looping _ _ M) Hf manager_word He Hc)
    as (a & its & w2 & w3 & cmd & E & Ha & Henc & (cmds & nodes' & HR & S) & Hsp & Hlen & Hd).
  { eapply wp_mono; [exact Hh|]. clear Hh. intros [res reply] w2 (its & cmds & nodes' & W & HR & S). exists its.
    split; [|by exists cmds, nodes']. split; [exact W|by rewrite (ss_sp _ _ _ _ _ _ _ _ _ _ S)|apply S|].
    intros x Hx. apply (ss_mem _ _ _ _ _ _ _ _ _ _ S).
    apply (buffer_untouched Script.area fn slo shi (w_sp w) Hly ltac:(lia) ltac:(lia)); [by apply svc_inv_sp|].
    change (w_sp w <= x < w_sp w + 44) in Hx. lia. }
  clear Hh. assert (length (u32s_bytes cmd) = 52%nat) as Hl by (rewrite length_u32s_bytes; lia).
  assert (svc_step Script.area fn slo shi (w_sp w) nodes' w2 [u32s_bytes cmd] nodes' w3) as S3.
  { eapply (command_step Script.area fn slo shi (w_sp w) ltac:(lia) _ _ _ 56); [apply S|lia|lia|exact Hd|].
    intros t' c _ E'. by rewrite E' in Hl. }
  exists a, (set_sp (w_sp w) w3), its, nodes', cmds, (u32s_bytes cmd).
  split; [exact E|]. split; [done|]. split; [done|]. split; [done|]. split; [|split; [apply S|split; [|exact Hl]]].
  - split; [|done|done]. apply svc_inv_sp, (ss_inv _ _ _ _ _ _ _ _ _ _ S3).
  - cbn [w_trace set_sp]. rewrite (ss_sent _ _ _ _ _ _ _ _ _ _ S3), (ss_sent _ _ _ _ _ _ _ _ _ _ S).
    by rewrite <- app_assoc.
Qed.

(** A lookup is answered from the registry, which stays as it is. *)
Lemma manager_lookup nodes euid dat os us w :
  managing nodes w -> msg_fits dat os = true -> word_ok euid ->
  encodes [IU32 0; IStr svcmgr_id; IStr us] dat os ->
  exists a w' nodes', manager_call euid SVC_MGR_CHECK_SERVICE dat os w = (Some a, w') /\ answer_ok a /\
    encodes [found (reg_lookup us euid (entries nodes))] (a_data a) (a_offsets a) /\
    entries nodes' = entries nodes /\ managing nodes' w'.
Proof.
  intros M Hf He Henc.
  destruct (manager_entry nodes euid SVC_MGR_CHECK_SERVICE dat os _ w M Hf He ltac:(by vm_compute) Henc) as (I & Ht & Hm & Hr).
  pose proof M as [_ Hlo Hhi].
  destruct (manager_call_run nodes euid SVC_MGR_CHECK_SERVICE dat os
    (fun its nodes' _ => its = [found (reg_lookup us euid (entries nodes))] /\ entries nodes' = entries nodes) w M Hf He ltac:(by vm_compute))
    as (a & w' & its & nodes' & _ & _ & E & Ha & Henc' & [-> En] & M' & _); [|by exists a, w', nodes'].
  eapply wp_mono.
  { apply (handler_find (area := Script.area) fn slo shi (w_sp w) nodes bs _ _ _ _ (w_sp w - 256) 0 us _ ltac:(lia) I Ht);
      [done|by right|exact Hm|exact Hr]. }
  intros [r reply] w2 (-> & S & W). eexists _, [], nodes.
  split; [left; split; [done|by apply bio_writes_cleared]|]. by split.
Qed.

(** The allocator, which goes by what is mapped, has room for a node. *)
Definition has_room (us : list Z) (m : memory) : Prop :=
  forall m', (forall a, is_Some (m' !! a) <-> is_Some (m !! a)) -> ~ no_memory us m'.

(** A registration, without the word that follows the reference: the name
    is registered, or the request is refused with -1 and nothing changes. *)
Lemma manager_add nodes euid dat os us h w :
  managing nodes w -> msg_fits dat os = true -> word_ok euid ->
  encodes [IU32 0; IStr svcmgr_id; IStr us; IObj BINDER_TYPE_HANDLE h] dat os ->
  exists a w' nodes' (ok : bool), manager_call euid SVC_MGR_ADD_SERVICE dat os w = (Some a, w') /\ answer_ok a /\
    encodes [IU32 (if ok then 0 else 4294967295)] (a_data a) (a_offsets a) /\
    entries nodes' = (if ok then reg_add us h 0 (entries nodes) else entries nodes) /\
    (ok = true -> add_accepts us (Z.of_nat (length us)) h) /\
    (ok = false -> add_accepts us (Z.of_nat (length us)) h ->
       find_entry us (entries nodes) = None /\ ~ has_room us (w_mem w)) /\ managing nodes' w'.
Proof.
  intros M Hf He Henc.
  destruct (manager_entry nodes euid SVC_MGR_ADD_SERVICE dat os _ w M Hf He ltac:(by vm_compute) Henc) as (I & Ht & Hm & Hr).
  pose proof M as [_ Hlo Hhi].
  destruct (manager_call_run nodes euid SVC_MGR_ADD_SERVICE dat os
    (fun its nodes' _ => exists ok : bool, its = [IU32 (if ok then 0 else 4294967295)] /\
       entries nodes' = (if ok then reg_add us h 0 (entries nodes) else entries nodes) /\
       (ok = true -> add_accepts us (Z.of_nat (length us)) h) /\
       (ok = false -> add_accepts us (Z.of_nat (length us)) h ->
          find_entry us (entries nodes) = None /\ ~ has_room us (w_mem w))) w M Hf He ltac:(by vm_compute))
    as (a & w' & its & nodes' & _ & _ & E & Ha & Henc' & (ok & -> & En & Hacc & Hok) & M' & _); [|by exists a, w', nodes', ok].
  eapply wp_mono.
  { apply (handler_add (area := Script.area) fn slo shi (w_sp w) nodes bs _ _ _ _ (w_sp w - 256) 0 us h [] 0 _ ltac:(lia) I Ht);
      [done|done|exact Hm| |exact Hr|cbn; lia]. right. split; [done|]. split; [done|]. exact (en_size _ _ _ Henc). }
  intros [r reply] w2 [(-> & S & Hno)|(-> & Hacc & _ & nodes' & n & _ & _ & Er & S & W)].
  - eexists _, _, nodes. split; [right; by split|]. split; [|exact S]. exists false. split; [done|]. split; [done|]. split; [done|].
    intros _ Hacc. destruct Hno as [Hna|[Hnone Hno]]; [done|]. split; [done|]. intros Hroom.
    exact (Hroom _ (with_call_dom _ dat os w (managing_looping _ _ M) Hf) Hno).
  - eexists _, _, nodes'. split; [left; split; [done|by apply bio_writes_cleared]|]. split; [|exact S]. by exists true.
Qed.
End Manager.

(** ** Messages by evaluation *)

(** The items fit a message, whose bytes are then an encoding of them. *)
Definition encodesb (its : list item) : bool :=
  let dat := Demo.parcel its in
  bool_decide (Z.of_nat (length dat) = items_size its) && bool_decide (Forall item_wf its) &&
  Demo.parcel_atb (mem_write ∅ 0 dat) 0 its && msg_fits dat (u32s_bytes (item_offsets 0 its)).

Lemma encodesb_ok its : encodesb its = true ->
  msg_fits (Demo.parcel its) (u32s_bytes (item_offsets 0 its)) = true /\
  encodes its (Demo.parcel its) (u32s_bytes (item_offsets 0 its)).
Proof.
  unfold encodesb. rewrite !andb_true_iff. intros [[[H1 H2] H3] H4]. split; [exact H4|].
  split; [by apply bool_decide_eq_true in H1|by apply bool_decide_eq_true in H2|done|].
  by apply Demo.parcel_atb_at.
Qed.
