(* ===== verification/ManagerSession.v ===== *)
(** * Sessions of the service manager

    The process of service_manager.c in its looper, through any sequence of
    requests of its clients and deaths of its services, against a registry
    that knows nothing of nodes, cookies or messages. *)
From Stdlib Require Import ZArith Strings.Byte.
From stdpp Require Import base gmap list strings.
From S2P Require Import Prelude CMachine BinderProto BinderIo BinderParcel Binder BinderLemmas BinderParse BinderDriver BinderCommands BinderCall ServiceManager SvcRegistry SvcOps SvcHandler SvcRequests SvcProcess SvcDemo Relay RelayCall TestClientLemmas Process System.
Open Scope Z_scope.

(** ** What clients ask *)

Inductive request : Type :=
  | Find (code : Z) (us : list Z)                     (* GET or CHECK *)
  | Add (us : list Z) (h : Z) (allow : option Z)      (* the last word may be missing *)
  | Enum (n : Z)                                      (* LIST *)
  | Ping
  | Unknown (code : Z)
  | Foreign (id : list Z) (code : Z).                 (* another interface's *)

Definition request_code (rq : request) : Z :=
  match rq with
  | Find code _ | Unknown code | Foreign _ code => code
  | Add _ _ _ => SVC_MGR_ADD_SERVICE
  | Enum _ => SVC_MGR_LIST_SERVICES
  | Ping => PING_TRANSACTION
  end.

(** The items of the message, behind the strict mode policy. *)
Definition writes (rq : request) (its : list item) : Prop :=
  match rq with
  | Find code us =>
      (code = SVC_MGR_GET_SERVICE \/ code = SVC_MGR_CHECK_SERVICE) /\ its = [IStr svcmgr_id; IStr us]
  | Add us h None => its = [IStr svcmgr_id; IStr us; IObj BINDER_TYPE_HANDLE h]
  | Add us h (Some v) => its = [IStr svcmgr_id; IStr us; IObj BINDER_TYPE_HANDLE h; IU32 v]
  | Enum n => its = [IStr svcmgr_id; IU32 n]
  | Ping => True
  | Unknown code => word_ok code /\ unknown_code code /\ exists rest, its = IStr svcmgr_id :: rest
  | Foreign id code =>
      word_ok code /\ code <> PING_TRANSACTION /\ id <> svcmgr_id /\ exists rest, its = IStr id :: rest
  end.

(** What happens to the process: a request with its message, or the report
    of the death it asked for in its [i]-th link command. *)
Inductive event : Type :=
  | Call (euid : Z) (rq : request) (dat os : list byte)
  | Died (i : nat).

Definition event_ok (e : event) : Prop :=
  match e with
  | Call euid rq dat os =>
      word_ok euid /\ msg_fits dat os = true /\
      exists policy its, encodes (IU32 policy :: its) dat os /\ writes rq its
  | Died _ => True
  end.

(** ** The abstract manager *)

(** The entries, and the names whose deaths are watched, in the order in
    which that was asked for. *)
Record registry : Type := mkRegistry {
  known : list entry;
  watched : list (list Z);
}.

Definition refused : list item := [IU32 4294967295].

(** A registration is accepted for a handle and a name of 1 to 127 units,
    and for a new name when there is memory. *)
Definition admits (room : bool) (us : list Z) (h : Z) (r : list entry) : bool :=
  negb (h =? 0) && (1 <=? Z.of_nat (length us)) && (Z.of_nat (length us) <=? 127) &&
  (room || bool_decide (is_Some (find_entry us r))).

Definition spec_call (room : bool) (euid : Z) (rq : request) (s : registry) : list item * registry :=
  match rq with
  | Find _ us => ([found (reg_lookup us euid (known s))], s)
  | Add us h v =>
      if admits room us h (known s) then
        ([IU32 0], mkRegistry (reg_add us h (allow_of (default 0 v)) (known s)) (watched s ++ [us]))
      else (refused, s)
  | Enum n => (match known s !! Z.to_nat n with Some e => [list_answer e] | None => refused end, s)
  | Ping => ([], s)
  | Unknown _ | Foreign _ _ => (refused, s)
  end.

(** The answers, none for a death, and the registry. *)
Definition spec_event (room : bool) (e : event) (s : registry) : list (list item) * registry :=
  match e with
  | Call euid rq _ _ => let '(its, s) := spec_call room euid rq s in ([its], s)
  | Died i =>
      ([], match watched s !! i with
           | Some us => mkRegistry (reg_set us 0 (known s)) (watched s)
           | None => s
           end)
  end.

Fixpoint spec_run (rooms : list bool) (es : list event) (s : registry) : list (list item) * registry :=
  match rooms, es with
  | room :: rooms, e :: es =>
      let '(a, s) := spec_event room e s in
      let '(l, s) := spec_run rooms es s in
      (a ++ l, s)
  | _, _ => ([], s)
  end.

(** ** The process *)

(** The cookie of a link command. *)
Definition link_of (p : list byte) : option Z :=
  if (length p =? 12)%nat && bool_decide (take 4 p = le_bytes 4 BC_REQUEST_DEATH_NOTIFICATION)
  then Some (le_val (drop 8 p)) else None.

Definition links (t : list CMachine.event) : list Z := omap link_of (sent t).

Section Session.
Context `{!Malloc} `{!MallocOk} (fn slo shi : Z) (Hfn : word_ok fn) (Hly : layout Script.area slo shi).
Context (bs : binder_state).
Implicit Types w : world svcmgr Script.state.

Abbreviation svc_inv := (svc_inv Script.area fn slo shi).
Abbreviation managing := (managing fn slo shi).
Abbreviation manager_call := (process_call (call_death fn) bs (svcmgr_handler fn) BINDER_SERVICE_MANAGER).
Abbreviation manager_dead := (process_dead (call_death fn) bs (svcmgr_handler fn)).

Definition manager_event (e : event) w : option (list answer * world svcmgr Script.state) :=
  match e with
  | Call euid rq dat os =>
      match manager_call euid (request_code rq) dat os w with
      | (Some a, w') => Some ([a], w')
      | (None, _) => None
      end
  | Died i =>
      match links (w_trace w) !! i with
      | Some c => w' ← manager_dead c w; Some ([], w')
      | None => Some ([], w)
      end
  end.

Fixpoint manager_run (es : list event) w : option (list answer * world svcmgr Script.state) :=
  match es with
  | [] => Some ([], w)
  | e :: es =>
      '(a, w) ← manager_event e w;
      '(l, w) ← manager_run es w;
      Some (a ++ l, w)
  end.

(** Whether [malloc] has a node for the name, when the handler asks. *)
Definition room (e : event) w : bool :=
  match e with
  | Call euid (Add us h v) dat os =>
      let m := w_mem (with_call (msg_txn BINDER_SERVICE_MANAGER SVC_MGR_ADD_SERVICE 0 euid dat os) dat os w) in
      negb (fst (malloc m (svcinfo.sizeof + 2 * (Z.of_nat (length us) + 1))) =? 0)
  | _ => true
  end.

Fixpoint rooms (es : list event) w : list bool :=
  match es with
  | [] => []
  | e :: es =>
      room e w :: match manager_event e w with Some (_, w) => rooms es w | None => [] end
  end.

(** The process implements the registry: the entries are those of the nodes,
    and the cookies of the link commands are the nodes of the watched names. *)
Definition watches (nodes : list node) (cs : list Z) (names : list (list Z)) : Prop :=
  Forall2 (fun c us => exists n, n ∈ nodes /\ e_name (snd n) = us /\ c = fst n + svcinfo.death) cs names.

Definition represents (s : registry) w : Prop :=
  exists nodes, managing nodes w /\ known s = entries nodes /\ watches nodes (links (w_trace w)) (watched s).

(** ** The link commands *)

Lemma links_sent t t' cmds : sent t' = sent t ++ cmds -> links t' = links t ++ omap link_of cmds.
Proof. unfold links. intros ->. apply omap_app. Qed.

Lemma link_of_other p : length p <> 12%nat -> link_of p = None.
Proof. intros Hl. unfold link_of. by rewrite (proj2 (Nat.eqb_neq _ _) Hl). Qed.

Lemma link_of_link h c : word_ok c -> link_of (link_command h c) = Some c.
Proof.
  intros Hc. unfold link_of. change (length (link_command h c) =? 12)%nat with true.
  change (take 4 (link_command h c)) with (le_bytes 4 BC_REQUEST_DEATH_NOTIFICATION).
  rewrite bool_decide_eq_true_2 by done. change (drop 8 (link_command h c)) with (le_bytes 4 c ++ []).
  rewrite app_nil_r. cbn [andb]. f_equal. by apply le_val_bytes_4.
Qed.

Lemma links_release h : omap link_of (release_of h) = [].
Proof. unfold release_of. by case_cmp. Qed.

Lemma links_add r us h c : word_ok c -> omap link_of (add_commands r us h c) = [c].
Proof.
  intros Hc. unfold add_commands. rewrite omap_app.
  assert (omap link_of (match find_entry us r with Some e => release_of (e_handle e) | None => [] end) = []) as ->.
  { destruct (find_entry us r); [apply links_release|done]. }
  change (omap link_of [command2 BC_ACQUIRE h; link_command h c]) with (omap link_of [link_command h c]).
  cbn [omap list_omap app]. by rewrite link_of_link.
Qed.

Lemma watches_kept nodes nodes' cs names : kept nodes nodes' -> watches nodes cs names -> watches nodes' cs names.
Proof.
  intros Hk Hw. eapply Forall2_impl; [exact Hw|]. intros c us (n & Hn & En & ->).
  destruct (Hk n Hn) as (n' & Hn' & Ea & En'). exists n'. split_and!; [done|congruence|by rewrite Ea].
Qed.

(** ** A request *)

(** The answer [its], the nodes afterwards and the commands sent are what
    the registry says. *)
Definition outcome (rm : bool) nodes euid rq (its : list item) nodes' cmds : Prop :=
  forall ws, exists new,
    spec_call rm euid rq (mkRegistry (entries nodes) ws) = (its, mkRegistry (entries nodes') (ws ++ new)) /\
    watches nodes' (omap link_of cmds) new.

Lemma outcome_same rm nodes euid rq its :
  (forall ws, spec_call rm euid rq (mkRegistry (entries nodes) ws) = (its, mkRegistry (entries nodes) ws)) ->
  outcome rm nodes euid rq its nodes [].
Proof. intros Hs ws. exists []. rewrite app_nil_r. split; [apply Hs|constructor]. Qed.

(** What the handler leaves, [top] being the top of the stack it may use. *)
Definition handles (rm : bool) nodes euid rq top lo w1 (res : Z) (reply : binder_io) w2 : Prop :=
  exists its cmds nodes',
    (res = 0 /\ bio_writes (w_mem w2) (bio_cleared reply) lo 256 4 its \/ res <> 0 /\ its = [IU32 (u32 res)]) /\
    outcome rm nodes euid rq its nodes' cmds /\ svc_step Script.area fn slo shi top nodes w1 cmds nodes' w2.

(** Refusal. *)
Lemma handles_refused rm nodes euid rq top lo w1 reply w2 :
  svc_step Script.area fn slo shi top nodes w1 [] nodes w2 ->
  (forall ws, spec_call rm euid rq (mkRegistry (entries nodes) ws) = (refused, mkRegistry (entries nodes) ws)) ->
  handles rm nodes euid rq top lo w1 (-1) reply w2.
Proof.
  intros S Hs. exists refused, [], nodes. split; [by right|]. split; [by apply outcome_same|exact S].
Qed.

(** An answer that leaves the registry as it was. *)
Lemma handles_same rm nodes euid rq top lo w1 its reply w2 :
  svc_step Script.area fn slo shi top nodes w1 [] nodes w2 ->
  bio_writes (w_mem w2) (bio_cleared reply) lo 256 4 its ->
  (forall ws, spec_call rm euid rq (mkRegistry (entries nodes) ws) = (its, mkRegistry (entries nodes) ws)) ->
  handles rm nodes euid rq top lo w1 0 reply w2.
Proof.
  intros S W Hs. exists its, [], nodes. split; [by left|]. split; [by apply outcome_same|exact S].
Qed.

(** The handler in front of a request. *)
Record asked nodes top p t msg its reply lo w1 : Prop := {
  as_top : top <= shi;
  as_inv : svc_inv nodes w1;
  as_txn : txn_at (w_mem w1) p t;
  as_target : t_target t = BINDER_SERVICE_MANAGER;
  as_msg : bio_reads (w_mem w1) msg its;
  as_full : data_avail msg = items_size its;
  as_reply : reply_ok slo top w1 reply lo;
  as_sp : slo + 12 <= w_sp w1 <= lo;
}.

Lemma asked_writes nodes top p t msg its reply lo w1 :
  asked nodes top p t msg its reply lo w1 -> bio_writes (w_mem w1) (bio_cleared reply) lo 256 4 [].
Proof. intros A. apply bio_writes_cleared, (as_reply _ _ _ _ _ _ _ _ _ A). Qed.

Lemma serve_find nodes top p t msg policy code us reply lo w1 rm :
  asked nodes top p t msg [IU32 policy; IStr svcmgr_id; IStr us] reply lo w1 ->
  t_code t = code -> code = SVC_MGR_GET_SERVICE \/ code = SVC_MGR_CHECK_SERVICE ->
  wp (svcmgr_handler fn bs p msg reply)
     (fun '(res, reply) => handles rm nodes (t_sender_euid t) (Find code us) top lo w1 res reply) w1.
Proof.
  intros A <- Hcode. destruct A. eapply wp_mono.
  { apply (handler_find (area := Script.area) fn slo shi top nodes bs p t msg reply lo policy us w1); done. }
  intros [res reply'] w2 (-> & S & W). by eapply handles_same; [exact S|apply bio_writes_cleared, W|].
Qed.

Lemma serve_enum nodes top p t msg policy n reply lo w1 rm euid :
  asked nodes top p t msg [IU32 policy; IStr svcmgr_id; IU32 n] reply lo w1 ->
  t_code t = SVC_MGR_LIST_SERVICES ->
  wp (svcmgr_handler fn bs p msg reply)
     (fun '(res, reply) => handles rm nodes euid (Enum n) top lo w1 res reply) w1.
Proof.
  intros A Hcode. destruct A. eapply wp_mono.
  { apply (handler_list (area := Script.area) fn slo shi top nodes bs p t msg reply lo policy n w1); done. }
  assert (entries nodes !! Z.to_nat n = snd <$> (nodes !! Z.to_nat n)) as El by apply list_lookup_fmap.
  intros [res reply'] w2 Hw. destruct (nodes !! Z.to_nat n) as [nd|] eqn:En; cbn in El.
  - destruct Hw as (-> & S & R). apply list_elem_of_lookup_2 in En.
    destruct (sv_node _ _ _ _ _ _ _ as_inv0 En) as [Hwf _]. pose proof (nw_len _ Hwf).
    eapply handles_same; [exact S|apply (list_replied nd); [lia|exact R]|].
    intros ws. cbn [spec_call known]. by rewrite El.
  - destruct Hw as (-> & _ & ->). apply handles_refused; [by apply svc_step_refl|].
    intros ws. cbn [spec_call known]. by rewrite El.
Qed.

Lemma serve_ping nodes top p t msg its reply lo w1 rm euid :
  asked nodes top p t msg its reply lo w1 -> t_code t = PING_TRANSACTION ->
  wp (svcmgr_handler fn bs p msg reply)
     (fun '(res, reply) => handles rm nodes euid Ping top lo w1 res reply) w1.
Proof.
  intros A Hcode. pose proof (asked_writes _ _ _ _ _ _ _ _ _ A) as W. destruct A. eapply wp_run.
  { refine (handler_ping (area := Script.area) fn bs p t msg reply w1 as_txn0 _ Hcode).
    by rewrite (sv_self _ _ _ _ _ _ as_inv0). }
  by eapply handles_same; [apply svc_step_refl|exact W|].
Qed.

Lemma serve_unknown nodes top p t msg policy its reply lo w1 rm euid :
  asked nodes top p t msg (IU32 policy :: IStr svcmgr_id :: its) reply lo w1 -> unknown_code (t_code t) ->
  wp (svcmgr_handler fn bs p msg reply)
     (fun '(res, reply) => handles rm nodes euid (Unknown (t_code t)) top lo w1 res reply) w1.
Proof.
  intros A Hcode. destruct A. eapply wp_run.
  { refine (handler_unknown (area := Script.area) fn bs p t msg reply policy its w1 as_txn0 _ Hcode as_msg0).
    by rewrite (sv_self _ _ _ _ _ _ as_inv0). }
  by apply handles_refused; [apply svc_step_refl|].
Qed.

Lemma serve_foreign nodes top p t msg policy id its reply lo w1 rm euid :
  asked nodes top p t msg (IU32 policy :: IStr id :: its) reply lo w1 ->
  t_code t <> PING_TRANSACTION -> id <> svcmgr_id ->
  wp (svcmgr_handler fn bs p msg reply)
     (fun '(res, reply) => handles rm nodes euid (Foreign id (t_code t)) top lo w1 res reply) w1.
Proof.
  intros A Hcode Hid. destruct A. eapply wp_mono.
  { by apply (handler_foreign (area := Script.area) fn slo shi top nodes bs p t msg reply policy id its). }
  intros [res reply'] w2 (-> & -> & S). by apply handles_refused.
Qed.

(** ** Registration *)

Lemma admits_spec rm us h r :
  admits rm us h r = true <->
  add_accepts us (Z.of_nat (length us)) h /\ (rm = true \/ find_entry us r <> None).
Proof.
  unfold admits, add_accepts.
  rewrite !andb_true_iff, negb_true_iff, Z.eqb_neq, !Z.leb_le, orb_true_iff, bool_decide_eq_true, <- not_eq_None_Some.
  tauto.
Qed.

Lemma serve_add nodes top p t msg policy us h v its reply lo w1 rm euid :
  asked nodes top p t msg ([IU32 policy; IStr svcmgr_id; IStr us; IObj BINDER_TYPE_HANDLE h] ++ its) reply lo w1 ->
  t_code t = SVC_MGR_ADD_SERVICE -> its = match v with Some v => [IU32 v] | None => [] end ->
  (rm = false <-> no_memory us (w_mem w1)) ->
  wp (svcmgr_handler fn bs p msg reply)
     (fun '(res, reply) => handles rm nodes euid (Add us h v) top lo w1 res reply) w1.
Proof.
  intros A Hcode Hits Hrm. destruct A. eapply wp_mono.
  { apply (handler_add (area := Script.area) fn slo shi top nodes bs p t msg reply lo policy us h its (default 0 v) w1); try done.
    destruct v as [v|]; subst its; [by left|right]. split; [done|]. by split. }
  intros [res reply'] w2 [(-> & S & Href)|(-> & Hacc & Hmem & nodes' & n & Hn & En & Er & S & W)].
  - apply handles_refused; [exact S|]. intros ws. cbn [spec_call known].
    destruct (admits rm us h (entries nodes)) eqn:Ea; [|done]. apply admits_spec in Ea as [Hacc Hr].
    destruct Href as [?|[Hnone Hno]]; [done|]. apply Hrm in Hno. destruct Hr; congruence.
  - exists [IU32 0], (add_commands (entries nodes) us h (fst n + svcinfo.death)), nodes'.
    split; [left; split; [done|by apply bio_writes_cleared]|]. split; [|exact S].
    intros ws. exists [us]. cbn [spec_call known watched]. split.
    + assert (admits rm us h (entries nodes) = true) as ->; [|by rewrite Er].
      apply admits_spec. split; [done|]. destruct rm; [by left|right]. intros Hnone.
      by apply (Hmem Hnone), Hrm.
    + destruct (sv_node _ _ _ _ _ _ _ (ss_inv _ _ _ _ _ _ _ _ _ _ S) Hn) as [Hwf _].
      rewrite links_add.
      * constructor; [by exists n|constructor].
      * pose proof (nw_lo _ Hwf). pose proof (nw_hi _ Hwf). pose proof (node_size_pos n).
        unfold word_ok, svcinfo.death. lia.
Qed.

(** ** One event *)

Lemma writes_code rq its : writes rq its -> word_ok (request_code rq).
Proof.
  destruct rq as [code us|us h v|n| |code|id code]; cbn [writes request_code].
  - intros [[-> | ->] _]; by vm_compute.
  - by vm_compute.
  - by vm_compute.
  - by vm_compute.
  - by intros [? _].
  - by intros [? _].
Qed.

Lemma call_served nodes euid rq dat os policy its w :
  managing nodes w -> msg_fits dat os = true -> word_ok euid -> encodes (IU32 policy :: its) dat os ->
  writes rq its ->
  let t := msg_txn BINDER_SERVICE_MANAGER (request_code rq) 0 euid dat os in
  let w1 := at_handler (with_call t dat os w) in
  wp (svcmgr_handler fn bs (w_sp w + 4) (txn_bio t no_io) (bio_init no_io (w_sp w - 256) 256 4))
     (fun '(res, reply) => handles (room (Call euid rq dat os) w) nodes euid rq (w_sp w) (w_sp w - 256) w1 res reply) w1.
Proof.
  intros M Hf He Henc Hwr t w1. pose proof M as [_ Hlo Hhi].
  destruct (manager_entry fn slo shi Hly nodes euid (request_code rq) dat os _ w M Hf He (writes_code _ _ Hwr) Henc)
    as (I & Ht & Hm & Hr).
  assert (asked nodes (w_sp w) (w_sp w + 4) t (txn_bio t no_io) (IU32 policy :: its)
            (bio_init no_io (w_sp w - 256) 256 4) (w_sp w - 256) w1) as A.
  { split; [lia|exact I|exact Ht|done|exact Hm|exact (en_size _ _ _ Henc)|exact Hr|]. cbn. lia. }
  clear I Ht Hm Hr. destruct rq as [code us|us h v|n| |code|id code]; cbn [writes] in Hwr.
  - destruct Hwr as [Hcode ->]. by eapply (serve_find nodes _ _ t).
  - eapply (serve_add nodes _ _ t _ policy us h v (match v with Some v => [IU32 v] | None => [] end)); [|done|done|].
    + by destruct v as [v|]; subst its.
    + cbn [room]. unfold no_memory. rewrite negb_false_iff, Z.eqb_eq. done.
  - subst its. by eapply (serve_enum nodes _ _ t).
  - by eapply (serve_ping nodes _ _ t).
  - destruct Hwr as (_ & Hcode & rest & ->). exact (serve_unknown nodes _ _ t _ _ _ _ _ _ _ _ A Hcode).
  - destruct Hwr as (_ & Hcode & Hid & rest & ->). exact (serve_foreign nodes _ _ t _ _ _ _ _ _ _ _ _ A Hcode Hid).
Qed.

Definition simulated (e : event) (s : registry) w : Prop :=
  exists ans w', manager_event e w = Some (ans, w') /\
    Forall2 answers_with (fst (spec_event (room e w) e s)) ans /\
    represents (snd (spec_event (room e w) e s)) w'.

Lemma call_simulated euid rq dat os s w :
  event_ok (Call euid rq dat os) -> represents s w -> simulated (Call euid rq dat os) s w.
Proof.
  intros (He & Hf & policy & its & Henc & Hwr) (nodes & M & Ek & Hws).
  destruct (manager_call_run fn slo shi Hly bs nodes euid (request_code rq) dat os
    (outcome (room (Call euid rq dat os) w) nodes euid rq) w M Hf He (writes_code _ _ Hwr))
    as (a & w' & its' & nodes' & cmds & cmd & E & Ha & Henc' & Ho & M' & Hk & Es & Hl).
  { by eapply call_served. }
  destruct s as [r ws]. cbn [known watched] in *. subst r. destruct (Ho ws) as (new & Hs & Hnew).
  exists [a], w'. cbn [manager_event spec_event]. rewrite E, Hs. split; [done|].
  split; [constructor; [by split|constructor]|]. exists nodes'. split; [done|]. split; [done|].
  rewrite (links_sent _ _ _ Es), omap_app. cbn [watched snd].
  change (omap link_of [cmd]) with (omap link_of [cmd] : list Z).
  assert (omap link_of [cmd] = []) as -> by (cbn [omap list_omap]; by rewrite link_of_other by lia).
  rewrite app_nil_r. apply Forall2_app; [by eapply watches_kept|exact Hnew].
Qed.

(** A report that is not due is none. *)
Lemma dead_simulated i s w : represents s w -> simulated (Died i) s w.
Proof.
  intros (nodes & M & Ek & Hws). pose proof M as [I Hlo Hhi]. pose proof (ly_stack _ _ _ Hly).
  unfold simulated. cbn [manager_event spec_event]. destruct (links (w_trace w) !! i) as [c|] eqn:Ec.
  - destruct (Forall2_lookup_l _ _ _ _ _ Hws Ec) as (us & -> & n & Hn & <- & ->).
    destruct (sv_node _ _ _ _ _ _ _ I Hn) as [Hwf _].
    pose proof (nw_lo _ Hwf). pose proof (nw_hi _ Hwf). pose proof (node_size_pos n).
    set (w1 := set_mem (mem_write (w_mem w) (w_sp w) (u32s_bytes (stream [MDead (fst n + svcinfo.death)]))) w).
    assert (modifies (w_mem w) (w_mem w1) (w_sp w) 8) as Hmod by (apply mem_write_modifies; done).
    assert (svc_inv nodes w1) as I1.
    { eapply svc_inv_frame; [exact I|done|done|apply I| |apply Hmod|by left].
      intros a Ho. apply Hmod. destruct (sv_away _ _ _ _ _ _ I a Ho) as [_ Hs]. lia. }
    destruct (process_dead_run (call_death fn) bs (svcmgr_handler fn) (fst n + svcinfo.death) w
      (fun w' => svc_step Script.area fn slo shi (w_sp w) nodes w1 (release_of (e_handle (snd n)))
                   (set_handle (fst n) 0 nodes) w')) as (w' & E & S).
    { lia. }
    { lia. }
    { unfold word_ok, svcinfo.death. lia. }
    { apply (handle_dead_step Script.area fn slo shi (w_sp w)); [done..|lia|lia|done|done|done]. }
    exists [], w'. rewrite E. split; [done|]. split; [constructor|].
    exists (set_handle (fst n) 0 nodes). pose proof (ss_sp _ _ _ _ _ _ _ _ _ _ S) as Esp.
    split; [|split].
    + split; [apply S|rewrite Esp; exact Hlo|rewrite Esp; exact Hhi].
    + cbn [known snd]. rewrite Ek. symmetry. apply entries_set_handle; [apply I|apply I|done].
    + rewrite (links_sent (w_trace w) _ _ (ss_sent _ _ _ _ _ _ _ _ _ _ S)), links_release, app_nil_r.
      eapply watches_kept; [apply kept_set_handle|exact Hws].
  - exists [], w. split; [done|]. split; [constructor|]. exists nodes.
    assert (watched s !! i = None) as ->; [|by split].
    apply lookup_ge_None. rewrite <- (Forall2_length _ _ _ Hws). by apply lookup_ge_None.
Qed.

(** ** Sessions *)

Lemma session_run es : forall s w, Forall event_ok es -> represents s w ->
  exists ans w', manager_run es w = Some (ans, w') /\ length (rooms es w) = length es /\
    Forall2 answers_with (fst (spec_run (rooms es w) es s)) ans /\
    represents (snd (spec_run (rooms es w) es s)) w'.
Proof.
  induction es as [|e es IH]; intros s w Hes R.
  { exists [], w. split; [done|]. split; [done|]. split; [constructor|exact R]. }
  apply Forall_cons in Hes as [He Hes].
  assert (simulated e s w) as (a & w1 & E & Ha & R1).
  { destruct e as [euid rq dat os|i]; [by apply call_simulated|by apply dead_simulated]. }
  destruct (IH _ w1 Hes R1) as (l & w' & E' & Hlen & Hl & R'). exists (a ++ l), w'.
  cbn [manager_run rooms spec_run]. rewrite E. cbn [mbind option_bind]. rewrite E'.
  destruct (spec_event (room e w) e s) as [a' s1] eqn:Es. cbn [fst snd] in *.
  destruct (spec_run (rooms es w1) es s1) as [l' s'] eqn:Er. cbn [fst snd] in *.
  split; [done|]. split; [cbn [length]; by rewrite Hlen|]. split; [by apply Forall2_app|exact R'].
Qed.
End Session.

(** C3. Any session. Whatever well-formed requests the clients of the service
    manager send (lookups, registrations with or without the last word,
    enumerations, pings, unknown codes, requests of another interface) and
    whichever deaths it asked to be told of are reported, in any order and
    any number of times, the process handles each of them without a fault and
    answers what the abstract registry answers. The registry knows neither
    nodes, cookies nor messages: a lookup gives the handle of the name unless
    its service has died or isolated callers are kept out; a known name can
    always be registered again, a new one exactly when [malloc] has a node
    for it; and the death asked for by the [i]-th accepted registration
    clears the handle its name has by then. *)
Theorem session_refines `{MallocOk} fn slo shi bs es s (w : world svcmgr Script.state) :
  word_ok fn -> layout Script.area slo shi -> Forall event_ok es -> represents fn slo shi s w ->
  let oracle := rooms fn bs es w in
  exists ans w', manager_run fn bs es w = Some (ans, w') /\ length oracle = length es /\
    Forall2 answers_with (fst (spec_run oracle es s)) ans /\
    represents fn slo shi (snd (spec_run oracle es s)) w'.
Proof. intros Hfn Hly Hes R oracle. exact (session_run fn slo shi Hfn Hly bs es s w Hes R). Qed.

(** A session: "hello" is registered again, found, dies, is not found, comes
    back with another handle and is found; it is replaced, and the death of
    the service replaced hides the new one; a second service is registered. *)
Module SessionDemo.
Definition call (euid : Z) (rq : request) (its : list item) : event :=
  Call euid rq (Demo.parcel its) (u32s_bytes (item_offsets 0 its)).

Definition abc : list Z := byte_val <$> chars "abc".
Definition find (us : list Z) (euid : Z) : event :=
  call euid (Find SVC_MGR_CHECK_SERVICE us) (Demo.header [IStr us]).
Definition add (us : list Z) (h : Z) (v : option Z) : event :=
  call 10000 (Add us h v)
    (Demo.header (IStr us :: IObj BINDER_TYPE_HANDLE h :: match v with Some v => [IU32 v] | None => [] end)).

Definition session : list event :=
  [add Demo.hello 9 (Some 1); find Demo.hello 10000; Died 0; find Demo.hello 10000;
   add Demo.hello 11 None; find Demo.hello 10000; find Demo.hello 99001;
   add Demo.hello 13 None; find Demo.hello 10000; Died 1; find Demo.hello 10000;
   add abc 5 (Some 1); find abc 99001; Died 7; add abc 0 None;
   call 10000 (Enum 0) (Demo.header [IU32 0]); call 10000 Ping [IU32 0];
   call 10000 (Foreign abc SVC_MGR_LIST_SERVICES) [IU32 0; IStr abc; IU32 0]].

Definition expected : list (list item) :=
  [[IU32 0]; [IObj BINDER_TYPE_HANDLE 9]; [IU32 0]; [IU32 0]; [IObj BINDER_TYPE_HANDLE 11]; [IU32 0];
   [IU32 0]; [IObj BINDER_TYPE_HANDLE 13]; [IU32 0];
   [IU32 0]; [IObj BINDER_TYPE_HANDLE 5]; refused; [IStr abc]; []; refused].

Definition world : world svcmgr Script.state := Demo.world [] 0 0 [].

Lemma call_ok euid rq p its :
  word_ok euid -> writes rq its -> encodesb (IU32 p :: its) = true -> event_ok (call euid rq (IU32 p :: its)).
Proof.
  intros He Hwr [Hf Henc]%encodesb_ok. split; [exact He|]. split; [exact Hf|]. by exists p, its.
Qed.

Lemma session_ok : Forall event_ok session.
Proof.
  assert (word_ok 10000 /\ word_ok 99001) as [W1 W2] by (by vm_compute).
  unfold session, find, add, Demo.header. forall_list; first [exact Logic.I|apply call_ok]; try exact W1; try exact W2;
    lazymatch goal with |- encodesb _ = true => vm_compute; reflexivity | |- _ => cbn end.
  all: first [reflexivity|split; [by right|reflexivity]|exact Logic.I|idtac].
  split; [by vm_compute|]. split; [done|]. split; [done|]. by exists [IU32 0].
Qed.

Lemma represented : represents Demo.death_fn Demo.slo Demo.shi (mkRegistry (entries Demo.nodes) []) world.
Proof.
  exists Demo.nodes. split; [|split; [done|constructor]]. split.
  - apply Demo.inv. demo_check.
  - unfold Demo.slo. cbn. lia.
  - unfold Demo.shi. cbn. lia.
Qed.
End SessionDemo.

Lemma session_refines_witness :
  exists ans w', manager_run Demo.death_fn (mkBs 3 0 0) SessionDemo.session SessionDemo.world = Some (ans, w') /\
    Forall2 answers_with SessionDemo.expected ans.
Proof.
  destruct (session_refines Demo.death_fn Demo.slo Demo.shi (mkBs 3 0 0) SessionDemo.session
    (mkRegistry (entries Demo.nodes) []) SessionDemo.world) as (ans & w' & E & _ & Ha & _).
  - unfold word_ok, Demo.death_fn. lia.
  - apply Demo.layout_ok.
  - apply SessionDemo.session_ok.
  - apply SessionDemo.represented.
  - assert (rooms Demo.death_fn (mkBs 3 0 0) SessionDemo.session SessionDemo.world = replicate 18 true) as Er
      by (vm_compute; reflexivity).
    rewrite Er in Ha.
    assert (fst (spec_run (replicate 18 true) SessionDemo.session (mkRegistry (entries Demo.nodes) [])) =
            SessionDemo.expected) as Es by (vm_compute; reflexivity).
    rewrite Es in Ha. exists ans, w'. split; [exact E|exact Ha].
Defined.
