(* ===== verification/ServiceSession.v ===== *)
(** * Sessions of the greeting services

    The process of test_server.c in its looper, through any sequence of calls
    of its two services: what is answered and printed is a matter of how many
    calls there were before. *)
From Stdlib Require Import ZArith Strings.Byte.
From stdpp Require Import base gmap list strings.
From S2P Require Import Prelude CMachine BinderProto BinderIo BinderParcel Binder BinderLemmas BinderParse BinderDriver BinderCommands SvcDemo TestServer Relay RelayCall TestClientLemmas TestServerLemmas TestClientProps Process System.
Open Scope Z_scope.

(** ** The calls *)

Inductive which : Type := Hello | Goodbye.

Inductive greeting : Type :=
  | Say
  | SayTo (cs : list byte)
  | Other (code : Z).

Record call : Type := mkCall {
  c_to : which;
  c_what : greeting;
  c_euid : Z;
  c_data : list byte;
  c_offsets : list byte;
}.

Definition same (k k' : which) : bool :=
  match k, k' with Hello, Hello | Goodbye, Goodbye => true | _, _ => false end.

(** The codes of the two services are the same. *)
Definition code_of (g : greeting) : Z :=
  match g with
  | Say => HELLO_SVR_CMD_SAYHELLO
  | SayTo _ => HELLO_SVR_CMD_SAYHELLO_TO
  | Other code => code
  end.

(** The items behind the strict mode policy; a name fits the array of the
    handler. *)
Definition asks (g : greeting) (its : list item) : Prop :=
  match g with
  | Say => True
  | SayTo cs => (length cs <= 511)%nat /\ (x00 ∉ cs) /\ exists us, its = [IStr us; IStr (byte_val <$> cs)]
  | Other code => word_ok code /\ code <> HELLO_SVR_CMD_SAYHELLO /\ code <> HELLO_SVR_CMD_SAYHELLO_TO
  end.

Definition call_ok (c : call) : Prop :=
  word_ok (c_euid c) /\ msg_fits (c_data c) (c_offsets c) = true /\
  exists policy its, encodes (IU32 policy :: its) (c_data c) (c_offsets c) /\ asks (c_what c) its.

(** ** What they come to *)

Definition is_say (k : which) (c : call) : bool :=
  same (c_to c) k && match c_what c with Say => true | _ => false end.
Definition is_say_to (k : which) (c : call) : bool :=
  same (c_to c) k && match c_what c with SayTo _ => true | _ => false end.

(** The calls of a service so far, without and with a name. *)
Definition plain (k : which) (past : list call) : Z := Z.of_nat (length (List.filter (is_say k) past)).
Definition named (k : which) (past : list call) : Z := Z.of_nat (length (List.filter (is_say_to k) past)).

Definition reply_to (past : list call) (c : call) : list item :=
  match c_what c with
  | Say => [IU32 0]
  | SayTo _ => [IU32 0; IU32 (u32 (named (c_to c) past + 1))]
  | Other _ => [IU32 4294967295]
  end.

Definition line_of (past : list call) (c : call) : CMachine.event :=
  match c_what c, c_to c with
  | Say, Hello => EvPrint "say hello : %d" [] (s32 (plain Hello past + 1))
  | Say, Goodbye => EvPrint "say goodbye : %d" [] (s32 (plain Goodbye past + 1))
  | SayTo cs, Hello => EvPrint "say hello to %s : %d" cs (s32 (named Hello past + 1))
  | SayTo cs, Goodbye => EvPrint "say goodbye to %s : %d" cs (s32 (named Goodbye past + 1))
  | Other code, _ => EvPrint "unknown code %d" [] (s32 code)
  end.

(** [f] on each call with those before it. *)
Fixpoint with_past {A} (f : list call -> call -> A) (past cs : list call) : list A :=
  match cs with
  | [] => []
  | c :: cs => f past c :: with_past f (past ++ [c]) cs
  end.

(** The counters of the process after the calls. *)
Definition counters (past : list call) : greetings :=
  mkGreetings (s32 (plain Hello past)) (s32 (named Hello past)) (s32 (plain Goodbye past)) (s32 (named Goodbye past)).

(** ** The process *)

Lemma plain_snoc k past c : plain k (past ++ [c]) = plain k past + (if is_say k c then 1 else 0).
Proof. unfold plain. rewrite List.filter_app, length_app. cbn [List.filter]. destruct (is_say k c); cbn [length]; lia. Qed.

Lemma named_snoc k past c : named k (past ++ [c]) = named k past + (if is_say_to k c then 1 else 0).
Proof. unfold named. rewrite List.filter_app, length_app. cbn [List.filter]. destruct (is_say_to k c); cbn [length]; lia. Qed.

Lemma s32_step z : s32 (s32 z + 1) = s32 (z + 1).
Proof. unfold s32, u32. repeat case_cmp; div_lia. Qed.

Lemma u32_s32 z : u32 (s32 z) = u32 z.
Proof. unfold s32, u32. case_cmp; div_lia. Qed.

Section Services.
Context (hello_fn goodbye_fn : Z) (Hfns : hello_fn <> goodbye_fn) (Hword : word_ok hello_fn /\ word_ok goodbye_fn).
Context (bs : binder_state).
Implicit Types w : world greetings Script.state.

Abbreviation server_call :=
  (process_call no_callbacks bs (test_server_handler (D := Script.state) hello_fn goodbye_fn)).

Definition fn_of (k : which) : Z := match k with Hello => hello_fn | Goodbye => goodbye_fn end.
Definition service_of (k : which) : service :=
  match k with Hello => hello_service | Goodbye => goodbye_service end.

Fixpoint server_run (cs : list call) w : option (list answer * world greetings Script.state) :=
  match cs with
  | [] => Some ([], w)
  | c :: cs =>
      match server_call (fn_of (c_to c)) (c_euid c) (code_of (c_what c)) (c_data c) (c_offsets c) w with
      | (Some a, w) => '(l, w) ← server_run cs w; Some (a :: l, w)
      | (None, _) => None
      end
  end.

Lemma service_in k : (service_of k, fn_of k) ∈ service_fns hello_fn goodbye_fn.
Proof. destruct k; [left|right; left]. Qed.

(** One call. *)
Lemma server_step past c w :
  call_ok c -> looping 768 w -> w_glob w = counters past ->
  exists a w', server_call (fn_of (c_to c)) (c_euid c) (code_of (c_what c)) (c_data c) (c_offsets c) w = (Some a, w') /\
    answers_with (reply_to past c) a /\ looping 768 w' /\ w_glob w' = counters (past ++ [c]) /\
    prints (w_trace w') = prints (w_trace w) ++ [line_of past c].
Proof.
  intros (He & Hf & policy & its & Henc & Ha) Hl Hg. destruct c as [k g euid dat os].
  cbn [c_to c_what c_euid c_data c_offsets] in *. pose proof (service_in k) as Hk.
  unfold reply_to, line_of, counters. rewrite !plain_snoc, !named_snoc. unfold is_say, is_say_to.
  cbn [c_to c_what]. destruct g as [|cs|code]; cbn [asks code_of] in *.
  - destruct (server_say _ _ Hfns Hword bs _ _ euid dat os its w Hk Hl Hf He Henc)
      as (a & w' & E & Hok & Hen & Hl' & Hg' & Hp). exists a, w'. split; [exact E|]. split; [by split|]. split; [done|].
    rewrite Hg', Hp, Hg.
    destruct k; cbn [service_of hello_service goodbye_service sv_bump sv_line counters hello_cnt hello_to_cnt goodbye_cnt goodbye_to_cnt];
      rewrite !s32_step; cbn [same andb]; rewrite !Z.add_0_r; by split.
  - destruct Ha as (Hlen & Hz & us & ->).
    destruct (server_say_to _ _ Hfns Hword bs _ _ euid dat os us cs w Hk Hl Hf He Henc Hlen Hz)
      as (a & w' & E & Hok & Hen & Hl' & Hg' & Hp). exists a, w'. split; [exact E|]. rewrite Hg in *.
    unfold is_say, is_say_to. cbn [c_to c_what same andb]. split; [|split; [done|]].
    + split; [exact Hok|]. destruct k; cbn [service_of hello_service goodbye_service sv_total sv_bump_to hello_to_cnt goodbye_to_cnt counters] in Hen;
        rewrite s32_step, u32_s32 in Hen; exact Hen.
    + rewrite Hg', Hp. destruct k; cbn [service_of hello_service goodbye_service sv_bump_to sv_line_to counters hello_cnt hello_to_cnt goodbye_cnt goodbye_to_cnt];
        rewrite !s32_step; cbn [same andb]; rewrite !Z.add_0_r; by split.
  - destruct Ha as (Hc & Hne & Hne').
    destruct (server_other _ _ Hfns Hword bs _ _ euid code dat os policy its w Hk Hl Hf He Hc Hne Hne' Henc)
      as (a & w' & E & Hok & Hen & Hl' & Hg' & Hp). exists a, w'. split; [exact E|]. split; [by split|]. split; [done|].
    rewrite Hg', Hp, Hg.
    destruct k; cbn [same andb]; rewrite !Z.add_0_r; by split.
Qed.

Lemma server_session cs : forall past w,
  Forall call_ok cs -> looping 768 w -> w_glob w = counters past ->
  exists ans w', server_run cs w = Some (ans, w') /\
    Forall2 answers_with (with_past reply_to past cs) ans /\
    prints (w_trace w') = prints (w_trace w) ++ with_past line_of past cs /\
    looping 768 w' /\ w_glob w' = counters (past ++ cs).
Proof.
  induction cs as [|c cs IH]; intros past w Hcs Hl Hg.
  { exists [], w. rewrite !app_nil_r. split; [done|]. split; [constructor|]. by split. }
  apply Forall_cons in Hcs as [Hc Hcs].
  destruct (server_step past c w Hc Hl Hg) as (a & w1 & E & Ha & Hl1 & Hg1 & Hp1).
  destruct (IH _ w1 Hcs Hl1 Hg1) as (l & w' & E' & Hans & Hp & Hl' & Hg'). exists (a :: l), w'.
  cbn [server_run with_past]. rewrite E, E'. split; [done|]. split; [by constructor|].
  rewrite Hp, Hp1, <- !app_assoc. split; [done|]. split; [done|]. rewrite Hg', <- app_assoc. done.
Qed.
End Services.

(** C8. Any session of the services. Whatever calls the clients of
    test_server.c make (greetings, greetings by a name that fits the array,
    unknown codes, of either service), the process of test_server.c handles
    each without a fault: the [i]-th line it prints and the [i]-th answer are
    a function of the calls before; a greeting by name is answered with the
    number of those the service had, modulo 2^32, the counters wrapping as
    ints; an unknown code is printed and refused with -1; the two services
    do not disturb each other. *)
Theorem services_session hello_fn goodbye_fn bs cs (w : world greetings Script.state) :
  hello_fn <> goodbye_fn -> word_ok hello_fn -> word_ok goodbye_fn ->
  Forall call_ok cs -> looping 768 w -> w_glob w = mkGreetings 0 0 0 0 ->
  exists ans w', server_run hello_fn goodbye_fn bs cs w = Some (ans, w') /\
    Forall2 answers_with (with_past reply_to [] cs) ans /\
    prints (w_trace w') = prints (w_trace w) ++ with_past line_of [] cs /\
    looping 768 w' /\ w_glob w' = counters cs.
Proof.
  intros Hne H1 H2 Hcs Hl Hg. exact (server_session _ _ Hne (conj H1 H2) bs cs [] w Hcs Hl Hg).
Qed.

(** Both services, by name and not, and a code of neither. *)
Module ServiceDemo.
Definition call (k : which) (g : greeting) (its : list item) : call :=
  mkCall k g 1000 (Demo.parcel (IU32 0 :: its)) (u32s_bytes (item_offsets 0 (IU32 0 :: its))).
Definition ann : list byte := chars "ann".
Definition to (k : which) : ServiceSession.call := call k (SayTo ann) [IStr Demo.hello; IStr (byte_val <$> ann)].

Definition session : list ServiceSession.call :=
  [call Hello Say []; to Hello; to Goodbye; to Hello; call Goodbye (Other 7) []; call Goodbye Say [IU32 5]].

Definition world : world greetings Script.state :=
  mkWorld _ _ Demo.blank 7000 (mkGreetings 0 0 0 0) (Script.mkState [] []) [].

Lemma call_ok_of k g its : asks g its -> encodesb (IU32 0 :: its) = true -> call_ok (call k g its).
Proof.
  intros Ha [Hf Henc]%encodesb_ok. split; [by vm_compute|]. split; [exact Hf|]. by exists 0, its.
Qed.

Lemma to_ok k : call_ok (to k).
Proof.
  apply call_ok_of; [|vm_compute; reflexivity]. split; [cbn; lia|]. split; [|by exists Demo.hello].
  apply (bool_decide_unpack _). by vm_compute.
Qed.

Lemma services_session_ok : Forall call_ok session.
Proof.
  unfold session. forall_list; try apply to_ok; apply call_ok_of; try (vm_compute; reflexivity); try exact Logic.I; (split; [by vm_compute|by split]).
Qed.

Lemma services_ready : looping 768 world.
Proof.
  assert (mappedb (w_mem world) 4096 4096 && mappedb (w_mem world) 65536 4096 = true) as [H1 H2]%andb_true_iff
    by (vm_compute; reflexivity).
  apply mappedb_mapped in H1, H2. split; cbn [w_sp world]; [lia|lia| | |].
  - eapply mapped_sub; [exact H1|lia..].
  - intros a Ha. apply H2. unfold Script.lo, Script.hi in Ha. lia.
  - intros a Ha Har. unfold Script.area, Script.lo, Script.hi in Har. lia.
Qed.
End ServiceDemo.

Lemma services_session_witness :
  exists ans w', server_run 4660 4680 (mkBs 3 0 0) ServiceDemo.session ServiceDemo.world = Some (ans, w') /\
    Forall2 answers_with [[IU32 0]; [IU32 0; IU32 1]; [IU32 0; IU32 1]; [IU32 0; IU32 2]; [IU32 4294967295]; [IU32 0]] ans /\
    prints (w_trace w') =
      [EvPrint "say hello : %d" [] 1; EvPrint "say hello to %s : %d" ServiceDemo.ann 1;
       EvPrint "say goodbye to %s : %d" ServiceDemo.ann 1; EvPrint "say hello to %s : %d" ServiceDemo.ann 2;
       EvPrint "unknown code %d" [] 7; EvPrint "say goodbye : %d" [] 1].
Proof.
  destruct (services_session 4660 4680 (mkBs 3 0 0) ServiceDemo.session ServiceDemo.world)
    as (ans & w' & E & Ha & Hp & _).
  - discriminate.
  - unfold word_ok. lia.
  - unfold word_ok. lia.
  - apply ServiceDemo.services_session_ok.
  - apply ServiceDemo.services_ready.
  - reflexivity.
  - exists ans, w'. split; [exact E|]. split; [exact Ha|exact Hp].
Defined.
