(* ===== verification/Greetings.v ===== *)
(** * The demonstration as a system

    The two processes the client of test_client.c talks to, as one peer: the
    service manager of service_manager.c, which knows the services of
    test_server.c, and the process of test_server.c, which serves them. The
    system offers what [GreetingServices] asks for, so that what is proved of
    the client against the interface holds against the two programs. *)
From Stdlib Require Import ZArith Strings.Byte.
From stdpp Require Import base gmap list strings.
From S2P Require Import Prelude CMachine BinderProto BinderIo BinderParcel Binder BinderLemmas BinderParse BinderDriver BinderCommands BinderCall ServiceManager SvcRegistry SvcOps SvcHandler SvcProcess TestServer Relay RelayCall TestClientLemmas TestServerLemmas TestClientProps Process System.
Open Scope Z_scope.

(** What a published service is to the processes: the handle the service
    manager holds, the handle the client gets, the address of the handler. *)
Record binding : Type := mkBinding {
    b_manager : Z;
    b_client : Z;
    b_handler : Z;
}.

Record system : Type := mkSystem {
    sy_manager : world svcmgr Script.state;
    sy_server : world greetings Script.state;
}.

Section System.
Context `{!Malloc} `{!MallocOk} (fn slo shi : Z) (Hfn : word_ok fn) (Hly : layout Script.area slo shi).
(** The descriptors of the two processes, the uid of the client and the
    bindings of the two services. *)
Context (mbs sbs : binder_state) (euid : Z) (hello goodbye : binding).

(** References of the service manager as the client sees them; a reference
    to nothing is 0. *)
Definition to_client : translation := fun ty v =>
  if ty =? BINDER_TYPE_HANDLE then
    (BINDER_TYPE_HANDLE,
     if v =? b_manager hello then b_client hello else if v =? b_manager goodbye then b_client goodbye else 0)
  else (ty, v).

Definition translated (f : translation) (a : answer) : answer :=
  mkAnswer (a_flags a) (translate f (a_data a) (a_offsets a)) (a_offsets a).

Definition manager_process := process_call (call_death fn) mbs (svcmgr_handler fn) BINDER_SERVICE_MANAGER euid.
Definition server_process (b : binding) :=
  process_call no_callbacks sbs (test_server_handler (b_handler hello) (b_handler goodbye)) (b_handler b) euid.

#[local] Instance system_peer : Peer system := fun s target code dat os =>
  if target =? BINDER_SERVICE_MANAGER then
    let '(a, m) := manager_process code dat os (sy_manager s) in
    (translated to_client <$> a, mkSystem m (sy_server s))
  else if target =? b_client hello then
    let '(a, p) := server_process hello code dat os (sy_server s) in (a, mkSystem (sy_manager s) p)
  else if target =? b_client goodbye then
    let '(a, p) := server_process goodbye code dat os (sy_server s) in (a, mkSystem (sy_manager s) p)
  else (None, s).

(** The names the services are published under. *)
Definition published : list (string * binding) := [("hello"%string, hello); ("goodbye"%string, goodbye)].

(** The service manager is in its looper and knows both services, the server
    is in its looper, has greeted [g] and printed [out]. *)
Record system_ready (g : greetings) (out : list event) (s : system) : Prop := {
  sr_manager : exists nodes, managing fn slo shi nodes (sy_manager s) /\
    forall name b, (name, b) ∈ published ->
      reg_lookup (byte_val <$> chars name) euid (entries nodes) = b_manager b;
  sr_server : looping 768 (sy_server s);
  sr_greetings : w_glob (sy_server s) = g;
  sr_output : prints (w_trace (sy_server s)) = out;
}.

Record bindings_ok : Prop := {
  bo_euid : word_ok euid;
  bo_words b : b ∈ [hello; goodbye] -> word_ok (b_manager b) /\ word_ok (b_client b) /\ word_ok (b_handler b);
  bo_nonzero b : b ∈ [hello; goodbye] -> b_manager b <> 0 /\ b_client b <> 0;
  bo_handles : b_manager hello <> b_manager goodbye /\ b_client hello <> b_client goodbye;
  bo_handlers : b_handler hello <> b_handler goodbye;
}.

Context (Hok : bindings_ok).

Lemma to_client_words : word_translation to_client.
Proof.
  intros ty v Hty Hv. unfold to_client. pose proof (bo_words Hok) as Hw.
  destruct (Hw hello) as (_ & Hh & _); [by left|]. destruct (Hw goodbye) as (_ & Hg & _); [by right; left|].
  case_cmp; [|done]. split; [done|]. cbn [snd]. repeat case_cmp; done.
Qed.

Lemma encodes_fits its dat os :
  encodes its dat os -> items_size its <= 2048 -> items_objs its <= 512 -> msg_fits dat os = true.
Proof.
  intros [Hs _ -> _] Hsz Hn. unfold msg_fits, msg_max. rewrite Hs, length_u32s_bytes.
  pose proof (length_item_offsets 0 its). rewrite andb_true_iff, !Z.leb_le. lia.
Qed.

Lemma translated_answer f a its :
  word_translation f -> answer_ok a -> encodes its (a_data a) (a_offsets a) ->
  answer_ok (translated f a) /\
  encodes (translate_item f <$> its) (a_data (translated f a)) (a_offsets (translated f a)).
Proof.
  intros Hf [Hfit Hfl] Henc. pose proof Hfit as [Hl%Z.leb_le _]%andb_true_iff. unfold msg_max in Hl.
  destruct (translate_encodes f its _ _ Hf Henc) as [Henc' Hlen]; [lia|].
  split; [|exact Henc']. split; [|done]. unfold msg_fits in *. cbn [translated a_data a_offsets]. by rewrite Hlen.
Qed.

(** The manager's answer, as the client sees it. *)
Lemma system_lookup name b g out s :
  (name, b) ∈ published -> system_ready g out s ->
  peer_answers s BINDER_SERVICE_MANAGER SVC_MGR_CHECK_SERVICE
    [IU32 0; IStr svcmgr_id; IStr (byte_val <$> chars name)] [found (b_client b)] (system_ready g out).
Proof.
  intros Hn [(nodes & M & Hreg) R2 R3 R4] dat os Henc.
  assert (b ∈ [hello; goodbye]) as Hb.
  { unfold published in Hn. rewrite !elem_of_cons, elem_of_nil in Hn.
    destruct Hn as [[= _ ->]|[[= _ ->]|[]]]; [by left|by right; left]. }
  assert (items_size [IU32 0; IStr svcmgr_id; IStr (byte_val <$> chars name)] <= 2048) as Hsz.
  { unfold published in Hn. rewrite !elem_of_cons, elem_of_nil in Hn.
    by destruct Hn as [[= -> ->]|[[= -> ->]|[]]]; vm_compute. }
  destruct (manager_lookup fn slo shi Hly mbs nodes euid dat os (byte_val <$> chars name) (sy_manager s) M)
    as (a & m' & nodes' & E & Ha & Henc' & En & M'); [|apply Hok|exact Henc|].
  { eapply encodes_fits; [exact Henc|done|by vm_compute]. }
  rewrite (Hreg name b Hn) in Henc'.
  destruct (translated_answer to_client a _ to_client_words Ha Henc') as [Ha' Henc2].
  exists (translated to_client a), (mkSystem m' (sy_server s)). split_and!; [| |  |].
  - unfold peer_call, system_peer. rewrite Z.eqb_refl. unfold manager_process. by rewrite E.
  - done.
  - destruct (bo_nonzero Hok b Hb) as [Hm Hc].
    assert (translate_item to_client <$> [found (b_manager b)] = [found (b_client b)]) as <-; [|exact Henc2].
    unfold found. rewrite (proj2 (Z.eqb_neq _ _) Hm), (proj2 (Z.eqb_neq _ _) Hc). cbn. do 2 f_equal.
    destruct (bo_handles Hok). rewrite !elem_of_cons, elem_of_nil in Hb.
    destruct Hb as [->|[->|[]]]; [by rewrite Z.eqb_refl|]. rewrite Z.eqb_refl. case_cmp; congruence.
  - split; [|done|done|done]. exists nodes'. split; [exact M'|]. by rewrite En.
Qed.

(** The services with their bindings. *)
Definition bound : list (service * binding) := [(hello_service, hello); (goodbye_service, goodbye)].

Lemma bound_facts v b :
  (v, b) ∈ bound -> word_ok (b_handler b) /\ b_client b <> BINDER_SERVICE_MANAGER /\
  (v, b_handler b) ∈ service_fns (b_handler hello) (b_handler goodbye) /\
  forall s code dat os, peer_call s (b_client b) code dat os =
    let '(a, p) := server_process b code dat os (sy_server s) in (a, mkSystem (sy_manager s) p).
Proof.
  unfold bound. rewrite !elem_of_cons, elem_of_nil. destruct (bo_handles Hok) as [_ Hne].
  intros Hb. assert (b ∈ [hello; goodbye]) as Hin.
  { destruct Hb as [[= _ ->]|[[= _ ->]|[]]]; [by left|by right; left]. }
  destruct (bo_words Hok b Hin) as (_ & _ & Hw), (bo_nonzero Hok b Hin) as [_ Hz].
  split; [done|]. split; [exact Hz|].
  destruct Hb as [[= -> ->]|[[= -> ->]|[]]]; (split; [solve [by left|by right; left]|]); intros s code dat os;
    unfold peer_call, system_peer; rewrite (proj2 (Z.eqb_neq _ BINDER_SERVICE_MANAGER) Hz).
  - by rewrite Z.eqb_refl.
  - rewrite (proj2 (Z.eqb_neq _ (b_client hello))) by congruence. by rewrite Z.eqb_refl.
Qed.

Lemma system_say v b ics g out s :
  (v, b) ∈ bound -> system_ready g out s -> items_size [IStr (byte_val <$> ics)] <= strings_max ->
  peer_answers s (b_client b) HELLO_SVR_CMD_SAYHELLO [IU32 0; IStr (byte_val <$> ics)] [IU32 0]
    (system_ready (sv_bump v g) (out ++ [sv_line v g])).
Proof.
  intros Hb [R1 R2 R3 R4] Hsz dat os Henc. unfold strings_max in Hsz.
  destruct (bound_facts v b Hb) as (_ & _ & Hv & Hcall).
  destruct (bo_words Hok hello) as (_ & _ & Hw1); [by left|]. destruct (bo_words Hok goodbye) as (_ & _ & Hw2); [by right; left|].
  destruct (server_say (policy := 0) _ _ (bo_handlers Hok) (conj Hw1 Hw2) sbs v (b_handler b) euid dat os [IStr (byte_val <$> ics)] (sy_server s) Hv R2)
    as (a & w' & E & Ha & Henc' & L & G & P); [|apply Hok|exact Henc|].
  { eapply encodes_fits; [exact Henc|rewrite items_size_cons; cbn [item_size]; lia|by vm_compute]. }
  exists a, (mkSystem (sy_manager s) w'). rewrite Hcall. unfold server_process. rewrite E.
  split_and!; try done. split; cbn [sy_manager sy_server]; try done; [by rewrite G, R3|by rewrite P, R3, R4].
Qed.

Lemma system_say_to v b ics cs g out s :
  (v, b) ∈ bound -> system_ready g out s ->
  items_size [IStr (byte_val <$> ics); IStr (byte_val <$> cs)] <= strings_max -> x00 ∉ cs ->
  peer_answers s (b_client b) HELLO_SVR_CMD_SAYHELLO_TO
    [IU32 0; IStr (byte_val <$> ics); IStr (byte_val <$> cs)]
    [IU32 0; IU32 (u32 (sv_total v (sv_bump_to v g)))]
    (system_ready (sv_bump_to v g) (out ++ [sv_line_to v g cs])).
Proof.
  intros Hb [R1 R2 R3 R4] Hsz Hz dat os Henc. unfold strings_max in Hsz.
  destruct (bound_facts v b Hb) as (_ & _ & Hv & Hcall).
  destruct (bo_words Hok hello) as (_ & _ & Hw1); [by left|]. destruct (bo_words Hok goodbye) as (_ & _ & Hw2); [by right; left|].
  assert (length cs <= 511)%nat as Hlen.
  { pose proof (en_wf _ _ _ Henc) as [_ [Hi [[_ Hc] _]%Forall_cons]%Forall_cons]%Forall_cons.
    pose proof (item_size_pos _ Hi). rewrite length_fmap in Hc. change (MAX_BIO_SIZE / 2) with 536870912 in Hc.
    rewrite !items_size_cons in Hsz. change (items_size []) with 0 in Hsz.
    assert (item_size (IStr (byte_val <$> cs)) <= 492) as Hle by lia. cbn [item_size] in Hle.
    rewrite length_fmap, align4_spec in Hle by lia. div_lia. }
  destruct (server_say_to (policy := 0) _ _ (bo_handlers Hok) (conj Hw1 Hw2) sbs v (b_handler b) euid dat os (byte_val <$> ics) cs (sy_server s) Hv R2)
    as (a & w' & E & Ha & Henc' & L & G & P); [|apply Hok|exact Henc|done|done|].
  { eapply encodes_fits; [exact Henc|rewrite items_size_cons; cbn [item_size]; lia|by vm_compute]. }
  exists a, (mkSystem (sy_manager s) w'). rewrite Hcall. unfold server_process. rewrite E.
  rewrite R3 in *. split_and!; try done. split; cbn [sy_manager sy_server]; try done. by rewrite P, R4.
Qed.

(** The system is a peer as the client expects it. *)
#[local] Instance system_greetings :
  GreetingServices system (b_client hello) (b_client goodbye) system_ready.
Proof.
  assert (hello ∈ [hello; goodbye] /\ goodbye ∈ [hello; goodbye]) as [Hh Hg] by (split; [by left|by right; left]).
  assert (forall v h, (v, h) ∈ [(hello_service, b_client hello); (goodbye_service, b_client goodbye)] ->
            exists b, (v, b) ∈ bound /\ h = b_client b) as Hof.
  { intros v h. unfold bound. rewrite !elem_of_cons, elem_of_nil. intros [[= -> ->]|[[= -> ->]|[]]].
    - exists hello. split; [by left|done].
    - exists goodbye. split; [by right; left|done]. }
  split.
  - destruct (bo_words Hok hello Hh) as (_ & ? & _), (bo_words Hok goodbye Hg) as (_ & ? & _).
    destruct (bo_nonzero Hok hello Hh), (bo_nonzero Hok goodbye Hg). done.
  - intros name h g out s Hn Hr. rewrite !elem_of_cons, elem_of_nil in Hn.
    destruct Hn as [[= -> ->]|[[= -> ->]|[]]]; (apply system_lookup; [|done]); unfold published; [by left|by right; left].
  - intros v h ics g out s (b & Hb & ->)%Hof Hr. by apply system_say.
  - intros v h ics cs g out s (b & Hb & ->)%Hof Hr. by apply system_say_to.
Qed.

(** ** Publishing *)

(** References of the server as the service manager sees them: a local
    object becomes the handle the driver has for it. *)
Definition to_manager : translation := fun ty v =>
  if ty =? BINDER_TYPE_BINDER then
    (BINDER_TYPE_HANDLE,
     if v =? b_handler hello then b_manager hello else if v =? b_handler goodbye then b_manager goodbye else 0)
  else (ty, v).

(** The service manager as the peer of a process that publishes; its answers
    to that hold no references. *)
#[local] Instance manager_peer : Peer (world svcmgr Script.state) := fun m target code dat os =>
  if target =? BINDER_SERVICE_MANAGER then manager_process code (translate to_manager dat os) os m
  else (None, m).

Lemma to_manager_words : word_translation to_manager.
Proof.
  intros ty v Hty Hv. unfold to_manager. pose proof (bo_words Hok) as Hw.
  destruct (Hw hello) as (Hh & _ & _); [by left|]. destruct (Hw goodbye) as (Hg & _ & _); [by right; left|].
  case_cmp; [|done]. split; [done|]. cbn [snd]. repeat case_cmp; done.
Qed.

Lemma to_manager_binding b :
  b ∈ [hello; goodbye] -> to_manager BINDER_TYPE_BINDER (b_handler b) = (BINDER_TYPE_HANDLE, b_manager b).
Proof.
  unfold to_manager. rewrite Z.eqb_refl, !elem_of_cons, elem_of_nil. pose proof (bo_handlers Hok).
  intros [->|[->|[]]]; [by rewrite Z.eqb_refl|]. rewrite Z.eqb_refl. case_cmp; congruence.
Qed.

(** The outcome of publishing [us]: the registry afterwards; a refusal is for
    want of memory, of a name not known before. *)
Record registered (us : list Z) (h : Z) (ok : bool) (m : memory) (r r' : list entry) : Prop := {
  rg_entries : r' = if ok then reg_add us h 0 r else r;
  rg_refused : ok = false -> find_entry us r = None /\ ~ has_room us m;
}.

(** The same for any name: the service manager takes those of 1 to 127
    units. *)
Record publication (us : list Z) (h : Z) (ok : bool) (m : memory) (r r' : list entry) : Prop := {
  pb_entries : r' = if ok then reg_add us h 0 r else r;
  pb_accepted : ok = true -> (1 <= length us <= 127)%nat;
  pb_refused : ok = false -> (length us = 0 \/ 127 < length us)%nat \/ find_entry us r = None /\ ~ has_room us m;
}.

Lemma publication_registered us h ok m r r' :
  (1 <= length us <= 127)%nat -> publication us h ok m r r' -> registered us h ok m r r'.
Proof. intros Hl [He _ Hr]. split; [done|]. intros E. destruct (Hr E) as [?|?]; [lia|done]. Qed.

(** The status that goes with it. *)
Definition status_word (ok : bool) : Z := if ok then 0 else 4294967295.

Lemma manager_registers us b nodes m dat os :
  b ∈ [hello; goodbye] -> (length us <= 205)%nat -> managing fn slo shi nodes m ->
  encodes [IU32 0; IStr svcmgr_id; IStr us; IObj BINDER_TYPE_BINDER (b_handler b)] dat os ->
  exists a m' ok nodes', peer_call m BINDER_SERVICE_MANAGER SVC_MGR_ADD_SERVICE dat os = (Some a, m') /\
    answer_ok a /\ encodes [IU32 (status_word ok)] (a_data a) (a_offsets a) /\
    managing fn slo shi nodes' m' /\ publication us (b_manager b) ok (w_mem m) (entries nodes) (entries nodes').
Proof.
  intros Hb Hl M Henc.
  assert (items_size [IU32 0; IStr svcmgr_id; IStr us; IObj BINDER_TYPE_BINDER (b_handler b)] <= 2048) as Hsz.
  { rewrite !items_size_cons. change (items_size []) with 0. change (item_size (IStr svcmgr_id)) with 60.
    cbn [item_size]. unfold flat_binder_object.sizeof. rewrite align4_spec by lia. div_lia. }
  pose proof (encodes_fits _ _ _ Henc Hsz ltac:(by vm_compute)) as Hf.
  pose proof Hf as [Hlen%Z.leb_le _]%andb_true_iff. unfold msg_max in Hlen.
  destruct (translate_encodes to_manager _ dat os to_manager_words Henc) as [Henc' Hlen']; [lia|].
  cbn [fmap list_fmap translate_item] in Henc'. rewrite (to_manager_binding b Hb) in Henc'.
  assert (msg_fits (translate to_manager dat os) os = true) as Hf' by (unfold msg_fits in *; by rewrite Hlen').
  destruct (bo_nonzero Hok b Hb) as [Hnz _].
  destruct (manager_add fn slo shi Hly mbs nodes euid _ os us (b_manager b) m M Hf' (bo_euid Hok) Henc')
    as (a & m' & nodes' & ok & E & Ha & Hrep & En & Hacc & Hno & M').
  exists a, m', ok, nodes'. split; [exact E|]. split; [done|]. split; [exact Hrep|]. split; [done|].
  split; [done|..].
  - intros Hok1. destruct (Hacc Hok1) as [_ ?]. lia.
  - intros Hok0. destruct (decide (1 <= length us <= 127)%nat) as [Hin|]; [right|left; lia].
    apply Hno; [done|]. split; [done|lia].
Qed.

(** [svcmgr_publish] in any process. A name of more than 205 characters does
    not fit the message. *)
Lemma publish_run {G} `{!Literals} fuel bs name cs b nodes (w : world G (relay (world svcmgr Script.state))) :
  b ∈ [hello; goodbye] -> client_ok w -> cstring w (lit SVC_MGR_NAME) (chars SVC_MGR_NAME) -> cstring w name cs ->
  managing fn slo shi nodes (r_peer (w_drv w)) ->
  wp (svcmgr_publish (S fuel) bs BINDER_SERVICE_MANAGER name (b_handler b))
     (fun r w' => exists (ok : bool) nodes' m, r = (if ok then 0 else -1) /\ managing fn slo shi nodes' m /\
        publication (byte_val <$> cs) (b_manager b) ok (w_mem (r_peer (w_drv w))) (entries nodes) (entries nodes') /\
        rpc m (w_sp w - 684) (w_sp w) w w') w.
Proof.
  intros Hb Hw Hs Hn M. pose proof (bo_words Hok b Hb) as (_ & _ & Hptr).
  destruct (decide (length cs <= 205)%nat) as [Hl|Hl].
  2: { eapply wp_mono; [apply (svcmgr_publish_overflow (S fuel) bs BINDER_SERVICE_MANAGER name cs (b_handler b) w); done || lia|].
       intros r w' [-> Hstep]. exists false, nodes, (r_peer (w_drv w)). split_and!; [done|done| |done].
       split; [done|done|]. intros _. left. rewrite length_fmap. lia. }
  eapply wp_mono.
  { apply (svcmgr_publish_run fuel bs BINDER_SERVICE_MANAGER name cs (b_handler b)
      (fun n m => exists ok nodes', n = status_word ok /\ managing fn slo shi nodes' m /\
         publication (byte_val <$> cs) (b_manager b) ok (w_mem (r_peer (w_drv w))) (entries nodes) (entries nodes'))
      w Hw Hs Hn Hl Hptr manager_word).
    intros dat os Henc.
    destruct (manager_registers (byte_val <$> cs) b nodes (r_peer (w_drv w)) dat os Hb ltac:(by rewrite length_fmap) M Henc)
      as (a & m' & ok & nodes' & E & Ha & Hrep & M' & Hr).
    exists a, m', (status_word ok). split; [exact E|]. split; [done|]. split; [done|]. by exists ok, nodes'. }
  intros r w' (n & m & -> & (ok & nodes' & -> & M' & Hr) & Hstep). exists ok, nodes', m.
  split; [by destruct ok|]. done.
Qed.
End System.
