(* ===== verification/ServerStart.v ===== *)
(** * The start of the demonstration server

    [main] of test_server.c with the service manager behind the driver: the
    device opened, both services published, the looper entered. *)
From Stdlib Require Import ZArith Strings.Byte.
From stdpp Require Import base gmap list strings.
From S2P Require Import Prelude CMachine BinderProto BinderIo BinderParcel Binder BinderLemmas BinderParse BinderDriver BinderCommands BinderCall ServiceManager SvcRegistry SvcOps SvcHandler SvcProcess SvcRequests BinderOpen TestServer Relay RelayCall TestClientLemmas TestServerLemmas TestClientProps Process System Greetings.
Open Scope Z_scope.

(** ** The looper when nobody calls *)

Section Quiet.
Context {G S : Type} `{Peer S}.
Implicit Types w : world G (relay S).

(** A write that is no call changes nothing; a read of it fails. *)
Lemma relay_idle (d : relay S) m b :
  write_size b - write_consumed b = 4 \/ write_size b - write_consumed b = 0 ->
  exists b' cs, relay_write_read d m b =
    (if read_size b =? 0 then 0 else -1, b', m, mkRelay (r_peer d) cs).
Proof.
  intros Hs. unfold relay_write_read, relay_answer.
  assert (call_of m b = None) as ->.
  { unfold call_of. rewrite (proj2 (Z.eqb_neq _ 44)) by lia. done. }
  unfold Script.write_read. cbn [Script.script]. by case_cmp; do 2 eexists.
Qed.

(** The state is as before but for the frame and the trace, which shows
    nothing printed. *)
Record quiet w w' : Prop := {
  qu_glob : w_glob w' = w_glob w;
  qu_peer : r_peer (w_drv w') = r_peer (w_drv w);
  qu_prints : prints (w_trace w') = prints (w_trace w);
}.

Lemma ioctl_idle bs b w :
  write_size b - write_consumed b = 4 \/ write_size b - write_consumed b = 0 ->
  wp (ioctl_write_read bs b)
     (fun '(res, _) w' => res = (if read_size b =? 0 then 0 else -1) /\ quiet w w' /\ w_sp w' = w_sp w) w.
Proof.
  intros Hs. unfold wpf, ioctl_write_read. cbn [drv_write_read relay_driver].
  destruct (relay_idle (w_drv w) (w_mem w) b Hs) as (b' & cs & ->).
  split; [done|]. split; [|done]. split; try done. cbn [w_trace]. rewrite prints_app. by rewrite app_nil_r.
Qed.

(** How the looper ends after [n] turns. *)
Definition quiet_end (n : nat) : loop_end :=
  match n with O => LoopRunning (mkBwr 0 0 0 0 0 0) | _ => LoopIoctl (-1) end.

Lemma binder_loop_quiet n bs func w :
  mapped (w_mem w) (w_sp w - 128) 128 ->
  wp (binder_loop no_callbacks n bs func) (fun e w' => e = quiet_end n /\ quiet w w') w.
Proof.
  intros Hm. unfold binder_loop, looper. apply wp_with_frame. apply wp_bind.
  apply wp_store; [eapply mapped_sub; [exact Hm|cbn; lia..]|].
  apply wp_bind, wp_bind. eapply wp_mono; [by apply ioctl_idle; left|].
  intros [res b'] w1 (-> & [Q1 Q2 Q3] & Hsp). apply wp_ret. destruct n as [|n]; cbn [looper_iter].
  - apply wp_ret. split; [done|]. by split.
  - apply wp_bind. eapply wp_mono; [by apply ioctl_idle; right|].
    intros [res b1] w2 (-> & [R1 R2 R3] & _). cbn [read_size Z.eqb]. cbv iota. apply wp_ret. split; [done|].
    split; cbn [w_glob w_drv w_trace set_sp set_mem] in *; congruence.
Qed.
End Quiet.

(** ** [main] *)

Section Start.
Context `{!Malloc} `{!MallocOk} `{!Literals}.
Context (fn slo shi : Z) (Hly : layout Script.area slo shi).
Context (mbs : binder_state) (euid : Z) (hello goodbye : binding) (Hok : bindings_ok euid hello goodbye).
#[local] Instance manager : Peer (world svcmgr Script.state) := manager_peer fn mbs euid hello goodbye.
Implicit Types w : world greetings (relay (world svcmgr Script.state)).

(** The strings the program passes to the service manager. *)
Definition server_literals : list string := [SVC_MGR_NAME; "hello"; "goodbye"]%string.

Record server_world w : Prop := {
  sw_ok : client_ok w;
  sw_lits s : s ∈ server_literals -> cstring w (lit s) (chars s);
}.

(** The service manager is in its looper with the registry [r]; the server
    has printed [lines] since [w0]. *)
Record starting w0 (r : list entry) (lines : list event) w : Prop := {
  st_world : server_world w;
  st_manager : exists nodes, managing fn slo shi nodes (r_peer (w_drv w)) /\ entries nodes = r;
  st_prints : prints (w_trace w) = prints (w_trace w0) ++ lines;
}.

Lemma starting_publish w0 fuel bs name b r lines w :
  (name, b) ∈ published hello goodbye -> starting w0 r lines w ->
  wp (svcmgr_publish (Datatypes.S fuel) bs BINDER_SERVICE_MANAGER (lit name) (b_handler b))
     (fun res w' => exists ok r', res = (if ok : bool then 0 else -1) /\
        registered (byte_val <$> chars name) (b_manager b) ok (w_mem (r_peer (w_drv w))) r r' /\
        starting w0 r' lines w') w.
Proof.
  intros Hn [[Hw Hl] (nodes & M & <-) Hp].
  assert (b ∈ [hello; goodbye] /\ name ∈ server_literals /\ (1 <= length (chars name) <= 127)%nat) as (Hb & Hlit & Hlen).
  { unfold published in Hn. rewrite !elem_of_cons, elem_of_nil in Hn.
    destruct Hn as [[= -> ->]|[[= -> ->]|[]]]; (split; [solve [by left|by right; left]|]);
      (split; [apply (bool_decide_unpack _); vm_compute; exact I|cbn; lia]). }
  unfold manager. eapply wp_mono.
  { apply (publish_run fn slo shi Hly mbs euid hello goodbye Hok fuel bs (lit name) (chars name) b nodes w Hb Hw);
      [apply Hl; by left|by apply Hl|done]. }
  intros res w' (ok & nodes' & m & -> & M' & Hr%publication_registered & Hs); [|by rewrite length_fmap].
  exists ok, (entries nodes').
  split; [done|]. split; [done|]. pose proof Hs as [_ Hd Ht]. split.
  - split; [by eapply client_ok_step|]. intros s Hin. eapply cstring_step; [by apply Hl|exact Hs].
  - exists nodes'. by rewrite Hd.
  - by rewrite Ht.
Qed.

Lemma starting_quiet w0 r lines w w' evs :
  starting w0 r lines w -> extends w w' -> r_peer (w_drv w') = r_peer (w_drv w) ->
  w_trace w' = w_trace w ++ evs -> starting w0 r (lines ++ prints evs) w'.
Proof.
  intros [[Hw Hl] Hm Hp] He Hd Ht. split.
  - split; [by eapply client_ok_extends|]. intros s Hs. eapply cstring_extends; eauto.
  - by rewrite Hd.
  - by rewrite Ht, prints_app, Hp, app_assoc.
Qed.

Definition failed (name : string) : event := EvPrint ("failed to publish " +:+ name +:+ " service") [] 0.

Abbreviation name_of s := (byte_val <$> chars s).

(** How the start can go: the result of [main] after [n] turns of the looper,
    the registry then, and the lines printed. [m] is the memory of the
    service manager at the beginning. *)
Inductive start_outcome (n : nat) (m : memory) (r : list entry) :
    Z * option loop_end -> list entry -> list event -> Prop :=
  | start_refused r1 :
      registered (name_of "hello") (b_manager hello) false m r r1 ->
      start_outcome n m r (-1, None) r1 [failed "hello"]
  | start_partly m' r1 r2 :
      registered (name_of "hello") (b_manager hello) true m r r1 ->
      registered (name_of "goodbye") (b_manager goodbye) false m' r1 r2 ->
      start_outcome n m r (0, Some (quiet_end n)) r2 [failed "goodbye"]
  | start_done m' r1 r2 :
      registered (name_of "hello") (b_manager hello) true m r r1 ->
      registered (name_of "goodbye") (b_manager goodbye) true m' r1 r2 ->
      start_outcome n m r (0, Some (quiet_end n)) r2 [].

Lemma starting_print w0 r lines fmt w :
  starting w0 r lines w -> wp (emit (EvPrint fmt [] 0)) (fun _ => starting w0 r (lines ++ [EvPrint fmt [] 0])) w.
Proof. intros St. apply wp_modify. by apply (starting_quiet w0 r lines w _ [EvPrint fmt [] 0]). Qed.

(** The end of [main]: threads allowed, the looper entered. *)
Lemma starting_loop w0 r lines bs n func w :
  starting w0 r lines w ->
  wp (binder_set_maxthreads bs 10;; e ← binder_loop no_callbacks n bs func; mret (0, Some e))
     (fun x w' => x = (0, Some (quiet_end n)) /\ (exists nodes, managing fn slo shi nodes (r_peer (w_drv w')) /\ entries nodes = r) /\
        prints (w_trace w') = prints (w_trace w0) ++ lines) w.
Proof.
  intros [[Hw _] Hm Hp]. apply wp_bind, wp_bind.
  unfold wpf at 1, ioctl_control. cbn [drv_control relay_driver]. apply wp_ret. apply wp_bind.
  eapply wp_mono.
  { apply binder_loop_quiet. cbn [w_mem w_sp]. eapply mapped_sub; [apply (cl_mapped _ Hw)|lia..]. }
  intros e w' [-> [Q1 Q2 Q3]]. apply wp_ret. split; [done|]. cbn [w_drv w_trace] in *.
  rewrite Q2, Q3, prints_app, Hp. by rewrite app_nil_r.
Qed.

Lemma server_start_run fuel n p m r w :
  server_world w -> (exists nodes, managing fn slo shi nodes (r_peer (w_drv w)) /\ entries nodes = r) ->
  malloc (w_mem w) sizeof_binder_state = (p, m) -> p <> 0 ->
  wp (server_main (b_handler hello) (b_handler goodbye) (Datatypes.S fuel) n)
     (fun x w' => exists nodes' lines, managing fn slo shi nodes' (r_peer (w_drv w')) /\
        prints (w_trace w') = prints (w_trace w) ++ lines /\
        start_outcome n (w_mem (r_peer (w_drv w))) r x (entries nodes') lines) w.
Proof.
  intros Hw Hm Em Hp. unfold server_main.
  destruct (open_run (128 * 1024) w p m Em Hp) as (w1 & R1 & Hex & _ & Edr & evs & Htr & Hpr).
  apply wp_bind. eapply wp_run; [exact R1|]. cbv beta iota.
  assert (starting w r [] w1) as S1.
  { change (starting w r [] w1) with (starting w r ([] ++ []) w1). rewrite <- Hpr at 2.
    apply (starting_quiet w r [] w); [|done|by rewrite Edr|done]. split; [done|done|by rewrite app_nil_r]. }
  set (bs := mkBs 3 Script.lo (128 * 1024)).
  apply wp_bind. eapply wp_mono; [by apply (starting_publish w fuel bs "hello" hello r [] w1); [left|]|].
  intros res w2 (ok1 & r1 & -> & Hr1 & S2). rewrite Edr in Hr1. destruct ok1; cbn [negb Z.eqb].
  2: { apply wp_bind. eapply wp_mono; [exact (starting_print w r1 [] _ w2 S2)|]. intros [] w3 [_ (nodes & M & <-) Hpr3].
       apply wp_ret. exists nodes, [failed "hello"]. split; [done|]. split; [exact Hpr3|]. by constructor. }
  apply wp_bind. eapply wp_mono; [by apply (starting_publish w fuel bs "goodbye" goodbye r1 [] w2); [right; left|]|].
  intros res w3 (ok2 & r2 & -> & Hr2 & S3). apply wp_bind.
  eapply (wp_mono _ (fun _ => starting w r2 (if ok2 then [] else [failed "goodbye"]))).
  { destruct ok2; cbn [negb Z.eqb]; [by apply wp_ret|exact (starting_print w r2 [] _ w3 S3)]. }
  intros [] w4 S4. eapply wp_mono; [by apply starting_loop|].
  intros x w5 (-> & (nodes & M & <-) & Hpr5). exists nodes, (if ok2 then [] else [failed "goodbye"]).
  split; [done|]. split; [exact Hpr5|]. destruct ok2; econstructor; eassumption.
Qed.

(** Both services are known when the start went well. *)
Lemma start_done_known n m r x r' uid name b :
  start_outcome n m r x r' [] -> (name, b) ∈ published hello goodbye -> isolated uid = false ->
  reg_lookup (name_of name) uid r' = b_manager b.
Proof.
  intros Ho Hn Huid. inversion Ho as [| |m' r1 r2 [-> _] [-> _]]; subst. unfold published in Hn.
  rewrite !elem_of_cons, elem_of_nil in Hn. rewrite !reg_lookup_add. cbv zeta. rewrite Huid, !andb_false_r.
  destruct Hn as [[= -> ->]|[[= -> ->]|[]]].
  - rewrite decide_False by done. by rewrite decide_True.
  - by rewrite decide_True.
Qed.
End Start.
