(* ===== verification/GreetingsProps.v ===== *)
(** * Properties of the demonstration

    What [main] of test_client.c does when the service manager and the
    process of test_server.c are behind the driver, and what the services do
    with a name they have no room for; at the end concrete processes. *)
From Stdlib Require Import ZArith Strings.Byte.
From stdpp Require Import base gmap list strings.
From S2P Require Import Prelude CMachine BinderProto BinderIo BinderParcel Binder BinderLemmas BinderParse BinderDriver BinderCommands BinderCall ServiceManager SvcRegistry SvcOps SvcHandler SvcRequests SvcProcess SvcDemo BinderOpen TestServer TestClient Relay RelayCall TestClientLemmas TestServerLemmas TestClientProps Process System Greetings ServerStart.
Open Scope Z_scope.

(** ** Three processes *)

(** C5. End to end. [main] of test_client.c with the service manager and the
    services behind the driver, all three as they are written, and memory for
    its binder state (the [malloc] of binder_open succeeds): it finds both
    services, calls the one its command line names, prints the handles and
    the count the service returned, and returns 0; the service has counted
    and printed that greeting and no other, and the processes are ready for
    the next client. A name longer than the client's message holds (227
    bytes for hello, 225 for goodbye) reaches no service, and the client
    prints 0 as if it had been counted. *)
Theorem client_end_to_end `{!Malloc} `{!MallocOk} `{!Literals} fn slo shi mbs sbs euid hello goodbye
    fuel argv args g out (w : world client (relay system)) :
  word_ok fn -> layout Script.area slo shi -> bindings_ok euid hello goodbye ->
  client_world w -> Forall2 (cstring w) argv args -> (2 <= length argv)%nat ->
  fst (malloc (w_mem w) sizeof_binder_state) <> 0 ->
  system_ready fn slo shi euid hello goodbye g out (r_peer (w_drv w)) ->
  let _ := system_peer fn mbs sbs euid hello goodbye in
  let '(lines, g', out') := client_spec args g out in
  exists w', client_main (S fuel) argv w = Ok 0 w' /\
    prints (w_trace w') = prints (w_trace w) ++
      handle_lines (hello := b_client hello) (goodbye := b_client goodbye) ++ lines /\
    system_ready fn slo shi euid hello goodbye g' out' (r_peer (w_drv w')).
Proof.
  intros Hfn Hly Hok Hw Hargs Hl Hm Hr peer.
  pose proof (system_greetings fn slo shi Hly mbs sbs euid hello goodbye Hok) as HG.
  destruct (malloc (w_mem w) sizeof_binder_state) as [p m] eqn:Em.
  pose proof (client_main_run (S := system) fuel argv args g out (w_glob w) w p m) as R.
  apply wp_ok in R as (r & w' & E & -> & R); [|by split; rewrite ?app_nil_r|done|done|done].
  destruct (client_spec args g out) as [[lines g'] out']. destruct R as (c' & P).
  exists w'. split; [exact E|]. split; apply P.
Qed.

(** C6. Publishing. [svcmgr_publish] of test_server.c, called by any process
    with the service manager behind the driver and with a name of any length
    (under 2^29),
    returns 0 and the registry is the one that registers the name with the
    handle the driver has for the published object, so that a lookup of that
    name finds that handle from then on, unless the caller's uid is isolated;
    or it returns -1 and the registry is unchanged. It returns 0 only for a
    name of 1 to 127 characters, and -1 only for one that is empty or longer,
    or for a new name when there is no memory for it: the refusal travels as
    a status, or the message overflows and is not sent. *)
Theorem publish_end_to_end {G} `{!Malloc} `{!MallocOk} `{!Literals} fn slo shi mbs euid hello goodbye b
    fuel bs name cs nodes (w : world G (relay (world svcmgr Script.state))) :
  word_ok fn -> layout Script.area slo shi -> bindings_ok euid hello goodbye -> b ∈ [hello; goodbye] ->
  client_ok w -> cstring w (lit SVC_MGR_NAME) (chars SVC_MGR_NAME) -> cstring w name cs ->
  managing fn slo shi nodes (r_peer (w_drv w)) ->
  let _ := manager_peer fn mbs euid hello goodbye in
  exists w' (ok : bool) nodes',
    svcmgr_publish (S fuel) bs BINDER_SERVICE_MANAGER name (b_handler b) w = Ok (if ok then 0 else -1) w' /\
    managing fn slo shi nodes' (r_peer (w_drv w')) /\
    entries nodes' = (if ok then reg_add (byte_val <$> cs) (b_manager b) 0 (entries nodes) else entries nodes) /\
    (ok = true -> (1 <= length cs <= 127)%nat) /\
    (ok = false -> (length cs = 0 \/ 127 < length cs)%nat \/
       find_entry (byte_val <$> cs) (entries nodes) = None /\
       ~ has_room (byte_val <$> cs) (w_mem (r_peer (w_drv w)))) /\
    (ok = true -> forall uid, isolated uid = false ->
       reg_lookup (byte_val <$> cs) uid (entries nodes') = b_manager b).
Proof.
  intros Hfn Hly Hok Hb Hw Hs Hn M peer.
  pose proof (publish_run fn slo shi Hly mbs euid hello goodbye Hok fuel bs name cs b nodes w Hb Hw Hs Hn M) as R.
  apply wp_ok in R as (r & w' & E & ok & nodes' & m & -> & M' & [He Hacc Href] & [_ Hd _]).
  rewrite length_fmap in Hacc, Href.
  exists w', ok, nodes'. split; [exact E|]. rewrite Hd. split; [exact M'|]. split; [exact He|].
  split; [exact Hacc|]. split; [exact Href|]. intros -> uid Huid. rewrite He, reg_lookup_add, decide_True by done.
  cbv zeta. rewrite Huid. by rewrite andb_false_r.
Qed.

(** C7. The start of the server. [main] of test_server.c, with the service
    manager behind the driver and memory for its binder state (the [malloc] of
    binder_open succeeds), returns after any number [n] of turns of its
    looper: either both services are registered, nothing is printed, and
    clients whose uid is not isolated find both; or, the service manager
    having no memory, the second is refused, reported, and the looper entered
    all the same; or the first is refused, reported, and the exit status is
    -1. Nobody else calls, so the looper ends with its first read. *)
Theorem server_start `{!Malloc} `{!MallocOk} `{!Literals} fn slo shi mbs euid hello goodbye fuel n nodes
    (w : world greetings (relay (world svcmgr Script.state))) :
  word_ok fn -> layout Script.area slo shi -> bindings_ok euid hello goodbye -> server_world w ->
  fst (malloc (w_mem w) sizeof_binder_state) <> 0 -> managing fn slo shi nodes (r_peer (w_drv w)) ->
  let _ := manager_peer fn mbs euid hello goodbye in
  exists w' x lines nodes',
    server_main (b_handler hello) (b_handler goodbye) (S fuel) n w = Ok x w' /\
    managing fn slo shi nodes' (r_peer (w_drv w')) /\ prints (w_trace w') = prints (w_trace w) ++ lines /\
    start_outcome hello goodbye n (w_mem (r_peer (w_drv w))) (entries nodes) x (entries nodes') lines /\
    (lines = [] -> forall uid name b, isolated uid = false -> (name, b) ∈ published hello goodbye ->
       reg_lookup (byte_val <$> chars name) uid (entries nodes') = b_manager b).
Proof.
  intros Hfn Hly Hok Hw Hm M peer. destruct (malloc (w_mem w) sizeof_binder_state) as [p m] eqn:Em.
  pose proof (server_start_run fn slo shi Hly mbs euid hello goodbye Hok fuel n p m (entries nodes) w Hw
                ltac:(by exists nodes) Em Hm) as R.
  apply wp_ok in R as (x & w' & E & nodes' & lines & M' & Hpr & Ho).
  exists w', x, lines, nodes'. split; [exact E|]. split; [done|]. split; [done|]. split; [done|].
  intros -> uid name b Huid Hb. by eapply start_done_known.
Qed.

(** ** The processes of the example *)

Module Run.
(** The service manager: its stack, its area, and the nodes of both
    services on the heap. *)
Definition nodes : list node :=
  [(16384, mkEntry (byte_val <$> chars "goodbye") 8 0); (16512, mkEntry (byte_val <$> chars "hello") 7 0)].

Definition put_node (m : memory) (n : node * Z) : memory :=
  let '(nd, next) := n in
  mem_write m (fst nd) (u32s_bytes (node_words Demo.death_fn next nd) ++ u16s_bytes (e_name (snd nd) ++ [0])).

Definition manager : world svcmgr Script.state :=
  mkWorld _ _ (foldl put_node Demo.blank (zip nodes [16512; 0])) 7000
    (mkSvcmgr 0 16384 (replicate 128 x00)) (Script.mkState [] []) [].

Definition server : world greetings Script.state :=
  mkWorld _ _ Demo.blank 7000 (mkGreetings 0 0 0 0) (Script.mkState [] []) [].

Definition hello : binding := mkBinding 7 5 4660.
Definition goodbye : binding := mkBinding 8 6 4680.

(** The client: a stack that ends at 8192, the strings above it. *)
Definition strings : list string :=
  [SVC_MGR_NAME; "hello"; "goodbye"; "IHelloService"; "IGoodbyeService"; "test_client"; "Ada"]%string.

Definition string_at (s : string) : Z :=
  match list_find (eq s) strings with Some (i, _) => 8192 + 32 * Z.of_nat i | None => 0 end.

#[global] Instance lits : Literals := {| lit := string_at |}.

Definition strings_mem : memory :=
  foldl (fun m s => mem_write m (string_at s) (chars s ++ [x00])) Demo.blank strings.

Definition client : world TestClient.client (relay system) :=
  mkWorld _ _ strings_mem 8192 (mkClient (mkBs 0 0 0) 0 0) (mkRelay (mkSystem manager server) []) [].

(** A service manager that knows no service yet, and the server before it
    has published. *)
Definition fresh_manager : world svcmgr Script.state :=
  mkWorld _ _ Demo.blank 7000 (mkSvcmgr 0 0 (replicate 128 x00)) (Script.mkState [] []) [].

Definition publisher : world greetings (relay (world svcmgr Script.state)) :=
  mkWorld _ _ strings_mem 8192 (mkGreetings 0 0 0 0) (mkRelay fresh_manager []) [].

Definition argv : list string := ["test_client"; "hello"; "Ada"]%string.

Lemma bindings euid : word_ok euid -> bindings_ok euid hello goodbye.
Proof.
  intros Heuid. split; try done; intros b; rewrite !elem_of_cons, elem_of_nil; by intros [->|[->|[]]].
Qed.

Lemma nodes_away a : owned nodes a -> 16384 <= a < 16600.
Proof.
  intros (n & Hn & Hr). unfold nodes in Hn. rewrite !elem_of_cons, elem_of_nil in Hn.
  destruct Hn as [->|[->|[]]]; unfold region in Hr; cbn [fst] in Hr;
    [change (node_size _) with 40 in Hr|change (node_size _) with 36 in Hr]; lia.
Qed.

Fixpoint chainb (m : memory) (ns : list node) : bool :=
  match ns with
  | [] => true
  | n :: ns =>
      Demo.bytes_atb m (fst n) (u32s_bytes (node_words Demo.death_fn (head_of ns) n)) &&
      Demo.bytes_atb m (fst n + svcinfo.name) (u16s_bytes (e_name (snd n) ++ [0])) && chainb m ns
  end.

Lemma chainb_chain m ns : chainb m ns = true -> chain Demo.death_fn m ns.
Proof.
  induction ns as [|n ns IH]; [done|]. cbn [chainb]. rewrite !andb_true_iff.
  intros [[H1%bool_decide_eq_true H2%bool_decide_eq_true] H3]. split; [by split|by apply IH].
Qed.

Lemma nodes_separated : separated nodes.
Proof.
  split; [|split; [by intros a _ (n & Hn%not_elem_of_nil & _)|exact I]].
  intros a Hr (n & ->%list_elem_of_singleton & Hr'). unfold region in Hr, Hr'. cbn [fst] in *.
  change (node_size _) with 40 in Hr. lia.
Qed.

Lemma nodes_wf : Forall node_wf nodes.
Proof.
  apply Forall_cons. split; [|apply Forall_singleton];
    (split; [vm_compute; reflexivity|vm_compute; reflexivity|cbn; lia|apply (bool_decide_unpack _); vm_compute; exact I
            |split; [apply Z.leb_le|apply Z.ltb_lt]; reflexivity|left; reflexivity]).
Qed.

Lemma manager_inv_of (w : CMachine.world svcmgr Script.state) :
  w_glob w = mkSvcmgr 0 16384 (replicate 128 x00) -> Script.cookies (w_drv w) = [] ->
  mappedb (w_mem w) Demo.slo 4096 && mappedb (w_mem w) 65536 4400 && chainb (w_mem w) nodes = true ->
  svc_inv Script.area Demo.death_fn Demo.slo Demo.shi nodes w.
Proof.
  intros Hg Hc. rewrite !andb_true_iff. intros [[H1%mappedb_mapped H2%mappedb_mapped] H3%chainb_chain].
  split; rewrite ?Hg; try done.
  - apply nodes_separated.
  - apply (bool_decide_unpack _). vm_compute. exact I.
  - apply nodes_wf.
  - intros a Ha%nodes_away. unfold Script.area, Script.lo, Script.hi, Demo.slo, Demo.shi. lia.
  - intros a Ha. unfold Script.area, Script.lo, Script.hi in Ha. apply H2. lia.
  - intros c Hin. cbn in Hin. rewrite Hc in Hin. by apply not_elem_of_nil in Hin.
Qed.

Lemma manager_inv : svc_inv Script.area Demo.death_fn Demo.slo Demo.shi nodes manager.
Proof. apply manager_inv_of; [reflexivity|reflexivity|vm_compute; reflexivity]. Qed.

Lemma ready : system_ready Demo.death_fn Demo.slo Demo.shi 10000 hello goodbye (mkGreetings 0 0 0 0) []
  (mkSystem manager server).
Proof.
  split; [|split| |].
  - exists nodes. split; [split; [apply manager_inv|apply Z.leb_le; reflexivity|apply Z.leb_le; reflexivity]|].
    intros name b. unfold published. rewrite !elem_of_cons, elem_of_nil. by intros [[= -> ->]|[[= -> ->]|[]]].
  - apply Z.leb_le; reflexivity.
  - apply Z.ltb_lt; reflexivity.
  - apply mappedb_mapped. vm_compute. reflexivity.
  - apply mappedb_mapped. vm_compute. reflexivity.
  - unfold Script.area, Script.lo, Script.hi. cbn. lia.
  - reflexivity.
  - reflexivity.
Qed.

Lemma strings_fit s :
  s ∈ strings -> Demo.bytes_atb strings_mem (string_at s) (chars s ++ [x00]) = true /\
  (x00 ∉ chars s) /\ 8192 <= string_at s < 8500 /\ Z.of_nat (length (chars s)) < 100.
Proof.
  assert (forallb (fun s => Demo.bytes_atb strings_mem (string_at s) (chars s ++ [x00]) &&
    bool_decide (x00 ∉ chars s) && (8192 <=? string_at s) && (string_at s <? 8500) &&
    (Z.of_nat (length (chars s)) <? 100)) strings = true) as Hb by (vm_compute; reflexivity).
  intros Hs. rewrite forallb_forall in Hb. specialize (Hb s). rewrite !andb_true_iff in Hb.
  destruct Hb as [[[[H1 H2%bool_decide_eq_true] H3%Z.leb_le] H4%Z.ltb_lt] H5%Z.ltb_lt]; [by apply list_elem_of_In|].
  done.
Qed.

Section Caller.
Context {G S : Type} (w : CMachine.world G (relay S)) (Hm : w_mem w = strings_mem) (Hsp : w_sp w = 8192).

Lemma string_ok s : s ∈ strings -> cstring w (string_at s) (chars s).
Proof.
  intros (H1%bool_decide_eq_true & H2 & H3 & H4)%strings_fit. split; rewrite ?Hm, ?Hsp; try lia; [by split| |].
  - unfold Script.area, Script.lo, Script.hi. lia.
  - change (MAX_BIO_SIZE / 2) with 536870912. lia.
Qed.

Lemma caller_ok : client_ok w.
Proof.
  split; unfold stack, area_mapped; rewrite ?Hm, ?Hsp; try lia.
  - apply mappedb_mapped. vm_compute. reflexivity.
  - apply mappedb_mapped. vm_compute. reflexivity.
  - unfold Script.area, Script.lo, Script.hi. lia.
Qed.
End Caller.

Lemma client_ready : client_world client.
Proof.
  split; [by apply caller_ok|]. intros s Hs. apply string_ok; [done|done|].
  change strings with (literals ++ ["test_client"; "Ada"]%string). apply elem_of_app. by left.
Qed.

Lemma publisher_ready : server_world publisher.
Proof.
  split; [by apply caller_ok|]. intros s Hs. apply string_ok; [done|done|].
  change strings with (server_literals ++ ["IHelloService"; "IGoodbyeService"; "test_client"; "Ada"]%string).
  apply elem_of_app. by left.
Qed.

Lemma fresh_ready : managing Demo.death_fn Demo.slo Demo.shi [] fresh_manager.
Proof.
  split; [|apply Z.leb_le; reflexivity|apply Z.leb_le; reflexivity].
  assert (mapped Demo.blank 65536 4400) as Hm by (apply mappedb_mapped; vm_compute; reflexivity).
  split; [reflexivity|exact I|exact I|apply NoDup_nil_2|apply Forall_nil_2| | | |reflexivity| |reflexivity].
  - intros a (n & Hn & _). destruct (not_elem_of_nil n Hn).
  - apply mappedb_mapped. vm_compute. reflexivity.
  - intros a Ha. unfold Script.area, Script.lo, Script.hi in Ha. apply Hm. lia.
  - intros c Hc. destruct (not_elem_of_nil c Hc).
Qed.

(** The allocator has room as long as little is mapped. *)
Lemma room us m : Bump.top m + 24 + 2 * (Z.of_nat (length us) + 1) < 4294967296 -> has_room us m.
Proof.
  intros Hn m' Hd. unfold no_memory, svcinfo.sizeof. cbn [malloc Bump.alloc].
  destruct (Bump.top_spec m) as [Hpos Hlt], (Bump.top_spec m') as [Hpos' _].
  assert (Bump.top m' <= Bump.top m) by (apply Bump.top_le; [done|]; intros a Ha; by apply Hlt, Hd).
  case_cmp; cbn [fst]; lia.
Qed.
End Run.

Lemma client_end_to_end_witness :
  let _ := system_peer Demo.death_fn (mkBs 3 0 0) (mkBs 3 0 0) 10000 Run.hello Run.goodbye in
  exists w', client_main 1 (Run.string_at <$> Run.argv) Run.client = Ok 0 w' /\
    prints (w_trace w') =
      [EvPrint "Handle for goodbye service = %d" [] 6; EvPrint "Handle for hello service = %d" [] 5;
       EvPrint "get ret of sayhello_to = %d" [] 1] /\
    prints (w_trace (sy_server (r_peer (w_drv w')))) = [EvPrint "say hello to %s : %d" (chars "Ada") 1].
Proof.
  destruct (client_end_to_end Demo.death_fn Demo.slo Demo.shi (mkBs 3 0 0) (mkBs 3 0 0) 10000 Run.hello Run.goodbye
    0 (Run.string_at <$> Run.argv) (chars <$> Run.argv) (mkGreetings 0 0 0 0) [] Run.client) as (w' & E & P & R).
  - split; [apply Z.leb_le|apply Z.ltb_lt]; reflexivity.
  - apply Demo.layout_ok.
  - apply Run.bindings. split; [apply Z.leb_le|apply Z.ltb_lt]; reflexivity.
  - apply Run.client_ready.
  - apply Forall2_fmap_l, Forall2_fmap_r, Forall_Forall2_diag. unfold Run.argv.
    forall_list; (apply Run.string_ok; [reflexivity|reflexivity|apply (bool_decide_unpack _); vm_compute; exact I]).
  - cbn. lia.
  - vm_compute. discriminate.
  - apply Run.ready.
  - exists w'. split; [exact E|]. split; [exact P|]. apply (sr_output _ _ _ _ _ _ _ _ _ R).
Defined.

(** The server publishes hello with a service manager that knows nothing. *)
Lemma publish_end_to_end_witness :
  let _ := manager_peer Demo.death_fn (mkBs 3 0 0) 1000 Run.hello Run.goodbye in
  exists w' nodes', svcmgr_publish 1 (mkBs 3 0 0) BINDER_SERVICE_MANAGER (Run.string_at "hello") 4660 Run.publisher = Ok 0 w' /\
    managing Demo.death_fn Demo.slo Demo.shi nodes' (r_peer (w_drv w')) /\
    entries nodes' = [mkEntry (byte_val <$> chars "hello") 7 0] /\
    reg_lookup (byte_val <$> chars "hello") 10000 (entries nodes') = 7.
Proof.
  destruct (publish_end_to_end Demo.death_fn Demo.slo Demo.shi (mkBs 3 0 0) 1000 Run.hello Run.goodbye Run.hello
    0 (mkBs 3 0 0) (Run.string_at "hello") (chars "hello") [] Run.publisher) as (w' & ok & nodes' & E & M & En & _ & Hno & Hl).
  - split; [apply Z.leb_le|apply Z.ltb_lt]; reflexivity.
  - apply Demo.layout_ok.
  - apply Run.bindings. split; [apply Z.leb_le|apply Z.ltb_lt]; reflexivity.
  - left.
  - apply Run.caller_ok; reflexivity.
  - apply Run.string_ok; [reflexivity|reflexivity|apply (bool_decide_unpack _); vm_compute; exact I].
  - apply Run.string_ok; [reflexivity|reflexivity|apply (bool_decide_unpack _); vm_compute; exact I].
  - apply Run.fresh_ready.
  - destruct ok; [|destruct (Hno eq_refl) as [[Hz|Hz]|[_ []]]; [by apply Nat.eqb_eq in Hz|by apply Nat.ltb_lt in Hz|apply Run.room; vm_compute; reflexivity]].
    exists w', nodes'. split; [exact E|]. split; [exact M|]. split; [exact En|]. apply Hl; reflexivity.
Defined.

(** The server's run by evaluation. *)
Lemma server_run :
  let _ := manager_peer Demo.death_fn (mkBs 3 0 0) 1000 Run.hello Run.goodbye in
  match server_main 4660 4680 1 3 Run.publisher with
  | Ok x w' => x = (0, Some (LoopIoctl (-1))) /\ prints (w_trace w') = []
  | Fault _ => False
  end.
Proof. vm_compute. split; reflexivity. Qed.

(** The whole start, with a service manager that knows nothing. *)
Lemma server_start_witness :
  let _ := manager_peer Demo.death_fn (mkBs 3 0 0) 1000 Run.hello Run.goodbye in
  exists w' nodes', server_main 4660 4680 1 3 Run.publisher = Ok (0, Some (LoopIoctl (-1))) w' /\
    managing Demo.death_fn Demo.slo Demo.shi nodes' (r_peer (w_drv w')) /\
    reg_lookup (byte_val <$> chars "goodbye") 10000 (entries nodes') = 8.
Proof.
  destruct (server_start Demo.death_fn Demo.slo Demo.shi (mkBs 3 0 0) 1000 Run.hello Run.goodbye 0 3 [] Run.publisher)
    as (w' & x & lines & nodes' & E & M & Hpr & _ & Hl).
  - split; [apply Z.leb_le|apply Z.ltb_lt]; reflexivity.
  - apply Demo.layout_ok.
  - apply Run.bindings. split; [apply Z.leb_le|apply Z.ltb_lt]; reflexivity.
  - apply Run.publisher_ready.
  - vm_compute. discriminate.
  - apply Run.fresh_ready.
  - pose proof server_run as V. cbv zeta in V. cbn [b_handler Run.hello Run.goodbye] in E. rewrite E in V.
    destruct V as [-> Hnone]. exists w', nodes'. split; [exact E|]. split; [exact M|].
    apply (Hl ltac:(by rewrite <- Hnone, Hpr) 10000 "goodbye"%string Run.goodbye); [reflexivity|right; left].
Defined.

(** The client's run by evaluation. *)
Example client_run :
  let _ := system_peer Demo.death_fn (mkBs 3 0 0) (mkBs 3 0 0) 10000 Run.hello Run.goodbye in
  match client_main 1 (Run.string_at <$> Run.argv) Run.client with
  | Ok r w' => (r, last (prints (w_trace w'))) = (0, Some (EvPrint "get ret of sayhello_to = %d" [] 1))
  | Fault _ => False
  end.
Proof. vm_compute. reflexivity. Qed.

(** ** Names too long for the service *)

(** C33. No bound on the name. The handlers copy a name of any length into
    [char name[512]]: from 512 units on, a request by name writes behind the
    array. When the byte behind it is not mapped the process dies there; no
    check of the length stops it. *)
Theorem name_overrun {D} `{BinderDriver D} bs txn t msg reply policy us vs (w : world greetings D) :
  txn_at (w_mem w) txn t -> t_code t = HELLO_SVR_CMD_SAYHELLO_TO ->
  bio_reads (w_mem w) msg [IU32 policy; IStr us; IStr vs] -> (512 <= length vs)%nat ->
  mapped (w_mem w) (w_sp w - 512) 512 -> w_mem w !! w_sp w = None ->
  data msg + items_size [IU32 policy; IStr us; IStr vs] <= w_sp w - 512 \/ w_sp w <= data msg ->
  hello_service_handler bs txn msg reply w = Fault (Segv (w_sp w)) /\
  goodbye_service_handler bs txn msg reply w = Fault (Segv (w_sp w)).
Proof. intros. by split; eapply handler_overrun. Qed.

(** A name of 512 units, in a frame at the end of mapped memory. *)
Definition long_request : list item := [IU32 0; IStr [73]; IStr (replicate 512 97)].
Definition long_txn : txn_data := Demo.txn long_request HELLO_SVR_CMD_SAYHELLO_TO 10000.
Definition long_mem : memory := Demo.mem long_request long_txn.

Lemma long_txn_at : txn_at long_mem 8100 long_txn.
Proof. split; demo_check. Qed.

Lemma long_reads : bio_reads long_mem (Demo.msg long_request) long_request.
Proof. apply (demo_mem_reads long_request long_txn); demo_check. Qed.

Lemma long_frame : mapped long_mem (69936 - 512) 512 /\ long_mem !! 69936 = None.
Proof. split; [apply mappedb_mapped|]; vm_compute; reflexivity. Qed.

Lemma long_apart : data (Demo.msg long_request) + items_size long_request <= 69936 - 512.
Proof. apply Z.leb_le. vm_compute. reflexivity. Qed.

Lemma name_overrun_witness :
  let w := mkWorld greetings Script.state long_mem 69936 (mkGreetings 0 0 0 0) (Script.mkState [] []) [] in
  hello_service_handler (mkBs 3 0 0) 8100 (Demo.msg long_request) Demo.reply w = Fault (Segv 69936) /\
  goodbye_service_handler (mkBs 3 0 0) 8100 (Demo.msg long_request) Demo.reply w = Fault (Segv 69936).
Proof.
  exact (name_overrun (mkBs 3 0 0) 8100 long_txn (Demo.msg long_request) Demo.reply 0 [73] (replicate 512 97)
    (mkWorld greetings Script.state long_mem 69936 (mkGreetings 0 0 0 0) (Script.mkState [] []) [])
    long_txn_at eq_refl long_reads (le_n 512) (proj1 long_frame) (proj2 long_frame) (or_introl long_apart)).
Defined.
