(* ===== verification/WaitQueue.v ===== *)
(** * The blocking character device: src/waitqueue/waitqueue.c

    [globalvar_read] and [globalvar_write] share a buffer, two indices and a
    flag between the threads of the processes that have the device open. Each
    thread is at a program point of its handler; a step runs one statement of
    one thread. The scheduler, the signals and the result of the user copies
    are the environment's. *)
From Stdlib Require Import ZArith Strings.Byte.
From stdpp Require Import base gmap list.
From S2P Require Import Prelude.
Open Scope Z_scope.

Definition LEN : Z := 1024.

Definition EFAULT : Z := 14.
Definition ERESTARTSYS : Z := 512.

(** Program points of the two handlers, with the locals live there. *)
Inductive pc : Type :=
  | RWait                          (* about to evaluate the wait condition *)
  | RSleep                         (* on the wait queue *)
  | RLock
  | RCopy
  | RIndex (read_len : Z)          (* read_index = write_index *)
  | RFlag (read_len : Z)           (* flag = 0 *)
  | RUnlock (ret : Z)
  | WLock (buf : list byte)
  | WCopy (buf : list byte)
  | WIndex (buf : list byte)       (* write_index += len *)
  | WUnlock (buf : list byte)
  | WFlag (len : Z)                (* flag = 1 *)
  | WWake (len : Z)
  | WUnlockFault
  | Done (ret : Z).

#[export] Instance pc_eq_dec : EqDecision pc.
Proof. solve_decision. Defined.

(** What a step shows: data handed to a reader, data taken from a writer. *)
Inductive io_event : Type :=
  | EvRead (bs : list byte)
  | EvWrite (bs : list byte).

Record globalvar : Type := mkGv {
    global_var : list byte;
    read_index : Z;
    write_index : Z;
    flag : Z;
    var_lock : bool;
    threads : list pc;
    history : list io_event;         (* oldest first *)
}.

Definition set_threads (ts : list pc) (s : globalvar) : globalvar :=
  mkGv (global_var s) (read_index s) (write_index s) (flag s) (var_lock s) ts (history s).
Definition goto (t : nat) (p : pc) (s : globalvar) : globalvar := set_threads (<[t := p]> (threads s)) s.
Definition set_lock (b : bool) (s : globalvar) : globalvar :=
  mkGv (global_var s) (read_index s) (write_index s) (flag s) b (threads s) (history s).
Definition set_flag (f : Z) (s : globalvar) : globalvar :=
  mkGv (global_var s) (read_index s) (write_index s) f (var_lock s) (threads s) (history s).
Definition log (e : io_event) (s : globalvar) : globalvar :=
  mkGv (global_var s) (read_index s) (write_index s) (flag s) (var_lock s) (threads s)
       (history s ++ [e]).

(** The environment's part in a step: a signal is pending; the number of
    bytes [copy_to_user]/[copy_from_user] could not copy. *)
Record env : Type := mkEnv { e_signal : bool; e_uncopied : Z }.

Inductive result : Type :=
  | Next (s : globalvar)
  | Blocked
  | Crash.                         (* access outside [global_var] *)

(** [n] bytes from index [i] lie inside the array. *)
Definition inside (i n : Z) : bool := (0 <=? i) && (0 <=? n) && (i + n <=? LEN).

(** [wake_up_interruptible]: every sleeper evaluates its condition again. *)
Definition wake (p : pc) : pc := match p with RSleep => RWait | p => p end.

Definition write_at (i : Z) (bs g : list byte) : list byte :=
  take (Z.to_nat i) g ++ bs ++ drop (Z.to_nat i + length bs) g.

Definition acquire (t : nat) (next : pc) (s : globalvar) : result :=
  if var_lock s then Blocked else Next (goto t next (set_lock true s)).

Definition globalvar_read_step (e : env) (t : nat) (p : pc) (s : globalvar) : result :=
  match p with
  | RWait =>
      if negb (flag s =? 0) then Next (goto t RLock s)
      else if e_signal e then Next (goto t (Done (- ERESTARTSYS)) s)
      else Next (goto t RSleep s)
  | RSleep => if e_signal e then Next (goto t RWait s) else Blocked
  | RLock => acquire t RCopy s
  | RCopy =>
      let read_len := s32 (write_index s - read_index s) in
      if negb (inside (read_index s) read_len) then Crash
      else if negb (e_uncopied e =? 0) then Next (goto t (RUnlock (- EFAULT)) s)
      else
        let bs := take (Z.to_nat read_len) (drop (Z.to_nat (read_index s)) (global_var s)) in
        Next (goto t (RIndex read_len) (log (EvRead bs) s))
  | RIndex read_len =>
      Next (goto t (RFlag read_len)
             (mkGv (global_var s) (write_index s) (write_index s) (flag s) (var_lock s)
                   (threads s) (history s)))
  | RFlag read_len => Next (goto t (RUnlock read_len) (set_flag 0 s))
  | RUnlock ret => Next (goto t (Done ret) (set_lock false s))
  | _ => Blocked
  end.

(** A failed [copy_from_user] has stored the bytes it could read, and zeros
    for the rest. *)
Definition copy_in (uncopied : Z) (buf : list byte) : list byte :=
  take (length buf - Z.to_nat uncopied) buf ++ replicate (Z.to_nat uncopied `min` length buf) x00.

Definition globalvar_write_step (e : env) (t : nat) (p : pc) (s : globalvar) : result :=
  match p with
  | WLock buf => acquire t (WCopy buf) s
  | WCopy buf =>
      if negb (inside (write_index s) (Z.of_nat (length buf))) then Crash
      else
        let copied := copy_in (e_uncopied e) buf in
        let s' := mkGv (write_at (write_index s) copied (global_var s)) (read_index s)
                       (write_index s) (flag s) (var_lock s) (threads s) (history s) in
        if negb (e_uncopied e =? 0) then Next (goto t WUnlockFault s')
        else Next (goto t (WIndex buf) s')
  | WIndex buf =>
      let s' := mkGv (global_var s) (read_index s) (s32 (write_index s + Z.of_nat (length buf)))
                     (flag s) (var_lock s) (threads s) (history s) in
      Next (goto t (WUnlock buf) (log (EvWrite buf) s'))
  | WUnlock buf => Next (goto t (WFlag (Z.of_nat (length buf))) (set_lock false s))
  | WFlag len => Next (goto t (WWake len) (set_flag 1 s))
  | WWake len => Next (goto t (Done len) (set_threads (wake <$> threads s) s))
  | WUnlockFault => Next (goto t (Done (- EFAULT)) (set_lock false s))
  | _ => Blocked
  end.

(** The program points of [globalvar_read]. *)
Definition reading (p : pc) : bool :=
  match p with
  | RWait | RSleep | RLock | RCopy | RIndex _ | RFlag _ | RUnlock _ => true
  | _ => false
  end.

(** One statement of thread [t]. *)
Definition thread_step (e : env) (t : nat) (s : globalvar) : result :=
  match threads s !! t with
  | None => Blocked
  | Some p => if reading p then globalvar_read_step e t p s else globalvar_write_step e t p s
  end.

(** [globalvar_init]: static data is zero, the lock is initialised free. *)
Definition globalvar_init : globalvar :=
  mkGv (replicate (Z.to_nat LEN) x00) 0 0 0 false [] [].

(** A system call starts a thread at the head of a handler. *)
Inductive step : globalvar -> globalvar -> Prop :=
  | step_read s : step s (set_threads (threads s ++ [RWait]) s)
  | step_write s buf : step s (set_threads (threads s ++ [WLock buf]) s)
  | step_thread s e t s' : 0 <= e_uncopied e -> thread_step e t s = Next s' -> step s s'.

Definition reachable : globalvar -> Prop := rtc step globalvar_init.
