(* ===== verification/WaitQueueInv.v ===== *)
(** * The invariant of the blocking device

    Mutual exclusion, the bytes of the buffer against the history of the
    calls, and the wake-up condition, preserved by every step. *)
From Stdlib Require Import ZArith Strings.Byte.
From stdpp Require Import base gmap list.
From S2P Require Import Prelude WaitQueue.
Open Scope Z_scope.

Definition delivered (h : list io_event) : list byte :=
  concat (map (fun e => match e with EvRead bs => bs | EvWrite _ => [] end) h).
Definition written (h : list io_event) : list byte :=
  concat (map (fun e => match e with EvWrite bs => bs | EvRead _ => [] end) h).

Lemma delivered_snoc h e :
  delivered (h ++ [e]) = delivered h ++ match e with EvRead bs => bs | EvWrite _ => [] end.
Proof. unfold delivered. rewrite map_app, concat_app. cbn. by rewrite app_nil_r. Qed.
Lemma written_snoc h e :
  written (h ++ [e]) = written h ++ match e with EvWrite bs => bs | EvRead _ => [] end.
Proof. unfold written. rewrite map_app, concat_app. cbn. by rewrite app_nil_r. Qed.

#[global] Arguments delivered : simpl never.
#[global] Arguments written : simpl never.

(** Between [spin_lock] and [spin_unlock]. *)
Definition holding (p : pc) : bool :=
  match p with
  | RCopy | RIndex _ | RFlag _ | RUnlock _ | WCopy _ | WIndex _ | WUnlock _ | WUnlockFault => true
  | _ => false
  end.

(** The writer has published data and has still to set the flag. *)
Definition publishing (p : pc) : bool := match p with WUnlock _ | WFlag _ => true | _ => false end.
Definition waking (p : pc) : bool := match p with WWake _ => true | _ => false end.

Definition some_thread (P : pc -> bool) (ts : list pc) : Prop :=
  exists t p, ts !! t = Some p /\ P p = true.

(** ** Mutual exclusion *)

(** [h]: the thread that has the lock. *)
Definition lock_inv (h : option nat) (s : globalvar) : Prop :=
  var_lock s = bool_decide (is_Some h) /\
  (forall t p, threads s !! t = Some p -> holding p = true -> h = Some t) /\
  (forall t, h = Some t -> exists p, threads s !! t = Some p /\ holding p = true).

Lemma lock_inv_goto h s s' t p p' :
  lock_inv h s -> threads s !! t = Some p -> threads s' = <[t := p']> (threads s) ->
  (holding p = true -> var_lock s' = holding p') ->
  (holding p = false -> if holding p' then h = None /\ var_lock s' = true
                        else var_lock s' = var_lock s) ->
  lock_inv (if holding p' then Some t else if holding p then None else h) s'.
Proof.
  intros (Hl & Hu & He) Hp Ht Hb1 Hb2.
  assert (forall q, <[t := q]> (threads s) !! t = Some q) as Hi
    by (intros q; apply list_lookup_insert_eq; by eapply lookup_lt_Some).
  unfold lock_inv. rewrite Ht. split_and!.
  - destruct (holding p) eqn:E1, (holding p') eqn:E2; cbn in *; try (by rewrite Hb1 by done).
    + by destruct (Hb2 eq_refl) as [_ ->].
    + by rewrite (Hb2 eq_refl), Hl.
  - intros t' q Hq Hh. destruct (decide (t' = t)) as [->|Hne].
    + rewrite Hi in Hq. injection Hq as <-. by rewrite Hh.
    + rewrite list_lookup_insert_ne in Hq by done. pose proof (Hu _ _ Hq Hh) as ->.
      destruct (holding p) eqn:E1; [by injection (Hu _ _ Hp E1)|].
      destruct (holding p'); [by destruct (Hb2 eq_refl)|done].
  - intros t' Ht'. destruct (holding p') eqn:E2.
    + injection Ht' as <-. exists p'. by rewrite Hi.
    + destruct (holding p) eqn:E1; [done|]. subst h.
      destruct (decide (t' = t)) as [->|Hne].
      * destruct (He t eq_refl) as (q & Hq & Hhq). congruence.
      * rewrite list_lookup_insert_ne by done. by apply He.
Qed.

(** ** The buffer *)

Definition buf_inv (s : globalvar) : Prop :=
  length (global_var s) = Z.to_nat LEN /\
  0 <= read_index s <= write_index s /\ write_index s <= LEN /\
  written (history s) = take (Z.to_nat (write_index s)) (global_var s).

(** What the thread that has the lock is in the middle of. *)
Definition phase_inv (s : globalvar) (p : option pc) : Prop :=
  match p with
  | Some (RIndex n) =>
      n = write_index s - read_index s /\
      delivered (history s) = take (Z.to_nat (write_index s)) (global_var s)
  | Some (RFlag n) =>
      read_index s = write_index s /\
      delivered (history s) = take (Z.to_nat (read_index s)) (global_var s)
  | Some (WIndex buf) =>
      write_index s + Z.of_nat (length buf) <= LEN /\
      take (length buf) (drop (Z.to_nat (write_index s)) (global_var s)) = buf /\
      delivered (history s) = take (Z.to_nat (read_index s)) (global_var s)
  | _ => delivered (history s) = take (Z.to_nat (read_index s)) (global_var s)
  end.

(** ** The wake-up condition *)

Definition flag_inv (s : globalvar) : Prop :=
  (read_index s < write_index s -> flag s <> 0 \/ some_thread publishing (threads s)) /\
  (forall t, threads s !! t = Some RSleep -> flag s = 0 \/ some_thread waking (threads s)).

Record inv (h : option nat) (s : globalvar) : Prop := {
    inv_lock : lock_inv h s;
    inv_buf : buf_inv s;
    inv_phase : phase_inv s (h ≫= fun t => threads s !! t);
    inv_flag : flag_inv s;
}.

Lemma inv_init : inv None globalvar_init.
Proof.
  split.
  - split; [done|]. split; [|done]. by intros [|t] p.
  - split; [apply length_replicate|]. split; [cbn; lia|]. split; [vm_compute; congruence|done].
  - done.
  - split; [cbn; lia|]. by intros [|t].
Qed.

Lemma some_thread_goto P (ts : list pc) t p p' :
  ts !! t = Some p -> (P p = true -> P p' = true) -> some_thread P ts ->
  some_thread P (<[t := p']> ts).
Proof.
  intros Hp HP (t' & q & Hq & HPq). destruct (decide (t' = t)) as [->|Hne].
  - exists t, p'. split; [apply list_lookup_insert_eq; by eapply lookup_lt_Some|].
    apply HP. congruence.
  - exists t', q. by rewrite list_lookup_insert_ne.
Qed.

Lemma some_thread_here (P : pc -> bool) ts t p p' :
  ts !! t = Some p -> P p' = true -> some_thread P (<[t := p']> ts).
Proof.
  intros Hp HP. exists t, p'. split; [|done]. apply list_lookup_insert_eq.
  by eapply lookup_lt_Some.
Qed.

Lemma some_thread_app P ts q : some_thread P ts -> some_thread P (ts ++ [q]).
Proof. intros (t & p & Ht & HP). exists t, p. split; [by apply lookup_app_l_Some|done]. Qed.

Lemma sleeper_goto (ts : list pc) t p p' t' :
  ts !! t = Some p -> p' <> RSleep -> <[t := p']> ts !! t' = Some RSleep -> ts !! t' = Some RSleep.
Proof.
  intros Hp Hne Ht'. destruct (decide (t' = t)) as [->|Ht].
  - rewrite list_lookup_insert_eq in Ht' by (by eapply lookup_lt_Some). congruence.
  - by rewrite list_lookup_insert_ne in Ht'.
Qed.

(** A step of thread [t] that leaves the flag and the indices alone. *)
Lemma flag_inv_goto s s' t p p' :
  threads s !! t = Some p -> threads s' = <[t := p']> (threads s) ->
  flag s' = flag s -> read_index s' = read_index s -> write_index s' = write_index s ->
  p' <> RSleep -> (publishing p = true -> publishing p' = true) -> waking p = false ->
  flag_inv s -> flag_inv s'.
Proof.
  intros Hp Ht Hf Hr Hw Hs Hpub Hwk [H1 H2]. unfold flag_inv. rewrite Ht, Hf, Hr, Hw. split.
  - intros Hlt. destruct (H1 Hlt) as [|Hsome]; [by left|right]. by eapply some_thread_goto.
  - intros t' Ht'. apply (sleeper_goto _ t p) in Ht'; [|done|done].
    destruct (H2 _ Ht') as [|Hsome]; [by left|right]. eapply some_thread_goto; [done| |done].
    by rewrite Hwk.
Qed.

(** ** Steps *)

Lemma inv_goto h s s' t p p' :
  inv h s -> threads s !! t = Some p -> threads s' = <[t := p']> (threads s) ->
  (holding p = true -> var_lock s' = holding p') ->
  (holding p = false -> if holding p' then h = None /\ var_lock s' = true
                        else var_lock s' = var_lock s) ->
  buf_inv s' -> flag_inv s' ->
  phase_inv s' (if holding p' then Some p' else if holding p then None
                else h ≫= fun t => threads s !! t) ->
  exists h', inv h' s'.
Proof.
  intros [Hl _ _ _] Hp Ht Hb1 Hb2 Hbuf Hfl Hph.
  exists (if holding p' then Some t else if holding p then None else h).
  split; [by eapply lock_inv_goto|done| |done].
  destruct (holding p') eqn:E'; cbn.
  - by rewrite Ht, list_lookup_insert_eq by (by eapply lookup_lt_Some).
  - destruct (holding p) eqn:E; [done|]. destruct h as [t'|]; [|done]. cbn in *.
    rewrite Ht, list_lookup_insert_ne; [done|]. intros ->.
    destruct Hl as (_ & _ & He). destruct (He t' eq_refl) as (q & Hq & Hh). congruence.
Qed.

(** A step that changes neither the data nor the flag. *)
Lemma inv_move h s t p p' b :
  inv h s -> threads s !! t = Some p ->
  (holding p = true -> b = holding p') ->
  (holding p = false -> if holding p' then h = None /\ b = true else b = var_lock s) ->
  p' <> RSleep -> (publishing p = true -> publishing p' = true) -> waking p = false ->
  (phase_inv s (h ≫= fun t => threads s !! t) ->
   phase_inv s (if holding p' then Some p' else if holding p then None
                else h ≫= fun t => threads s !! t)) ->
  exists h', inv h' (goto t p' (set_lock b s)).
Proof.
  intros Hinv Hp Hb1 Hb2 Hs Hpub Hwk Hph. destruct Hinv as [Hl Hbuf Hp0 Hfl] eqn:E.
  eapply inv_goto; [exact Hinv|exact Hp|reflexivity|done|done|done| |by apply Hph].
  by eapply (flag_inv_goto s _ t p p').
Qed.

(** The thread in the critical section is the one the phase is about. *)
Lemma inv_holder h s t p :
  inv h s -> threads s !! t = Some p -> holding p = true -> phase_inv s (Some p).
Proof.
  intros [(_ & Hu & _) _ Hph _] Hp Hh. rewrite (Hu _ _ Hp Hh) in Hph. cbn in Hph. by rewrite Hp in Hph.
Qed.

Lemma inv_free h s : inv h s -> var_lock s = false -> h = None.
Proof.
  intros [(Hl & _) _ _ _] Hf. rewrite Hf in Hl. symmetry in Hl. apply bool_decide_eq_false in Hl.
  destruct h; [|done]. by destruct Hl.
Qed.

(** Moves of the program point alone, and of the lock with it. *)
Ltac move_tac := eapply (inv_move _ _ _ _ _ _); [eassumption|eassumption|done..].

Lemma goto_id t p s : goto t p s = goto t p (set_lock (var_lock s) s).
Proof. by destruct s. Qed.

Lemma acquire_inv h s t p next s' :
  inv h s -> threads s !! t = Some p -> holding p = false -> publishing p = false ->
  waking p = false -> holding next = true -> next <> RSleep ->
  (forall s, phase_inv s None -> phase_inv s (Some next)) ->
  acquire t next s = Next s' -> exists h', inv h' s'.
Proof.
  intros Hi Hp Hh Hpub Hwk Hn Hs Hph. unfold acquire. destruct (var_lock s) eqn:El; [done|].
  intros [= <-]. pose proof (inv_free _ _ Hi El) as ->.
  eapply inv_move; [exact Hi|exact Hp|by rewrite Hh| |done|by rewrite Hpub|done|].
  - by rewrite Hn.
  - rewrite Hn. apply Hph.
Qed.

(** A reader goes to sleep only when the flag is clear. *)
Lemma sleep_inv h s t :
  inv h s -> threads s !! t = Some RWait -> flag s = 0 -> exists h', inv h' (goto t RSleep s).
Proof.
  intros Hi Hp Hf. pose proof Hi as [_ Hbuf Hph [H1 H2]].
  eapply inv_goto; [exact Hi|exact Hp|done|done|done|exact Hbuf| |exact Hph].
  split; [|by left]. intros Hlt. destruct (H1 Hlt) as [|Hs]; [by left|right].
  by eapply some_thread_goto.
Qed.

(** The copy to the reader. *)
Lemma read_copy_inv h s t n :
  inv h s -> threads s !! t = Some RCopy -> n = write_index s - read_index s ->
  exists h', inv h' (goto t (RIndex n)
    (log (EvRead (take (Z.to_nat n) (drop (Z.to_nat (read_index s)) (global_var s)))) s)).
Proof.
  intros Hi Hp ->. pose proof (inv_holder _ _ _ _ Hi Hp eq_refl) as Hph.
  pose proof Hi as [(Hl & _ & _) Hbuf _ Hfl]. pose proof Hbuf as (Hlen & Hr & Hw & Hwr).
  eapply inv_goto; [exact Hi|exact Hp|reflexivity| |done| | |].
  - intros _. cbn. rewrite Hl. pose proof Hi as [(_ & Hu & _) _ _ _].
    by rewrite (Hu _ _ Hp eq_refl).
  - split_and!; [done|cbn; lia|cbn; lia|done|]. cbn [history goto set_threads log].
    by rewrite written_snoc, app_nil_r.
  - by eapply (flag_inv_goto s).
  - split; [done|]. cbn -[Z.sub]. rewrite delivered_snoc, Hph, take_take_drop. f_equal. lia.
Qed.

(** [read_index = write_index] *)
Lemma read_index_inv h s t n :
  inv h s -> threads s !! t = Some (RIndex n) ->
  exists h', inv h' (goto t (RFlag n)
    (mkGv (global_var s) (write_index s) (write_index s) (flag s) (var_lock s) (threads s) (history s))).
Proof.
  intros Hi Hp. pose proof (inv_holder _ _ _ _ Hi Hp eq_refl) as [Hn Hd].
  pose proof Hi as [(Hl & Hu & _) (Hlen & Hr & Hw & Hwr) _ [H1 H2]].
  eapply inv_goto; [exact Hi|exact Hp|reflexivity| |done| | |].
  - intros _. cbn. by rewrite Hl, (Hu _ _ Hp eq_refl).
  - split_and!; [done|cbn; lia|done|done..].
  - split; cbn; [lia|]. intros t' Ht'. apply (sleeper_goto _ t (RIndex n)) in Ht'; [|done|done].
    destruct (H2 _ Ht') as [|Hs]; [by left|right]. by eapply some_thread_goto.
  - done.
Qed.

(** [flag = 0]: everything published has been read. *)
Lemma read_flag_inv h s t n :
  inv h s -> threads s !! t = Some (RFlag n) -> exists h', inv h' (goto t (RUnlock n) (set_flag 0 s)).
Proof.
  intros Hi Hp. pose proof (inv_holder _ _ _ _ Hi Hp eq_refl) as [Hn Hd].
  pose proof Hi as [(Hl & Hu & _) (Hlen & Hr & Hw & Hwr) _ [H1 H2]].
  eapply inv_goto; [exact Hi|exact Hp|reflexivity| |done|done| |done].
  - intros _. cbn. by rewrite Hl, (Hu _ _ Hp eq_refl).
  - split; cbn; [lia|by left].
Qed.

Lemma length_copy_in u buf : length (copy_in u buf) = length buf.
Proof. unfold copy_in. rewrite length_app, length_take, length_replicate. lia. Qed.

Lemma copy_in_0 buf : copy_in 0 buf = buf.
Proof. unfold copy_in. cbn. by rewrite Nat.sub_0_r, firstn_all, app_nil_r. Qed.

Lemma length_write_at i bs g :
  (Z.to_nat i + length bs <= length g)%nat -> length (write_at i bs g) = length g.
Proof. intros. unfold write_at. rewrite !length_app, length_take, length_drop. lia. Qed.

Lemma take_write_at i bs g n :
  (n <= Z.to_nat i <= length g)%nat -> take n (write_at i bs g) = take n g.
Proof.
  intros. unfold write_at. rewrite take_app_le by (rewrite length_take; lia).
  rewrite take_take. f_equal. lia.
Qed.

Lemma slice_write_at i bs g :
  (Z.to_nat i <= length g)%nat -> take (length bs) (drop (Z.to_nat i) (write_at i bs g)) = bs.
Proof.
  intros. unfold write_at. rewrite drop_app_length' by (rewrite length_take; lia).
  by rewrite take_app_length.
Qed.

(** The copy from the writer lies past everything published. *)
Lemma write_copy_inv h s t buf u (ok := u =? 0) :
  inv h s -> threads s !! t = Some (WCopy buf) -> write_index s + Z.of_nat (length buf) <= LEN ->
  exists h', inv h' (goto t (if ok then WIndex buf else WUnlockFault)
    (mkGv (write_at (write_index s) (copy_in u buf) (global_var s)) (read_index s) (write_index s)
          (flag s) (var_lock s) (threads s) (history s))).
Proof.
  intros Hi Hp Hle. pose proof (inv_holder _ _ _ _ Hi Hp eq_refl) as Hph.
  pose proof Hi as [(Hl & Hu & _) (Hlen & Hr & Hw & Hwr) _ Hfl].
  set (p' := if ok then WIndex buf else WUnlockFault).
  assert (holding p' = true) as Hh by (unfold p'; by destruct ok).
  eapply inv_goto; [exact Hi|exact Hp|reflexivity| |done| | |]; rewrite ?Hh.
  - intros _. cbn. by rewrite Hl, (Hu _ _ Hp eq_refl).
  - split_and!; cbn; [rewrite length_write_at; [done|]|lia..|].
    + rewrite length_copy_in. lia.
    + rewrite take_write_at by lia. done.
  - eapply (flag_inv_goto s); [exact Hp|reflexivity|done..| |done|done|exact Hfl].
    unfold p'. by destruct ok.
  - unfold p'. subst ok. destruct (Z.eqb_spec u 0) as [->|]; cbn.
    + split_and!; [lia| |by rewrite take_write_at by lia].
      rewrite copy_in_0. apply slice_write_at. lia.
    + by rewrite take_write_at by lia.
Qed.

(** [write_index += len]: the bytes copied become visible. *)
Lemma write_index_inv h s t buf :
  inv h s -> threads s !! t = Some (WIndex buf) ->
  exists h', inv h' (goto t (WUnlock buf) (log (EvWrite buf)
    (mkGv (global_var s) (read_index s) (s32 (write_index s + Z.of_nat (length buf)))
          (flag s) (var_lock s) (threads s) (history s)))).
Proof.
  intros Hi Hp. pose proof (inv_holder _ _ _ _ Hi Hp eq_refl) as (Hle & Hsl & Hd).
  pose proof Hi as [(Hl & Hu & _) (Hlen & Hr & Hw & Hwr) _ [H1 H2]]. unfold LEN in *.
  rewrite s32_small by lia.
  eapply inv_goto; [exact Hi|exact Hp|reflexivity| |done| | |].
  - intros _. cbn. by rewrite Hl, (Hu _ _ Hp eq_refl).
  - split_and!; cbn; [done|lia|unfold LEN; lia..|].
    rewrite written_snoc, Hwr, <- Hsl at 1. rewrite take_take_drop. f_equal. lia.
  - split; cbn.
    + intros _. right. by eapply some_thread_here.
    + intros t' Ht'. apply (sleeper_goto _ t (WIndex buf)) in Ht'; [|done|done].
      destruct (H2 _ Ht') as [|Hs]; [by left|right]. by eapply some_thread_goto.
  - cbn. rewrite delivered_snoc. by rewrite app_nil_r.
Qed.

(** [flag = 1] *)
Lemma write_flag_inv h s t len :
  inv h s -> threads s !! t = Some (WFlag len) -> exists h', inv h' (goto t (WWake len) (set_flag 1 s)).
Proof.
  intros Hi Hp. pose proof Hi as [_ Hbuf Hph [H1 H2]].
  eapply inv_goto; [exact Hi|exact Hp|reflexivity|done|done|done| |].
  - split; cbn; [by left|]. intros _ _. right. by eapply some_thread_here.
  - cbn. by destruct (h ≫= _) as [[]|].
Qed.

(** [wake_up_interruptible]: no sleeper is left. *)
Lemma wake_lookup (ts : list pc) t p :
  (wake <$> ts) !! t = Some p -> p <> RSleep /\ exists q, ts !! t = Some q /\ p = wake q.
Proof.
  rewrite list_lookup_fmap. destruct (ts !! t) as [q|]; [|done]. intros [= <-].
  split; [by destruct q|by exists q].
Qed.

Lemma write_wake_inv h s t len :
  inv h s -> threads s !! t = Some (WWake len) ->
  exists h', inv h' (goto t (Done len) (set_threads (wake <$> threads s) s)).
Proof.
  intros Hi Hp. pose proof Hi as [(Hl & Hu & He) Hbuf Hph [H1 H2]].
  set (s1 := set_threads (wake <$> threads s) s).
  assert (forall q, holding (wake q) = holding q) as Hw by (by intros []).
  assert (inv h s1) as Hi1.
  { split; [|exact Hbuf| |].
    - split; [exact Hl|]. split.
      + intros t' p' [_ (q & Hq & ->)]%wake_lookup. rewrite Hw. by apply Hu.
      + intros t' Ht'. destruct (He t' Ht') as (q & Hq & Hh). exists (wake q).
        rewrite Hw. split; [|done]. cbn. by rewrite list_lookup_fmap, Hq.
    - destruct h as [t'|]; [|exact Hph]. cbn in *. rewrite list_lookup_fmap.
      by destruct (threads s !! t') as [[]|].
    - split; cbn.
      + intros Hlt. destruct (H1 Hlt) as [|(t' & q & Hq & Hpub)]; [by left|right].
        exists t', (wake q). rewrite list_lookup_fmap, Hq. by destruct q.
      + intros t' [Hn _]%wake_lookup. done. }
  assert (threads s1 !! t = Some (WWake len)) as Hp1 by (cbn; by rewrite list_lookup_fmap, Hp).
  eapply (inv_goto h s1); [exact Hi1|exact Hp1|reflexivity|done|done|exact Hbuf| |].
  - destruct Hi1 as [_ _ _ [H3 _] ]. split; cbn in *.
    + intros Hlt. destruct (H3 Hlt) as [|Hs]; [by left|right]. by eapply some_thread_goto.
    + intros t' Ht'. apply (sleeper_goto _ t (WWake len)) in Ht'; [|done|done].
      by apply wake_lookup in Ht' as [Hn _].
  - destruct Hi1 as [_ _ Hph1 _]. exact Hph1.
Qed.

Lemma inside_spec i n : inside i n = true <-> 0 <= i /\ 0 <= n /\ i + n <= LEN.
Proof. unfold inside. rewrite !andb_true_iff, !Z.leb_le. tauto. Qed.

Lemma read_step_inv e h s t p s' :
  inv h s -> threads s !! t = Some p -> globalvar_read_step e t p s = Next s' ->
  exists h', inv h' s'.
Proof.
  intros Hi Hp. destruct p; cbn [globalvar_read_step]; try done.
  - destruct (Z.eqb_spec (flag s) 0) as [Hf|]; cbn.
    + destruct (e_signal e); intros [= <-]; [|by eapply sleep_inv].
      rewrite goto_id. by eapply inv_move.
    + intros [= <-]. rewrite goto_id. by eapply inv_move.
  - destruct (e_signal e); [|done]. intros [= <-]. rewrite goto_id. by eapply inv_move.
  - by eapply acquire_inv.
  - pose proof Hi as [(Hl & Hu & _) (Hlen & Hr & Hw & _) _ _].
    rewrite s32_small by (unfold LEN in *; lia).
    destruct (inside _ _); [|done]. destruct (e_uncopied e =? 0); cbn; intros [= <-].
    + by apply (read_copy_inv h).
    + rewrite goto_id. eapply inv_move; try done.
      * by rewrite Hl, (Hu _ _ Hp eq_refl).
      * intros _. exact (inv_holder _ _ _ _ Hi Hp eq_refl).
  - intros [= <-]. by apply (read_index_inv h).
  - intros [= <-]. by apply (read_flag_inv h).
  - intros [= <-]. eapply inv_move; try done. intros _. exact (inv_holder _ _ _ _ Hi Hp eq_refl).
Qed.

Lemma write_step_inv e h s t p s' :
  inv h s -> threads s !! t = Some p -> globalvar_write_step e t p s = Next s' ->
  exists h', inv h' s'.
Proof.
  intros Hi Hp. destruct p; cbn [globalvar_write_step]; try done.
  - by eapply acquire_inv.
  - destruct (inside _ _) eqn:Ei; [|done]. cbn. apply inside_spec in Ei as (_ & _ & Ei).
    pose proof (write_copy_inv h s t buf (e_uncopied e) Hi Hp Ei) as Hok.
    destruct (e_uncopied e =? 0); cbn; intros [= <-]; exact Hok.
  - intros [= <-]. by apply (write_index_inv h).
  - intros [= <-]. eapply inv_move; try done. intros _. exact (inv_holder _ _ _ _ Hi Hp eq_refl).
  - intros [= <-]. by apply (write_flag_inv h).
  - intros [= <-]. by apply (write_wake_inv h).
  - intros [= <-]. eapply inv_move; try done. intros _. exact (inv_holder _ _ _ _ Hi Hp eq_refl).
Qed.

(** A new thread is at the head of its handler. *)
Lemma spawn_inv h s q :
  inv h s -> holding q = false -> q <> RSleep -> exists h', inv h' (set_threads (threads s ++ [q]) s).
Proof.
  intros [(Hl & Hu & He) Hbuf Hph [H1 H2]] Hh Hs. exists h.
  assert (forall t p, (threads s ++ [q]) !! t = Some p -> threads s !! t = Some p \/ p = q) as Happ.
  { intros t p Ht. apply lookup_app_Some in Ht as [Ht|[_ Ht] ]; [by left|right].
    destruct (t - _)%nat; [|done]. by injection Ht. }
  split; [|exact Hbuf| |].
  - split; [exact Hl|]. split; cbn.
    + intros t p Hp Hhp. destruct (Happ _ _ Hp) as [| ->]; [by eapply Hu|congruence].
    + intros t Ht. destruct (He t Ht) as (p & Hp & Hhp). exists p.
      split; [by apply lookup_app_l_Some|done].
  - destruct h as [t|]; [|exact Hph]. cbn in *. destruct (He t eq_refl) as (p & Hp & _).
    rewrite Hp in Hph. by rewrite (lookup_app_l_Some _ _ _ _ Hp).
  - split; cbn.
    + intros Hlt. destruct (H1 Hlt) as [|Hsome]; [by left|right]. by apply some_thread_app.
    + intros t Ht. destruct (Happ _ _ Ht) as [Ht'|]; [|done].
      destruct (H2 _ Ht') as [|Hsome]; [by left|right]. by apply some_thread_app.
Qed.

Lemma step_inv s s' : step s s' -> (exists h, inv h s) -> exists h, inv h s'.
Proof.
  intros [s1|s1 buf|s1 e t s2 _ He] [h Hi].
  - by apply (spawn_inv h).
  - by apply (spawn_inv h).
  - unfold thread_step in He. destruct (threads s1 !! t) as [p|] eqn:Hp; [|done].
    destruct (reading p).
    + exact (read_step_inv e h s1 t p s2 Hi Hp He).
    + exact (write_step_inv e h s1 t p s2 Hi Hp He).
Qed.

Lemma reachable_inv s : reachable s -> exists h, inv h s.
Proof.
  intros Hr. cut (forall s0, rtc step s0 s -> (exists h, inv h s0) -> exists h, inv h s).
  { intros H. apply (H _ Hr). exists None. apply inv_init. }
  clear Hr. intros s0 Hr. induction Hr as [|s1 s2 s3 Hs _ IH]; [done|].
  intros Hi. by apply IH, (step_inv s1).
Qed.
