(* ===== verification/WaitQueueProps.v ===== *)
(** * Properties of the blocking device *)
From Stdlib Require Import ZArith Strings.Byte.
From stdpp Require Import base gmap list.
From S2P Require Import Prelude WaitQueue WaitQueueInv.
Open Scope Z_scope.

(** ** Executions by a schedule *)

Inductive action : Type :=
  | CallRead
  | CallWrite (buf : list byte)
  | Run (t : nat)                 (* the next statement, no signal, no fault *)
  | RunWith (e : env) (t : nat).

Definition act (a : action) (s : globalvar) : option globalvar :=
  let next e t := match thread_step e t s with Next s' => Some s' | _ => None end in
  match a with
  | CallRead => Some (set_threads (threads s ++ [RWait]) s)
  | CallWrite buf => Some (set_threads (threads s ++ [WLock buf]) s)
  | Run t => next (mkEnv false 0) t
  | RunWith e t => if 0 <=? e_uncopied e then next e t else None
  end.

Definition acts (l : list action) (s : globalvar) : option globalvar :=
  foldl (fun o a => o ≫= act a) (Some s) l.

Lemma act_step a s s' : act a s = Some s' -> step s s'.
Proof.
  destruct a as [|buf|t|e t]; cbn.
  - intros [= <-]. constructor.
  - intros [= <-]. constructor.
  - destruct (thread_step _ t s) eqn:E; try done. intros [= <-].
    by apply (step_thread s (mkEnv false 0) t).
  - case_cmp; [|done]. destruct (thread_step e t s) eqn:E; try done. intros [= <-].
    by apply (step_thread s e t).
Qed.

Lemma acts_reachable l s s' : reachable s -> acts l s = Some s' -> reachable s'.
Proof.
  unfold acts. revert s; induction l as [|a l IH]; intros s Hr; cbn.
  - intros [= <-]. exact Hr.
  - destruct (act a s) as [s1|] eqn:E.
    + apply IH. eapply rtc_r; [exact Hr|]. by eapply act_step.
    + intros H. exfalso. clear -H. induction l as [|b l IH]; cbn in H; [done|by apply IH].
Qed.

Lemma schedule_reachable l s' : acts l globalvar_init = Some s' -> reachable s'.
Proof. apply acts_reachable. constructor. Qed.

(** A schedule: two writes and a read that waits for the first. *)
Definition demo_schedule : list action :=
  [CallRead; Run 0; CallWrite [x61; x62]; Run 1; Run 1; Run 1; Run 1; Run 1; Run 1;
   CallWrite [x63]; Run 2; Run 2; Run 2; Run 2; Run 0].

Definition demo_state : globalvar := default globalvar_init (acts demo_schedule globalvar_init).

Lemma demo_reachable : reachable demo_state.
Proof. apply (schedule_reachable demo_schedule). vm_compute. reflexivity. Qed.

(** ** Theorems *)

(** C14. First in, first out. In every reachable state the bytes delivered by
    the reads are a prefix, in order, of the bytes accepted by the writes:
    nothing is lost, duplicated or reordered, however the threads interleave
    and whichever user copies fail. When no thread is in the critical section
    the rest is exactly what the buffer holds between the two indices. *)
Theorem globalvar_fifo s :
  reachable s ->
  delivered (history s) `prefix_of` written (history s) /\
  (var_lock s = false ->
   written (history s) = delivered (history s) ++
     take (Z.to_nat (write_index s - read_index s))
          (drop (Z.to_nat (read_index s)) (global_var s))).
Proof.
  intros [h Hi]%reachable_inv. pose proof Hi as [_ (Hlen & Hr & Hw & Hwr) Hph _].
  assert (written (history s) = take (Z.to_nat (read_index s)) (global_var s) ++
            take (Z.to_nat (write_index s - read_index s))
                 (drop (Z.to_nat (read_index s)) (global_var s))) as Hsplit.
  { rewrite Hwr, take_take_drop. f_equal. lia. }
  split.
  - destruct (h ≫= _) as [[]|]; cbn in Hph; destr_ctx;
      try (by rewrite Hph, Hsplit; apply prefix_app_r); try (by rewrite Hwr; exists []; rewrite app_nil_r);
      match goal with H : delivered _ = _ |- _ => rewrite H end;
      by rewrite Hsplit; apply prefix_app_r.
  - intros Hf. rewrite (inv_free _ _ Hi Hf) in Hph. cbn in Hph. by rewrite Hph.
Qed.

Lemma globalvar_fifo_witness :
  delivered (history demo_state) `prefix_of` written (history demo_state) /\
  written (history demo_state) = [x61; x62; x63].
Proof.
  split; [exact (proj1 (globalvar_fifo demo_state demo_reachable))|]. vm_compute. reflexivity.
Defined.

(** C29. Mutual exclusion and bounds. At most one thread is between
    [spin_lock] and [spin_unlock], the lock is free exactly when there is
    none, and the indices stay ordered and inside the buffer. *)
Theorem globalvar_exclusion s :
  reachable s ->
  (forall t t' p p', threads s !! t = Some p -> threads s !! t' = Some p' ->
     holding p = true -> holding p' = true -> t = t') /\
  (var_lock s = true <-> some_thread holding (threads s)) /\
  0 <= read_index s <= write_index s /\ write_index s <= LEN.
Proof.
  intros [h [(Hl & Hu & He) (Hlen & Hr & Hw & _) _ _]]%reachable_inv. split_and!; [|split|lia..].
  - intros t t' p p' Hp Hp' Hh Hh'. pose proof (Hu _ _ Hp Hh). pose proof (Hu _ _ Hp' Hh'). congruence.
  - rewrite Hl. intros [t Ht]%bool_decide_eq_true. destruct (He t Ht) as (p & Hp & Hh). by exists t, p.
  - intros (t & p & Hp & Hh). rewrite Hl, (Hu _ _ Hp Hh). done.
Qed.

Lemma globalvar_exclusion_witness :
  (var_lock demo_state = true <-> some_thread holding (threads demo_state)) /\
  0 <= read_index demo_state <= write_index demo_state.
Proof.
  destruct (globalvar_exclusion demo_state demo_reachable) as (_ & H1 & H2 & _). split; assumption.
Defined.

(** C15. No lost wake-up. The flag is set and the queue woken outside the
    lock, and a reader clears the flag; still, a reader is never asleep on
    unread data unless some writer is on its way to [wake_up_interruptible]
    (or has only the setting of the flag before it). *)
Theorem globalvar_no_lost_wakeup s t :
  reachable s -> threads s !! t = Some RSleep -> read_index s < write_index s ->
  exists t' p, threads s !! t' = Some p /\ (publishing p = true \/ waking p = true).
Proof.
  intros [h [_ _ _ [H1 H2]]]%reachable_inv Ht Hlt.
  destruct (H1 Hlt) as [Hf|(t' & p & Hp & Hpub)]; [|exists t', p; by auto].
  destruct (H2 _ Ht) as [|(t' & p & Hp & Hwk)]; [done|exists t', p; by auto].
Qed.

(** Reader asleep, the writer past its critical section. *)
Definition asleep : globalvar :=
  default globalvar_init (acts [CallRead; Run 0; CallWrite [x61]; Run 1; Run 1; Run 1; Run 1]
                               globalvar_init).

Lemma globalvar_no_lost_wakeup_witness :
  threads asleep !! 0%nat = Some RSleep /\
  exists t' p, threads asleep !! t' = Some p /\ (publishing p = true \/ waking p = true).
Proof.
  split; [vm_compute; reflexivity|]. apply (globalvar_no_lost_wakeup asleep 0).
  - apply (schedule_reachable [CallRead; Run 0; CallWrite [x61]; Run 1; Run 1; Run 1; Run 1]).
    vm_compute. reflexivity.
  - vm_compute. reflexivity.
  - vm_compute. reflexivity.
Defined.

(** C32. The write overruns the buffer. The only access outside [global_var]
    is the copy of a write that does not fit behind the bytes accepted since
    the module was loaded: there is no check, and reading never makes room. *)
Theorem globalvar_overrun s e t :
  reachable s ->
  (thread_step e t s = Crash <->
   exists buf, threads s !! t = Some (WCopy buf) /\
     LEN < Z.of_nat (length (written (history s))) + Z.of_nat (length buf)).
Proof.
  intros [h [_ (Hlen & Hr & Hw & Hwr) _ _]]%reachable_inv.
  assert (Z.of_nat (length (written (history s))) = write_index s) as ->.
  { rewrite Hwr, length_take. unfold LEN in *. lia. }
  unfold thread_step. destruct (threads s !! t) as [p|]; [|split; [done|by intros (? & ? & _)]].
  split.
  - destruct p; cbn; try done; unfold acquire; try (by destruct (var_lock s)).
    + destruct (negb _); [done|by destruct (e_signal e)].
    + by destruct (e_signal e).
    + rewrite s32_small by (unfold LEN in *; lia). destruct (inside _ _) eqn:E.
      * cbn. by destruct (negb _).
      * assert (inside (read_index s) (write_index s - read_index s) = true) by
          (apply inside_spec; lia). congruence.
    + destruct (inside _ _) eqn:E; cbn; [by destruct (negb _)|]. intros _. exists buf. split; [done|].
      destruct (Z.lt_ge_cases LEN (write_index s + Z.of_nat (length buf))); [done|].
      assert (inside (write_index s) (Z.of_nat (length buf)) = true) by (apply inside_spec; lia). congruence.
  - intros (buf & [= ->] & Hlt). cbn. destruct (inside _ _) eqn:E; [|done].
    apply inside_spec in E. lia.
Qed.

(** A write of 1000 bytes, read back, then a write of 100. *)
Definition overrun_schedule : list action :=
  [CallWrite (replicate 1000 x61); Run 0; Run 0; Run 0; Run 0; Run 0; Run 0;
   CallRead; Run 1; Run 1; Run 1; Run 1; Run 1; Run 1; CallWrite (replicate 100 x62); Run 2].
Definition overrun_state : globalvar := default globalvar_init (acts overrun_schedule globalvar_init).

Lemma globalvar_overrun_witness :
  thread_step (mkEnv false 0) 2 overrun_state = Crash /\
  delivered (history overrun_state) = replicate 1000 x61.
Proof.
  split; [|vm_compute; reflexivity].
  apply (globalvar_overrun overrun_state (mkEnv false 0) 2).
  - apply (schedule_reachable overrun_schedule). vm_compute. reflexivity.
  - exists (replicate 100 x62). split; vm_compute; reflexivity.
Defined.

(** A read can return zero. The flag is set after the lock is released,
    so a reader woken by an earlier write can take the data and clear the flag
    in between; the flag then stands with nothing to read, and the next read
    returns 0, which a caller takes for the end of the file, after which the
    device still delivers what is written. *)
Theorem globalvar_read_zero :
  exists l s, acts l globalvar_init = Some s /\ reachable s /\
    threads s !! 2%nat = Some (Done 0) /\
    history s = [EvWrite [x61]; EvWrite [x62]; EvRead [x61; x62]; EvRead []; EvWrite [x63]; EvRead [x63]].
Proof.
  set (l := [CallWrite [x61]; Run 0; Run 0; Run 0; Run 0; Run 0; Run 0;
             CallRead; Run 1;
             CallRead; CallWrite [x62]; Run 3; Run 3; Run 3; Run 3;
             Run 1; Run 1; Run 1; Run 1; Run 1;
             Run 3; Run 3; Run 2; Run 2; Run 2; Run 2; Run 2; Run 2;
             CallWrite [x63]; Run 4; Run 4; Run 4; Run 4; Run 4; Run 4;
             CallRead; Run 5; Run 5; Run 5]).
  assert (exists s, acts l globalvar_init = Some s) as [s Hs] by (by vm_compute; eexists).
  exists l, s. split; [done|]. split; [by apply (schedule_reachable l)|].
  revert Hs. vm_compute. intros [= <-]. done.
Qed.
