(* ===== verification/Kernel.v ===== *)
(** * Kernel modules: objects, static variables, registrations

    What the loadable modules under src/ share: a heap of objects known by
    address, allocation that may be refused, the module's static variables,
    the major numbers it has registered and the messages it has printed. A use
    of an object that is not alive has no result. The list macros of the
    kernel are an interface ([KList]). *)
From Stdlib Require Import ZArith Strings.Byte.
From stdpp Require Import base gmap list strings.
From S2P Require Import Prelude.
Open Scope Z_scope.

Definition EIO : Z := 5.
Definition ENOMEM : Z := 12.

(** [printk(fmt, ...)] with at most one string argument. *)
Record kmsg : Type := Printk { k_fmt : string; k_str : list byte; k_args : list Z }.

(** [O]: the objects; [G]: the static variables. [grants] answers the
    allocations to come (refused when it runs out). *)
Record kstate {O G : Type} : Type := mkK {
    objects : gmap Z O;
    next_id : Z;
    grants : list bool;
    registered : list Z;
    statics : G;
    klog : list kmsg;                (* oldest first *)
}.
Arguments kstate : clear implicits.

(** A state monad with failure. *)
Definition K (O G A : Type) : Type := kstate O G -> option (A * kstate O G).

Section Monad.
Context {O G : Type}.

#[global] Instance K_ret : MRet (K O G) := fun A a s => Some (a, s).
#[global] Instance K_bind : MBind (K O G) := fun A B f m s =>
  match m s with Some (a, s') => f a s' | None => None end.

Definition kfault {A} : K O G A := fun _ => None.

Definition with_objects (m : gmap Z O) (s : kstate O G) : kstate O G :=
  mkK _ _ m (next_id s) (grants s) (registered s) (statics s) (klog s).
Definition with_statics (g : G) (s : kstate O G) : kstate O G :=
  mkK _ _ (objects s) (next_id s) (grants s) (registered s) g (klog s).
Definition with_registered (r : list Z) (s : kstate O G) : kstate O G :=
  mkK _ _ (objects s) (next_id s) (grants s) r (statics s) (klog s).

Definition kget : K O G G := fun s => Some (statics s, s).
Definition kput (g : G) : K O G unit := fun s => Some (tt, with_statics g s).

Definition printk (m : kmsg) : K O G unit := fun s =>
  Some (tt, mkK _ _ (objects s) (next_id s) (grants s) (registered s) (statics s) (klog s ++ [m])).

(** An allocation: null or the address of a new object. *)
Definition kalloc (o : O) : K O G Z := fun s =>
  match grants s with
  | true :: g =>
      Some (next_id s, mkK _ _ (<[next_id s := o]> (objects s)) (next_id s + 1) g
                           (registered s) (statics s) (klog s))
  | false :: g => Some (0, mkK _ _ (objects s) (next_id s) g (registered s) (statics s) (klog s))
  | [] => Some (0, s)
  end.

Definition kload (p : Z) : K O G O := fun s =>
  match objects s !! p with Some o => Some (o, s) | None => None end.
Definition kstore (p : Z) (o : O) : K O G unit := fun s =>
  match objects s !! p with
  | Some _ => Some (tt, with_objects (<[p := o]> (objects s)) s)
  | None => None
  end.

(** The release of an object; [kfree] and [vfree] accept null. *)
Definition krelease (p : Z) : K O G unit := fun s =>
  match objects s !! p with
  | Some _ => Some (tt, with_objects (delete p (objects s)) s)
  | None => None
  end.
Definition kfree (p : Z) : K O G unit := if p =? 0 then mret tt else krelease p.

(** [register_blkdev] and the like with their result, and the converse. *)
Definition kregister (major : Z) : K O G Z := fun s =>
  Some (major, if major <? 0 then s else with_registered (major :: registered s) s).
Definition kunregister (major : Z) : K O G unit := fun s =>
  Some (tt, with_registered (filter (fun r => r <> major) (registered s)) s).
End Monad.

Lemma kbind_run {O G A B} (m : K O G A) (f : A -> K O G B) s a s' :
  m s = Some (a, s') -> (m ≫= f) s = f a s'.
Proof. unfold mbind, K_bind. by intros ->. Qed.

Lemma kload_run {O G} (s : kstate O G) p o : objects s !! p = Some o -> kload p s = Some (o, s).
Proof. unfold kload. by intros ->. Qed.

Lemma kstore_run {O G} (s : kstate O G) p o o' :
  objects s !! p = Some o -> kstore p o' s = Some (tt, with_objects (<[p := o']> (objects s)) s).
Proof. unfold kstore. by intros ->. Qed.

Lemma krelease_run {O G} (s : kstate O G) p o :
  objects s !! p = Some o -> krelease p s = Some (tt, with_objects (delete p (objects s)) s).
Proof. unfold krelease. by intros ->. Qed.

Lemma kfree_run {O G} (s : kstate O G) p o :
  p <> 0 -> objects s !! p = Some o -> kfree p s = Some (tt, with_objects (delete p (objects s)) s).
Proof. intros Hp Ho. unfold kfree. rewrite (proj2 (Z.eqb_neq p 0) Hp). by eapply krelease_run. Qed.

(** Executes the leading bind of the goal with a known run. *)
Ltac k_step H := erewrite kbind_run by exact H; cbv beta.

(** A module being loaded: no object, no registration, nothing printed. *)
Definition kboot {O G} (g : G) (grants : list bool) : kstate O G := mkK _ _ ∅ 1 grants [] g [].

(** Evaluates a run of a monadic program on a state that is concrete but for
    data the run does not inspect. *)
Ltac k_run p :=
  match goal with
  | |- context [p ?s] =>
      let r := eval vm_compute in (p s) in replace (p s) with r by (vm_compute; reflexivity)
  end.
