(* ===== verification/KList.v ===== *)
(** * The kernel's list macros, as an interface

    <linux/list.h> is outside src/: a list state answers the first node of a
    list and the successor of a node, and is changed by the insertions and
    the deletion; [kl_seq] is the sequence of nodes the documentation speaks
    of. A node is the address of the structure it is embedded in, a list the
    address of its head. *)
From Stdlib Require Import ZArith.
From stdpp Require Import base gmap list.
From S2P Require Import Prelude Kernel.
Open Scope Z_scope.

Class KLists (L : Type) : Type := {
    kl_seq : L -> Z -> list Z;
    kl_first : L -> Z -> option Z;
    kl_next : L -> Z -> Z -> option Z;       (* list, node *)
    kl_init : Z -> L -> L;                   (* INIT_LIST_HEAD, INIT_HLIST_HEAD *)
    kl_add_head : Z -> Z -> L -> L;          (* hlist_add_head(node, list) *)
    kl_add_tail : Z -> Z -> L -> L;          (* list_add_tail(node, list) *)
    kl_del : Z -> L -> L;                    (* list_del, list_del_init, hlist_del *)
}.

(** The node is on none of the lists. *)
Definition unlinked {L} `{KLists L} (n : Z) (l : L) : Prop := forall h, n ∉ kl_seq l h.

Class KListsOk (L : Type) `{KLists L} : Prop := {
    kl_first_seq l h : kl_first l h = head (kl_seq l h);
    kl_next_seq l h pre n post :
      NoDup (kl_seq l h) -> kl_seq l h = pre ++ n :: post -> kl_next l h n = head post;
    kl_seq_init l h h' : kl_seq (kl_init h l) h' = if decide (h' = h) then [] else kl_seq l h';
    kl_seq_add_head l n h h' : unlinked n l ->
      kl_seq (kl_add_head n h l) h' = if decide (h' = h) then n :: kl_seq l h else kl_seq l h';
    kl_seq_add_tail l n h h' : unlinked n l ->
      kl_seq (kl_add_tail n h l) h' = if decide (h' = h) then kl_seq l h ++ [n] else kl_seq l h';
    kl_seq_del l n h : kl_seq (kl_del n l) h = filter (fun m => m <> n) (kl_seq l h);
}.

(** ** Traversals

    [list_for_each_entry] reads the successor of a node after the body,
    [list_for_each_entry_safe] before it. The body is given the number of
    nodes visited before and may leave the loop with a result. The number of
    nodes on the list bounds the traversal. *)
Section Traversal.
Context {L : Type} `{KLists L} {Ob G A : Type} (lists : G -> L).

Fixpoint each_from (fuel : nat) (i : Z) (h : Z) (cur : option Z) (body : Z -> Z -> K Ob G (option A)) :
    K Ob G (option A) :=
  match cur with
  | None => mret None
  | Some n =>
      match fuel with
      | O => kfault
      | S fuel =>
          r ← body i n;
          match r with
          | Some a => mret (Some a)
          | None => g ← kget; each_from fuel (i + 1) h (kl_next (lists g) h n) body
          end
      end
  end.

Fixpoint each_safe_from (fuel : nat) (h : Z) (cur : option Z) (body : Z -> K Ob G (option A)) :
    K Ob G (option A) :=
  match cur with
  | None => mret None
  | Some n =>
      match fuel with
      | O => kfault
      | S fuel =>
          g ← kget;
          let next := kl_next (lists g) h n in
          r ← body n;
          match r with
          | Some a => mret (Some a)
          | None => each_safe_from fuel h next body
          end
      end
  end.

Definition for_each_entry (h : Z) (body : Z -> Z -> K Ob G (option A)) : K Ob G (option A) :=
  g ← kget; each_from (length (kl_seq (lists g) h)) 0 h (kl_first (lists g) h) body.

Definition for_each_entry_safe (h : Z) (body : Z -> K Ob G (option A)) : K Ob G (option A) :=
  g ← kget; each_safe_from (length (kl_seq (lists g) h)) h (kl_first (lists g) h) body.
End Traversal.

(** ** Reasoning about traversals *)

Section Rules.
Context {L : Type} `{KListsOk L} {Ob G A : Type} (lists : G -> L).
Implicit Types s : kstate Ob G.

(** A traversal of a list that the body leaves alone; [I]: the invariant, with
    the nodes left to visit. *)
Lemma each_from_run (I : list Z -> kstate Ob G -> Prop) (Q : A -> kstate Ob G -> Prop) h seq body s :
  NoDup seq ->
  (forall rest s, I rest s -> kl_seq (lists (statics s)) h = seq) ->
  (forall i n rest s, n ∈ seq -> I (n :: rest) s ->
     exists r s', body i n s = Some (r, s') /\
       match r with None => I rest s' | Some a => Q a s' end) ->
  I seq s ->
  exists r s', for_each_entry lists h body s = Some (r, s') /\
    match r with None => I [] s' | Some a => Q a s' end.
Proof.
  intros Hnd Hseq Hbody HI. unfold for_each_entry, mbind, K_bind, kget.
  rewrite (Hseq _ _ HI), kl_first_seq, (Hseq _ _ HI).
  assert (forall rest pre i s fuel, seq = pre ++ rest -> (length rest <= fuel)%nat -> I rest s ->
    exists r s', each_from lists fuel i h (head rest) body s = Some (r, s') /\
      match r with None => I [] s' | Some a => Q a s' end) as Hloop.
  { clear s HI. induction rest as [|n rest IH]; intros pre i s fuel Hpre Hf HI.
    - exists None, s. split; [by destruct fuel|done].
    - destruct fuel as [|fuel]; [cbn in Hf; lia|]. cbn [each_from head length] in *.
      unfold mbind, K_bind. assert (n ∈ seq) as Hin by (rewrite Hpre; apply elem_of_app; right; by left).
      destruct (Hbody i n rest s Hin HI) as (r & s1 & -> & Hr).
      destruct r as [a|]; [by exists (Some a), s1|]. unfold kget.
      rewrite (kl_next_seq _ h pre n rest) by (rewrite ?(Hseq _ _ Hr); done).
      apply (IH (pre ++ [n])); [by rewrite <- app_assoc|lia|done]. }
  by apply (Hloop seq []).
Qed.

(** A safe traversal; [I] says what the list is when some nodes are left. *)
Lemma each_safe_run (I : list Z -> kstate Ob G -> Prop) (Q : A -> kstate Ob G -> Prop) h seq body s :
  (forall n rest s, I (n :: rest) s ->
     exists pre, NoDup (kl_seq (lists (statics s)) h) /\
                 kl_seq (lists (statics s)) h = pre ++ n :: rest) ->
  (forall n rest s, I (n :: rest) s ->
     exists r s', body n s = Some (r, s') /\
       match r with None => I rest s' | Some a => Q a s' end) ->
  kl_seq (lists (statics s)) h = seq -> I seq s ->
  exists r s', for_each_entry_safe lists h body s = Some (r, s') /\
    match r with None => I [] s' | Some a => Q a s' end.
Proof.
  intros Hseq Hbody Hs HI. unfold for_each_entry_safe, mbind, K_bind, kget.
  rewrite kl_first_seq, Hs.
  assert (forall rest s fuel, (length rest <= fuel)%nat -> I rest s ->
    exists r s', each_safe_from lists fuel h (head rest) body s = Some (r, s') /\
      match r with None => I [] s' | Some a => Q a s' end) as Hloop.
  { clear s Hs HI. induction rest as [|n rest IH]; intros s fuel Hf HI.
    - exists None, s. split; [by destruct fuel|done].
    - destruct fuel as [|fuel]; [cbn in Hf; lia|]. cbn [each_safe_from head length] in *.
      unfold mbind, K_bind, kget. destruct (Hseq n rest s HI) as (pre & Hnd & Hpre).
      rewrite (kl_next_seq _ h pre n rest) by done.
      destruct (Hbody n rest s HI) as (r & s1 & -> & Hr).
      destruct r as [a|]; [by exists (Some a), s1|]. apply IH; [lia|done]. }
  by apply Hloop.
Qed.
End Rules.

(** ** An implementation: a sequence of nodes per list *)

Module SeqLists.
Abbreviation seqs := (gmap Z (list Z)).
Definition seq_of (l : seqs) (h : Z) : list Z := default [] (l !! h).

Fixpoint after (n : Z) (seq : list Z) : option Z :=
  match seq with
  | [] => None
  | m :: seq => if decide (m = n) then head seq else after n seq
  end.

#[global] Instance lists : KLists seqs := {|
  kl_seq := seq_of;
  kl_first l h := head (seq_of l h);
  kl_next l h n := after n (seq_of l h);
  kl_init h l := <[h := []]> l;
  kl_add_head n h l := <[h := n :: seq_of l h]> l;
  kl_add_tail n h l := <[h := seq_of l h ++ [n]]> l;
  kl_del n l := (filter (fun m => m <> n)) <$> l;
  |}.

Lemma seq_insert (l : seqs) h v h' :
  seq_of (<[h := v]> l) h' = if decide (h' = h) then v else seq_of l h'.
Proof.
  unfold seq_of. destruct (decide (h' = h)) as [->|Hne].
  - by rewrite lookup_insert_eq.
  - by rewrite lookup_insert_ne by done.
Qed.

#[global] Instance lists_ok : KListsOk seqs.
Proof.
  split; cbn.
  - done.
  - intros l h pre n post Hnd E. rewrite E in *. clear E. induction pre as [|m pre IH]; cbn.
    + by rewrite decide_True.
    + apply NoDup_cons in Hnd as [Hm Hnd]. rewrite decide_False; [by apply IH|].
      intros ->. apply Hm. apply elem_of_app. right. by left.
  - intros l h h'. apply seq_insert.
  - intros l n h h' _. by rewrite seq_insert.
  - intros l n h h' _. by rewrite seq_insert.
  - intros l n h. unfold seq_of. rewrite lookup_fmap. by destruct (l !! h).
Qed.
End SeqLists.
