(* ===== verification/KHeap.v ===== *)
(** * Objects on lists

    What the proofs about modules that keep their objects on kernel lists
    share: steps that only print, and heaps that hold exactly the objects of a
    list of addressed values. *)
From Stdlib Require Import ZArith.
From stdpp Require Import base gmap list.
From S2P Require Import Prelude Kernel.
Open Scope Z_scope.

(** ** Steps that only print *)

Section Prints.
Context {Ob G : Type}.
Implicit Types s : kstate Ob G.

Definition prints s s' : Prop :=
  exists l, s' = mkK _ _ (objects s) (next_id s) (grants s) (registered s) (statics s) l.

Lemma prints_refl s : prints s s.
Proof. exists (klog s). by destruct s. Qed.
Lemma prints_trans s1 s2 s3 : prints s1 s2 -> prints s2 s3 -> prints s1 s3.
Proof. intros [l1 ->] [l2 ->]. by exists l2. Qed.
Lemma printk_prints m s : exists s', printk m s = Some (tt, s') /\ prints s s'.
Proof. eexists. split; [reflexivity|]. by eexists. Qed.
End Prints.

(** Executes a leading [printk] in state [s]; [s1] is the state after it. *)
Ltac k_print s s1 Hp :=
  erewrite kbind_run by reflexivity; cbv beta; set (s1 := mkK _ _ _ _ _ _ _ _);
  assert (prints s s1) as Hp by (by eexists).

(** ** Heaps *)

Section Heap.
Context {A Ob : Type} (enc : A -> Ob).
Implicit Types l : list (Z * A).

Definition heap_of l : gmap Z Ob := list_to_map (prod_map id enc <$> l).

Lemma heap_fst l : (prod_map id enc <$> l).*1 = l.*1.
Proof. rewrite <- list_fmap_compose. by apply list_fmap_ext. Qed.

Lemma heap_perm l1 l2 : NoDup l1.*1 -> l1 ≡ₚ l2 -> heap_of l1 = heap_of l2.
Proof.
  intros Hnd Hp. apply list_to_map_proper; [by rewrite heap_fst|]. by rewrite Hp.
Qed.

Lemma heap_lookup l n a : NoDup l.*1 -> (n, a) ∈ l -> heap_of l !! n = Some (enc a).
Proof.
  intros Hnd Hin. apply elem_of_list_to_map_1; [by rewrite heap_fst|].
  apply list_elem_of_fmap. by exists (n, a).
Qed.

Lemma heap_lookup_None l n : n ∉ l.*1 -> heap_of l !! n = None.
Proof. intros Hn. apply not_elem_of_list_to_map_1. by rewrite heap_fst. Qed.

Lemma heap_delete l n a : NoDup ((n, a) :: l).*1 -> delete n (heap_of ((n, a) :: l)) = heap_of l.
Proof.
  intros Hnd. apply NoDup_cons in Hnd as [Hn _]. unfold heap_of. cbn.
  apply delete_insert_id. by apply heap_lookup_None.
Qed.

(** Every object of the list is below the next address. *)
Definition below (next : Z) l : Prop := 0 < next /\ Forall (fun n => 0 < fst n < next) l.

Lemma below_fresh next l : below next l -> next ∉ l.*1.
Proof.
  intros [_ Hf] (n & Hn & Hin)%list_elem_of_fmap. rewrite Forall_forall in Hf. specialize (Hf n Hin). lia.
Qed.

Lemma below_push next l a : below next l -> below (next + 1) ((next, a) :: l).
Proof.
  intros [Hpos Hf]. split; [lia|]. constructor; [cbn; lia|]. eapply Forall_impl; [exact Hf|]. cbn. lia.
Qed.
End Heap.
Arguments heap_perm {A Ob enc} l1 l2.
Arguments heap_lookup {A Ob enc} l n a.
Arguments heap_lookup_None {A Ob enc} l n.
Arguments heap_delete {A Ob enc} l n a.

(** ** Taking a node off a list *)

Lemma filter_notin (n : Z) (l : list Z) : n ∉ l -> filter (fun m => m <> n) l = l.
Proof.
  induction l as [|m l IH]; [done|]. intros [Hm Hl]%not_elem_of_cons.
  rewrite filter_cons_True by done. by rewrite IH.
Qed.

Lemma filter_split (n : Z) (pre post : list Z) :
  NoDup (pre ++ n :: post) -> filter (fun m => m <> n) (pre ++ n :: post) = pre ++ post.
Proof.
  intros Hnd. apply NoDup_app in Hnd as (_ & Hd & Hnd). apply NoDup_cons in Hnd as [Hn _].
  rewrite filter_app, filter_cons_False by (intros Hx; by apply Hx).
  rewrite !filter_notin; [done|done|]. intros Hin. apply (Hd n Hin). by left.
Qed.
