(* ===== verification/CmdHash.v ===== *)
(** * Names by initial: src/hlist/hlist1/hlist.c

    A table of 27 hash lists, one for each initial letter and one for the
    rest, with a count of the names in each. *)
From Stdlib Require Import ZArith Strings.Byte.
From stdpp Require Import base gmap list strings.
From S2P Require Import Prelude Kernel KList.
Open Scope Z_scope.

Definition CMD_HASH_HEAD_SIZE : Z := 27.

(** ** Data *)

(** [cmd_hash_head_t] without the list head, which is the index of the
    bucket: [int8_t ch], [int8_t offset], [int16_t count]. *)
Record cmd_hash_head : Type := mkHead {
  ch : Z;
  offset : Z;
  count : Z;
}.

(** [cmd_hash_node_t]: the array [name]; the links of all nodes are [node]. *)
Definition name_size : nat := 20.
Record cmd_hash_node : Type := mkNode { name : list byte }.

Record hash_statics {L : Type} : Type := mkStatics {
  cmd_hash : list cmd_hash_head;
  node : L;
}.
Arguments hash_statics : clear implicits.

(** ** The initial of a name *)

(** [name]: a string without its terminator, or [NULL]. The result is an
    [int8_t]. *)
Definition node_type (name : option (list byte)) : Z :=
  match name with
  | None => -1
  | Some name =>
      let ch := s8 (byte_val (default x00 (head name))) in
      if (char_val "a" <=? ch) && (ch <=? char_val "z") then s8 (ch - char_val "a") else 26
  end.

(** [strlcpy(buf, s, size)]: at most [size - 1] characters and a terminator;
    [None]: a write past the array. *)
Definition strlcpy (buf s : list byte) (size : nat) : option (list byte) :=
  match size with
  | O => Some buf
  | S n =>
      let copied := take n s ++ [x00] in
      if (length copied <=? length buf)%nat then Some (copied ++ drop (length copied) buf) else None
  end.

Section CmdHash.
Context {L : Type} `{KLists L}.

Abbreviation prog := (K cmd_hash_node (hash_statics L)).

Definition set_node (f : L -> L) : prog unit :=
  g ← kget; kput (mkStatics _ (cmd_hash g) (f (node g))).

(** An access to [cmd_hash[i]]; outside the table there is no result. *)
Definition get_head (i : Z) : prog cmd_hash_head :=
  g ← kget;
  if i <? 0 then kfault
  else match cmd_hash g !! Z.to_nat i with Some h => mret h | None => kfault end.

Definition set_head (i : Z) (h : cmd_hash_head) : prog unit :=
  get_head i;;
  g ← kget; kput (mkStatics _ (<[Z.to_nat i := h]> (cmd_hash g)) (node g)).

(** [for (index = 0; index < CMD_HASH_HEAD_SIZE; index++)] *)
Definition indices : list Z := seqZ 0 CMD_HASH_HEAD_SIZE.
Fixpoint for_indices (l : list Z) (body : Z -> prog unit) : prog unit :=
  match l with
  | [] => mret ()
  | i :: l => body i;; for_indices l body
  end.

Definition init_head (index : Z) : prog unit :=
  set_node (kl_init index);;
  h ← get_head index;
  set_head index (mkHead (ch h) (offset h) 0);;
  h ← get_head index;
  set_head index (mkHead (ch h) (s8 index) (count h));;
  h ← get_head index;
  set_head index (mkHead (if index =? CMD_HASH_HEAD_SIZE then char_val "?" else s8 (char_val "a" + index))
                         (offset h) (count h)).

(** The [memset] makes the lists empty as well: an empty head is null. *)
Definition cmd_hash_init : prog unit :=
  g ← kget;
  kput (mkStatics _ (replicate (Z.to_nat CMD_HASH_HEAD_SIZE) (mkHead 0 0 0))
                  (foldr kl_init (node g) indices));;
  for_indices indices init_head.

(** [kzalloc] is not checked: the first use of a null node has no result. *)
Definition __cmd_hash_node_add (name : option (list byte)) : prog unit :=
  hash_node ← kalloc (mkNode (replicate name_size x00));
  let offs := node_type name in
  if offs <? 0 then mret ()
  else
    let s := default [] name in
    n ← kload hash_node;
    match strlcpy (CmdHash.name n) s (length s) with
    | None => kfault
    | Some buf =>
        kstore hash_node (mkNode buf);;
        h ← get_head offs;
        set_head offs (mkHead (ch h) (offset h) (s16 (count h + 1)));;
        set_node (kl_add_head hash_node offs)
    end.

Definition cmd_hash_node_add : prog unit :=
  __cmd_hash_node_add (Some (chars "hello"));;
  __cmd_hash_node_add (Some (chars "help"));;
  __cmd_hash_node_add (Some (chars "scan"));;
  __cmd_hash_node_add (Some (chars "???")).

Definition dump_node (_ cmd_hnode : Z) : prog (option unit) :=
  n ← kload cmd_hnode;
  match array_string (name n) with
  | None => kfault
  | Some s => printk (Printk "name:%s" s []);; mret None
  end.

Definition dump_bucket (index : Z) : prog unit :=
  h ← get_head index;
  if count h <=? 0 then mret ()
  else
    printk (Printk "(%d) count:%d, offset:%d, ch:%c" [] [index; count h; offset h; ch h]);;
    for_each_entry node index dump_node;;
    mret ().

Definition cmd_hash_node_dump : prog unit :=
  printk (Printk "=============hlist===============" [] []);;
  for_indices indices dump_bucket.

Definition remove_node (cmd_hnode : Z) : prog (option unit) :=
  set_node (kl_del cmd_hnode);;
  kfree cmd_hnode;;
  mret None.

Definition clean_bucket (index : Z) : prog unit :=
  h ← get_head index;
  if count h <=? 0 then mret ()
  else for_each_entry_safe node index remove_node;; mret ().

Definition cmd_hash_cleanup : prog unit := for_indices indices clean_bucket.

Definition hlist_init : prog Z :=
  cmd_hash_init;;
  cmd_hash_node_add;;
  cmd_hash_node_dump;;
  mret 0.

Definition hlist_exit : prog unit := cmd_hash_cleanup.
End CmdHash.
