(* ===== verification/CmdHashProps.v ===== *)
(** * Properties of the table of names by initial

    The module refines a sequence of names, the newest first: each bucket is
    the subsequence of an initial. *)
From Stdlib Require Import ZArith Strings.Byte.
From stdpp Require Import base gmap list strings.
From S2P Require Import Prelude Kernel KList KHeap CmdHash.
Open Scope Z_scope.

(** ** Names *)

Definition name_ok (name : list byte) : Prop := (x00 ∉ name) /\ (length name <= name_size)%nat.

(** What is stored of a name: all but its last character. *)
Definition shorten (name : list byte) : list byte := take (pred (length name)) name.
Definition stored (name : list byte) : cmd_hash_node :=
  mkNode (shorten name ++ replicate (name_size - length (shorten name)) x00).

Lemma length_shorten name : length (shorten name) = pred (length name).
Proof. unfold shorten. rewrite length_take. lia. Qed.

Lemma strlcpy_name name :
  name_ok name -> strlcpy (replicate name_size x00) name (length name) = Some (CmdHash.name (stored name)).
Proof.
  intros [_ Hl]. cbn [stored CmdHash.name]. rewrite length_shorten. unfold shorten.
  destruct name as [|b name]; [done|]. cbn [strlcpy length pred]. set (k := length name) in *.
  assert (length (take k (b :: name) ++ [x00]) = S k) as Hk
    by (rewrite length_app, length_take; cbn; lia).
  rewrite Hk, length_replicate, (proj2 (Nat.leb_le _ _)) by (cbn in Hl; lia).
  rewrite drop_replicate, <- app_assoc. do 2 f_equal.
  replace (name_size - k)%nat with (S (name_size - S k)) by (cbn in Hl; lia). done.
Qed.

Lemma stored_string name : name_ok name -> array_string (CmdHash.name (stored name)) = Some (shorten name).
Proof.
  intros [Hz Hl]. cbn [stored CmdHash.name]. rewrite length_shorten.
  assert (exists n, (name_size - pred (length name) = S n)%nat) as [n ->].
  { exists (name_size - S (pred (length name)))%nat. unfold name_size in *. lia. }
  apply array_string_padded. intros Hin. apply Hz. unfold shorten in Hin.
  by eapply elem_of_take in Hin as (i & ? & ?); eapply list_elem_of_lookup_2.
Qed.

Definition initial (name : list byte) : Z := node_type (Some name).

Lemma initial_range name : 0 <= initial name < CMD_HASH_HEAD_SIZE.
Proof.
  unfold initial, node_type, CMD_HASH_HEAD_SIZE.
  change (char_val "a") with 97. change (char_val "z") with 122.
  repeat case_cmp; cbn [andb]; rewrite ?s8_small by lia; lia.
Qed.

(** ** The abstract state *)

Abbreviation entries := (list (Z * list byte)).

Definition bucket (i : Z) (a : entries) : entries := filter (fun n => initial (snd n) = i) a.

#[local] Arguments bucket : simpl never.

(** The entry of the table for bucket [i]. *)
Definition head_of (a : entries) (i : Z) : cmd_hash_head :=
  mkHead (s8 (char_val "a" + i)) i (s16 (Z.of_nat (length (bucket i a)))).
Definition heads_of (a : entries) : list cmd_hash_head := head_of a <$> indices.

Lemma bucket_cons i n a :
  bucket i (n :: a) = if decide (initial (snd n) = i) then n :: bucket i a else bucket i a.
Proof. unfold bucket. rewrite filter_cons. by case_decide. Qed.

Lemma bucket_sub i a n : n ∈ (bucket i a).*1 -> n ∈ a.*1.
Proof. intros (m & -> & [_ Hm]%list_elem_of_filter)%list_elem_of_fmap. by apply list_elem_of_fmap_2. Qed.

Lemma bucket_nodup i a : NoDup a.*1 -> NoDup (bucket i a).*1.
Proof.
  induction a as [|n a IH]; [done|]. rewrite bucket_cons. intros [Hn Hnd]%NoDup_cons.
  case_decide; [|by apply IH]. cbn. apply NoDup_cons. split; [|by apply IH]. intros Hin. apply Hn.
  by eapply bucket_sub.
Qed.

Lemma heads_lookup a i : 0 <= i < CMD_HASH_HEAD_SIZE -> heads_of a !! Z.to_nat i = Some (head_of a i).
Proof.
  intros Hi. unfold heads_of, indices. rewrite list_lookup_fmap.
  rewrite (proj2 (lookup_seqZ 0 CMD_HASH_HEAD_SIZE (Z.to_nat i) i)) by lia. done.
Qed.

(** A new name changes the entry of its initial. *)
Lemma heads_cons a n :
  <[Z.to_nat (initial (snd n)) := head_of (n :: a) (initial (snd n))]> (heads_of a) = heads_of (n :: a).
Proof.
  pose proof (initial_range (snd n)) as Hr. apply list_eq. intros k.
  destruct (decide (k < Z.to_nat CMD_HASH_HEAD_SIZE)%nat) as [Hk|Hk].
  - assert (exists i, k = Z.to_nat i /\ 0 <= i < CMD_HASH_HEAD_SIZE) as (i & -> & Hi)
      by (exists (Z.of_nat k); unfold CMD_HASH_HEAD_SIZE in *; lia).
    rewrite (heads_lookup (n :: a)) by done. destruct (decide (i = initial (snd n))) as [->|Hne].
    + apply list_lookup_insert_eq. by eapply lookup_lt_Some, heads_lookup.
    + rewrite list_lookup_insert_ne, heads_lookup by lia.
      unfold head_of. rewrite bucket_cons, decide_False by congruence. done.
  - assert (forall a, length (heads_of a) = Z.to_nat CMD_HASH_HEAD_SIZE) as Hlen
      by (intros; unfold heads_of, indices; by rewrite length_fmap, length_seqZ).
    rewrite !lookup_ge_None_2; [done|rewrite Hlen; lia|rewrite length_insert, Hlen; lia].
Qed.

Lemma s16_succ z : s16 (s16 z + 1) = s16 (z + 1).
Proof. unfold s16, u16. repeat case_cmp; div_lia. Qed.

Section Refinement.
Context {L : Type} `{KListsOk L}.
Implicit Types s : kstate cmd_hash_node (hash_statics L).

(** The lists are the buckets, the heap holds the stored names and nothing
    else. *)
Record rep (s : kstate cmd_hash_node (hash_statics L)) (a : entries) : Prop := {
  r_lists i : kl_seq (node (statics s)) i = (bucket i a).*1;
  r_heap : objects s = heap_of stored a;
  r_addr : NoDup a.*1;
  r_below : below (next_id s) a;
  r_names : Forall (fun n => name_ok (snd n)) a;
}.

(** The table describes the names [a]. *)
Definition table s a : Prop := cmd_hash (statics s) = heads_of a.

Lemma names_prints s s' a : prints s s' -> rep s a -> rep s' a.
Proof. intros [l ->] []. by split. Qed.
Lemma table_prints s s' a : prints s s' -> table s a -> table s' a.
Proof. by intros [l ->]. Qed.

(** The order across buckets does not matter. *)
Lemma rep_perm s a a' :
  rep s a -> a ≡ₚ a' -> (forall i, bucket i a' = bucket i a) -> rep s a'.
Proof.
  intros [Hl Hh Hnd [Hpos Hb] Hn] Hp Hbk. split.
  - intros i. by rewrite Hbk.
  - rewrite Hh. by apply heap_perm.
  - by rewrite <- Hp.
  - split; [done|]. by rewrite <- Hp.
  - by rewrite <- Hp.
Qed.

Lemma get_head_run s a i :
  table s a -> 0 <= i < CMD_HASH_HEAD_SIZE -> get_head i s = Some (head_of a i, s).
Proof.
  intros Ht Hi. unfold get_head. erewrite kbind_run by reflexivity. cbv beta.
  rewrite (proj2 (Z.ltb_ge i 0)) by lia. rewrite Ht, heads_lookup by done. done.
Qed.

(** A loop over the buckets; [I]: the invariant, with the buckets to come. *)
Lemma for_indices_run (I : list Z -> kstate cmd_hash_node (hash_statics L) -> Prop) l body s :
  (forall i l s, I (i :: l) s -> exists s', body i s = Some (tt, s') /\ I l s') ->
  I l s -> exists s', for_indices l body s = Some (tt, s') /\ I [] s'.
Proof.
  intros Hbody. revert s. induction l as [|i l IH]; intros s HI; [by exists s|].
  destruct (Hbody _ _ _ HI) as (s1 & H1 & HI1). destruct (IH s1 HI1) as (s2 & H2 & HI2).
  exists s2. cbn [for_indices]. by k_step H1.
Qed.

(** ** Initialisation *)

Definition all_init (l : L) : L := foldl (fun l i => kl_init i l) (foldr kl_init l indices) indices.

Lemma all_init_empty l : (forall h, kl_seq l h = []) -> forall h, kl_seq (all_init l) h = [].
Proof.
  intros Hl. unfold all_init.
  assert (forall ix l, (forall h, kl_seq l h = []) -> forall h, kl_seq (foldr kl_init l ix) h = []) as Hr.
  { clear l Hl. intros ix l Hl. induction ix as [|i ix IH]; [done|]. intros h. cbn. rewrite kl_seq_init. by case_decide. }
  assert (forall ix l, (forall h, kl_seq l h = []) -> forall h, kl_seq (foldl (fun l i => kl_init i l) l ix) h = []) as Hf.
  { clear l Hl Hr. induction ix as [|i ix IH]; intros l Hl h; [done|]. apply IH. intros h'. rewrite kl_seq_init.
    by case_decide. }
  apply Hf, Hr, Hl.
Qed.

Lemma cmd_hash_init_run s :
  cmd_hash_init s = Some (tt, with_statics (mkStatics _ (heads_of []) (all_init (node (statics s)))) s).
Proof. vm_compute. reflexivity. Qed.

Lemma init_rep s :
  (forall h, kl_seq (node (statics s)) h = []) -> objects s = ∅ -> 0 < next_id s ->
  exists s', cmd_hash_init s = Some (tt, s') /\ rep s' [] /\ table s' [] /\ grants s' = grants s.
Proof.
  intros Hl Ho Hn. eexists. split; [apply cmd_hash_init_run|]. split; [|done]. split; cbn; try done.
  - intros h. by apply all_init_empty.
  - constructor.
Qed.

(** ** Adding a name *)

Lemma names_push s a name g st l r :
  rep s a -> name_ok name ->
  rep (mkK _ _ (<[next_id s := stored name]> (objects s)) (next_id s + 1) g r
         (mkStatics _ st (kl_add_head (next_id s) (initial name) (node (statics s)))) l)
      ((next_id s, name) :: a).
Proof.
  intros [Hl Hh Hnd Hb Hn] Hok. pose proof (below_fresh _ _ Hb) as Hf. split.
  - intros i. cbn. rewrite kl_seq_add_head; [|intros h; rewrite Hl; by intros ?%bucket_sub].
    rewrite bucket_cons. cbn. rewrite !Hl. repeat case_decide; subst; done.
  - cbn [objects]. by rewrite Hh.
  - by constructor.
  - by apply below_push.
  - by constructor.
Qed.

Lemma add_run s a name g :
  rep s a -> table s a -> name_ok name -> grants s = true :: g ->
  exists s', __cmd_hash_node_add (Some name) s = Some (tt, s') /\
    rep s' ((next_id s, name) :: a) /\ table s' ((next_id s, name) :: a) /\ grants s' = g.
Proof.
  intros Hr Ht Hok Hg. pose proof (initial_range name) as Hi. unfold __cmd_hash_node_add.
  set (p := next_id s).
  erewrite kbind_run by (unfold kalloc; rewrite Hg; reflexivity). cbv beta zeta.
  fold (initial name). rewrite (proj2 (Z.ltb_ge (initial name) 0)) by lia.
  erewrite kbind_run by (eapply kload_run; apply lookup_insert_eq). cbv beta. cbn [CmdHash.name default].
  rewrite strlcpy_name by done.
  erewrite kbind_run by (eapply kstore_run; apply lookup_insert_eq). cbv beta. cbn [with_objects objects].
  erewrite kbind_run by (apply (get_head_run _ a); [exact Ht|exact Hi]). cbv beta.
  erewrite kbind_run by (unfold set_head;
    erewrite kbind_run by (apply (get_head_run _ a); [exact Ht|exact Hi]); reflexivity). cbv beta.
  eexists. split; [reflexivity|]. cbn. rewrite insert_insert_eq. split; [by apply names_push|]. split; [|done].
  unfold table in *. cbn. rewrite Ht, <- heads_cons. cbn [snd]. f_equal.
  unfold head_of. rewrite bucket_cons, decide_True by done. cbn [length ch offset count].
  rewrite s16_succ. by rewrite Nat2Z.inj_succ.
Qed.

(** ** Printing *)

Lemma bucket_in i a n : n ∈ bucket i a -> n ∈ a.
Proof. by intros [_ ?]%list_elem_of_filter. Qed.

Lemma dump_node_run s a i n :
  rep s a -> n ∈ a -> exists s', dump_node i (fst n) s = Some (None, s') /\ prints s s'.
Proof.
  intros [_ Hh Hnd _ Hn] Hin. destruct n as [p name]. rewrite Forall_forall in Hn. specialize (Hn _ Hin).
  unfold dump_node. erewrite kbind_run by (eapply kload_run; rewrite Hh; by eapply heap_lookup). cbv beta.
  rewrite stored_string by done. destruct (printk_prints (Printk "name:%s" (shorten name) []) s) as (s' & Hs' & Hp).
  k_step Hs'. by exists s'.
Qed.

Lemma dump_bucket_run s a i :
  rep s a -> table s a -> 0 <= i < CMD_HASH_HEAD_SIZE ->
  exists s', dump_bucket i s = Some (tt, s') /\ prints s s'.
Proof.
  intros Hr Ht Hi. unfold dump_bucket. k_step (get_head_run _ _ _ Ht Hi).
  destruct (_ <=? 0); [exists s; split; [done|apply prints_refl]|].
  k_print s s1 Hp1. pose proof (names_prints _ _ _ Hp1 Hr) as Hr1.
  destruct (each_from_run (G := hash_statics L) (Ob := cmd_hash_node) node (fun _ s' => prints s1 s')
              (fun _ _ => False) i (bucket i a).*1 dump_node s1) as (r & s' & Hrun & Hres).
  - apply bucket_nodup, Hr.
  - intros rest s2 [l ->]. apply (r_lists _ _ Hr1).
  - intros k n rest s2 (m & -> & Hm)%list_elem_of_fmap Hp.
    destruct (dump_node_run s2 a k m (names_prints _ _ _ Hp Hr1) (bucket_in _ _ _ Hm)) as (s3 & Hs3 & Hp3).
    exists None, s3. split; [done|]. by eapply prints_trans.
  - apply prints_refl.
  - k_step Hrun. exists s'. split; [done|]. destruct r; [done|]. exact (prints_trans _ _ _ Hp1 Hres).
Qed.

Lemma indices_range i : i ∈ indices -> 0 <= i < CMD_HASH_HEAD_SIZE.
Proof. intros Hi%elem_of_seqZ. lia. Qed.

Lemma table_dump_run s a :
  rep s a -> table s a -> exists s', cmd_hash_node_dump s = Some (tt, s') /\ prints s s'.
Proof.
  intros Hr Ht. unfold cmd_hash_node_dump. k_print s s1 Hp1.
  destruct (for_indices_run (fun l s' => prints s s' /\ l ⊆ indices) indices dump_bucket s1)
    as (s' & Hs' & Hp & _); [|done|by exists s'].
  intros i l s2 [Hp Hl]. destruct (dump_bucket_run s2 a i) as (s3 & H3 & Hp3).
  - by eapply names_prints.
  - by eapply table_prints.
  - apply indices_range, Hl. by left.
  - exists s3. split; [done|]. split; [by eapply prints_trans|]. intros j Hj. apply Hl. by right.
Qed.

(** ** Removal *)

Lemma rep_remove s n name a f :
  rep s ((n, name) :: a) ->
  rep (with_objects (delete n (objects s)) (with_statics (mkStatics _ f (kl_del n (node (statics s)))) s)) a.
Proof.
  intros [Hl Hh Hnd [Hpos Hb] Hn]. assert ((n ∉ a.*1) /\ NoDup a.*1) as [Hna Hnd'] by (by apply NoDup_cons).
  split.
  - intros i. cbn. rewrite kl_seq_del, Hl, bucket_cons.
    assert (n ∉ (bucket i a).*1) as Hni by (by intros ?%bucket_sub).
    case_decide; [|by apply filter_notin]. pose proof (filter_split n [] (bucket i a).*1) as E.
    cbn [app] in E. rewrite fmap_cons. cbn [fst]. apply E. apply NoDup_cons. split; [done|]. by apply bucket_nodup.
  - cbn. rewrite Hh. by apply heap_delete.
  - done.
  - split; [done|]. by apply Forall_cons in Hb as [_ ?].
  - by apply Forall_cons in Hn as [_ ?].
Qed.

Lemma remove_node_run s n name a st :
  rep s ((n, name) :: a) -> cmd_hash (statics s) = st ->
  exists s', remove_node n s = Some (None, s') /\ rep s' a /\ cmd_hash (statics s') = st.
Proof.
  intros Hr Hst. pose proof (rep_remove _ _ _ _ (cmd_hash (statics s)) Hr) as Hr'.
  unfold remove_node. erewrite kbind_run by reflexivity. cbv beta.
  erewrite kbind_run.
  2: { apply (kfree_run _ n (stored name)).
       - destruct Hr as [_ _ _ [_ Hb] _]. apply Forall_cons in Hb as [Hb _]. cbn in Hb. lia.
       - cbn. rewrite (r_heap _ _ Hr). apply heap_lookup; [apply Hr|by left]. }
  eexists. split; [reflexivity|]. by split.
Qed.

(** The entries whose bucket is in [l]. *)
Definition within (l : list Z) (a : entries) : entries := filter (fun n => initial (snd n) ∈ l) a.

Lemma bucket_app i a b : bucket i (a ++ b) = bucket i a ++ bucket i b.
Proof. apply filter_app. Qed.

Lemma bucket_bucket i j a : bucket i (bucket j a) = if decide (i = j) then bucket j a else [].
Proof.
  induction a as [|n a IH]; [by case_decide|]. rewrite bucket_cons.
  repeat case_decide; subst; rewrite ?bucket_cons, ?IH; repeat case_decide; congruence.
Qed.

Lemma bucket_within i l a : bucket i (within l a) = if decide (i ∈ l) then bucket i a else [].
Proof.
  induction a as [|n a IH]; [by case_decide|]. unfold within in *. rewrite filter_cons, bucket_cons.
  repeat case_decide; subst; rewrite ?bucket_cons, ?IH; repeat case_decide; congruence.
Qed.

Lemma within_split i l a : i ∉ l -> within (i :: l) a ≡ₚ bucket i a ++ within l a.
Proof.
  intros Hi. induction a as [|n a IH]; [done|]. unfold within in *. rewrite bucket_cons.
  destruct (decide (initial (snd n) = i)) as [E|E].
  - rewrite filter_cons_True by (rewrite E; by left). rewrite filter_cons_False by (by rewrite E).
    cbn. by rewrite IH.
  - destruct (decide (initial (snd n) ∈ l)).
    + rewrite !filter_cons_True by (done || by right). rewrite IH. apply Permutation_middle.
    + rewrite !filter_cons_False by (first [done | by intros [?|?]%elem_of_cons]). exact IH.
Qed.

Lemma within_all a : within indices a = a.
Proof.
  unfold within. induction a as [|n a IH]; [done|]. rewrite filter_cons_True; [by rewrite IH|].
  apply elem_of_seqZ. pose proof (initial_range (snd n)). lia.
Qed.

(** One bucket emptied: [rest] is what the other buckets hold. *)
Lemma empty_bucket_run s post rest i st :
  rep s (post ++ rest) -> cmd_hash (statics s) = st ->
  bucket i post = post -> bucket i rest = [] ->
  exists s', for_each_entry_safe node i remove_node s = Some (None, s') /\ rep s' rest /\
    cmd_hash (statics s') = st.
Proof.
  intros Hr Hst Hpost Hrest.
  assert (forall post s', rep s' (post ++ rest) -> bucket i post = post ->
    kl_seq (node (statics s')) i = post.*1) as Hseq.
  { intros p s' Hr' Hp. rewrite (r_lists _ _ Hr'), bucket_app, Hp, Hrest. by rewrite app_nil_r. }
  destruct (each_safe_run (G := hash_statics L) (Ob := cmd_hash_node) node
     (fun l s' => exists p, l = p.*1 /\ bucket i p = p /\ rep s' (p ++ rest) /\ cmd_hash (statics s') = st)
     (fun _ _ => False) i post.*1 remove_node s) as (r & s' & Hrun & Hres).
  - intros n l s1 (p & -> & Hp & Hr1 & _). exists []. rewrite (Hseq p) by done. split; [|done].
    rewrite <- Hp. apply bucket_nodup. pose proof (r_addr _ _ Hr1) as Hnd. rewrite fmap_app in Hnd.
    by apply NoDup_app in Hnd as [? _].
  - intros n l s1 (p & Hl & Hp & Hr1 & Hst1). destruct p as [|[n' name] p]; [done|]. injection Hl as -> ->.
    destruct (remove_node_run s1 n' name (p ++ rest) st Hr1 Hst1) as (s2 & H2 & Hr2 & Hst2).
    exists None, s2. split; [exact H2|]. exists p. split; [done|]. split; [|done].
    rewrite bucket_cons in Hp. case_decide; [by injection Hp|].
    exfalso. assert (length ((n', name) :: p) <= length p)%nat as Hle by (rewrite <- Hp; apply length_filter).
    cbn in Hle. lia.
  - by apply Hseq.
  - by exists post.
  - exists s'. destruct r; [done|]. destruct Hres as (p & Hl & _ & Hr' & Hst'). destruct p; [|done].
    by split.
Qed.

Lemma clean_bucket_run s a i l :
  rep s (within (i :: l) a) -> table s a -> i ∉ l -> 0 <= i < CMD_HASH_HEAD_SIZE ->
  Z.of_nat (length a) < 32768 ->
  exists s', clean_bucket i s = Some (tt, s') /\ rep s' (within l a) /\ table s' a.
Proof.
  intros Hr Ht Hil Hi Hlen. unfold clean_bucket. k_step (get_head_run _ _ _ Ht Hi).
  assert (rep s (bucket i a ++ within l a)) as Hr1.
  { apply (rep_perm s _ _ Hr); [by apply within_split|]. intros j.
    rewrite bucket_app, bucket_bucket, !bucket_within.
    repeat case_decide; rewrite ?elem_of_cons in *; subst; rewrite ?app_nil_r; tauto. }
  assert (length (bucket i a) <= length a)%nat as Hle by apply length_filter.
  cbn [head_of count]. rewrite s16_small by lia. destruct (Z.leb_spec (Z.of_nat (length (bucket i a))) 0).
  - destruct (bucket i a); [|cbn in *; lia]. by exists s.
  - destruct (empty_bucket_run s (bucket i a) (within l a) i (heads_of a) Hr1 Ht) as (s' & H' & Hr' & Ht').
    + by rewrite bucket_bucket, decide_True.
    + by rewrite bucket_within, decide_False.
    + k_step H'. by exists s'.
Qed.

Lemma cleanup_run s a :
  rep s a -> table s a -> Z.of_nat (length a) < 32768 ->
  exists s', cmd_hash_cleanup s = Some (tt, s') /\ objects s' = ∅ /\ forall h, kl_seq (node (statics s')) h = [].
Proof.
  intros Hr Ht Hlen.
  destruct (for_indices_run (fun l s' => rep s' (within l a) /\ table s' a /\ NoDup l /\ l ⊆ indices)
              indices clean_bucket s) as (s' & Hs' & Hr' & _).
  - intros i l s1 (Hr1 & Ht1 & [Hil Hnd]%NoDup_cons & Hsub).
    destruct (clean_bucket_run s1 a i l Hr1 Ht1 Hil) as (s2 & H2 & Hr2 & Ht2); [|done|].
    + apply indices_range, Hsub. by left.
    + exists s2. split; [done|]. do 3 (split; [done|]). intros j Hj. apply Hsub. by right.
  - rewrite within_all. split; [done|]. split; [done|]. split; [apply NoDup_seqZ|done].
  - assert (within [] a = []) as Hnil.
    { unfold within. clear. induction a as [|n a IH]; [done|]. rewrite filter_cons_False; [done|]. apply not_elem_of_nil. }
    rewrite Hnil in Hr'. exists s'. split; [done|]. split; [apply (r_heap _ _ Hr')|]. apply (r_lists _ _ Hr').
Qed.

(** ** From loading to removal *)

Fixpoint add_all (names : list (list byte)) : K cmd_hash_node (hash_statics L) unit :=
  match names with
  | [] => mret ()
  | n :: names => __cmd_hash_node_add (Some n);; add_all names
  end.

Lemma add_all_run names s a g :
  rep s a -> table s a -> Forall name_ok names -> grants s = replicate (length names) true ++ g ->
  exists s' b, add_all names s = Some (tt, s') /\ rep s' (b ++ a) /\ table s' (b ++ a) /\ b.*2 = reverse names.
Proof.
  intros Hr Ht Hok. revert s a Hr Ht. induction Hok as [|n names Hn _ IH]; intros s a Hr Ht Hg.
  - by exists s, [].
  - destruct (add_run s a n _ Hr Ht Hn Hg) as (s1 & H1 & Hr1 & Ht1 & Hg1).
    destruct (IH s1 _ Hr1 Ht1 Hg1) as (s2 & b & H2 & Hr2 & Ht2 & Hb).
    exists s2, (b ++ [(next_id s, n)]). cbn [add_all]. k_step H1. rewrite <- app_assoc. cbn [app].
    split; [done|]. split; [done|]. split; [done|]. by rewrite fmap_app, Hb, reverse_cons.
Qed.

(** A node that is not granted is used all the same. *)
Lemma add_refused s a name :
  rep s a -> (forall g, grants s <> true :: g) -> __cmd_hash_node_add (Some name) s = None.
Proof.
  intros Hr Hg. unfold __cmd_hash_node_add.
  assert (exists s', kalloc (mkNode (replicate name_size x00)) s = Some (0, s') /\ objects s' = objects s)
    as (s' & Ha & Eo).
  { unfold kalloc. destruct (grants s) as [|[] g]; [by eexists|by destruct (Hg g)|by eexists]. }
  k_step Ha. cbv zeta. fold (initial name). pose proof (initial_range name).
  rewrite (proj2 (Z.ltb_ge (initial name) 0)) by lia.
  unfold mbind, K_bind, kload. rewrite Eo, (r_heap _ _ Hr), heap_lookup_None; [done|].
  intros (n & En & Hin)%list_elem_of_fmap. destruct (r_below _ _ Hr) as [_ Hb].
  rewrite Forall_forall in Hb. specialize (Hb n Hin). lia.
Qed.

Lemma add_all_refused names s a :
  rep s a -> table s a -> Forall name_ok names ->
  take (length names) (grants s) <> replicate (length names) true -> add_all names s = None.
Proof.
  intros Hr Ht Hok. revert s a Hr Ht. induction Hok as [|n names Hn _ IH]; intros s a Hr Ht Hg; [done|].
  cbn [add_all]. destruct (grants s) as [|[] g] eqn:Eg.
  - unfold mbind at 1, K_bind at 1. by rewrite (add_refused s a n Hr) by (intros g; by rewrite Eg).
  - destruct (add_run s a n g Hr Ht Hn Eg) as (s1 & H1 & Hr1 & Ht1 & Hg1). k_step H1.
    eapply IH; [exact Hr1|exact Ht1|]. rewrite Hg1. intros E. apply Hg. cbn [length take replicate]. by rewrite E.
  - unfold mbind at 1, K_bind at 1. by rewrite (add_refused s a n Hr) by (intros g'; by rewrite Eg).
Qed.

(** [hlist_init] with any names in place of the four of [cmd_hash_node_add]. *)
Definition load_names (names : list (list byte)) : K cmd_hash_node (hash_statics L) Z :=
  cmd_hash_init;; add_all names;; cmd_hash_node_dump;; mret 0.

Lemma hlist_init_names s :
  hlist_init s = load_names [chars "hello"; chars "help"; chars "scan"; chars "???"] s.
Proof.
  unfold hlist_init, load_names, cmd_hash_node_add. cbn [add_all]. unfold mbind, K_bind.
  destruct (cmd_hash_init s) as [[u s1]|]; [|done].
  repeat (destruct (__cmd_hash_node_add _ _) as [[? ?]|]; [|done]). done.
Qed.

(** The names of an initial. *)
Definition of_initial (i : Z) (names : list (list byte)) : list (list byte) :=
  filter (fun n => initial n = i) names.

Lemma bucket_names i a : (bucket i a).*2 = of_initial i (a.*2).
Proof.
  induction a as [|n a IH]; [done|]. rewrite bucket_cons, fmap_cons. unfold of_initial in *. rewrite filter_cons.
  case_decide; [|exact IH]. rewrite fmap_cons. by rewrite IH.
Qed.

Lemma bucket_objects s a i :
  rep s a -> (fun n => objects s !! n) <$> (bucket i a).*1 = (fun n => Some (stored n)) <$> (bucket i a).*2.
Proof.
  intros [_ Hh Hnd _ _]. rewrite <- !list_fmap_compose. apply Forall_fmap_ext_1, Forall_forall.
  intros [n name] [_ Hin]%list_elem_of_filter. cbn. rewrite Hh. by apply heap_lookup.
Qed.

(** C18. Whatever the names (at most 20 characters each, fewer than 32768 of
    them), the implementation of the kernel's lists and the allocations
    granted: when every name gets its node, loading stores each
    name in the bucket of its initial, the newest first, without its last
    character; the count of a bucket is the number of its names; and removal
    empties every list and frees every node. When a [kzalloc] of a name is
    refused, loading crashes: its result is not checked. *)
Theorem cmd_hash_life (l : L) (names : list (list byte)) (gr : list bool)
    (Hl : forall h, kl_seq l h = []) (Hnames : Forall name_ok names)
    (Hlen : Z.of_nat (length names) < 32768) :
  if decide (take (length names) gr = replicate (length names) true) then
    exists s s',
    load_names names (kboot (mkStatics _ [] l) gr) = Some (0, s) /\
    (forall i, 0 <= i < CMD_HASH_HEAD_SIZE ->
       cmd_hash (statics s) !! Z.to_nat i =
         Some (mkHead (s8 (char_val "a" + i)) i (Z.of_nat (length (of_initial i names)))) /\
       (fun n => objects s !! n) <$> kl_seq (node (statics s)) i =
         (fun n => Some (stored n)) <$> reverse (of_initial i names)) /\
    hlist_exit s = Some (tt, s') /\
    objects s' = ∅ /\ (forall h, kl_seq (node (statics s')) h = [])
  else load_names names (kboot (mkStatics _ [] l) gr) = None.
Proof.
  set (s0 := kboot _ _). destruct (init_rep s0 Hl) as (s1 & H1 & Hr1 & Ht1 & Hg1); [done|done|].
  case_decide as Hgr.
  2: { unfold load_names. k_step H1. unfold mbind at 1, K_bind at 1.
       by rewrite (add_all_refused names s1 [] Hr1 Ht1 Hnames) by by rewrite Hg1. }
  destruct (add_all_run names s1 [] (drop (length names) gr) Hr1 Ht1 Hnames) as (s2 & b & H2 & Hr2 & Ht2 & Hb).
  { rewrite Hg1, <- Hgr. symmetry. apply take_drop. }
  rewrite app_nil_r in *. destruct (table_dump_run s2 b Hr2 Ht2) as (s3 & H3 & Hp3).
  assert (length b = length names) as Hlb by (rewrite <- (length_fmap snd), Hb; apply length_reverse).
  apply (names_prints _ _ _ Hp3) in Hr2. apply (table_prints _ _ _ Hp3) in Ht2.
  destruct (cleanup_run s3 b Hr2 Ht2) as (s4 & H4 & Ho & He); [by rewrite Hlb|].
  exists s3, s4. split; [|split; [|done]].
  - unfold load_names. k_step H1. k_step H2. by k_step H3.
  - intros i Hi. assert ((bucket i b).*2 = reverse (of_initial i names)) as Hbk.
    { rewrite bucket_names, Hb. unfold of_initial. apply filter_reverse. }
    split.
    + rewrite Ht2, heads_lookup by done. unfold head_of. rewrite <- (length_reverse (of_initial i names)), <- Hbk, length_fmap.
      assert (length (bucket i b) <= length b)%nat as Hle by apply length_filter. by rewrite s16_small by lia.
    + rewrite (r_lists _ _ Hr2), bucket_objects by done. by rewrite Hbk.
Qed.
End Refinement.

(** The names of [cmd_hash_node_add]. *)
Definition four_names : list (list byte) := [chars "hello"; chars "help"; chars "scan"; chars "???"].

Lemma four_names_ok : Forall name_ok four_names.
Proof.
  repeat constructor; cbn; try (unfold name_size; lia);
    repeat (apply not_elem_of_cons; split; [discriminate|]); apply not_elem_of_nil.
Qed.

Lemma cmd_hash_life_witness :
  exists s s',
    load_names four_names (kboot (mkStatics _ [] (∅ : SeqLists.seqs)) (replicate 4 true)) = Some (0, s) /\
    (forall i, 0 <= i < CMD_HASH_HEAD_SIZE ->
       cmd_hash (statics s) !! Z.to_nat i =
         Some (mkHead (s8 (char_val "a" + i)) i (Z.of_nat (length (of_initial i four_names)))) /\
       (fun n => objects s !! n) <$> kl_seq (node (statics s)) i =
         (fun n => Some (stored n)) <$> reverse (of_initial i four_names)) /\
    hlist_exit s = Some (tt, s') /\
    objects s' = ∅ /\ (forall h, kl_seq (node (statics s')) h = []).
Proof. exact (cmd_hash_life (∅ : SeqLists.seqs) four_names (replicate 4 true) (fun _ => eq_refl) four_names_ok eq_refl). Defined.

(** What [hlist_init] stores of its names, the character of the last bucket,
    and a refused allocation. *)
Example hlist_init_stores :
  (fun '(r, s) => (r, array_string ∘ CmdHash.name <$> (map_to_list (objects s)).*2, ch <$> cmd_hash (statics s) !! 26%nat)) <$>
    hlist_init (kboot (mkStatics _ [] (∅ : SeqLists.seqs)) (replicate 4 true))
  = Some (0, Some <$> [chars "sca"; chars "??"; chars "hel"; chars "hell"], Some (char_val "{")) /\
  hlist_init (kboot (mkStatics _ [] (∅ : SeqLists.seqs)) [true; false]) = None.
Proof. split; vm_compute; reflexivity. Qed.
