(* ===== verification/Students.v ===== *)
(** * The student lists: src/hlist/hlist2/hlist.c

    Students are put on one doubly linked list and later distributed over two
    hash lists by sex. Message formats are written without tabs and line ends. *)
From Stdlib Require Import ZArith Strings.Byte.
From stdpp Require Import base gmap list strings.
From S2P Require Import Prelude Kernel KList.
Open Scope Z_scope.

Definition MAX_STRING_LEN : nat := 32.
Definition MAX_HLIST_COUNT : Z := 2.

(** ** C strings in arrays

    Reading past the array has no result. [s] is a string without its
    terminator. *)

(** [strcmp(buf, s) == 0] *)
Fixpoint strcmp_eq (buf s : list byte) : option bool :=
  match buf with
  | [] => None
  | b :: buf =>
      match s with
      | [] => Some (bool_decide (b = x00))
      | c :: s => if decide (b = c) then strcmp_eq buf s else Some false
      end
  end.

(** [strncpy(buf, s, strlen(s))] copies the characters without a terminator. *)
Definition strncpy (buf s : list byte) : option (list byte) :=
  if (length s <=? length buf)%nat then Some (s ++ drop (length s) buf) else None.

(** ** Data *)

Record Student : Type := mkStudent {
    m_name : list byte;
    m_sex : Z;
    m_age : Z;
}.

Definition zero_student : Student := mkStudent (replicate MAX_STRING_LEN x00) 0 0.

(** The static variables; the links [m_list] and [m_hlist] of all students. *)
Record stu_statics {L : Type} : Type := mkStatics {
    dbg_flg : Z;
    m_list : L;
    m_hlist : L;
}.
Arguments stu_statics : clear implicits.

(** The heads: one list, and the hash lists by index. *)
Definition g_student_list : Z := 0.
Definition g_stu_hlist (id : Z) : Z := id.

Section Students.
Context {L : Type} `{KLists L}.
(** What [kmalloc] leaves in a block. *)
Context (uninit : Student).

Abbreviation prog := (K Student (stu_statics L)).

Definition set_list (f : L -> L) : prog unit :=
  g ← kget; kput (mkStatics _ (dbg_flg g) (f (m_list g)) (m_hlist g)).
Definition set_hlist (f : L -> L) : prog unit :=
  g ← kget; kput (mkStatics _ (dbg_flg g) (m_list g) (f (m_hlist g))).
Definition set_dbg (v : Z) : prog unit :=
  g ← kget; kput (mkStatics _ v (m_list g) (m_hlist g)).

Definition opt {A} (o : option A) : prog A := match o with Some a => mret a | None => kfault end.

(** A message with the name, sex and age of a student. *)
Definition print_student (fmt : string) (pre : list Z) (st : Student) : prog unit :=
  name ← opt (array_string (m_name st));
  printk (Printk fmt name (pre ++ [m_sex st; m_age st])).

Definition init_hlists : prog unit :=
  set_hlist (kl_init (g_stu_hlist 0));; set_hlist (kl_init (g_stu_hlist 1)).

(** The body of the first loop of [add_stu]. *)
Definition check_name (name : list byte) (_ cur_stu : Z) : prog (option Z) :=
  st ← kload cur_stu;
  same ← opt (strcmp_eq (m_name st) name);
  if same : bool then printk (Printk "Error:the name confict!" [] []);; mret (Some (-1))
  else mret None.

(** The rest of [add_stu]: a new student at the end of the list. *)
Definition new_stu (name : list byte) (sex age : Z) : prog Z :=
  stu ← kalloc uninit;
  if stu =? 0 then printk (Printk "kmalloc mem error!" [] []);; mret (-1)
  else
    kstore stu zero_student;;
    buf ← opt (strncpy (m_name zero_student) name);
    kstore stu (mkStudent buf (m_sex zero_student) (m_age zero_student));;
    kstore stu (mkStudent buf sex (m_age zero_student));;
    kstore stu (mkStudent buf sex age);;
    g ← kget;
    (if negb (dbg_flg g =? 0) then print_student "(Add)name:[%s],sex:[%c],age:[%d]" [] (mkStudent buf sex age)
     else mret ());;
    set_list (kl_add_tail stu g_student_list);;
    mret 0.

Definition add_stu (name : list byte) (sex age : Z) : prog Z :=
  found ← for_each_entry m_list g_student_list (check_name name);
  match found with
  | Some ret => mret ret
  | None => new_stu name sex age
  end.

(** The body of the loop of [del_stu]. *)
Definition delete_named (name : list byte) (cur : Z) : prog (option Z) :=
  st ← kload cur;
  same ← opt (strcmp_eq (m_name st) name);
  if same : bool then
    set_list (kl_del cur);;
    print_student "(Del)name:[%s],sex:[%c],age:[%d]" [] st;;
    kfree cur;;
    mret (Some 0)
  else mret None.

Definition del_stu (name : list byte) : prog Z :=
  found ← for_each_entry_safe m_list g_student_list (delete_named name);
  mret (default (-1) found).

(** The body of the loops of [dump_students] and [dump_hlist]. *)
Definition dump_entry (i stu : Z) : prog (option unit) :=
  st ← kload stu;
  print_student "(%d)name:[%s],sex:[%c],age:[%d]" [i + 1] st;; mret None.

Definition dump_students : prog unit :=
  printk (Printk "===================Student List================" [] []);;
  for_each_entry m_list g_student_list dump_entry;;
  printk (Printk "===============================================" [] []).

Definition sex_title (id : Z) : list byte := if id =? 0 then chars "Boy" else chars "Girl".

Definition dump_hlist (id : Z) : prog unit :=
  if negb ((0 <=? id) && (id <? MAX_HLIST_COUNT)) then printk (Printk "Invalid id[%d] !" [] [id])
  else
    printk (Printk "===================%s List===================" (sex_title id) []);;
    for_each_entry m_hlist (g_stu_hlist id) dump_entry;;
    printk (Printk "==============================================" [] []).

Definition dump_hlists : prog unit := dump_hlist 0;; dump_hlist 1.

(** The index of the hash list of a student; the characters are 'm' and 'f'. *)
Definition sex_id (sex : Z) : option Z :=
  if char_val "m" =? sex then Some 0 else if char_val "f" =? sex then Some 1 else None.

(** The body of the loop of [classify_stu]; the early return is its result. *)
Definition classify (cur : Z) : prog (option unit) :=
  set_list (kl_del cur);;
  st ← kload cur;
  match sex_id (m_sex st) with
  | Some id => set_hlist (kl_add_head cur (g_stu_hlist id));; mret None
  | None => printk (Printk "Get error!" [] []);; mret (Some ())
  end.

Definition classify_stu : prog unit :=
  stopped ← for_each_entry_safe m_list g_student_list classify;
  match stopped with
  | Some _ => mret ()
  | None => printk (Printk "Finished!" [] [])
  end.

Definition init_system : prog unit :=
  init_hlists;;
  add_stu (chars "Tom") (char_val "m") 18;;
  add_stu (chars "Jerry") (char_val "f") 17;;
  add_stu (chars "Alex") (char_val "m") 18;;
  add_stu (chars "Conory") (char_val "f") 18;;
  add_stu (chars "Frank") (char_val "m") 17;;
  add_stu (chars "Marry") (char_val "f") 17;;
  mret ().

(** [hlist_del] or [list_del], the message, [kfree]. *)
Definition destroy (unlink : Z -> prog unit) (stu : Z) : prog (option unit) :=
  unlink stu;;
  st ← kload stu;
  name ← opt (array_string (m_name st));
  printk (Printk "Destroy [%s]" name []);;
  kfree stu;;
  mret None.

Definition clean_up_hlist_of (i : Z) : prog unit :=
  printk (Printk "===================%s List================" (sex_title i) []);;
  for_each_entry_safe m_hlist (g_stu_hlist i) (destroy (fun stu => set_hlist (kl_del stu)));;
  printk (Printk "===========================================" [] []).

Definition clean_up_hlist : prog unit := clean_up_hlist_of 0;; clean_up_hlist_of 1.

Definition clean_up_list : prog unit :=
  printk (Printk "===========Unclassified Student List===========" [] []);;
  for_each_entry_safe m_list g_student_list (destroy (fun stu => set_list (kl_del stu)));;
  printk (Printk "===============================================" [] []).

Definition clean_up : prog unit := clean_up_list;; clean_up_hlist.

Definition student_mgt_init : prog Z :=
  printk (Printk "Student Managment System,Initializing..." [] []);;
  init_system;;
  set_dbg 1;;
  dump_students;;
  classify_stu;;
  dump_hlists;;
  mret 0.

Definition student_mgt_exit : prog unit :=
  clean_up;; printk (Printk "System Terminated!" [] []).
End Students.
