(* ===== verification/StudentsRep.v ===== *)
(** * The student lists refine four lists of students

    Unclassified students, boys, girls, and those [classify_stu] lost: what
    each function of the module does to them. *)
From Stdlib Require Import ZArith Strings.Byte.
From stdpp Require Import base gmap list strings.
From S2P Require Import Prelude Kernel KList KHeap Students.
Open Scope Z_scope.

(** ** Strings *)

Record stu : Type := mkStu { s_name : list byte; s_sex : Z; s_age : Z }.

(** A name that leaves room for the terminator. *)
Definition name_ok (name : list byte) : Prop :=
  (x00 ∉ name) /\ (length name < MAX_STRING_LEN)%nat.

Definition encode (st : stu) : Student :=
  mkStudent (s_name st ++ replicate (MAX_STRING_LEN - length (s_name st)) x00) (s_sex st) (s_age st).

Lemma strcmp_padded a b n :
  x00 ∉ a -> x00 ∉ b -> strcmp_eq (a ++ replicate (S n) x00) b = Some (bool_decide (a = b)).
Proof.
  revert b; induction a as [|x a IH]; intros [|y b] Ha Hb; cbn.
  - done.
  - apply not_elem_of_cons in Hb as [Hy _]. rewrite decide_False by done. done.
  - apply not_elem_of_cons in Ha as [Hx _]. by rewrite bool_decide_eq_false_2.
  - apply not_elem_of_cons in Ha as [Hx Ha]. apply not_elem_of_cons in Hb as [Hy Hb].
    destruct (decide (x = y)) as [->|Hne].
    + rewrite IH by done. f_equal. apply bool_decide_ext. naive_solver.
    + rewrite bool_decide_eq_false_2; [done|]. naive_solver.
Qed.

Lemma padding name : name_ok name -> exists n, (MAX_STRING_LEN - length name = S n)%nat.
Proof. intros [_ Hl]. exists (MAX_STRING_LEN - length name - 1)%nat. lia. Qed.

Lemma encode_strcmp st name :
  name_ok (s_name st) -> name_ok name ->
  strcmp_eq (m_name (encode st)) name = Some (bool_decide (s_name st = name)).
Proof.
  intros H1 [H2 _]. destruct (padding _ H1) as [n Hn]. cbn [encode m_name]. rewrite Hn.
  apply strcmp_padded; [apply H1|done].
Qed.

Lemma encode_string st : name_ok (s_name st) -> array_string (m_name (encode st)) = Some (s_name st).
Proof.
  intros H1. destruct (padding _ H1) as [n Hn]. cbn [encode m_name]. rewrite Hn.
  apply array_string_padded, H1.
Qed.

Lemma strncpy_name name :
  name_ok name ->
  strncpy (m_name zero_student) name = Some (name ++ replicate (MAX_STRING_LEN - length name) x00).
Proof.
  intros [_ Hl]. unfold strncpy. cbn [zero_student m_name]. rewrite length_replicate.
  rewrite (proj2 (Nat.leb_le _ _)) by lia. by rewrite drop_replicate.
Qed.

(** ** The abstract state *)

(** Students with their addresses. *)
Record abs : Type := mkAbs {
    a_todo : list (Z * stu);
    a_boys : list (Z * stu);
    a_girls : list (Z * stu);
    a_lost : list (Z * stu);
}.

Definition everyone (a : abs) : list (Z * stu) := a_todo a ++ a_boys a ++ a_girls a ++ a_lost a.

(** The heap that holds exactly the students [l]. *)
Abbreviation roll := (heap_of encode).

Section Refinement.
Context {L : Type} `{KListsOk L} (uninit : Student).
Implicit Types s : kstate Student (stu_statics L).

(** [todo] is what is on the list; the addresses of all students are distinct,
    allocated, and the heap holds nothing else. *)
Record rep (s : kstate Student (stu_statics L)) (a : abs) : Prop := {
  r_list h : kl_seq (m_list (statics s)) h =
               if decide (h = g_student_list) then fst <$> a_todo a else [];
  r_hlist h : kl_seq (m_hlist (statics s)) h =
                if decide (h = 0) then fst <$> a_boys a
                else if decide (h = 1) then fst <$> a_girls a else [];
  r_heap : objects s = roll (everyone a);
  r_addr : NoDup (fst <$> everyone a);
  r_fresh : below (next_id s) (everyone a);
  r_names : Forall (fun n => name_ok (s_name (snd n))) (everyone a);
}.

Lemma rep_prints s s' a : prints s s' -> rep s a -> rep s' a.
Proof. intros [l ->] []. by split. Qed.

(** Loading a student of the state. *)
Lemma load_student s a n st :
  rep s a -> (n, st) ∈ everyone a -> kload n s = Some (encode st, s).
Proof. intros [] Hin. unfold kload. rewrite r_heap0, (heap_lookup _ n st) by done. done. Qed.

Lemma everyone_ok s a n st : rep s a -> (n, st) ∈ everyone a -> name_ok (s_name st).
Proof. intros [] Hin. rewrite Forall_forall in r_names0. by apply (r_names0 (n, st)). Qed.

Lemma print_student_run fmt pre st s :
  name_ok (s_name st) ->
  exists s', print_student fmt pre (encode st) s = Some (tt, s') /\ prints s s'.
Proof.
  intros Hok. unfold print_student, mbind, K_bind. rewrite encode_string by done. cbn.
  apply printk_prints.
Qed.

Lemma todo_in a n : n ∈ a_todo a -> n ∈ everyone a.
Proof. intros. unfold everyone. rewrite !elem_of_app. tauto. Qed.

Lemma todo_nodup s a : rep s a -> NoDup (a_todo a).*1.
Proof. intros []. unfold everyone in *. rewrite fmap_app in r_addr0. by apply NoDup_app in r_addr0 as [? _]. Qed.

(** ** [add_stu] *)

Definition names (l : list (Z * stu)) : list (list byte) := (fun n => s_name (snd n)) <$> l.

(** The search for the name among the students not yet classified. *)
Lemma search_run s a name :
  rep s a -> name_ok name ->
  exists r s', for_each_entry m_list g_student_list (check_name name) s = Some (r, s') /\
    prints s s' /\ r = (if decide (name ∈ names (a_todo a)) then Some (-1) else None).
Proof.
  intros Hr Hname. pose proof (r_list _ _ Hr g_student_list) as Hl.
  rewrite decide_True in Hl by done.
  set (I := fun rest s' => prints s s' /\ exists pre post, a_todo a = pre ++ post /\
              rest = fst <$> post /\ name ∉ names pre).
  destruct (each_from_run (G := stu_statics L) (Ob := Student) m_list I
               (fun r s' => prints s s' /\ r = -1 /\ name ∈ names (a_todo a))
               g_student_list (a_todo a).*1 (check_name name) s) as (r & s' & Hrun & Hres); [exact (todo_nodup _ _ Hr)| | | |].
  - intros rest s1 [[l ->] _]. exact Hl.
  - intros i n rest s1 _ [Hp (pre & post & Hpost & Hrest & Hno)].
    destruct post as [|[n' st] post]; [done|]. cbn in Hrest. injection Hrest as -> ->.
    assert ((n', st) ∈ a_todo a) as Hin by (rewrite Hpost, elem_of_app; right; by left).
    pose proof (rep_prints _ _ _ Hp Hr) as Hr1.
    unfold check_name. k_step (load_student s1 a n' st Hr1 (todo_in _ _ Hin)).
    rewrite encode_strcmp; [|by eapply everyone_ok, todo_in|done].
    cbn [opt]. erewrite kbind_run by reflexivity. cbv beta.
    destruct (bool_decide_reflect (s_name st = name)) as [He|He].
    + destruct (printk_prints (Printk "Error:the name confict!" [] []) s1) as (s2 & Hrun2 & Hp2).
      exists (Some (-1)), s2. k_step Hrun2. split; [done|]. split; [by eapply prints_trans|]. split; [done|].
      apply list_elem_of_fmap. by exists (n', st).
    + exists None, s1. split; [done|]. split; [done|]. exists (pre ++ [(n', st)]), post.
      split; [by rewrite <- app_assoc|]. split; [done|]. unfold names. rewrite fmap_app, not_elem_of_app.
      split; [done|]. apply not_elem_of_cons. split; [by intros ->|apply not_elem_of_nil].
  - split; [apply prints_refl|]. exists [], (a_todo a). split; [done|]. split; [done|]. apply not_elem_of_nil.
  - exists r, s'. split; [exact Hrun|]. destruct r as [r|].
    + destruct Hres as (Hp & -> & Hin). by rewrite decide_True.
    + destruct Hres as [Hp (pre & post & Hpost & Hrest & Hno)]. split; [done|].
      destruct post; [|done]. rewrite app_nil_r in Hpost. by rewrite decide_False by (by rewrite Hpost).
Qed.

Definition push_todo (n : Z * stu) (a : abs) : abs :=
  mkAbs (a_todo a ++ [n]) (a_boys a) (a_girls a) (a_lost a).

Lemma rep_unlinked s a n : rep s a -> (n ∉ (everyone a).*1) ->
  unlinked n (m_list (statics s)) /\ unlinked n (m_hlist (statics s)).
Proof.
  intros [] Hn. unfold everyone in Hn. rewrite !fmap_app, !not_elem_of_app in Hn.
  destruct Hn as (H1 & H2 & H3 & _). split; intros h.
  - rewrite r_list0. case_decide; [done|apply not_elem_of_nil].
  - rewrite r_hlist0. repeat case_decide; [done|done|apply not_elem_of_nil].
Qed.

Lemma rep_next_id s a : rep s a -> (next_id s ∉ (everyone a).*1) /\ objects s !! next_id s = None.
Proof.
  intros [_ _ Hheap _ [_ Hf] _].
  assert (next_id s ∉ (everyone a).*1) as Hn.
  { intros (n & Hn & Hin)%list_elem_of_fmap. rewrite Forall_forall in Hf. specialize (Hf n Hin). lia. }
  split; [done|]. rewrite Hheap. by apply heap_lookup_None.
Qed.

(** A new student at the end of the list. *)
Lemma rep_push s a st g l r :
  rep s a -> name_ok (s_name st) ->
  rep (mkK _ _ (<[next_id s := encode st]> (objects s)) (next_id s + 1) g r
         (mkStatics _ (dbg_flg (statics s)) (kl_add_tail (next_id s) g_student_list (m_list (statics s)))
                    (m_hlist (statics s))) l)
      (push_todo (next_id s, st) a).
Proof.
  intros Hr Hok. pose proof (rep_next_id _ _ Hr) as [Hn Hfree].
  destruct (rep_unlinked _ _ _ Hr Hn) as [Hu _]. destruct Hr as [Hl Hh Hheap Hnd [Hpos Hf] Hnames].
  assert (everyone (push_todo (next_id s, st) a) ≡ₚ (next_id s, st) :: everyone a) as Hperm.
  { unfold everyone, push_todo. cbn. rewrite <- app_assoc. cbn. by rewrite <- Permutation_middle. }
  assert (NoDup ((next_id s, st) :: everyone a).*1) as Hnd1 by (cbn; by constructor).
  split.
  - intros h. cbn [statics m_list]. rewrite kl_seq_add_tail by done. rewrite !Hl.
    case_decide; [|done]. rewrite decide_True by done. cbn. by rewrite fmap_app.
  - exact Hh.
  - cbn [objects]. rewrite (heap_perm _ ((next_id s, st) :: everyone a)), Hheap; [done| |done].
    by rewrite Hperm.
  - by rewrite Hperm.
  - cbn [next_id]. split; [lia|]. rewrite Hperm. constructor; [cbn; lia|].
    eapply Forall_impl; [exact Hf|]. cbn. lia.
  - rewrite Hperm. by constructor.
Qed.

Lemma rep_grants s a g : rep s a ->
  rep (mkK _ _ (objects s) (next_id s) g (registered s) (statics s) (klog s)) a.
Proof. intros []. by split. Qed.

(** [add_stu] once the name is known to be new and the block granted. *)
Lemma add_granted s a g name sex age :
  rep s a -> name_ok name -> grants s = true :: g ->
  exists s', new_stu uninit name sex age s = Some (0, s') /\
    rep s' (push_todo (next_id s, mkStu name sex age) a) /\ grants s' = g.
Proof.
  intros Hr Hname Hg. pose proof (r_fresh _ _ Hr) as [Hpos _].
  pose proof (rep_push s a (mkStu name sex age) g) as Hpush. unfold new_stu.
  set (n := next_id s) in *. set (st := mkStu name sex age) in *.
  assert (kalloc uninit s = Some (n, mkK _ _ (<[n := uninit]> (objects s)) (n + 1) g (registered s) (statics s) (klog s)))
    as Ha by (unfold kalloc; by rewrite Hg).
  k_step Ha. rewrite (proj2 (Z.eqb_neq n 0)) by lia. rewrite strncpy_name by done. cbn [opt].
  erewrite kbind_run by (eapply kstore_run; apply lookup_insert_eq). cbn [with_objects objects].
  erewrite kbind_run by reflexivity. cbv beta.
  erewrite kbind_run by (eapply kstore_run; cbn [objects with_objects]; apply lookup_insert_eq).
  erewrite kbind_run by (eapply kstore_run; cbn [objects with_objects]; apply lookup_insert_eq).
  erewrite kbind_run by (eapply kstore_run; cbn [objects with_objects]; apply lookup_insert_eq).
  cbn [with_objects objects next_id grants registered statics klog]. rewrite !insert_insert_eq.
  erewrite kbind_run by reflexivity. cbn [statics].
  change (mkStudent _ sex age) with (encode st).
  assert (exists l, (if negb (dbg_flg (statics s) =? 0)
             then print_student "(Add)name:[%s],sex:[%c],age:[%d]" [] (encode st) else mret ())
            (mkK _ _ (<[n := encode st]> (objects s)) (n + 1) g (registered s) (statics s) (klog s)) =
          Some (tt, mkK _ _ (<[n := encode st]> (objects s)) (n + 1) g (registered s) (statics s) l)) as [l Hl].
  { destruct (negb _); [|by eexists].
    destruct (print_student_run "(Add)name:[%s],sex:[%c],age:[%d]" [] st
      (mkK _ _ (<[n := encode st]> (objects s)) (n + 1) g (registered s) (statics s) (klog s)) Hname)
      as (s' & -> & [l ->]). by exists l. }
  k_step Hl. eexists. split; [reflexivity|]. split; [|done]. apply Hpush; [done|exact Hname].
Qed.

(** What [add_stu] comes to. *)
Definition added (name : list byte) (sex age : Z) s a (r : Z) s' : Prop :=
  if decide (name ∈ names (a_todo a)) then r = -1 /\ rep s' a /\ grants s' = grants s
  else match grants s with
       | true :: g =>
           r = 0 /\ rep s' (push_todo (next_id s, mkStu name sex age) a) /\ grants s' = g
       | _ => r = -1 /\ rep s' a /\ grants s' = tail (grants s)
       end.

Lemma add_stu_run s a name sex age :
  rep s a -> name_ok name ->
  exists r s', add_stu uninit name sex age s = Some (r, s') /\ added name sex age s a r s'.
Proof.
  intros Hr Hname. unfold add_stu, added.
  destruct (search_run s a name Hr Hname) as (f & s1 & Hrun & Hp & Hf). k_step Hrun.
  pose proof (rep_prints _ _ _ Hp Hr) as Hr1. destruct Hp as [l ->].
  destruct (decide _); subst f; [by do 2 eexists|].
  destruct (grants s) as [|[] g] eqn:Hg.
  - unfold new_stu. erewrite kbind_run by (unfold kalloc; reflexivity). cbv beta.
    do 2 eexists. split; [reflexivity|]. split; [done|]. split; [|done].
    apply (rep_grants _ _ []) in Hr1. eapply rep_prints; [|exact Hr1]. by eexists.
  - destruct (add_granted _ a g name sex age Hr1 Hname eq_refl) as (s' & Hs' & Hrep & Hgr).
    by exists 0, s'.
  - unfold new_stu. erewrite kbind_run by (unfold kalloc; reflexivity). cbv beta.
    do 2 eexists. split; [reflexivity|]. split; [done|]. split; [|done].
    apply (rep_grants _ _ g) in Hr1. eapply rep_prints; [|exact Hr1]. by eexists.
Qed.

(** ** Printing the lists *)

Lemma dump_entry_run s a i n st :
  rep s a -> (n, st) ∈ everyone a ->
  exists s', dump_entry i n s = Some (None, s') /\ prints s s'.
Proof.
  intros Hr Hin. unfold dump_entry. k_step (load_student s a n st Hr Hin).
  destruct (print_student_run "(%d)name:[%s],sex:[%c],age:[%d]" [i + 1] st s (everyone_ok s a n st Hr Hin))
    as (s' & Hs' & Hp).
  k_step Hs'. by exists s'.
Qed.

(** Any traversal that prints the students of a list whose members are known. *)
Lemma dump_run s a lists h l :
  rep s a -> kl_seq (lists (statics s)) h = l.*1 -> l ⊆ everyone a -> NoDup l.*1 ->
  exists s', for_each_entry lists h dump_entry s = Some (None, s') /\ prints s s'.
Proof.
  intros Hr Hl Hsub Hnd.
  destruct (each_from_run (G := stu_statics L) (Ob := Student) lists (fun _ s' => prints s s')
              (fun _ _ => False) h l.*1 dump_entry s) as (r & s' & Hrun & Hres); [done|..].
  - by intros _ s1 [k ->].
  - intros i n rest s1 (m & -> & Hm)%list_elem_of_fmap Hp. destruct m as [n st].
    destruct (dump_entry_run s1 a i n st (rep_prints _ _ _ Hp Hr) (Hsub _ Hm)) as (s2 & Hs2 & Hp2).
    exists None, s2. split; [done|]. by eapply prints_trans.
  - apply prints_refl.
  - destruct r; [done|]. by exists s'.
Qed.

(** ** Taking students off the lists *)

(** The addresses of the three lists and the lost students are disjoint. *)
Lemma rep_parts s a :
  rep s a ->
  NoDup ((a_todo a).*1 ++ (a_boys a).*1 ++ (a_girls a).*1 ++ (a_lost a).*1).
Proof. intros []. unfold everyone in *. by rewrite !fmap_app in r_addr0. Qed.

(** The lists of a state, changed: [f] on the first, [k] on the hash lists. *)
Definition relink (f k : L -> L) s : kstate Student (stu_statics L) :=
  with_statics (mkStatics _ (dbg_flg (statics s)) (f (m_list (statics s))) (k (m_hlist (statics s)))) s.

(** A student freed: the same people but for it. *)
Lemma rep_free s a a' n st f k :
  rep s a -> everyone a ≡ₚ (n, st) :: everyone a' ->
  (forall h, kl_seq (f (m_list (statics s))) h =
     if decide (h = g_student_list) then (a_todo a').*1 else []) ->
  (forall h, kl_seq (k (m_hlist (statics s))) h =
     if decide (h = 0) then (a_boys a').*1 else if decide (h = 1) then (a_girls a').*1 else []) ->
  rep (with_objects (delete n (objects s)) (relink f k s)) a'.
Proof.
  intros [_ _ Hheap Hnd [Hpos Hf] Hnames] Hperm Hl Hh. rewrite Hperm in Hnd, Hf, Hnames.
  split; [exact Hl|exact Hh|..].
  - cbn. rewrite Hheap, (heap_perm _ ((n, st) :: everyone a')) by (by rewrite ?Hperm).
    by apply heap_delete.
  - by apply NoDup_cons in Hnd as [_ ?].
  - split; [exact Hpos|]. by apply Forall_cons in Hf as [_ ?].
  - by apply Forall_cons in Hnames as [_ ?].
Qed.

(** A student moved between lists: the same people. *)
Lemma rep_move s a a' f k :
  rep s a -> everyone a ≡ₚ everyone a' ->
  (forall h, kl_seq (f (m_list (statics s))) h =
     if decide (h = g_student_list) then (a_todo a').*1 else []) ->
  (forall h, kl_seq (k (m_hlist (statics s))) h =
     if decide (h = 0) then (a_boys a').*1 else if decide (h = 1) then (a_girls a').*1 else []) ->
  rep (relink f k s) a'.
Proof.
  intros [_ _ Hheap Hnd [Hpos Hf] Hnames] Hperm Hl Hh. rewrite Hperm in Hnd, Hf, Hnames.
  split; [exact Hl|exact Hh|..]; try done.
  cbn. rewrite Hheap. apply heap_perm; by rewrite ?Hperm.
Qed.

(** The list without one of its nodes; the hash lists do not have it. *)
Lemma del_todo s a n st pre post :
  rep s a -> a_todo a = pre ++ (n, st) :: post ->
  forall h, kl_seq (kl_del n (m_list (statics s))) h =
    if decide (h = g_student_list) then (pre ++ post).*1 else [].
Proof.
  intros Hr Htodo h. pose proof (rep_parts _ _ Hr) as Hnd. rewrite kl_seq_del, (r_list _ _ Hr).
  case_decide; [|done]. rewrite Htodo in Hnd |- *. rewrite fmap_app in *. cbn in *.
  rewrite filter_split; [by rewrite fmap_app|]. by apply NoDup_app in Hnd as [? _].
Qed.

Lemma load_in s a n st :
  rep s a -> (n, st) ∈ everyone a -> n <> 0 /\ objects s !! n = Some (encode st).
Proof.
  intros Hr Hin. pose proof Hr as [_ _ Hheap Hnd [_ Hf] _]. split.
  - rewrite Forall_forall in Hf. specialize (Hf _ Hin). cbn in Hf. lia.
  - rewrite Hheap. by apply heap_lookup.
Qed.

(** ** [del_stu] *)

Definition deleted (name : list byte) a (r : Z) s' : Prop :=
  (r = -1 /\ (name ∉ names (a_todo a)) /\ rep s' a) \/
  (exists pre n st post, r = 0 /\ a_todo a = pre ++ (n, st) :: post /\ s_name st = name /\
     (name ∉ names pre) /\ rep s' (mkAbs (pre ++ post) (a_boys a) (a_girls a) (a_lost a))).

Lemma delete_run s a name pre n st post :
  rep s a -> name_ok name -> a_todo a = pre ++ (n, st) :: post ->
  exists r s', delete_named name n s = Some (r, s') /\ grants s' = grants s /\
    if decide (s_name st = name)
    then r = Some 0 /\ rep s' (mkAbs (pre ++ post) (a_boys a) (a_girls a) (a_lost a))
    else r = None /\ s' = s.
Proof.
  intros Hr Hname Htodo.
  assert ((n, st) ∈ everyone a) as Hin
    by (apply todo_in; rewrite Htodo, elem_of_app; right; by left).
  pose proof (everyone_ok _ _ _ _ Hr Hin) as Hok. unfold delete_named.
  k_step (load_student s a n st Hr Hin). rewrite encode_strcmp by done. cbn [opt].
  erewrite kbind_run by reflexivity. cbv beta. destruct (decide (s_name st = name)) as [He|He].
  - rewrite bool_decide_eq_true_2 by done. erewrite kbind_run by reflexivity. cbv beta.
    set (s1 := with_statics _ s).
    destruct (print_student_run "(Del)name:[%s],sex:[%c],age:[%d]" [] st s1 Hok) as (s2 & Hs2 & [l ->]).
    k_step Hs2. destruct (load_in _ _ _ _ Hr Hin) as [Hn0 Hobj].
    erewrite kbind_run by (eapply kfree_run; [done|exact Hobj]). cbv beta.
    do 2 eexists. split; [reflexivity|]. split; [done|]. split; [done|].
    eapply (rep_prints (with_objects (delete n (objects s)) (relink (kl_del n) (fun x => x) s)));
      [by eexists|].
    apply (rep_free s a _ n st); [done|..].
    + unfold everyone. cbn. rewrite Htodo, <- !app_assoc. cbn. by rewrite <- Permutation_middle.
    + by apply (del_todo s a n st).
    + apply (r_hlist _ _ Hr).
  - rewrite bool_decide_eq_false_2 by done. by do 2 eexists.
Qed.

Lemma del_stu_run s a name :
  rep s a -> name_ok name -> exists r s', del_stu name s = Some (r, s') /\ deleted name a r s' /\ grants s' = grants s.
Proof.
  intros Hr Hname. unfold del_stu.
  destruct (each_safe_run (G := stu_statics L) (Ob := Student) m_list
     (fun rest s' => s' = s /\ exists pre post, a_todo a = pre ++ post /\ rest = post.*1 /\ (name ∉ names pre))
     (fun r s' => deleted name a r s' /\ grants s' = grants s) g_student_list (a_todo a).*1 (delete_named name) s)
    as (r & s' & Hrun & Hres).
  - intros n rest s1 (-> & pre & post & Hpost & Hrest & _). exists pre.*1.
    rewrite (r_list _ _ Hr), decide_True by done. split; [exact (todo_nodup _ _ Hr)|].
    by rewrite Hpost, fmap_app, Hrest.
  - intros n rest s1 (-> & pre & post & Hpost & Hrest & Hno).
    destruct post as [|[n' st] post]; [done|]. cbn in Hrest. injection Hrest as -> ->.
    destruct (delete_run s a name pre n' st post Hr Hname Hpost) as (r & s' & Hs' & Hg & Hres).
    exists r, s'. split; [done|]. destruct (decide _) as [He|He]; destruct Hres as [-> Hres].
    + split; [|done]. right. by exists pre, n', st, post.
    + split; [done|]. exists (pre ++ [(n', st)]), post. rewrite <- app_assoc. split; [done|]. split; [done|].
      unfold names. rewrite fmap_app, not_elem_of_app. split; [done|]. apply not_elem_of_cons.
      split; [by intros ->|apply not_elem_of_nil].
  - by rewrite (r_list _ _ Hr), decide_True.
  - split; [done|]. exists [], (a_todo a). split; [done|]. split; [done|]. apply not_elem_of_nil.
  - k_step Hrun. do 2 eexists. split; [reflexivity|]. destruct r as [r|]; [exact Hres|].
    destruct Hres as (-> & pre & post & Hpost & Hrest & Hno). destruct post; [|done].
    rewrite app_nil_r in Hpost. split; [|done]. left. cbn. by rewrite Hpost.
Qed.

(** ** [classify_stu] *)

(** The students [l] distributed in turn; the first one of another sex is lost
    and ends the distribution. *)
Fixpoint classified (l boys girls lost : list (Z * stu)) : abs :=
  match l with
  | [] => mkAbs [] boys girls lost
  | n :: l =>
      match sex_id (s_sex (snd n)) with
      | Some id => if id =? 0 then classified l (n :: boys) girls lost else classified l boys (n :: girls) lost
      | None => mkAbs l boys girls (n :: lost)
      end
  end.

Lemma sex_id_range sex id : sex_id sex = Some id -> id = 0 \/ id = 1.
Proof. unfold sex_id. repeat case_match; naive_solver. Qed.

Definition classify_all (a : abs) : abs := classified (a_todo a) (a_boys a) (a_girls a) (a_lost a).

(** The head of the list moved to the hash list of its sex. *)
Definition to_hlist (id : Z) (n : Z * stu) (post : list (Z * stu)) (a : abs) : abs :=
  if id =? 0 then mkAbs post (n :: a_boys a) (a_girls a) (a_lost a)
  else mkAbs post (a_boys a) (n :: a_girls a) (a_lost a).

Lemma rep_to_hlist s a n post id :
  rep s a -> a_todo a = n :: post -> id = 0 \/ id = 1 ->
  rep (relink (kl_del (fst n)) (kl_add_head (fst n) (g_stu_hlist id)) s) (to_hlist id n post a).
Proof.
  intros Hr Htodo Hid. destruct n as [n st].
  pose proof (del_todo s a n st [] post Hr Htodo) as Hdel.
  assert (unlinked n (m_hlist (statics s))) as Hu.
  { intros h. rewrite (r_hlist _ _ Hr). pose proof (rep_parts _ _ Hr) as Hnd. rewrite Htodo in Hnd.
    cbn in Hnd. apply NoDup_cons in Hnd as [Hnd _]. rewrite !not_elem_of_app in Hnd.
    destruct Hnd as (_ & H1 & H2 & _). repeat case_decide; [exact H1|exact H2|apply not_elem_of_nil]. }
  apply (rep_move s a); [done| | |].
  - unfold everyone, to_hlist. rewrite Htodo. destruct Hid as [-> | ->]; cbn; solve_Permutation.
  - intros h. rewrite Hdel. unfold to_hlist. by destruct (id =? 0).
  - intros h. rewrite kl_seq_add_head by done. rewrite !(r_hlist _ _ Hr). unfold to_hlist, g_stu_hlist.
    destruct Hid as [-> | ->]; cbn [Z.eqb a_boys a_girls]; repeat case_decide; naive_solver.
Qed.

Lemma rep_lose s a n post :
  rep s a -> a_todo a = n :: post ->
  rep (relink (kl_del (fst n)) (fun x => x) s) (mkAbs post (a_boys a) (a_girls a) (n :: a_lost a)).
Proof.
  intros Hr Htodo. destruct n as [n st]. apply (rep_move s a); [done| | |].
  - unfold everyone. rewrite Htodo. cbn. solve_Permutation.
  - apply (del_todo s a n st [] post Hr Htodo).
  - apply (r_hlist _ _ Hr).
Qed.

(** The body of the loop on the head of the list. *)
Lemma classify_step s a n post :
  rep s a -> a_todo a = n :: post ->
  exists r s', classify (fst n) s = Some (r, s') /\ grants s' = grants s /\
    match sex_id (s_sex (snd n)) with
    | Some id => r = None /\ rep s' (to_hlist id n post a)
    | None => r = Some () /\ rep s' (mkAbs post (a_boys a) (a_girls a) (n :: a_lost a))
    end.
Proof.
  intros Hr Htodo. destruct n as [n st]. cbn [fst snd].
  assert ((n, st) ∈ everyone a) as Hin by (apply todo_in; rewrite Htodo; by left).
  pose proof (rep_lose _ _ _ _ Hr Htodo) as Hlose.
  unfold classify. erewrite kbind_run by reflexivity. cbv beta.
  erewrite kbind_run by (eapply kload_run; apply (load_in _ _ _ _ Hr Hin)). cbv beta. cbn [encode m_sex].
  destruct (sex_id (s_sex st)) as [id|] eqn:Hid.
  - do 2 eexists. split; [reflexivity|]. split; [done|]. split; [done|].
    apply (rep_to_hlist _ _ _ _ _ Hr Htodo). by eapply sex_id_range.
  - do 2 eexists. split; [reflexivity|]. split; [done|]. split; [done|].
    eapply rep_prints; [|exact Hlose]. by eexists.
Qed.

Lemma classify_stu_run s a :
  rep s a -> exists s', classify_stu s = Some (tt, s') /\ rep s' (classify_all a) /\ grants s' = grants s.
Proof.
  intros Hr. unfold classify_stu.
  destruct (each_safe_run (G := stu_statics L) (Ob := Student) m_list
     (fun rest s' => grants s' = grants s /\
        exists a', rest = (a_todo a').*1 /\ rep s' a' /\ classify_all a' = classify_all a)
     (fun _ s' => grants s' = grants s /\ rep s' (classify_all a)) g_student_list (a_todo a).*1 classify s)
    as (r & s' & Hrun & Hres).
  - intros n rest s1 (_ & a' & Hrest & Hr1 & _). exists []. rewrite (r_list _ _ Hr1), decide_True by done.
    split; [exact (todo_nodup _ _ Hr1)|done].
  - intros m rest s1 (Hg & a' & Hrest & Hr1 & Hc). destruct (a_todo a') as [|n post] eqn:Htodo; [done|].
    injection Hrest as -> ->. destruct (classify_step _ _ _ _ Hr1 Htodo) as (r & s2 & Hs2 & Hg2 & Hres).
    exists r, s2. split; [exact Hs2|]. rewrite <- Hg, <- Hc, Hg2. unfold classify_all. rewrite Htodo. cbn [classified].
    destruct (sex_id _) as [id|]; destruct Hres as [-> Hr2]; [|done].
    split; [done|]. exists (to_hlist id n post a'). split; [|split; [done|]]; unfold to_hlist; by destruct (id =? 0).
  - by rewrite (r_list _ _ Hr), decide_True.
  - split; [done|]. by exists a.
  - k_step Hrun. destruct r as [[]|].
    + exists s'. by destruct Hres.
    + destruct Hres as (Hg & a' & Hrest & Hr1 & Hc). eexists. split; [reflexivity|]. split; [|done].
      rewrite <- Hc. unfold classify_all. destruct (a_todo a') eqn:Htodo; [|done]. cbn [classified].
      eapply (rep_prints s'); [by eexists|]. by destruct a'; cbn in *; subst.
Qed.

(** ** Printing: everything that is on a list can be printed *)

Lemma dump_students_run s a : rep s a -> exists s', dump_students s = Some (tt, s') /\ prints s s'.
Proof.
  intros Hr. unfold dump_students.
  destruct (printk_prints (Printk "===================Student List================" [] []) s) as (s1 & H1 & Hp1).
  k_step H1. pose proof (rep_prints _ _ _ Hp1 Hr) as Hr1.
  destruct (dump_run s1 a m_list g_student_list (a_todo a) Hr1) as (s2 & H2 & Hp2).
  - by rewrite (r_list _ _ Hr1), decide_True.
  - intros n. apply todo_in.
  - by eapply todo_nodup.
  - k_step H2. eexists. split; [reflexivity|]. eapply prints_trans; [exact Hp1|].
    eapply prints_trans; [exact Hp2|]. by eexists.
Qed.

(** What hash list [id] holds. *)
Definition on_hlist (id : Z) (a : abs) : list (Z * stu) :=
  if decide (id = 0) then a_boys a else if decide (id = 1) then a_girls a else [].

Lemma on_hlist_seq s a id : rep s a -> kl_seq (m_hlist (statics s)) (g_stu_hlist id) = (on_hlist id a).*1.
Proof. intros Hr. rewrite (r_hlist _ _ Hr). unfold on_hlist, g_stu_hlist. by repeat case_decide. Qed.

Lemma on_hlist_in a id : on_hlist id a ⊆ everyone a.
Proof. intros n. unfold on_hlist, everyone. rewrite !elem_of_app. repeat case_decide; [tauto|tauto|by intros ?%elem_of_nil]. Qed.

Lemma on_hlist_nodup s a id : rep s a -> NoDup (on_hlist id a).*1.
Proof.
  intros Hr. pose proof (rep_parts _ _ Hr) as Hnd. apply NoDup_app in Hnd as (_ & _ & Hnd).
  apply NoDup_app in Hnd as (H1 & _ & H2). apply NoDup_app in H2 as [H2 _].
  unfold on_hlist. repeat case_decide; [done|done|constructor].
Qed.

Lemma dump_hlist_run s a id : rep s a -> exists s', dump_hlist id s = Some (tt, s') /\ prints s s'.
Proof.
  intros Hr. unfold dump_hlist. destruct (negb _); [apply printk_prints|].
  destruct (printk_prints (Printk "===================%s List===================" (sex_title id) []) s) as (s1 & H1 & Hp1).
  k_step H1. pose proof (rep_prints _ _ _ Hp1 Hr) as Hr1.
  destruct (dump_run s1 a m_hlist (g_stu_hlist id) (on_hlist id a) Hr1) as (s2 & H2 & Hp2).
  - by apply on_hlist_seq.
  - apply on_hlist_in.
  - by eapply on_hlist_nodup.
  - k_step H2. eexists. split; [reflexivity|]. eapply prints_trans; [exact Hp1|].
    eapply prints_trans; [exact Hp2|]. by eexists.
Qed.

Lemma dump_hlists_run s a : rep s a -> exists s', dump_hlists s = Some (tt, s') /\ prints s s'.
Proof.
  intros Hr. unfold dump_hlists. destruct (dump_hlist_run s a 0 Hr) as (s1 & H1 & Hp1). k_step H1.
  destruct (dump_hlist_run s1 a 1 (rep_prints _ _ _ Hp1 Hr)) as (s2 & H2 & Hp2).
  exists s2. split; [exact H2|]. by eapply prints_trans.
Qed.

(** ** Unloading *)

(** The message and the release of a student already unlinked. *)
Lemma destroy_run s a a' n st f k (unlink : Z -> K Student (stu_statics L) unit) :
  rep s a -> everyone a ≡ₚ (n, st) :: everyone a' ->
  unlink n s = Some (tt, relink f k s) ->
  (forall h, kl_seq (f (m_list (statics s))) h =
     if decide (h = g_student_list) then (a_todo a').*1 else []) ->
  (forall h, kl_seq (k (m_hlist (statics s))) h =
     if decide (h = 0) then (a_boys a').*1 else if decide (h = 1) then (a_girls a').*1 else []) ->
  exists s', destroy unlink n s = Some (None, s') /\ rep s' a'.
Proof.
  intros Hr Hperm Hu Hl Hh.
  assert ((n, st) ∈ everyone a) as Hin by (rewrite Hperm; by left).
  destruct (load_in _ _ _ _ Hr Hin) as [Hn0 Hobj]. unfold destroy. k_step Hu.
  erewrite kbind_run by (eapply kload_run; exact Hobj). cbv beta.
  rewrite encode_string by (by eapply everyone_ok). cbn [opt].
  erewrite kbind_run by reflexivity. cbv beta. erewrite kbind_run by reflexivity. cbv beta.
  erewrite kbind_run by (eapply kfree_run; [done|exact Hobj]). cbv beta.
  eexists. split; [reflexivity|].
  eapply (rep_prints (with_objects (delete n (objects s)) (relink f k s))); [by eexists|].
  by apply (rep_free s a a' n st).
Qed.

Lemma clean_up_list_run s a :
  rep s a ->
  exists s', clean_up_list s = Some (tt, s') /\ rep s' (mkAbs [] (a_boys a) (a_girls a) (a_lost a)).
Proof.
  intros Hr. unfold clean_up_list. erewrite kbind_run by reflexivity. cbv beta.
  set (s0 := mkK _ _ _ _ _ _ _ _). assert (rep s0 a) as Hr0 by (apply (rep_prints s); [by eexists|done]).
  destruct (each_safe_run (G := stu_statics L) (Ob := Student) m_list
     (fun rest s' => exists post, rest = post.*1 /\ rep s' (mkAbs post (a_boys a) (a_girls a) (a_lost a)))
     (fun _ _ => False) g_student_list (a_todo a).*1 (destroy (fun stu => set_list (kl_del stu))) s0)
    as (r & s' & Hrun & Hres).
  - intros n rest s1 (post & -> & Hr1). exists []. rewrite (r_list _ _ Hr1), decide_True by done.
    split; [exact (todo_nodup _ _ Hr1)|done].
  - intros m rest s1 (post & Hrest & Hr1). destruct post as [|[n st] post]; [done|]. injection Hrest as -> ->.
    destruct (destroy_run s1 _ (mkAbs post (a_boys a) (a_girls a) (a_lost a)) n st (kl_del n) (fun x => x)
      (fun stu => set_list (kl_del stu)) Hr1) as (s2 & Hs2 & Hr2); [done|reflexivity| | |].
    + apply (del_todo _ _ n st [] post Hr1). done.
    + apply (r_hlist _ _ Hr1).
    + exists None, s2. split; [exact Hs2|]. by exists post.
  - by rewrite (r_list _ _ Hr0), decide_True.
  - exists (a_todo a). split; [done|]. by destruct a.
  - k_step Hrun. destruct r; [done|]. destruct Hres as (post & Hrest & Hr1). destruct post; [|done].
    eexists. split; [reflexivity|]. eapply rep_prints; [|exact Hr1]. by eexists.
Qed.

(** The state with a hash list replaced. *)
Definition with_hlist (id : Z) (l : list (Z * stu)) (a : abs) : abs :=
  if id =? 0 then mkAbs (a_todo a) l (a_girls a) (a_lost a) else mkAbs (a_todo a) (a_boys a) l (a_lost a).

Lemma on_with_hlist id l a : id = 0 \/ id = 1 -> on_hlist id (with_hlist id l a) = l.
Proof. by intros [-> | ->]. Qed.

Lemma with_hlist_twice id l l' a : with_hlist id l (with_hlist id l' a) = with_hlist id l a.
Proof. unfold with_hlist. by destruct (id =? 0). Qed.

Lemma with_hlist_same id a : id = 0 \/ id = 1 -> with_hlist id (on_hlist id a) a = a.
Proof. by intros [-> | ->]; destruct a. Qed.

Lemma with_hlist_cons id n l a :
  everyone (with_hlist id (n :: l) a) ≡ₚ n :: everyone (with_hlist id l a).
Proof. unfold with_hlist, everyone. destruct (id =? 0); cbn; solve_Permutation. Qed.

Lemma del_hlist s a id n st l :
  rep s (with_hlist id ((n, st) :: l) a) -> id = 0 \/ id = 1 ->
  forall h, kl_seq (kl_del n (m_hlist (statics s))) h =
    if decide (h = 0) then (a_boys (with_hlist id l a)).*1
    else if decide (h = 1) then (a_girls (with_hlist id l a)).*1 else [].
Proof.
  intros Hr Hid h. pose proof (rep_parts _ _ Hr) as Hnd. rewrite kl_seq_del, (r_hlist _ _ Hr).
  apply NoDup_app in Hnd as (_ & _ & Hnd). apply NoDup_app in Hnd as (H1 & H2 & Hnd).
  apply NoDup_app in Hnd as (H3 & _ & _). setoid_rewrite not_elem_of_app in H2.
  destruct Hid as [-> | ->]; cbn in *; repeat case_decide; try done.
  - by apply (filter_split _ []).
  - apply filter_notin. by apply H2, list_elem_of_here.
  - apply filter_notin. intros Hin. destruct (H2 _ Hin) as [Hn _]. apply Hn. by left.
  - by apply (filter_split _ []).
Qed.

Lemma clean_up_hlist_of_run s a id :
  rep s a -> id = 0 \/ id = 1 ->
  exists s', clean_up_hlist_of id s = Some (tt, s') /\ rep s' (with_hlist id [] a).
Proof.
  intros Hr Hid. unfold clean_up_hlist_of. erewrite kbind_run by reflexivity. cbv beta.
  set (s0 := mkK _ _ _ _ _ _ _ _). assert (rep s0 a) as Hr0 by (apply (rep_prints s); [by eexists|done]).
  destruct (each_safe_run (G := stu_statics L) (Ob := Student) m_hlist
     (fun rest s' => exists post, rest = post.*1 /\ rep s' (with_hlist id post a))
     (fun _ _ => False) (g_stu_hlist id) (on_hlist id a).*1 (destroy (fun stu => set_hlist (kl_del stu))) s0)
    as (r & s' & Hrun & Hres).
  - intros n rest s1 (post & -> & Hr1). exists [].
    pose proof (on_hlist_nodup _ _ id Hr1) as Hnd. rewrite (on_hlist_seq _ _ id Hr1).
    by rewrite on_with_hlist in *.
  - intros m rest s1 (post & Hrest & Hr1). destruct post as [|[n st] post]; [done|]. injection Hrest as -> ->.
    destruct (destroy_run s1 _ (with_hlist id post a) n st (fun x => x) (kl_del n)
      (fun stu => set_hlist (kl_del stu)) Hr1) as (s2 & Hs2 & Hr2); [|reflexivity| | |].
    + apply with_hlist_cons.
    + intros h. rewrite (r_list _ _ Hr1). unfold with_hlist. by destruct (id =? 0).
    + by eapply del_hlist.
    + exists None, s2. split; [exact Hs2|]. by exists post.
  - by apply on_hlist_seq.
  - exists (on_hlist id a). by rewrite with_hlist_same.
  - k_step Hrun. destruct r; [done|]. destruct Hres as (post & Hrest & Hr1). destruct post; [|done].
    eexists. split; [reflexivity|]. eapply rep_prints; [|exact Hr1]. by eexists.
Qed.

Lemma exit_run s a :
  rep s a -> exists s', student_mgt_exit s = Some (tt, s') /\ rep s' (mkAbs [] [] [] (a_lost a)).
Proof.
  intros Hr. unfold student_mgt_exit, clean_up, clean_up_hlist.
  destruct (clean_up_list_run _ _ Hr) as (s1 & H1 & Hr1).
  destruct (clean_up_hlist_of_run _ _ 0 Hr1) as (s2 & H2 & Hr2); [by left|].
  destruct (clean_up_hlist_of_run _ _ 1 Hr2) as (s3 & H3 & Hr3); [by right|].
  erewrite kbind_run by (erewrite kbind_run by exact H1; erewrite kbind_run by exact H2; exact H3). cbv beta.
  eexists. split; [reflexivity|]. eapply rep_prints; [|exact Hr3]. by eexists.
Qed.
End Refinement.
