(* ===== verification/StudentsProps.v ===== *)
(** * Properties of the student lists

    The exported functions against their specification on the four lists of
    students, from the loading of the module to its removal. *)
From Stdlib Require Import ZArith Strings.Byte.
From stdpp Require Import base gmap list strings.
From S2P Require Import Prelude Kernel KList KHeap Students StudentsRep.
Open Scope Z_scope.

Section Interface.
Context {L : Type} `{KListsOk L} (uninit : Student).
Implicit Types s : kstate Student (stu_statics L).

(** ** The interface the module exports *)

Inductive op : Type :=
  | Add (name : list byte) (sex age : Z)
  | Del (name : list byte)
  | Classify
  | DumpStudents
  | DumpHlist (id : Z)
  | DumpHlists.

Definition op_ok (o : op) : Prop :=
  match o with Add name _ _ | Del name => name_ok name | _ => True end.

Definition run_op (o : op) : K Student (stu_statics L) Z :=
  match o with
  | Add name sex age => add_stu uninit name sex age
  | Del name => del_stu name
  | Classify => classify_stu;; mret 0
  | DumpStudents => dump_students;; mret 0
  | DumpHlist id => dump_hlist id;; mret 0
  | DumpHlists => dump_hlists;; mret 0
  end.

Fixpoint run_ops (ops : list op) : K Student (stu_statics L) (list Z) :=
  match ops with
  | [] => mret []
  | o :: ops => r ← run_op o; rs ← run_ops ops; mret (r :: rs)
  end.

(** What an operation does to the students, given the allocations to come. *)
Definition spec (o : op) (w : abs * list bool) (r : Z) (w' : abs * list bool) : Prop :=
  let '(a, g) := w in
  match o with
  | Add name sex age =>
      if decide (name ∈ names (a_todo a)) then r = -1 /\ w' = w
      else match g with
           | true :: g =>
               r = 0 /\ exists n, (n ∉ (everyone a).*1) /\ w' = (push_todo (n, mkStu name sex age) a, g)
           | _ => r = -1 /\ w' = (a, tail g)
           end
  | Del name =>
      (r = -1 /\ (name ∉ names (a_todo a)) /\ w' = w) \/
      (exists pre n st post, r = 0 /\ a_todo a = pre ++ (n, st) :: post /\ s_name st = name /\
         (name ∉ names pre) /\ w' = (mkAbs (pre ++ post) (a_boys a) (a_girls a) (a_lost a), g))
  | Classify => r = 0 /\ w' = (classify_all a, g)
  | DumpStudents | DumpHlist _ | DumpHlists => r = 0 /\ w' = w
  end.

Inductive specs : list op -> abs * list bool -> list Z -> abs * list bool -> Prop :=
  | specs_nil w : specs [] w [] w
  | specs_cons o ops w r w1 rs w2 :
      spec o w r w1 -> specs ops w1 rs w2 -> specs (o :: ops) w (r :: rs) w2.

Lemma specs_app ops1 ops2 w rs1 w1 rs2 w2 :
  specs ops1 w rs1 w1 -> specs ops2 w1 rs2 w2 -> specs (ops1 ++ ops2) w (rs1 ++ rs2) w2.
Proof. induction 1; [done|]. intros. econstructor; naive_solver. Qed.

Definition reps s (w : abs * list bool) : Prop := rep s (fst w) /\ grants s = snd w.

Lemma reps_prints s s' w : prints s s' -> reps s w -> reps s' w.
Proof. intros Hp [Hr Hg]. split; [by eapply rep_prints|]. by destruct Hp as [l ->]. Qed.

Lemma op_run o s w :
  reps s w -> op_ok o -> exists r s' w', run_op o s = Some (r, s') /\ spec o w r w' /\ reps s' w'.
Proof.
  destruct w as [a g]. intros [Hr Hg] Hok. cbn in Hr, Hg.
  assert (forall (p : K Student (stu_statics L) unit), (exists s', p s = Some (tt, s') /\ prints s s') ->
    exists r s' w', (p;; mret 0) s = Some (r, s') /\ (r = 0 /\ w' = (a, g)) /\ reps s' w') as Hdump.
  { intros p (s' & Hs' & Hp). exists 0, s', (a, g). k_step Hs'. split; [done|]. split; [done|].
    by eapply reps_prints. }
  destruct o as [name sex age|name| | |id|]; cbn [op_ok run_op spec] in *.
  - destruct (add_stu_run uninit s a name sex age Hr Hok) as (r & s' & Hs' & Hadd). exists r, s'.
    pose proof (rep_next_id _ _ Hr) as [Hnew _]. unfold added in Hadd. rewrite Hg in Hadd.
    destruct (decide _); [exists (a, g); by destruct Hadd as (-> & ? & ?)|].
    destruct g as [|[] g].
    + exists (a, []). by destruct Hadd as (-> & ? & ?).
    + destruct Hadd as (-> & ? & ?). eexists. split; [exact Hs'|]. split; [split; [done|by eexists]|done].
    + exists (a, g). by destruct Hadd as (-> & ? & ?).
  - destruct (del_stu_run s a name Hr Hok) as (r & s' & Hs' & Hdel & Hg'). exists r, s'.
    destruct Hdel as [(-> & ? & ?)|(pre & n & st & post & -> & ? & ? & ? & ?)].
    + exists (a, g). split; [done|]. split; [naive_solver|]. split; [done|]. by rewrite Hg'.
    + eexists. split; [done|]. split; [right; naive_solver|]. split; [done|]. cbn. by rewrite Hg'.
  - destruct (classify_stu_run s a Hr) as (s' & Hs' & Hr' & Hg'). k_step Hs'.
    exists 0, s', (classify_all a, g). split; [done|]. split; [done|]. split; [done|]. by rewrite Hg'.
  - apply Hdump, (dump_students_run s a Hr).
  - apply Hdump, (dump_hlist_run s a id Hr).
  - apply Hdump, (dump_hlists_run s a Hr).
Qed.

Lemma ops_run ops s w :
  reps s w -> Forall op_ok ops ->
  exists rs s' w', run_ops ops s = Some (rs, s') /\ specs ops w rs w' /\ reps s' w'.
Proof.
  intros Hr Hok. revert s w Hr. induction Hok as [|o ops Ho _ IH]; intros s w Hr.
  - exists [], s, w. split; [done|]. split; [constructor|done].
  - destruct (op_run o s w Hr Ho) as (r & s1 & w1 & H1 & Hs1 & Hr1).
    destruct (IH s1 w1 Hr1) as (rs & s2 & w2 & H2 & Hs2 & Hr2).
    exists (r :: rs), s2, w2. cbn [run_ops]. k_step H1. k_step H2. split; [done|].
    split; [by econstructor|done].
Qed.

(** ** The module from its loading to its removal *)

(** What [student_mgt_init] does through the interface. *)
Definition opening : list op :=
  [ Add (chars "Tom") (char_val "m") 18; Add (chars "Jerry") (char_val "f") 17;
    Add (chars "Alex") (char_val "m") 18; Add (chars "Conory") (char_val "f") 18;
    Add (chars "Frank") (char_val "m") 17; Add (chars "Marry") (char_val "f") 17 ].

Lemma opening_ok : Forall op_ok opening.
Proof.
  repeat constructor; cbn; try lia;
    repeat (apply not_elem_of_cons; split; [discriminate|]); apply not_elem_of_nil.
Qed.

(** The students of a module that has none. *)
Definition nobody : abs := mkAbs [] [] [] [].

Definition empty_lists (l : L) : Prop := forall h, kl_seq l h = [].

Lemma rep_boot (ml hl : L) g :
  empty_lists ml -> empty_lists hl -> reps (kboot (mkStatics _ 0 ml hl) g) (nobody, g).
Proof.
  intros Hm Hh. split; [|done]. split; cbn; try done.
  - intros h. rewrite Hm. by case_decide.
  - intros h. rewrite Hh. by repeat case_decide.
  - constructor.
Qed.

(** The hash lists are set up while nobody is on them. *)
Lemma init_hlists_run s g :
  reps s (nobody, g) -> exists s', init_hlists s = Some (tt, s') /\ reps s' (nobody, g).
Proof.
  intros [Hr Hg]. eexists. split; [reflexivity|]. split; [|exact Hg].
  apply (rep_move s nobody nobody (fun l => l) (fun l => kl_init 1 (kl_init 0 l))); [done|done| |].
  - apply (r_list _ _ Hr).
  - intros h. rewrite !kl_seq_init, (r_hlist _ _ Hr). by repeat case_decide.
Qed.

Lemma init_system_ops s s1 rs s' :
  init_hlists s = Some (tt, s1) -> run_ops opening s1 = Some (rs, s') ->
  init_system uninit s = Some (tt, s').
Proof.
  intros H1 Hrun. unfold init_system. k_step H1. unfold opening in Hrun. cbn [run_ops run_op] in Hrun.
  unfold mbind, K_bind in *. repeat (destruct (add_stu _ _ _ _ _) as [[? ?]|]; [|done]). unfold mret, K_ret in *. by simplify_eq.
Qed.

Lemma set_dbg_run s w v : reps s w -> exists s', set_dbg v s = Some (tt, s') /\ reps s' w.
Proof. intros [Hr Hg]. eexists. split; [reflexivity|]. split; [|exact Hg]. by destruct Hr. Qed.

Lemma init_run s g :
  reps s (nobody, g) ->
  exists rs s' w, student_mgt_init uninit s = Some (0, s') /\
    specs (opening ++ [Classify]) (nobody, g) rs w /\ reps s' w.
Proof.
  intros Hr. unfold student_mgt_init. erewrite kbind_run by reflexivity. cbv beta.
  set (s0 := mkK _ _ _ _ _ _ _ _). assert (reps s0 (nobody, g)) as Hr0 by (apply (reps_prints s); [by eexists|done]).
  destruct (init_hlists_run _ _ Hr0) as (s1 & H1 & Hr1).
  destruct (ops_run opening s1 _ Hr1 opening_ok) as (rs & s2 & w & H2 & Hspec & Hr2).
  k_step (init_system_ops _ _ _ _ H1 H2). destruct (set_dbg_run _ _ 1 Hr2) as (s3 & H3 & Hr3). k_step H3.
  destruct (dump_students_run _ _ (proj1 Hr3)) as (s4 & H4 & Hp4). k_step H4.
  apply (reps_prints _ _ _ Hp4) in Hr3.
  destruct (classify_stu_run _ _ (proj1 Hr3)) as (s5 & H5 & Hr5 & Hg5). k_step H5.
  destruct (dump_hlists_run _ _ Hr5) as (s6 & H6 & Hp6). k_step H6.
  exists (rs ++ [0]), s6, (classify_all (fst w), snd w). split; [done|]. split.
  - eapply specs_app; [exact Hspec|]. econstructor; [|constructor]. by destruct w.
  - eapply reps_prints; [exact Hp6|]. split; [done|]. rewrite Hg5. apply Hr3.
Qed.

(** The module loaded, used through its interface and removed. *)
Definition session (ops : list op) : K Student (stu_statics L) (list Z) :=
  student_mgt_init uninit;;
  rs ← run_ops ops;
  student_mgt_exit;;
  mret rs.

(** C16. For every implementation of the kernel's lists, every pattern of
    granted and refused allocations and every sequence of calls of the exported
    functions with names that fit, the module is loaded, used and removed
    without touching a student that is not alive; the results are the
    specified ones ([add_stu] appends a student unless the name is on the list
    or the allocation fails, [del_stu] removes the first one of the name,
    [classify_stu] distributes the list), and removal leaves the lists empty
    and frees every student except those [classify_stu] took off the list
    without putting them on another. *)
Theorem students_session (ml hl : L) (g : list bool) (ops : list op)
    (Hml : empty_lists ml) (Hhl : empty_lists hl) (Hops : Forall op_ok ops) :
  exists rs0 w0 rs w s, session ops (kboot (mkStatics _ 0 ml hl) g) = Some (rs, s) /\
    specs (opening ++ [Classify]) (nobody, g) rs0 w0 /\
    specs ops w0 rs w /\
    objects s = roll (a_lost (fst w)) /\
    empty_lists (m_list (statics s)) /\ empty_lists (m_hlist (statics s)).
Proof.
  destruct (init_run _ g (rep_boot ml hl g Hml Hhl)) as (rs0 & s0 & w0 & Hini & Hs0 & Hr0).
  destruct (ops_run ops s0 w0 Hr0 Hops) as (rs & s1 & w & H1 & Hs1 & Hr1).
  destruct (exit_run s1 _ (proj1 Hr1)) as (s2 & H2 & Hr2).
  exists rs0, w0, rs, w, s2. unfold session. k_step Hini. k_step H1. k_step H2.
  split; [done|]. split; [done|]. split; [done|]. split; [apply (r_heap _ _ Hr2)|].
  split; intros h.
  - rewrite (r_list _ _ Hr2). by case_decide.
  - rewrite (r_hlist _ _ Hr2). by repeat case_decide.
Qed.

(** The students of a sex, the last of the list first. *)
Definition of_sex (sex : Z) (l : list (Z * stu)) : list (Z * stu) :=
  reverse (filter (fun n => s_sex (snd n) = sex) l).

Definition known_sex (n : Z * stu) : Prop := s_sex (snd n) = char_val "m" \/ s_sex (snd n) = char_val "f".

Lemma classified_split pre post b g lost :
  Forall known_sex pre -> (forall n, head post = Some n -> ~ known_sex n) ->
  classified (pre ++ post) b g lost =
  mkAbs (tail post) (of_sex (char_val "m") pre ++ b) (of_sex (char_val "f") pre ++ g)
        (option_list (head post) ++ lost).
Proof.
  intros Hpre Hpost. revert b g. induction Hpre as [|n pre Hn _ IH]; intros b g; cbn [app classified].
  - destruct post as [|n post]; [done|]. specialize (Hpost n eq_refl). cbn [classified]. unfold known_sex in Hpost.
    unfold sex_id. rewrite !(proj2 (Z.eqb_neq _ _)) by naive_solver. done.
  - unfold of_sex in *. destruct Hn as [Hn|Hn]; rewrite Hn; cbn [sex_id Z.eqb].
    + change (sex_id (char_val "m")) with (Some 0). cbn [Z.eqb]. rewrite IH.
      rewrite filter_cons_True, filter_cons_False, reverse_cons by (rewrite Hn; done). by rewrite <- app_assoc.
    + change (sex_id (char_val "f")) with (Some 1). cbn [Z.eqb]. rewrite IH.
      rewrite filter_cons_False, filter_cons_True, reverse_cons by (rewrite Hn; done). by rewrite <- app_assoc.
Qed.

(** C35. [classify_stu] moves the students up to the first one that is neither
    'm' nor 'f' to the heads of the two hash lists, which ends up reversing
    them; that student is taken off the list and put nowhere, and those after
    it stay on the list. *)
Theorem classify_stu_sorts s a pre post
    (Hr : rep s a) (Htodo : a_todo a = pre ++ post) (Hpre : Forall known_sex pre)
    (Hpost : forall n, head post = Some n -> ~ known_sex n) :
  exists s', classify_stu s = Some (tt, s') /\
    rep s' (mkAbs (tail post) (of_sex (char_val "m") pre ++ a_boys a) (of_sex (char_val "f") pre ++ a_girls a)
                  (option_list (head post) ++ a_lost a)).
Proof.
  destruct (classify_stu_run s a Hr) as (s' & Hs' & Hr' & _). exists s'. split; [exact Hs'|].
  unfold classify_all in Hr'. by rewrite Htodo, classified_split in Hr'.
Qed.
End Interface.

(** ** A session *)

Definition no_lists : SeqLists.seqs := ∅.

(** Two students of whom one is of neither sex, one of the same name as a
    classified one, one deleted. *)
Definition some_ops : list op :=
  [ Add (chars "Kim") (char_val "x") 20; Add (chars "Tom") (char_val "m") 30; Add (chars "Tom") (char_val "m") 31;
    Del (chars "Jerry"); Classify; DumpStudents; DumpHlist 2; Classify; DumpHlists ].

Lemma no_lists_empty : empty_lists no_lists.
Proof. done. Qed.

Lemma some_ops_ok : Forall op_ok some_ops.
Proof.
  repeat constructor; cbn; try lia;
    repeat (apply not_elem_of_cons; split; [discriminate|]); apply not_elem_of_nil.
Qed.

Definition nine : list bool := replicate 9 true.

Lemma students_session_witness :
  Forall op_ok some_ops /\
  exists rs0 w0 rs w s,
    session zero_student some_ops (kboot (mkStatics _ 0 no_lists no_lists) nine) = Some (rs, s) /\
    specs (opening ++ [Classify]) (nobody, nine) rs0 w0 /\
    specs some_ops w0 rs w /\
    objects s = roll (a_lost (fst w)) /\
    empty_lists (m_list (statics s)) /\ empty_lists (m_hlist (statics s)).
Proof.
  split; [exact some_ops_ok|].
  exact (students_session zero_student no_lists no_lists nine some_ops no_lists_empty no_lists_empty some_ops_ok).
Defined.

(** In that session the student of neither sex is never freed, and the name of
    a classified student is taken again. *)
Example session_leaks :
  (fun '(rs, s) => (rs, map_to_list (objects s))) <$>
    session zero_student some_ops (kboot (mkStatics _ 0 no_lists no_lists) nine)
  = Some ([0; 0; -1; -1; 0; 0; 0; 0; 0], [(7, encode (mkStu (chars "Kim") (char_val "x") 20))]).
Proof. vm_compute. reflexivity. Qed.

Definition three : list (Z * stu) :=
  [(1, mkStu (chars "Tom") (char_val "m") 18); (2, mkStu (chars "Kim") (char_val "x") 20);
   (3, mkStu (chars "Marry") (char_val "f") 17)].

Definition three_state : kstate Student (stu_statics SeqLists.seqs) :=
  mkK _ _ (roll three) 4 [] [] (mkStatics _ 1 {[g_student_list := [1; 2; 3]]} no_lists) [].

Lemma three_rep : rep three_state (mkAbs three [] [] []).
Proof.
  split.
  - intros h. unfold three_state. cbn [statics m_list kl_seq SeqLists.lists]. unfold SeqLists.seq_of.
    case_decide as Hh; [by subst; rewrite lookup_singleton_eq|by rewrite lookup_singleton_ne].
  - intros h. by repeat case_decide.
  - done.
  - cbn. repeat (constructor; [rewrite ?not_elem_of_cons; repeat split; [lia..|apply not_elem_of_nil]|]); constructor.
  - split; [done|]. repeat constructor.
  - repeat constructor; cbn; try lia;
      repeat (apply not_elem_of_cons; split; [discriminate|]); apply not_elem_of_nil.
Qed.

Lemma classify_stu_sorts_witness :
  exists s', classify_stu three_state = Some (tt, s') /\
    rep s' (mkAbs [(3, mkStu (chars "Marry") (char_val "f") 17)]
                  [(1, mkStu (chars "Tom") (char_val "m") 18)] []
                  [(2, mkStu (chars "Kim") (char_val "x") 20)]).
Proof.
  apply (classify_stu_sorts _ _ (take 1 three) (drop 1 three) three_rep).
  - reflexivity.
  - repeat constructor.
  - intros n [= <-] [Hn|Hn]; discriminate Hn.
Defined.
