(* ===== verification/BlkCommon.v ===== *)
(** * Memory-backed storage: what the RAM disk drivers share

    The storage is a byte list; a copy outside it, which in the kernel would
    touch other memory, has no result. Block-layer objects are outside src/:
    a request is what the drivers read of it. *)
From Stdlib Require Import ZArith Strings.Byte.
From stdpp Require Import base list.
From S2P Require Import Prelude.
Open Scope Z_scope.

(** [memcpy(data + pos, buffer, size)] and [memcpy(buffer, data + pos, size)]
    with [size] the length of [buffer]. *)
Definition copy_to (dat : list byte) (pos : Z) (buffer : list byte) : option (list byte) :=
  if (0 <=? pos) && (pos + Z.of_nat (length buffer) <=? Z.of_nat (length dat)) then
    Some (take (Z.to_nat pos) dat ++ buffer ++ drop (Z.to_nat pos + length buffer) dat)
  else None.

Definition copy_from (dat : list byte) (pos : Z) (buffer : list byte) : option (list byte) :=
  if (0 <=? pos) && (pos + Z.of_nat (length buffer) <=? Z.of_nat (length dat)) then
    Some (take (length buffer) (drop (Z.to_nat pos) dat))
  else None.

(** The bytes of a list of segments, and a byte string cut into segments of
    the lengths of another. *)
Definition seg_bytes (segs : list (list byte)) : list byte := concat segs.

Fixpoint cut (bs : list byte) (segs : list (list byte)) : list (list byte) :=
  match segs with
  | [] => []
  | s :: segs => take (length s) bs :: cut (drop (length s) bs) segs
  end.

(** The reference: one copy of the whole range. *)
Definition slice (dat : list byte) (pos : Z) (n : nat) : list byte := take n (drop (Z.to_nat pos) dat).
Definition splice (dat : list byte) (pos : Z) (bs : list byte) : list byte :=
  take (Z.to_nat pos) dat ++ bs ++ drop (Z.to_nat pos + length bs) dat.

Lemma copy_to_in dat pos b :
  0 <= pos -> pos + Z.of_nat (length b) <= Z.of_nat (length dat) ->
  copy_to dat pos b = Some (splice dat pos b).
Proof. intros. unfold copy_to. by rewrite !(proj2 (Z.leb_le _ _)) by lia. Qed.

Lemma copy_from_in dat pos b :
  0 <= pos -> pos + Z.of_nat (length b) <= Z.of_nat (length dat) ->
  copy_from dat pos b = Some (slice dat pos (length b)).
Proof. intros. unfold copy_from. by rewrite !(proj2 (Z.leb_le _ _)) by lia. Qed.

Lemma length_splice dat pos b :
  0 <= pos -> pos + Z.of_nat (length b) <= Z.of_nat (length dat) ->
  length (splice dat pos b) = length dat.
Proof. intros. unfold splice. rewrite !length_app, length_take, length_drop. lia. Qed.

Lemma length_slice dat pos n :
  0 <= pos -> pos + Z.of_nat n <= Z.of_nat (length dat) -> length (slice dat pos n) = n.
Proof. intros. unfold slice. rewrite length_take, length_drop. lia. Qed.

Lemma splice_nil dat pos : splice dat pos [] = dat.
Proof. unfold splice. cbn. by rewrite Nat.add_0_r, take_drop. Qed.

Lemma splice_app dat pos a b :
  0 <= pos -> pos + Z.of_nat (length a) + Z.of_nat (length b) <= Z.of_nat (length dat) ->
  splice (splice dat pos a) (pos + Z.of_nat (length a)) b = splice dat pos (a ++ b).
Proof.
  intros. unfold splice. set (k := Z.to_nat pos).
  assert (Z.to_nat (pos + Z.of_nat (length a)) = k + length a)%nat as -> by lia.
  assert (length (take k dat) = k) as Hk by (rewrite length_take; lia).
  rewrite (app_assoc (take k dat) a), take_app_length' by (rewrite length_app; lia).
  rewrite drop_app_ge by (rewrite length_app; lia).
  rewrite drop_drop, !length_app, <- !app_assoc. do 4 f_equal. lia.
Qed.

Lemma slice_splice dat pos b :
  0 <= pos -> pos + Z.of_nat (length b) <= Z.of_nat (length dat) ->
  slice (splice dat pos b) pos (length b) = b.
Proof.
  intros. unfold slice, splice. rewrite drop_app_length' by (rewrite length_take; lia).
  by rewrite take_app_length.
Qed.

Lemma slice_app dat pos n m :
  0 <= pos -> slice dat pos n ++ slice dat (pos + Z.of_nat n) m = slice dat pos (n + m).
Proof.
  intros. unfold slice.
  replace (Z.to_nat (pos + Z.of_nat n)) with (Z.to_nat pos + n)%nat by lia.
  rewrite <- drop_drop. by rewrite take_take_drop.
Qed.

Lemma length_seg_cons s segs :
  length (seg_bytes (s :: segs)) = (length s + length (seg_bytes segs))%nat.
Proof. apply length_app. Qed.

Lemma cut_concat bs segs :
  length bs = length (seg_bytes segs) -> concat (cut bs segs) = bs.
Proof.
  unfold seg_bytes. revert bs; induction segs as [|s segs IH]; intros bs Hl; cbn in *.
  - by destruct bs.
  - rewrite length_app in Hl. rewrite IH by (rewrite length_drop; lia). apply take_drop.
Qed.

Lemma cut_cons_app a b s segs : length a = length s -> cut (a ++ b) (s :: segs) = a :: cut b segs.
Proof. intros E. cbn [cut]. by rewrite take_app_length', drop_app_length'. Qed.

(** A read of a range cut at the end of its first segment. *)
Lemma cut_slice_cons dat pos s segs :
  0 <= pos -> pos + Z.of_nat (length s) + Z.of_nat (length (seg_bytes segs)) <= Z.of_nat (length dat) ->
  cut (slice dat pos (length (seg_bytes (s :: segs)))) (s :: segs) =
    slice dat pos (length s) ::
    cut (slice dat (pos + Z.of_nat (length s)) (length (seg_bytes segs))) segs.
Proof.
  intros. unfold seg_bytes. cbn [concat]. rewrite length_app, <- slice_app by lia.
  by rewrite cut_cons_app by (rewrite length_slice; lia).
Qed.
