(* ===== verification/SampleBlk.v ===== *)
(** * The sample block driver: src/ramdisk-lab/sample_blk.c

    Request processing, and the life cycle of the module (allocation with its
    error paths, release). *)
From Stdlib Require Import ZArith Strings.Byte.
From stdpp Require Import base gmap list.
From S2P Require Import Prelude Kernel BlkCommon.
Open Scope Z_scope.

Definition SAMPLEBLK_MINOR : Z := 1.
Definition sampleblk_sect_size : Z := 512.
Definition sampleblk_nsects : Z := 100 * 1024.

(** ** Requests *)

(** What the driver reads of a [struct request]: the device of its disk,
    [blk_rq_pos], [blk_rq_bytes], [rq_data_dir] and the segments (their
    buffers). *)
Record request : Type := mkRq {
    rq_dev : Z;
    rq_pos : Z;
    rq_bytes : Z;
    rq_write : bool;
    rq_segs : list (list byte);
}.

(** The device, the request queue of the block layer with its lock, the
    requests ended so far with their status, and the number of pages mapped
    by [kmap]. *)
Record blk_state : Type := mkBlk {
    dev : Z;                          (* the pointer [sampleblk_dev] *)
    dev_size : Z;
    dev_data : list byte;
    q : list request;
    q_lock : bool;
    ended : list (request * Z);
    kmaps : Z;
}.

(** [sampleblk_handle_io]: the data of the device, the buffer, and the
    result; [None] when the copy leaves the data. *)
Definition sampleblk_handle_io (dat : list byte) (pos : Z) (buffer : list byte) (write : bool) :
    option (list byte * list byte * Z) :=
  if write then
    dat' ← copy_to dat pos buffer;
    Some (dat', buffer, 0)
  else
    buffer' ← copy_from dat pos buffer;
    Some (dat, buffer', 0).

(** [rq_for_each_segment(bvec, rq, iter)]: the data, the buffers of the
    segments, [rv] and the change of the number of mapped pages. *)
Fixpoint segment_loop (dat : list byte) (pos rv km : Z) (write : bool) (segs : list (list byte)) :
    option (list byte * list (list byte) * Z * Z) :=
  match segs with
  | [] => Some (dat, [], rv, km)
  | s :: segs =>
      '(dat, s', rv) ← sampleblk_handle_io dat pos s write;
      if rv <? 0 then Some (dat, s' :: segs, rv, km + 1)
      else
        '(dat, segs', rv, km) ←
          segment_loop dat (u64 (pos + Z.of_nat (length s))) rv km write segs;
        Some (dat, s' :: segs', rv, km)
  end.

(** One request, up to [blk_end_request_all]; [rv] is the value left by the
    previous one. [None]: [BUG_ON] or an access outside the data. *)
Definition sampleblk_one (s : blk_state) (rq : request) (rv : Z) : option (blk_state * Z) :=
  if negb (dev s =? rq_dev rq) then None
  else
    let pos := u64 (rq_pos rq * sampleblk_sect_size) in
    let size := rq_bytes rq in
    if dev_size s <? u64 (pos + size) then
      Some (mkBlk (dev s) (dev_size s) (dev_data s) (q s) (q_lock s)
                  (ended s ++ [(rq, - EIO)]) (kmaps s), - EIO)
    else
      '(dat, segs, rv, km) ← segment_loop (dev_data s) pos rv (kmaps s) (rq_write rq) (rq_segs rq);
      Some (mkBlk (dev s) (dev_size s) dat (q s) (q_lock s)
                  (ended s ++ [(mkRq (rq_dev rq) (rq_pos rq) (rq_bytes rq) (rq_write rq) segs, rv)])
                  km, rv).

(** [while ((rq = blk_fetch_request(q)) != NULL)]: the fetch is made with the
    queue lock, the work without. [rqs]: what is still queued. *)
Fixpoint request_loop (rqs : list request) (rv : Z) (s : blk_state) : option blk_state :=
  if negb (q_lock s) then None
  else
    match rqs with
    | [] => Some s
    | rq :: rqs =>
        '(s, rv) ← sampleblk_one (mkBlk (dev s) (dev_size s) (dev_data s) rqs false (ended s) (kmaps s)) rq rv;
        request_loop rqs rv (mkBlk (dev s) (dev_size s) (dev_data s) (q s) true (ended s) (kmaps s))
    end.

Definition sampleblk_request (s : blk_state) : option blk_state := request_loop (q s) 0 s.

(** ** The life cycle *)

(** Kernel objects. *)
Inductive object : Type :=
  | ODev (size data queue disk : Z)  (* [struct sampleblk_dev] and its fields *)
  | OData
  | OQueue
  | ODisk (added : bool).

(** The static variables. *)
Record blk_statics : Type := mkStatics {
    sampleblk_major : Z;
    sampleblk_dev : Z;
}.

Abbreviation prog := (K object blk_statics).

(** The fields of [*sampleblk_dev]. *)
Definition load_dev (p : Z) : prog (Z * Z * Z * Z) :=
  o ← kload p;
  match o with
  | ODev size dat queue disk => mret (size, dat, queue, disk)
  | _ => kfault
  end.

Definition set_sampleblk_dev (p : Z) : prog unit :=
  g ← kget; kput (mkStatics (sampleblk_major g) p).

(** The labels of the error path of [sampleblk_alloc]. *)
Definition fail_dev (d rv : Z) : prog Z := kfree d;; mret rv.
Definition fail_data (d rv : Z) : prog Z :=
  '(_, dat, _, _) ← load_dev d; kfree dat;; fail_dev d rv.
Definition fail_queue (d rv : Z) : prog Z :=
  '(_, _, queue, _) ← load_dev d; krelease queue;; fail_data d rv.

Definition sampleblk_alloc (minor : Z) : prog Z :=
  d ← kalloc (ODev 0 0 0 0);
  set_sampleblk_dev d;;
  if d =? 0 then mret (- ENOMEM)
  else
    let size := sampleblk_sect_size * sampleblk_nsects in
    dat ← kalloc OData;
    kstore d (ODev size dat 0 0);;
    if dat =? 0 then fail_dev d (- ENOMEM)
    else
      queue ← kalloc OQueue;
      kstore d (ODev size dat queue 0);;
      if queue =? 0 then fail_data d (- ENOMEM)
      else
        disk ← kalloc (ODisk false);
        if disk =? 0 then fail_queue d (- ENOMEM)
        else
          kstore d (ODev size dat queue disk);;
          kstore disk (ODisk true);;
          mret 0.

(** [del_gendisk] takes an added disk back. *)
Definition del_gendisk (disk : Z) : prog unit :=
  o ← kload disk;
  match o with ODisk true => kstore disk (ODisk false) | _ => kfault end.

Definition sampleblk_free (d : Z) : prog unit :=
  '(_, _, _, disk) ← load_dev d; del_gendisk disk;;
  '(_, _, queue, _) ← load_dev d; krelease queue;;
  '(_, _, _, disk) ← load_dev d; krelease disk;;
  '(_, dat, _, _) ← load_dev d; kfree dat;;
  kfree d.

(** [major]: the result of [register_blkdev]. *)
Definition sampleblk_init (major : Z) : prog Z :=
  major ← kregister major;
  g ← kget;
  kput (mkStatics major (sampleblk_dev g));;
  if major <? 0 then mret major
  else
    sampleblk_alloc SAMPLEBLK_MINOR;;
    mret 0.

Definition sampleblk_exit : prog unit :=
  g ← kget;
  sampleblk_free (sampleblk_dev g);;
  kunregister (sampleblk_major g).

(** The other operations of the device succeed and do nothing. *)
Definition sampleblk_ioctl (command argument : Z) : prog Z := mret 0.
Definition sampleblk_open : prog Z := mret 0.
Definition sampleblk_release : prog unit := mret ().

(** Before the module is loaded: [sampleblk_dev] is null. *)
Definition unloaded (grants : list bool) : kstate object blk_statics := kboot (mkStatics 0 0) grants.
