(* ===== verification/SampleBlkProps.v ===== *)
(** * Properties of the sample block driver *)
From Stdlib Require Import ZArith Strings.Byte.
From stdpp Require Import base gmap list.
From S2P Require Import Prelude Kernel BlkCommon SampleBlk.
Open Scope Z_scope.

(** ** The specification of a request *)

Definition with_segs (segs : list (list byte)) (rq : request) : request :=
  mkRq (rq_dev rq) (rq_pos rq) (rq_bytes rq) (rq_write rq) segs.

(** What the block layer guarantees of a request for device [d]: its size is
    that of its segments and its end, in bytes, does not wrap. *)
Record rq_wf (d : Z) (rq : request) : Prop := {
    rw_dev : rq_dev rq = d;
    rw_pos : 0 <= rq_pos rq;
    rw_bytes : rq_bytes rq = Z.of_nat (length (seg_bytes (rq_segs rq)));
    rw_end : 512 * rq_pos rq + rq_bytes rq < 18446744073709551616;
}.

(** The status a request without segments leaves is the one it found. *)
Definition spec_status (rv : Z) (segs : list (list byte)) : Z :=
  match segs with [] => rv | _ => 0 end.

(** One request over the whole range at once: the data, the request ended,
    its status. *)
Definition spec_one (dat : list byte) (rq : request) (rv : Z) : list byte * request * Z :=
  let pos := 512 * rq_pos rq in
  if Z.of_nat (length dat) <? pos + rq_bytes rq then (dat, rq, - EIO)
  else if rq_write rq then
    (splice dat pos (seg_bytes (rq_segs rq)), rq, spec_status rv (rq_segs rq))
  else
    (dat, with_segs (cut (slice dat pos (length (seg_bytes (rq_segs rq)))) (rq_segs rq)) rq,
     spec_status rv (rq_segs rq)).

Fixpoint spec_requests (dat : list byte) (rqs : list request) (rv : Z) :
    list byte * list (request * Z) :=
  match rqs with
  | [] => (dat, [])
  | rq :: rqs =>
      let '(dat, rq', rv) := spec_one dat rq rv in
      let '(dat, done) := spec_requests dat rqs rv in
      (dat, (rq', rv) :: done)
  end.

(** ** Segments *)

Section Segments.
Variable dat : list byte.
Hypothesis Hsize : Z.of_nat (length dat) < 18446744073709551616.

Lemma segments_read pos rv km segs :
  0 <= pos -> pos + Z.of_nat (length (seg_bytes segs)) <= Z.of_nat (length dat) ->
  segment_loop dat pos rv km false segs =
    Some (dat, cut (slice dat pos (length (seg_bytes segs))) segs, spec_status rv segs, km).
Proof.
  revert pos rv; induction segs as [|s segs IH]; intros pos rv Hp Hin; [done|].
  rewrite length_seg_cons in Hin. rewrite cut_slice_cons by lia. cbn [segment_loop].
  unfold sampleblk_handle_io. rewrite copy_from_in by lia. cbn. rewrite u64_small by lia.
  rewrite IH by lia. by destruct segs.
Qed.
End Segments.

Lemma segments_write dat pos rv km segs :
  Z.of_nat (length dat) < 18446744073709551616 ->
  0 <= pos -> pos + Z.of_nat (length (seg_bytes segs)) <= Z.of_nat (length dat) ->
  segment_loop dat pos rv km true segs =
    Some (splice dat pos (seg_bytes segs), segs, spec_status rv segs, km).
Proof.
  revert dat pos rv; induction segs as [|s segs IH]; intros dat pos rv Hs Hp Hin.
  { cbn. by rewrite splice_nil. }
  unfold seg_bytes in *. cbn [concat] in *. rewrite length_app in *. cbn [segment_loop].
  unfold sampleblk_handle_io. rewrite copy_to_in by lia. cbn. rewrite u64_small by lia.
  rewrite IH by (rewrite ?length_splice; lia). cbn. rewrite splice_app by lia. by destruct segs.
Qed.

(** ** Requests *)

Definition blk_wf (s : blk_state) : Prop :=
  dev_size s = Z.of_nat (length (dev_data s)) /\ dev_size s < 9223372036854775808.

Lemma one_spec s rq rv :
  blk_wf s -> rq_wf (dev s) rq ->
  let '(dat, rq', rv') := spec_one (dev_data s) rq rv in
  sampleblk_one s rq rv =
    Some (mkBlk (dev s) (dev_size s) dat (q s) (q_lock s) (ended s ++ [(rq', rv')]) (kmaps s), rv') /\
  length dat = length (dev_data s).
Proof.
  intros [Hsz Hmax] [Hd Hp Hb He]. unfold sampleblk_one, spec_one, sampleblk_sect_size.
  rewrite Hd, Z.eqb_refl. cbn [negb]. rewrite (Z.mul_comm (rq_pos rq)).
  rewrite (u64_small (512 * rq_pos rq)), u64_small, Hsz by lia. case_cmp; [done|].
  destruct rq as [d p b wr segs]; cbn [rq_dev rq_pos rq_bytes rq_write rq_segs] in *. subst d. destruct wr.
  - rewrite segments_write by lia. split; [done|]. apply length_splice; lia.
  - by rewrite segments_read by lia.
Qed.

Lemma request_loop_spec rqs rv s :
  blk_wf s -> q_lock s = true -> q s = rqs -> Forall (rq_wf (dev s)) rqs ->
  let '(dat, done) := spec_requests (dev_data s) rqs rv in
  request_loop rqs rv s =
    Some (mkBlk (dev s) (dev_size s) dat [] true (ended s ++ done) (kmaps s)).
Proof.
  revert rv s; induction rqs as [|rq rqs IH]; intros rv s Hwf Hl Hq Hrq;
    cbn [request_loop spec_requests]; rewrite Hl; cbn [negb].
  - rewrite app_nil_r. by destruct s; cbn in *; subst.
  - apply Forall_cons in Hrq as [Hr Hrs].
    set (s1 := mkBlk (dev s) (dev_size s) (dev_data s) rqs false (ended s) (kmaps s)).
    pose proof (one_spec s1 rq rv Hwf Hr) as H1. change (dev_data s1) with (dev_data s) in H1.
    destruct (spec_one (dev_data s) rq rv) as [[dat rq'] rv'] eqn:E1. destruct H1 as [H1 Hlen].
    rewrite H1. cbn [mbind option_bind].
    set (s2 := mkBlk _ _ _ _ true _ _).
    assert (blk_wf s2) as Hwf2 by (destruct Hwf; split; cbn; lia).
    specialize (IH rv' s2 Hwf2 eq_refl eq_refl Hrs). change (dev_data s2) with dat in IH.
    destruct (spec_requests dat rqs rv') as [dat' done]. rewrite IH. cbn.
    by rewrite <- app_assoc.
Qed.

(** ** A small device *)

Module Disk.
Definition sector (b : byte) : list byte := replicate 512 b.
(** Two sectors, the queue given, the lock held. *)
Definition state (rqs : list request) : blk_state :=
  mkBlk 1 1024 (sector x00 ++ sector x01) rqs true [] 0.
Definition writing : request := mkRq 1 1 512 true [replicate 500 x61; replicate 12 x62].
Definition reading : request := mkRq 1 1 512 false [replicate 256 x00; replicate 256 x00].
Definition beyond : request := mkRq 1 2 512 false [replicate 512 x00].
Definition flush : request := mkRq 1 0 0 true [].

Lemma wf rqs : blk_wf (state rqs).
Proof. split; vm_compute; reflexivity. Qed.
Lemma writing_wf : rq_wf 1 writing.
Proof. split; vm_compute; congruence. Qed.
Lemma reading_wf : rq_wf 1 reading.
Proof. split; vm_compute; congruence. Qed.
Lemma beyond_wf : rq_wf 1 beyond.
Proof. split; vm_compute; congruence. Qed.
Lemma flush_wf : rq_wf 1 flush.
Proof. split; vm_compute; congruence. Qed.
End Disk.

(** ** Theorems *)

(** C19. The driver refines one copy per request. Whatever the queue holds,
    [sampleblk_request] empties it without an access outside the device data
    and ends every request, in order: one that reaches past the end with -EIO
    and nothing copied, any other as a single copy of its whole range, however
    it is cut into segments; the queue lock is held again at the end and no
    page stays mapped. *)
Theorem sampleblk_request_refines s :
  blk_wf s -> q_lock s = true -> Forall (rq_wf (dev s)) (q s) ->
  let '(dat, done) := spec_requests (dev_data s) (q s) 0 in
  sampleblk_request s = Some (mkBlk (dev s) (dev_size s) dat [] true (ended s ++ done) (kmaps s)).
Proof. intros Hwf Hl Hq. by apply request_loop_spec. Qed.

Lemma sampleblk_request_refines_witness :
  sampleblk_request (Disk.state [Disk.writing; Disk.beyond]) =
    Some (mkBlk 1 1024 (Disk.sector x00 ++ replicate 500 x61 ++ replicate 12 x62) [] true
                [(Disk.writing, 0); (Disk.beyond, -5)] 0).
Proof.
  pose proof (sampleblk_request_refines (Disk.state [Disk.writing; Disk.beyond])
                (Disk.wf _) eq_refl) as H.
  cbn [q Disk.state] in H.
  specialize (H (Forall_cons_2 _ _ _ Disk.writing_wf (Forall_cons_2 _ _ _ Disk.beyond_wf (Forall_nil_2 _)))).
  etrans; [exact H|]. vm_compute. reflexivity.
Defined.

(** C22. What is written is read back. A write of a range inside the device
    followed by a read of the same range, cut into segments in any other way,
    both end with status 0, the bytes of the read are those of the write, and
    the rest of the device is as before. *)
Theorem sampleblk_write_read s w r :
  blk_wf s -> q_lock s = true -> q s = [w; r] -> rq_wf (dev s) w -> rq_wf (dev s) r ->
  rq_write w = true -> rq_write r = false -> rq_pos r = rq_pos w -> rq_bytes r = rq_bytes w ->
  512 * rq_pos w + rq_bytes w <= dev_size s ->
  exists r' s', sampleblk_request s = Some s' /\ ended s' = ended s ++ [(w, 0); (r', 0)] /\
    seg_bytes (rq_segs r') = seg_bytes (rq_segs w) /\
    dev_data s' = splice (dev_data s) (512 * rq_pos w) (seg_bytes (rq_segs w)).
Proof.
  intros Hwf Hl Hq Hw Hr Hww Hrr Hpos Hbytes Hin.
  pose proof (request_loop_spec [w; r] 0 s Hwf Hl Hq
                (Forall_cons_2 _ _ _ Hw (Forall_cons_2 _ _ _ Hr (Forall_nil_2 _)))) as H.
  destruct Hwf as [Hsz _], Hw as [_ Hp Hbw _], Hr as [_ _ Hbr _].
  unfold sampleblk_request. rewrite Hq. cbn [spec_requests] in H. unfold spec_one in H at 1.
  rewrite Hww in H. destruct (Z.ltb_spec (Z.of_nat (length (dev_data s))) (512 * rq_pos w + rq_bytes w)); [lia|].
  unfold spec_one in H. rewrite Hrr, length_splice, Hpos, Hbytes in H by lia.
  destruct (Z.ltb_spec (Z.of_nat (length (dev_data s))) (512 * rq_pos w + rq_bytes w)); [lia|].
  do 2 eexists. split; [exact H|]. cbn [ended dev_data with_segs rq_segs]. split_and!; [|..|done].
  - do 3 f_equal; [|f_equal]; destruct (rq_segs w), (rq_segs r); done.
  - replace (length (seg_bytes (rq_segs r))) with (length (seg_bytes (rq_segs w))) by lia.
    rewrite slice_splice by lia. apply cut_concat. lia.
Qed.

Lemma sampleblk_write_read_witness :
  exists r' s', sampleblk_request (Disk.state [Disk.writing; Disk.reading]) = Some s' /\
    ended s' = [(Disk.writing, 0); (r', 0)] /\
    seg_bytes (rq_segs r') = replicate 500 x61 ++ replicate 12 x62.
Proof.
  destruct (sampleblk_write_read (Disk.state [Disk.writing; Disk.reading]) Disk.writing Disk.reading
              (Disk.wf _) eq_refl eq_refl Disk.writing_wf Disk.reading_wf) as (r' & s' & H1 & H2 & H3 & _);
    [reflexivity..|vm_compute; congruence|].
  exists r', s'. split; [exact H1|]. split; [exact H2|]. rewrite H3. reflexivity.
Defined.

(** The status of the previous request. [rv] is not reset between
    requests: a request without segments (a flush) behind one that was refused
    is ended with the error of that one, though nothing of it failed. *)
Theorem sampleblk_stale_status s bad flush :
  blk_wf s -> q_lock s = true -> q s = [bad; flush] -> rq_wf (dev s) bad -> rq_wf (dev s) flush ->
  dev_size s < 512 * rq_pos bad + rq_bytes bad ->
  rq_segs flush = [] -> 512 * rq_pos flush <= dev_size s ->
  exists s' flush', sampleblk_request s = Some s' /\
    ended s' = ended s ++ [(bad, - EIO); (flush', - EIO)] /\ dev_data s' = dev_data s.
Proof.
  intros Hwf Hl Hq Hb Hf Hout Hsegs Hin.
  pose proof (request_loop_spec [bad; flush] 0 s Hwf Hl Hq
                (Forall_cons_2 _ _ _ Hb (Forall_cons_2 _ _ _ Hf (Forall_nil_2 _)))) as H.
  destruct Hwf as [Hsz _], Hf as [_ Hp Hbf _].
  unfold sampleblk_request. rewrite Hq. cbn [spec_requests] in H. unfold spec_one in H.
  rewrite Hsegs in Hbf. cbn in Hbf.
  destruct (Z.ltb_spec (Z.of_nat (length (dev_data s))) (512 * rq_pos bad + rq_bytes bad)); [|lia].
  destruct (Z.ltb_spec (Z.of_nat (length (dev_data s))) (512 * rq_pos flush + rq_bytes flush)); [lia|].
  rewrite Hsegs in H. destruct (rq_write flush).
  - do 2 eexists. split; [exact H|]. split; [reflexivity|]. apply splice_nil.
  - do 2 eexists. split; [exact H|]. split; reflexivity.
Qed.

Lemma sampleblk_stale_status_witness :
  exists s' flush', sampleblk_request (Disk.state [Disk.beyond; Disk.flush]) = Some s' /\
    ended s' = [(Disk.beyond, -5); (flush', -5)].
Proof.
  destruct (sampleblk_stale_status (Disk.state [Disk.beyond; Disk.flush]) Disk.beyond Disk.flush
              (Disk.wf _) eq_refl eq_refl Disk.beyond_wf Disk.flush_wf) as (s' & f' & H1 & H2 & _);
    [vm_compute; congruence|reflexivity|vm_compute; congruence|].
  exists s', f'. split; [exact H1|exact H2].
Defined.

(** The four allocations of [sampleblk_alloc] are granted. *)
Definition all_granted (g : list bool) : bool := bool_decide (take 4 g = [true; true; true; true]).

(** Whichever allocation fails, [sampleblk_alloc]
    returns -ENOMEM with every object it had obtained released; when all
    succeed, [sampleblk_free] releases exactly what was obtained. *)
Lemma sampleblk_alloc_balanced g :
  exists rv s, sampleblk_alloc SAMPLEBLK_MINOR (unloaded g) = Some (rv, s) /\
    if all_granted g then
      rv = 0 /\ exists s', sampleblk_free (sampleblk_dev (statics s)) s = Some (tt, s') /\ objects s' = ∅
    else rv = - ENOMEM /\ objects s = ∅.
Proof.
  destruct g as [|[] [|[] [|[] [|[] g]]]]; do 2 eexists;
    (split; [vm_compute; reflexivity|]); try (split; vm_compute; reflexivity).
  split; [vm_compute; reflexivity|]. eexists. split; vm_compute; reflexivity.
Qed.

(** A failed load is reported as a success. [sampleblk_init] returns 0 even
    when [sampleblk_alloc] failed, so the module stays loaded; unloading it
    then uses [sampleblk_dev], which is null or points to the memory the error
    path has freed. When nothing failed, unloading leaves no object and no
    registration behind. *)
Theorem sampleblk_init_hides_failure major g :
  0 <= major ->
  exists s, sampleblk_init major (unloaded g) = Some (0, s) /\
    if all_granted g then
      exists s', sampleblk_exit s = Some (tt, s') /\ objects s' = ∅ /\ registered s' = []
    else sampleblk_exit s = None.
Proof.
  intros Hm.
  assert ((major <? 0) = false) as Hneg by (by apply Z.ltb_ge).
  unfold sampleblk_init, mbind, K_bind, kregister, kget, kput. rewrite Hneg. cbv beta iota.
  destruct g as [|[] [|[] [|[] [|[] g]]]]; eexists; (split; [vm_compute; reflexivity|]);
    try (vm_compute; reflexivity).
  change (all_granted (true :: true :: true :: true :: g)) with true. cbv iota.
  eexists. split; [|split].
  - unfold sampleblk_exit, mbind, K_bind, kget. cbv beta iota.
    match goal with |- context [sampleblk_free ?d _] => k_run (sampleblk_free d) end.
    reflexivity.
  - reflexivity.
  - cbn [registered with_registered sampleblk_major]. by rewrite filter_cons_False by (intros Hn; by apply Hn).
Qed.

Lemma sampleblk_init_hides_failure_witness :
  exists s, sampleblk_init 253 (unloaded [true; true; false]) = Some (0, s) /\
    sampleblk_exit s = None.
Proof.
  destruct (sampleblk_init_hides_failure 253 [true; true; false]) as (s & H1 & H2); [lia|].
  exists s. split; [exact H1|exact H2].
Defined.
