(* ===== verification/RamHd.v ===== *)
(** * The RAM disks: src/ramdisk-lab/ramhd_mkreq.c and ramhd_req.c

    Two drivers over the same storage. [mkreq] takes bios straight from the
    block layer; [req] works off a request queue. ramhd_req.c repeats the
    storage, device and ioctl functions of ramhd_mkreq.c (but for the message
    of a refused vmalloc): [req] takes them over by name. *)
From Stdlib Require Import ZArith Strings.Byte.
From stdpp Require Import base gmap list strings.
From S2P Require Import Prelude Kernel BlkCommon.
Open Scope Z_scope.

Definition RAMHD_MAX_DEVICE : Z := 2.
Definition RAMHD_MAX_PARTITIONS : Z := 4.
Definition RAMHD_SECTOR_SIZE : Z := 512.
Definition RAMHD_SECTORS : Z := 16.
Definition RAMHD_HEADS : Z := 4.
Definition RAMHD_CYLINDERS : Z := 256.
Definition RAMHD_SECTOR_TOTAL : Z := RAMHD_SECTORS * RAMHD_HEADS * RAMHD_CYLINDERS.
Definition RAMHD_SIZE : Z := RAMHD_SECTOR_SIZE * RAMHD_SECTOR_TOTAL.

Definition EFAULT : Z := 14.
Definition ENOTTY : Z := 25.

(** ** Geometry *)

Record hd_geometry : Type := mkGeo {
    geo_heads : Z;
    geo_sectors : Z;
    geo_cylinders : Z;
    geo_start : Z;
}.

(** The value returned and what is written to the user. [HDIO_GETGEO] is the
    kernel's; [access], [start] and [uncopied] are the results of [access_ok],
    [get_start_sect] and [copy_to_user]. *)
Definition ramhd_ioctl (HDIO_GETGEO cmd : Z) (access : bool) (start uncopied : Z) :
    Z * option hd_geometry :=
  if cmd =? HDIO_GETGEO then
    if negb access then (- EFAULT, None)
    else
      let geo := mkGeo (u8 RAMHD_HEADS) (u8 RAMHD_SECTORS) (u16 RAMHD_CYLINDERS) start in
      if negb (uncopied =? 0) then (- EFAULT, None) else (0, Some geo)
  else (- ENOTTY, None).

(** ** Storage and devices *)

Inductive object : Type :=
  | OSpace                                       (* vmalloc(RAMHD_SIZE) *)
  | ORamdev (data queue gd : Z)                  (* RAMHD_DEV *)
  | OQueue
  | OGd (added : bool).

(** The arrays [sdisk] and [rdev], and [ramhd_major]. *)
Record ramhd_statics : Type := mkStatics {
    sdisk : list Z;
    rdev : list Z;
    ramhd_major : Z;
}.

Abbreviation prog := (K object ramhd_statics).

Definition set_sdisk (i : nat) (p : Z) : prog unit :=
  g ← kget; kput (mkStatics (<[i := p]> (sdisk g)) (rdev g) (ramhd_major g)).
Definition set_rdev (i : nat) (p : Z) : prog unit :=
  g ← kget; kput (mkStatics (sdisk g) (<[i := p]> (rdev g)) (ramhd_major g)).
Definition get_sdisk (i : nat) : prog Z :=
  g ← kget; match sdisk g !! i with Some p => mret p | None => kfault end.
Definition get_rdev (i : nat) : prog Z :=
  g ← kget; match rdev g !! i with Some p => mret p | None => kfault end.

(** [for (i = 0; i < RAMHD_MAX_DEVICE; i++)] *)
Definition devices : list nat := [0; 1]%nat.

Fixpoint for_devices (l : list nat) (body : nat -> prog unit) : prog unit :=
  match l with
  | [] => mret ()
  | i :: l => body i;; for_devices l body
  end.

(** Both [ramhd_space_init] and [alloc_ramdev]: allocate for each index,
    giving up at the first refusal. *)
Fixpoint alloc_each (l : list nat) (alloc : nat -> prog Z) : prog Z :=
  match l with
  | [] => mret 0
  | i :: l =>
      p ← alloc i;
      if p =? 0 then mret (- ENOMEM) else alloc_each l alloc
  end.

Definition ramhd_space_init : prog Z :=
  alloc_each devices (fun i => p ← kalloc OSpace; set_sdisk i p;; mret p).

Definition ramhd_space_clean : prog unit :=
  for_devices devices (fun i => p ← get_sdisk i; kfree p).

Definition alloc_ramdev : prog Z :=
  alloc_each devices (fun i => p ← kalloc (ORamdev 0 0 0); set_rdev i p;; mret p).

Definition clean_ramdev : prog unit :=
  for_devices devices (fun i =>
    p ← get_rdev i; if negb (p =? 0) then kfree p else mret ()).

(** The fields of [*rdev[i]]. *)
Definition load_ramdev (i : nat) : prog (Z * Z * Z) :=
  p ← get_rdev i;
  o ← kload p;
  match o with ORamdev d q g => mret (d, q, g) | _ => kfault end.
Definition store_ramdev (i : nat) (d q g : Z) : prog unit :=
  p ← get_rdev i; kstore p (ORamdev d q g).

(** [add_disk] and [del_gendisk] on a disk that is there. *)
Definition add_disk (gd : Z) : prog unit := kload gd;; kstore gd (OGd true).
Definition del_gendisk (gd : Z) : prog unit :=
  o ← kload gd;
  match o with OGd true => kstore gd (OGd false) | _ => kfault end.

Definition set_major (major : Z) : prog unit :=
  g ← kget; kput (mkStatics (sdisk g) (rdev g) major).

(** Before the module is loaded. *)
Definition unloaded (grants : list bool) : kstate object ramhd_statics :=
  kboot (mkStatics [0; 0] [0; 0] 0) grants.

(** [del_gendisk(gd); put_disk(gd); blk_cleanup_queue(queue);] of each device *)
Definition remove_disk (i : nat) : prog unit :=
  '(_, _, gd) ← load_ramdev i; del_gendisk gd;;
  krelease gd;;
  '(_, q, _) ← load_ramdev i; krelease q.

(** ** ramhd_mkreq.c *)

(** Opening and releasing a disk. *)
Definition ramhd_open : prog Z := mret 0.
Definition ramhd_release : prog Z := mret 0.

Module mkreq.
Definition READ : Z := 0.
Definition WRITE : Z := 1.

(** What the driver reads of a [struct bio]. *)
Record bio : Type := mkBio {
  bi_sector : Z;
  bi_size : Z;
  bio_data_dir : Z;
  bi_segs : list (list byte);
}.

(** [bio_for_each_segment(bvec, bio, i)] from position [pos] of the data:
    the data and the buffers of the segments; [None]: a copy outside. *)
Fixpoint segment_loop (dat : list byte) (pos dir : Z) (segs : list (list byte)) :
    option (list byte * list (list byte)) :=
  match segs with
  | [] => Some (dat, [])
  | s :: segs =>
      if dir =? READ then
        s' ← copy_from dat pos s;
        '(dat, segs') ← segment_loop dat (pos + Z.of_nat (length s)) dir segs;
        Some (dat, s' :: segs')
      else if dir =? WRITE then
        dat ← copy_to dat pos s;
        '(dat, segs') ← segment_loop dat (pos + Z.of_nat (length s)) dir segs;
        Some (dat, s :: segs')
      else Some (dat, s :: segs)
  end.

(** The data of the device, the buffers and the status of [bio_endio]. *)
Definition ramhd_make_request (dat : list byte) (b : bio) :
    option (list byte * list (list byte) * Z) :=
  if RAMHD_SIZE <? u64 (u64 (bi_sector b * RAMHD_SECTOR_SIZE) + bi_size b) then
    Some (dat, bi_segs b, - EIO)
  else
    '(dat, segs) ← segment_loop dat (u64 (bi_sector b * RAMHD_SECTOR_SIZE)) (bio_data_dir b) (bi_segs b);
    Some (dat, segs, 0).

Definition setup_device (i : nat) : prog unit :=
  '(_, q, gd) ← load_ramdev i;
  d ← get_sdisk i; store_ramdev i d q gd;;
  q ← kalloc OQueue; store_ramdev i d q gd;;
  kload q;;                                (* blk_queue_make_request *)
  gd ← kalloc (OGd false); store_ramdev i d q gd;;
  kload gd;;                               (* gd->major = ramhd_major; ... *)
  add_disk gd.

(** [major]: the result of [register_blkdev]. *)
Definition ramhd_init (major : Z) : prog Z :=
  err ← ramhd_space_init;
  if negb (err =? 0) then mret err
  else
    alloc_ramdev;;
    major ← kregister major;
    set_major major;;
    for_devices devices setup_device;;
    mret 0.

Definition ramhd_exit : prog unit :=
  for_devices devices remove_disk;;
  clean_ramdev;;
  ramhd_space_clean;;
  g ← kget;
  kunregister (ramhd_major g).
End mkreq.

(** ** ramhd_req.c *)

Module req.
(** The constants and functions repeated with the same text (one of them
    without its message). *)
Definition RAMHD_MAX_DEVICE : Z := RAMHD_MAX_DEVICE.
Definition RAMHD_MAX_PARTITIONS : Z := RAMHD_MAX_PARTITIONS.
Definition RAMHD_SECTOR_SIZE : Z := RAMHD_SECTOR_SIZE.
Definition RAMHD_SECTORS : Z := RAMHD_SECTORS.
Definition RAMHD_HEADS : Z := RAMHD_HEADS.
Definition RAMHD_CYLINDERS : Z := RAMHD_CYLINDERS.
Definition RAMHD_SECTOR_TOTAL : Z := RAMHD_SECTOR_TOTAL.
Definition RAMHD_SIZE : Z := RAMHD_SIZE.
Definition ramhd_open : prog Z := ramhd_open.
Definition ramhd_release : prog Z := ramhd_release.
Definition ramhd_space_init : prog Z := ramhd_space_init.
Definition ramhd_space_clean : prog unit := ramhd_space_clean.
Definition alloc_ramdev : prog Z := alloc_ramdev.
Definition clean_ramdev : prog unit := clean_ramdev.
Definition ramhd_ioctl : Z -> Z -> bool -> Z -> Z -> Z * option hd_geometry := ramhd_ioctl.

(** What the driver reads of a [struct request]: [blk_rq_pos], [rq_data_dir],
    the current segment ([req->buffer], [blk_rq_cur_bytes]) and those after. *)
Record request : Type := mkRq {
  rq_pos : Z;
  rq_write : bool;
  rq_cur : list byte;
  rq_rest : list (list byte);
}.

Section ReqFunc.
(** [__blk_end_request_cur(req, 0)]: the request as it is after its current
    segment is completed, or [None] when that was the last. *)
Variable end_request_cur : request -> option request.

(** One turn of the loop body: the data and the buffer of the segment. *)
Definition transfer (dat : list byte) (r : request) : option (list byte * list byte) :=
  let addr := u64 (rq_pos r * RAMHD_SECTOR_SIZE) in
  if negb (rq_write r) then
  b ← copy_from dat addr (rq_cur r); Some (dat, b)
  else
  dat ← copy_to dat addr (rq_cur r); Some (dat, rq_cur r).

(** [while (req)], with the queue [q] the fetches take from; the segments
    completed, oldest first. *)
Fixpoint req_loop (fuel : nat) (dat : list byte) (r : request) (q : list request)
  (done : list (list byte)) : option (list byte * list (list byte)) :=
  match fuel with
  | O => None
  | S fuel =>
    '(dat, b) ← transfer dat r;
    match end_request_cur r with
    | Some r => req_loop fuel dat r q (done ++ [b])
    | None =>
        match q with
        | r :: q => req_loop fuel dat r q (done ++ [b])
        | [] => Some (dat, done ++ [b])
        end
    end
  end.

Definition ramhd_req_func (fuel : nat) (dat : list byte) (q : list request) :
  option (list byte * list (list byte)) :=
  match q with
  | [] => Some (dat, [])
  | r :: q => req_loop fuel dat r q []
  end.
End ReqFunc.

Definition setup_device (i : nat) : prog unit :=
  '(_, q, gd) ← load_ramdev i;
  d ← get_sdisk i; store_ramdev i d q gd;;
  gd ← kalloc (OGd false); store_ramdev i d q gd;;
  q ← kalloc OQueue; store_ramdev i d q gd;;
  kload gd;;                               (* gd->major = ramhd_major; ... *)
  add_disk gd.

Definition ramhd_init (major : Z) : prog Z :=
  ramhd_space_init;;
  alloc_ramdev;;
  major ← kregister major;
  set_major major;;
  for_devices devices setup_device;;
  mret 0.

Definition ramhd_exit : prog unit :=
  for_devices devices remove_disk;;
  g ← kget;
  kunregister (ramhd_major g);;
  clean_ramdev;;
  ramhd_space_clean.
End req.
