(* ===== verification/RamHdProps.v ===== *)
(** * Properties of the RAM disks *)
From Stdlib Require Import ZArith Strings.Byte.
From stdpp Require Import base gmap list.
From S2P Require Import Prelude Kernel BlkCommon RamHd.
Open Scope Z_scope.

Definition disk_data (dat : list byte) : Prop := Z.of_nat (length dat) = RAMHD_SIZE.

(** ** Bios *)

(** What the block layer guarantees: the size is that of the segments, the
    direction is one of the two, the end does not wrap. *)
Record bio_wf (b : mkreq.bio) : Prop := {
    bw_sector : 0 <= mkreq.bi_sector b;
    bw_size : mkreq.bi_size b = Z.of_nat (length (seg_bytes (mkreq.bi_segs b)));
    bw_dir : mkreq.bio_data_dir b = mkreq.READ \/ mkreq.bio_data_dir b = mkreq.WRITE;
    bw_end : 512 * mkreq.bi_sector b + mkreq.bi_size b < 18446744073709551616;
}.

Definition spec_bio (dat : list byte) (b : mkreq.bio) : list byte * list (list byte) * Z :=
  let pos := 512 * mkreq.bi_sector b in
  let segs := mkreq.bi_segs b in
  if RAMHD_SIZE <? pos + mkreq.bi_size b then (dat, segs, - EIO)
  else if mkreq.bio_data_dir b =? mkreq.WRITE then (splice dat pos (seg_bytes segs), segs, 0)
  else (dat, cut (slice dat pos (length (seg_bytes segs))) segs, 0).

Lemma bio_segments_read dat pos segs :
  0 <= pos -> pos + Z.of_nat (length (seg_bytes segs)) <= Z.of_nat (length dat) ->
  mkreq.segment_loop dat pos mkreq.READ segs =
    Some (dat, cut (slice dat pos (length (seg_bytes segs))) segs).
Proof.
  revert pos; induction segs as [|s segs IH]; intros pos Hp Hin; [done|].
  rewrite length_seg_cons in Hin. rewrite cut_slice_cons by lia. cbn [mkreq.segment_loop].
  change (mkreq.READ =? mkreq.READ) with true. cbv iota.
  rewrite copy_from_in by lia. cbn [mbind option_bind]. by rewrite IH by lia.
Qed.

Lemma bio_segments_write dat pos segs :
  0 <= pos -> pos + Z.of_nat (length (seg_bytes segs)) <= Z.of_nat (length dat) ->
  mkreq.segment_loop dat pos mkreq.WRITE segs = Some (splice dat pos (seg_bytes segs), segs).
Proof.
  revert dat pos; induction segs as [|s segs IH]; intros dat pos Hp Hin.
  { cbn. by rewrite splice_nil. }
  unfold seg_bytes in *. cbn [concat] in *. rewrite length_app in *. cbn.
  rewrite copy_to_in by lia. cbn. rewrite IH by (rewrite ?length_splice; lia). cbn.
  by rewrite splice_app by lia.
Qed.

(** ** Requests *)

(** A request inside the disk, in whole sectors. *)
Definition req_segs (r : req.request) : list (list byte) := req.rq_cur r :: req.rq_rest r.

Record req_wf (r : req.request) : Prop := {
    qw_pos : 0 <= req.rq_pos r;
    qw_sectors : Forall (fun s => Z.of_nat (length s) `mod` 512 = 0) (req_segs r);
    qw_end : 512 * req.rq_pos r + Z.of_nat (length (seg_bytes (req_segs r))) <= RAMHD_SIZE;
}.

Definition spec_req (dat : list byte) (r : req.request) : list byte * list (list byte) :=
  let pos := 512 * req.rq_pos r in
  let segs := req_segs r in
  if req.rq_write r then (splice dat pos (seg_bytes segs), segs)
  else (dat, cut (slice dat pos (length (seg_bytes segs))) segs).

Fixpoint spec_queue (dat : list byte) (q : list req.request) : list byte * list (list byte) :=
  match q with
  | [] => (dat, [])
  | r :: q =>
      let '(dat, done) := spec_req dat r in
      let '(dat, done') := spec_queue dat q in
      (dat, done ++ done')
  end.

(** The turns of the loop: one per segment. *)
Definition turns (q : list req.request) : nat := list_sum (map (fun r => length (req_segs r)) q).

(** The documented effect of [__blk_end_request_cur]: the next segment becomes
    the current one and the position moves past the one completed. *)
Definition ends_segments (end_request_cur : req.request -> option req.request) : Prop :=
  forall r, end_request_cur r =
    match req.rq_rest r with
    | [] => None
    | s :: rest => Some (req.mkRq (req.rq_pos r + Z.of_nat (length (req.rq_cur r)) / 512)
                                  (req.rq_write r) s rest)
    end.

Section Queue.
Variable end_request_cur : req.request -> option req.request.
Hypothesis Hend : ends_segments end_request_cur.

(** What follows the last segment of a request. *)
Definition next_request (fuel : nat) (dat : list byte) (q : list req.request) (done : list (list byte)) :=
  match q with
  | [] => Some (dat, done)
  | r :: q => req.req_loop end_request_cur fuel dat r q done
  end.

Lemma sector_end pos s : Z.of_nat (length s) `mod` 512 = 0 ->
  512 * (pos + Z.of_nat (length (A := byte) s) / 512) = 512 * pos + Z.of_nat (length s).
Proof. intros. div_lia. Qed.

Lemma req_wf_cons pos wr s rest :
  req_wf (req.mkRq pos wr s rest) ->
  0 <= pos /\ Z.of_nat (length s) `mod` 512 = 0 /\
  512 * pos + Z.of_nat (length s) + Z.of_nat (length (seg_bytes rest)) <= RAMHD_SIZE.
Proof.
  intros [Hp Hs He]. apply Forall_cons in Hs as [Hs _]. unfold req_segs, seg_bytes in *.
  cbn [req.rq_pos req.rq_cur req.rq_rest concat] in *. rewrite length_app in He.
  split_and!; [done|done|lia].
Qed.

Lemma req_wf_tail pos wr s s2 rest :
  req_wf (req.mkRq pos wr s (s2 :: rest)) ->
  req_wf (req.mkRq (pos + Z.of_nat (length s) / 512) wr s2 rest).
Proof.
  intros Hr. pose proof (req_wf_cons _ _ _ _ Hr) as (Hp & Hs & He). destruct Hr as [_ Hsec _].
  apply Forall_cons in Hsec as [_ Hsec]. split; cbn [req.rq_pos]; [div_lia|exact Hsec|].
  rewrite sector_end by done. exact He || (unfold req_segs; cbn [req.rq_cur req.rq_rest]; lia).
Qed.

Lemma sector_addr pos : 0 <= pos -> 512 * pos <= RAMHD_SIZE -> u64 (pos * RAMHD_SECTOR_SIZE) = 512 * pos.
Proof.
  change RAMHD_SIZE with 8388608. change RAMHD_SECTOR_SIZE with 512. intros. rewrite u64_small; lia.
Qed.

Lemma transfer_write dat pos s rest :
  disk_data dat -> req_wf (req.mkRq pos true s rest) ->
  req.transfer dat (req.mkRq pos true s rest) = Some (splice dat (512 * pos) s, s).
Proof.
  intros Hd (Hp & _ & He)%req_wf_cons. unfold req.transfer. cbn [req.rq_pos req.rq_write req.rq_cur negb].
  rewrite sector_addr, copy_to_in by (unfold disk_data in Hd; lia). done.
Qed.

Lemma transfer_read dat pos s rest :
  disk_data dat -> req_wf (req.mkRq pos false s rest) ->
  req.transfer dat (req.mkRq pos false s rest) = Some (dat, slice dat (512 * pos) (length s)).
Proof.
  intros Hd (Hp & _ & He)%req_wf_cons. unfold req.transfer. cbn [req.rq_pos req.rq_write req.rq_cur negb].
  rewrite sector_addr, copy_from_in by (unfold disk_data in Hd; lia). done.
Qed.

(** One turn of the loop whose copy stays inside the disk. *)
Lemma req_loop_turn fuel dat pos wr s rest q done dat' b :
  req.transfer dat (req.mkRq pos wr s rest) = Some (dat', b) ->
  req.req_loop end_request_cur (S fuel) dat (req.mkRq pos wr s rest) q done =
    match rest with
    | [] => next_request fuel dat' q (done ++ [b])
    | s2 :: rest =>
        req.req_loop end_request_cur fuel dat'
          (req.mkRq (pos + Z.of_nat (length s) / 512) wr s2 rest) q (done ++ [b])
    end.
Proof.
  intros Ht. cbn [req.req_loop]. rewrite Ht. cbn [mbind option_bind]. rewrite Hend.
  cbn [req.rq_rest req.rq_pos req.rq_cur req.rq_write]. by destruct rest, q.
Qed.

Lemma req_loop_write rest fuel dat pos s q done :
  disk_data dat -> req_wf (req.mkRq pos true s rest) ->
  req.req_loop end_request_cur (S (length rest) + fuel) dat (req.mkRq pos true s rest) q done =
    next_request fuel (splice dat (512 * pos) (seg_bytes (s :: rest))) q (done ++ s :: rest).
Proof.
  revert dat pos s done; induction rest as [|s2 rest IH]; intros dat pos s done Hd Hr;
    pose proof (req_wf_cons _ _ _ _ Hr) as (Hp & Hs & He);
    cbn [length]; rewrite Nat.add_succ_l; erewrite req_loop_turn by (by apply transfer_write); unfold seg_bytes; cbn [concat].
  - by rewrite app_nil_r.
  - unfold disk_data in Hd. rewrite IH; [..|by apply req_wf_tail].
    + rewrite sector_end by done. unfold seg_bytes in *. rewrite splice_app by lia.
      by rewrite <- app_assoc.
    + unfold disk_data. by rewrite length_splice by lia.
Qed.

Lemma req_loop_read rest fuel dat pos s q done :
  disk_data dat -> req_wf (req.mkRq pos false s rest) ->
  req.req_loop end_request_cur (S (length rest) + fuel) dat (req.mkRq pos false s rest) q done =
    next_request fuel dat q
      (done ++ cut (slice dat (512 * pos) (length (seg_bytes (s :: rest)))) (s :: rest)).
Proof.
  revert pos s done; induction rest as [|s2 rest IH]; intros pos s done Hd Hr;
    pose proof (req_wf_cons _ _ _ _ Hr) as (Hp & Hs & He); pose proof Hd as Hd'; unfold disk_data in Hd';
    cbn [length]; rewrite Nat.add_succ_l; erewrite req_loop_turn by (by apply transfer_read);
    rewrite cut_slice_cons by lia.
  - done.
  - rewrite IH; [|done|by apply req_wf_tail].
    rewrite sector_end by done. by rewrite <- app_assoc.
Qed.

Lemma queue_spec q fuel dat done :
  disk_data dat -> Forall req_wf q ->
  next_request (turns q + fuel) dat q done =
    let '(dat', done') := spec_queue dat q in Some (dat', done ++ done').
Proof.
  revert dat done; induction q as [|r q IH]; intros dat done Hd Hq; cbn [spec_queue].
  { cbn. by rewrite app_nil_r. }
  apply Forall_cons in Hq as [Hr Hq]. destruct r as [pos wr s rest].
  unfold next_request. change (turns (req.mkRq pos wr s rest :: q)) with (S (length rest) + turns q)%nat.
  rewrite <- Nat.add_assoc. unfold spec_req. cbn [req.rq_write req.rq_pos].
  destruct wr.
  - rewrite req_loop_write by done. rewrite IH; [|..|done].
    + cbn [req_segs req.rq_cur req.rq_rest]. destruct (spec_queue _ q) as [d2 done2].
      by rewrite <- app_assoc.
    + destruct Hr as [Hp _ He]. unfold disk_data in *. cbn [req.rq_pos] in *.
      change (req_segs (req.mkRq pos true s rest)) with (s :: rest) in He.
      rewrite length_splice by lia. done.
  - rewrite req_loop_read by done. rewrite IH by done.
    cbn [req_segs req.rq_cur req.rq_rest]. destruct (spec_queue _ q) as [d2 done2].
    by rewrite <- app_assoc.
Qed.
End Queue.

(** ** A disk full of zeros *)

Module Zeros.
Definition data : list byte := replicate (Z.to_nat RAMHD_SIZE) x00.

Lemma disk : disk_data data.
Proof. unfold disk_data, data. rewrite length_replicate, Z2Nat.id; [done|]. vm_compute. congruence. Qed.

Definition seg : list byte := replicate 512 x61.
Definition last_bio : mkreq.bio := mkreq.mkBio 16383 512 mkreq.WRITE [seg].
Definition beyond_req : req.request := req.mkRq 16384 true seg [].
Definition two_sectors : req.request := req.mkRq 0 true seg [seg].
(** [__blk_end_request_cur] as documented. *)
Definition end_cur (r : req.request) : option req.request :=
  match req.rq_rest r with
  | [] => None
  | s :: rest => Some (req.mkRq (req.rq_pos r + Z.of_nat (length (req.rq_cur r)) / 512)
                                (req.rq_write r) s rest)
  end.
End Zeros.

(** ** Theorems *)

(** C20. [ramhd_make_request] refines one copy per bio. A bio that reaches past
    the 8 MB of the disk is ended with -EIO and nothing copied; any other is
    ended with 0 after a copy of its whole range, however it is cut into
    segments; no copy leaves the disk. *)
Theorem make_request_refines dat b :
  disk_data dat -> bio_wf b ->
  mkreq.ramhd_make_request dat b = Some (spec_bio dat b) /\
  length (spec_bio dat b).1.1 = length dat.
Proof.
  intros Hd [Hs Hsz Hdir He]. unfold mkreq.ramhd_make_request, spec_bio.
  change RAMHD_SECTOR_SIZE with 512. rewrite (Z.mul_comm (mkreq.bi_sector b)).
  rewrite (u64_small (512 * mkreq.bi_sector b)), u64_small by lia.
  unfold disk_data in Hd. destruct (Z.ltb_spec RAMHD_SIZE (512 * mkreq.bi_sector b + mkreq.bi_size b)); [done|].
  destruct Hdir as [-> | ->].
  - rewrite bio_segments_read by lia. done.
  - rewrite bio_segments_write by lia. split; [done|]. apply length_splice; lia.
Qed.

Lemma make_request_refines_witness :
  mkreq.ramhd_make_request Zeros.data Zeros.last_bio =
    Some (splice Zeros.data 8388096 (seg_bytes [Zeros.seg]), [Zeros.seg], 0).
Proof.
  assert (bio_wf Zeros.last_bio) as Hwf.
  { split; [vm_compute; congruence|vm_compute; reflexivity|right; reflexivity|vm_compute; reflexivity]. }
  exact (proj1 (make_request_refines Zeros.data Zeros.last_bio Zeros.disk Hwf)).
Defined.

(** C21. [ramhd_req_func] drains its queue. If [__blk_end_request_cur] moves on to
    the next segment as documented, then on any queue of requests inside the
    disk the function returns after one turn per segment, having copied every
    segment of every request, in order, to or from its place. *)
Theorem req_func_drains end_request_cur fuel dat q :
  ends_segments end_request_cur -> disk_data dat -> Forall req_wf q -> (turns q <= fuel)%nat ->
  req.ramhd_req_func end_request_cur fuel dat q = Some (spec_queue dat q).
Proof.
  intros Hend Hd Hq Hf. replace fuel with (turns q + (fuel - turns q))%nat by lia.
  pose proof (queue_spec end_request_cur Hend q (fuel - turns q) dat [] Hd Hq) as H.
  destruct (spec_queue dat q) as [d2 done2]. cbn [app] in H. etrans; [|exact H]. by destruct q.
Qed.

Lemma req_func_drains_witness :
  req.ramhd_req_func Zeros.end_cur 2 Zeros.data [Zeros.two_sectors] =
    Some (spec_queue Zeros.data [Zeros.two_sectors]).
Proof.
  apply (req_func_drains Zeros.end_cur 2 Zeros.data [Zeros.two_sectors]).
  - intros r. reflexivity.
  - exact Zeros.disk.
  - constructor; [|constructor]. split; [vm_compute; congruence| |vm_compute; congruence].
    repeat constructor.
  - vm_compute. reflexivity.
Defined.

(** [ramhd_req_func] checks nothing. Unlike the other two drivers it copies
    without comparing the request with the size of the disk: a request whose
    current segment ends past the disk makes it access other memory. *)
Theorem req_func_unchecked end_request_cur fuel dat r q :
  disk_data dat -> 0 <= req.rq_pos r -> 512 * req.rq_pos r < 18446744073709551616 ->
  RAMHD_SIZE < 512 * req.rq_pos r + Z.of_nat (length (req.rq_cur r)) ->
  req.ramhd_req_func end_request_cur (S fuel) dat (r :: q) = None.
Proof.
  intros Hd Hp Hw Hout. cbn [req.ramhd_req_func req.req_loop]. unfold req.transfer, disk_data in *.
  change req.RAMHD_SECTOR_SIZE with 512. rewrite u64_small by lia.
  unfold copy_from, copy_to. rewrite (proj2 (Z.leb_le 0 _)) by lia.
  rewrite (proj2 (Z.leb_gt _ _)) by lia. by destruct (req.rq_write r).
Qed.

Lemma req_func_unchecked_witness :
  req.ramhd_req_func Zeros.end_cur 1 Zeros.data [Zeros.beyond_req] = None.
Proof.
  apply (req_func_unchecked Zeros.end_cur 0 Zeros.data Zeros.beyond_req []).
  - exact Zeros.disk.
  - vm_compute. congruence.
  - vm_compute. reflexivity.
  - vm_compute. reflexivity.
Defined.












