(* ===== verification/SeqFile.v ===== *)
(** * The seq_file iterator: src/seqfile/seqfile_test.c

    A read-only virtual file that lists the numbers from 0, one a line. The
    kernel's seq_file code calls the four operations of [ct_seq_ops]; how it
    cuts the file into sessions is its own affair and an interface here
    ([SeqFile]). Positions are [loff_t]: 64-bit integers that wrap. *)
From Stdlib Require Import ZArith Strings.Byte.
From stdpp Require Import base gmap list strings.
From S2P Require Import Prelude Kernel.
Open Scope Z_scope.

(** The objects are [loff_t]s: the iterators and the position of the open
    file, which the kernel keeps. The rest of the state is the output
    [seq_printf] made. *)
Abbreviation seq_prog := (K Z (list Z)).

(** The address of the new iterator, or null. *)
Definition ct_seq_start (pos : Z) : seq_prog Z :=
  spos ← kalloc 0;
  if spos =? 0 then mret 0
  else
    p ← kload pos;
    kstore spos p;;
    mret spos.

Definition ct_seq_next (v pos : Z) : seq_prog Z :=
  let spos := v in
  p ← kload spos;
  kstore spos (s64 (p + 1));;
  p ← kload spos;
  kstore pos p;;
  mret spos.

Definition ct_seq_stop (v : Z) : seq_prog unit := kfree v.

(** [seq_printf(s, "%Ld\n", *spos)] *)
Definition ct_seq_show (v : Z) : seq_prog Z :=
  let spos := v in
  p ← kload spos;
  g ← kget;
  kput (g ++ [p]);;
  mret 0.

Record seq_operations : Type := mkSeqOps {
  start : Z -> seq_prog Z;
  next : Z -> Z -> seq_prog Z;
  stop : Z -> seq_prog unit;
  show : Z -> seq_prog Z;
}.

Definition ct_seq_ops : seq_operations :=
  mkSeqOps ct_seq_start ct_seq_next ct_seq_stop ct_seq_show.

(** ** The kernel's side

    As seq_file documents it: a session calls [start] with the position of the
    file, then [show] and [next] in turn on the iterator while there is one,
    then [stop], also of a null iterator. A record that does not fit the
    buffer is dropped after its [show] and shown again by a later session. *)

Fixpoint records (ops : seq_operations) (pos : Z) (n : nat) (v : Z) : seq_prog Z :=
  match n with
  | O => mret v
  | S n =>
      if v =? 0 then mret v
      else show ops v;; v ← next ops v pos; records ops pos n v
  end.

Definition dropped (ops : seq_operations) (v : Z) : seq_prog unit :=
  if v =? 0 then mret () else g ← kget; show ops v;; kput g.

(** [n] records, and whether one more is dropped. *)
Definition session (ops : seq_operations) (pos : Z) (l : nat * bool) : seq_prog unit :=
  v ← start ops pos;
  v ← records ops pos l.1 v;
  (if l.2 then dropped ops v else mret ());;
  stop ops v.

Fixpoint sessions (ops : seq_operations) (pos : Z) (ls : list (nat * bool)) : seq_prog unit :=
  match ls with
  | [] => mret ()
  | l :: ls => session ops pos l;; sessions ops pos ls
  end.

(** [seq_read] of a number of bytes on the file whose position is at [pos]: it
    runs sessions, which ones the kernel decides from all it knows. *)
Class SeqFile : Type := {
    seq_read : seq_operations -> Z -> nat -> seq_prog unit;
    seq_cut : seq_operations -> Z -> nat -> kstate Z (list Z) -> list (nat * bool);
    seq_read_sessions ops pos size s :
      seq_read ops pos size s = sessions ops pos (seq_cut ops pos size s) s;
}.

(** Reads of these sizes, one after the other. *)
Fixpoint seq_reads `{!SeqFile} (ops : seq_operations) (pos : Z) (sizes : list nat) : seq_prog unit :=
  match sizes with
  | [] => mret ()
  | size :: sizes => seq_read ops pos size;; seq_reads ops pos sizes
  end.

(** All the sessions they run. *)
Fixpoint seq_cuts `{!SeqFile} (ops : seq_operations) (pos : Z) (sizes : list nat)
    (s : kstate Z (list Z)) : list (nat * bool) :=
  match sizes with
  | [] => []
  | size :: sizes =>
      seq_cut ops pos size s ++
      match seq_read ops pos size s with
      | Some (_, s) => seq_cuts ops pos sizes s
      | None => []
      end
  end.

(** The file just opened: [seq_open] puts its position, at 1, to zero. *)
Definition seq_opened (g : list bool) : kstate Z (list Z) :=
  mkK _ _ {[ 1 := 0 ]} 2 g [] [] [].

(** ** Proofs *)

(** The records that the sessions show, given the allocations to come. *)
Fixpoint shown_count (ls : list (nat * bool)) (grants : list bool) : nat :=
  match ls with
  | [] => 0
  | l :: ls => (match head grants with Some true => l.1 | _ => 0 end) + shown_count ls (tail grants)
  end%nat.

(** The numbers from [p] on, as [loff_t]s. *)
Definition numbers (p : Z) (n : nat) : list Z := s64 <$> seqZ p (Z.of_nat n).

Lemma numbers_app p m n : numbers p (m + n) = numbers p m ++ numbers (p + Z.of_nat m) n.
Proof. unfold numbers. by rewrite Nat2Z.inj_add, seqZ_app, fmap_app by lia. Qed.

(** Between sessions: the position of the file alone, after [p] records. *)
Record between (p : Z) (s : kstate Z (list Z)) : Prop := {
    bt_objects : objects s = {[ 1 := s64 p ]};
    bt_next : 1 < next_id s;
}.

(** During one: an iterator with the same position. *)
Definition within (v p : Z) (s : kstate Z (list Z)) : Prop :=
  objects s = <[v := s64 p]> {[ 1 := s64 p ]} /\ 1 < v < next_id s.

Lemma within_show v p s :
  within v p s -> ct_seq_show v s = Some (0, with_statics (statics s ++ [s64 p]) s).
Proof.
  intros [Ho Hv]. unfold ct_seq_show. erewrite kbind_run; [reflexivity|].
  apply kload_run. rewrite Ho. by apply lookup_insert_eq.
Qed.

Lemma within_next v p s :
  within v p s -> exists s', ct_seq_next v 1 s = Some (v, s') /\ within v (p + 1) s' /\
    statics s' = statics s /\ grants s' = grants s.
Proof.
  intros [Ho Hv]. unfold ct_seq_next.
  erewrite kbind_run; [|apply kload_run; rewrite Ho; apply lookup_insert_eq]. cbv beta.
  erewrite kbind_run; [|eapply kstore_run; rewrite Ho; apply lookup_insert_eq]. cbv beta.
  erewrite kbind_run; [|apply kload_run; apply lookup_insert_eq]. cbv beta.
  erewrite kbind_run; [|eapply kstore_run; cbn; rewrite Ho, !lookup_insert_ne by lia; apply lookup_insert_eq].
  eexists. split; [reflexivity|]. split; [split|done]; cbn; [|lia].
  rewrite s64_succ, Ho, insert_insert_eq, (insert_insert_ne _ 1 v) by lia. by rewrite insert_singleton_eq.
Qed.

Lemma records_run n : forall v p s, within v p s ->
  exists s', records ct_seq_ops 1 n v s = Some (v, s') /\ within v (p + Z.of_nat n) s' /\
    statics s' = statics s ++ numbers p n /\ grants s' = grants s.
Proof.
  induction n as [|n IH]; intros v p s Hw.
  { exists s. by rewrite Z.add_0_r, app_nil_r. }
  cbn [records]. destruct (Z.eqb_spec v 0) as [->|_]; [destruct Hw; lia|].
  erewrite kbind_run by (by apply within_show). cbv beta.
  destruct (within_next v p (with_statics (statics s ++ [s64 p]) s)) as (s1 & H1 & Hw1 & Hs1 & Hg1); [done|].
  erewrite kbind_run by exact H1. destruct (IH _ _ _ Hw1) as (s' & H' & Hw' & Hs' & Hg').
  exists s'. split; [exact H'|].
  replace (p + Z.of_nat (S n)) with (p + 1 + Z.of_nat n) by lia. split; [done|].
  rewrite Hs', Hs1, Hg', Hg1. split; [|done]. change (S n) with (1 + n)%nat.
  rewrite numbers_app. cbn [statics with_statics]. by rewrite <- app_assoc.
Qed.

Lemma dropped_run v p s : within v p s -> dropped ct_seq_ops v s = Some (tt, s).
Proof.
  intros Hw. unfold dropped. destruct (Z.eqb_spec v 0) as [->|_]; [destruct Hw; lia|].
  unfold mbind at 1, K_bind at 1, kget. erewrite kbind_run by (by apply within_show). by destruct s.
Qed.

Lemma within_stop v p s :
  within v p s -> exists s', ct_seq_stop v s = Some (tt, s') /\ between p s' /\
    statics s' = statics s /\ grants s' = grants s.
Proof.
  intros [Ho Hv]. eexists. split; [|split; [|split]].
  - unfold ct_seq_stop. eapply kfree_run; [lia|]. rewrite Ho. apply lookup_insert_eq.
  - split; cbn; [|lia]. rewrite Ho, delete_insert_id; [done|]. by rewrite lookup_singleton_ne by lia.
  - done.
  - done.
Qed.

(** [start] by the answer to its allocation. *)
Lemma between_start p s :
  between p s -> exists v s', ct_seq_start 1 s = Some (v, s') /\ grants s' = tail (grants s) /\
    statics s' = statics s /\
    (if default false (head (grants s)) then within v p s' else v = 0 /\ between p s').
Proof.
  intros [Ho Hn]. unfold ct_seq_start, kalloc, mbind, K_bind. destruct (grants s) as [|[] g] eqn:Hg.
  - exists 0, s. by rewrite Hg.
  - rewrite (proj2 (Z.eqb_neq (next_id s) 0)) by lia. unfold kload. cbn [objects].
    rewrite lookup_insert_ne, Ho, lookup_singleton_eq by lia. unfold kstore. cbn [objects].
    rewrite lookup_insert_eq. eexists _, _. split; [reflexivity|]. split_and!; try done.
    split; cbn; [by rewrite insert_insert_eq|lia].
  - eexists 0, _. split; [reflexivity|]. by split_and!.
Qed.

Lemma one_session_run l p s :
  between p s -> exists s', session ct_seq_ops 1 l s = Some (tt, s') /\ grants s' = tail (grants s) /\
    (let k := shown_count [l] (grants s) in
     between (p + Z.of_nat k) s' /\ statics s' = statics s ++ numbers p k).
Proof.
  intros Hb. unfold session. destruct (between_start p s Hb) as (v & s1 & H1 & Hg1 & Hs1 & Hv).
  k_step H1. destruct l as [n d]. cbn [shown_count fst snd].
  destruct (grants s) as [|[] g]; cbn [head default tail] in *.
  2: { destruct (records_run n v p s1 Hv) as (s2 & H2 & Hw2 & Hs2 & Hg2). k_step H2.
    erewrite kbind_run; [|destruct d; [by eapply dropped_run|reflexivity]].
    destruct (within_stop _ _ _ Hw2) as (s3 & H3 & Hb3 & Hs3 & Hg3). exists s3.
    split; [exact H3|]. rewrite Nat.add_0_r, Hg3, Hg2, Hg1, Hs3, Hs2, Hs1. done. }
  all: destruct Hv as [-> Hb1]; exists s1; rewrite Z.add_0_r, app_nil_r; split; [|done];
    destruct n, d; reflexivity.
Qed.

Lemma sessions_run ls : forall p s, between p s ->
  exists s', sessions ct_seq_ops 1 ls s = Some (tt, s') /\
    (let k := shown_count ls (grants s) in
     between (p + Z.of_nat k) s' /\ statics s' = statics s ++ numbers p k).
Proof.
  induction ls as [|l ls IH]; intros p s Hb.
  { exists s. cbn. by rewrite Z.add_0_r, app_nil_r. }
  destruct (one_session_run l p s Hb) as (s1 & H1 & Hg1 & Hb1 & Hs1).
  destruct (IH _ _ Hb1) as (s2 & H2 & Hb2 & Hs2). exists s2. cbn [sessions]. k_step H1.
  split; [exact H2|]. rewrite Hg1 in *. cbn [shown_count] in *. rewrite Nat.add_0_r in *. cbv zeta.
  rewrite Nat2Z.inj_add, Z.add_assoc, numbers_app. by rewrite Hs2, Hs1, app_assoc.
Qed.

Lemma sessions_app ops pos l1 l2 s s' :
  sessions ops pos l1 s = Some (tt, s') -> sessions ops pos (l1 ++ l2) s = sessions ops pos l2 s'.
Proof.
  revert s. induction l1 as [|l l1 IH]; intros s; cbn [sessions app]; [by intros [= ->]|].
  unfold mbind, K_bind. destruct (session ops pos l s) as [[[] s1]|]; [apply IH|done].
Qed.

(** The reads are the sessions they run. *)
Lemma seq_reads_sessions `{!SeqFile} sizes : forall p s, between p s ->
  seq_reads ct_seq_ops 1 sizes s = sessions ct_seq_ops 1 (seq_cuts ct_seq_ops 1 sizes s) s.
Proof.
  induction sizes as [|size sizes IH]; intros p s Hb; [done|]. cbn [seq_reads seq_cuts].
  destruct (sessions_run (seq_cut ct_seq_ops 1 size s) p s Hb) as (s1 & H1 & Hb1 & _).
  pose proof (seq_read_sessions ct_seq_ops 1 size s) as Hr. rewrite H1 in Hr. k_step Hr.
  rewrite Hr, (sessions_app _ _ _ _ _ _ H1). by eapply IH.
Qed.

(** A kernel: a read of [size] bytes is one session that shows [size / 2]
    records and drops one more. *)
Definition demo_kernel : SeqFile :=
  {| seq_read := fun ops pos size => sessions ops pos [((size / 2)%nat, true)];
     seq_cut := fun _ _ size _ => [((size / 2)%nat, true)];
     seq_read_sessions := fun _ _ _ _ => eq_refl |}.

(** C37. Whatever sessions the kernel makes of the reads of the virtual file
    and whichever allocations are refused, no call faults and the sessions
    show consecutive numbers from 0 (as [loff_t], wrapping after 2^63 - 1),
    one for each record they ask for, none skipped and none repeated;
    a session whose allocation is refused shows nothing and loses nothing.
    Every iterator is freed and the position left is that of the next number.
    The kernel's own code is a parameter: it calls the operations in sessions
    as seq_file documents. *)
Theorem seq_reads_consecutive `{!SeqFile} sizes g :
  let n := shown_count (seq_cuts ct_seq_ops 1 sizes (seq_opened g)) g in
  exists s, seq_reads ct_seq_ops 1 sizes (seq_opened g) = Some (tt, s) /\
    statics s = s64 <$> seqZ 0 (Z.of_nat n) /\ objects s = {[ 1 := s64 (Z.of_nat n) ]}.
Proof.
  intros n. assert (between 0 (seq_opened g)) as Hb by (split; [done|cbn; lia]).
  destruct (sessions_run (seq_cuts ct_seq_ops 1 sizes (seq_opened g)) 0 _ Hb) as (s & Hs & [Ho _] & Hsh).
  exists s. by rewrite (seq_reads_sessions sizes 0) by done.
Qed.

(** Reads of 4, 6 and 2 bytes, the second without an iterator. *)
Lemma seq_reads_consecutive_witness :
  exists s, @seq_reads demo_kernel ct_seq_ops 1 [4; 6; 2]%nat (seq_opened [true; false; true]) = Some (tt, s) /\
    statics s = [0; 1; 2] /\ objects s = {[ 1 := 3 ]}.
Proof. exact (@seq_reads_consecutive demo_kernel [4; 6; 2]%nat [true; false; true]). Defined.
