(* ===== verification/Modules.v ===== *)
(** * Modules that register things with the kernel

    The character device, sysctl, proc, debugfs, tracepoint, kobject and device
    demonstrations: what their init functions register and their exit
    functions take back. The registration functions are the kernel's: an
    interface ([Registry]) in which an attempt may fail. *)
From Stdlib Require Import ZArith Strings.Byte.
From stdpp Require Import base gmultiset list strings.
From S2P Require Import Prelude Printf.
Open Scope Z_scope.

Definition EINVAL : Z := 22.

(** ** Registrations *)

(** What a module can hold: memory, device numbers, a character device, a
    proc entry, a debugfs entry, a sysctl table, a class, entries in sysfs (the
    one of a kset or kobject, a device, an attribute file), a probe on a
    tracepoint, a major number. Several of a kind are told apart by a number;
    the memory and the sysfs entry of a kobject have the same one. *)
Inductive resource : Type :=
  | Memory (n : Z)
  | ChrdevRegion
  | Cdev
  | ProcEntry
  | Debugfs (n : Z)
  | SysctlTable
  | Class_
  | Kobject (n : Z)
  | DeviceNode (n : Z)
  | SysfsFile
  | TraceProbe
  | ChrdevMajor.

#[global] Instance resource_eq_dec : EqDecision resource.
Proof. solve_decision. Defined.
#[global] Instance resource_countable : Countable resource.
Proof.
  refine (inj_countable'
    (fun r => match r with
              | Memory n => (0, n) | ChrdevRegion => (1, 0) | Cdev => (2, 0) | ProcEntry => (3, 0)
              | Debugfs n => (4, n) | SysctlTable => (5, 0) | Class_ => (6, 0) | Kobject n => (7, n)
              | DeviceNode n => (8, n) | SysfsFile => (9, 0) | TraceProbe => (10, 0) | ChrdevMajor => (11, 0)
              end)
    (fun p => match p with
              | (0, n) => Memory n | (1, _) => ChrdevRegion | (2, _) => Cdev | (3, _) => ProcEntry
              | (4, n) => Debugfs n | (5, _) => SysctlTable | (6, _) => Class_ | (7, n) => Kobject n
              | (8, n) => DeviceNode n | (9, _) => SysfsFile | (10, _) => TraceProbe
              | (_, _) => ChrdevMajor
              end) _); by intros [].
Defined.

(** [acquire] of what one call of the kernel gives: all of it with result 0, or
    nothing and a negative error number; [release] of something not held is a
    misuse, after which nothing is known. *)
Class Registry (S : Type) : Type := {
  acquire : gmultiset resource -> S -> Z * S;
  release : resource -> S -> option S;
  held : S -> gmultiset resource;
}.

Class RegistryOk (S : Type) `{Registry S} : Prop := {
  acquire_held X s e s' : acquire X s = (e, s') ->
    (e = 0 /\ held s' = held s ⊎ X) \/ (e < 0 /\ held s' = held s);
  release_held r s : r ∈ held s ->
    exists s', release r s = Some s' /\ held s' = held s ∖ {[+ r +]};
  release_misuse r s : r ∉ held s -> release r s = None;
}.

(** ** Programs *)

Definition R (S A : Type) : Type := S -> option (A * S).

Section Programs.
Context {S : Type} `{Registry S}.

#[global] Instance R_ret : MRet (R S) := fun A a s => Some (a, s).
#[global] Instance R_bind : MBind (R S) := fun A B f m s =>
  match m s with Some (a, s') => f a s' | None => None end.
Definition oops {A} : R S A := fun _ => None.
Definition attempt (X : gmultiset resource) : R S Z := fun s => Some (acquire X s).
Definition undo (r : resource) : R S unit := fun s =>
  match release r s with Some s' => Some (tt, s') | None => None end.

(** Loading a module and, when [init] returned 0, unloading it; [init] also
    leaves the static variables. *)
Definition life {G} (init : R S (Z * G)) (exit : G -> R S unit) : R S Z :=
  '(r, g) ← init;
  if r =? 0 then exit g;; mret r else mret r.

(** A constructor that returns a pointer: whether it is non-null. *)
Definition create (X : gmultiset resource) : R S bool := e ← attempt X; mret (e =? 0).

(** ** char/demo_chr_dev.c *)

Definition demo_init : R S (Z * unit) :=
  ret ← attempt {[+ ChrdevRegion +]};
  if ret <? 0 then mret (ret, ())
  else
    ret ← attempt {[+ Cdev +]};
    if ret <? 0 then mret (ret, ()) else mret (0, ()).

Definition demo_exit (_ : unit) : R S unit := undo Cdev;; undo ChrdevRegion.

(** ** sysctl/sysctl.c *)

Definition sysctl_example_init : R S (Z * unit) :=
  sysctl_header ← create {[+ SysctlTable +]};
  if negb sysctl_header then mret (-1, ()) else mret (0, ()).

Definition sysctl_example_exit (_ : unit) : R S unit := undo SysctlTable.

(** ** seqfile/seqfile_test.c *)

Definition ENOMEM : Z := 12.

Definition ct_init : R S (Z * unit) :=
  entry ← create {[+ ProcEntry +]};
  if negb entry then mret (- ENOMEM, ()) else mret (0, ()).

Definition ct_exit (_ : unit) : R S unit := undo ProcEntry.

(** ** trace_point/tracepoint-sample.c

    The result of registering the probe is ignored, and [sample_exit] leaves
    the probe registered. *)

Definition EPERM : Z := 1.

Definition sample_init : R S (Z * unit) :=
  pentry_sample ← create {[+ ProcEntry +]};
  if negb pentry_sample then mret (- EPERM, ())
  else _ ← attempt {[+ TraceProbe +]}; mret (0, ()).

Definition sample_exit (_ : unit) : R S unit := undo ProcEntry.

(** ** single_open/single_open.c; the static is [seq_file_demo_dir] *)

Definition seq_file_demo_init : R S (Z * bool) :=
  seq_file_demo_dir ← create {[+ Debugfs 0 +]}; mret (0, seq_file_demo_dir).

Definition seq_file_demo_exit (seq_file_demo_dir : bool) : R S unit :=
  if seq_file_demo_dir then undo (Debugfs 0) else mret ().

(** ** debugfs/debugfs_demo.c

    The locals [root] and [dbg_file] hide the variables of the same name that
    [debugfs_demo_exit] uses, which stay null. *)

Definition debugfs_demo_init : R S (Z * bool) :=
  data ← create {[+ Memory 0 +]};
  if negb data then oops                    (* strcpy(data->str, ...) *)
  else
    root ← create {[+ Debugfs 0 +]};
    dbg_file ← create {[+ Debugfs 1 +]};
    if negb dbg_file then
      (if root : bool then undo (Debugfs 0) else mret ());;
      undo (Memory 0);;
      mret (- EINVAL, false)
    else mret (0, false).

Definition debugfs_demo_exit (root : bool) : R S unit :=
  if root then undo (Debugfs 0) else mret ().
End Programs.

(** ** waitqueue/waitqueue.c

    [register_chrdev] returns the major number it chose ([free]), or a
    negative error number; [unregister_chrdev] looks the number up and does
    nothing for one that is not registered. *)
Module waitqueue.
Section waitqueue.
Context {S : Type} `{Registry S} (free : Z).

Definition register_chrdev : R S Z := e ← attempt {[+ ChrdevMajor +]}; mret (if e =? 0 then free else e).
Definition unregister_chrdev (major : Z) : R S unit :=
  if major =? free then undo ChrdevMajor else mret ().

Definition globalvar_init : R S (Z * Z) :=
  major ← register_chrdev;
  if major =? 0 then mret (-1, major) else mret (0, major).

Definition globalvar_exit (major : Z) : R S unit := unregister_chrdev major.
End waitqueue.
End waitqueue.

(** ** Kobjects

    [kobject_init_and_add] and [kobject_add] give the sysfs entry of a kobject
    the module provides; [kobject_create_and_add] and [kset_create_and_add] give
    the memory too. [kobject_del] takes the entry back and [kset_unregister]
    both; the memory of a kobject goes with its last [kobject_put], which no
    module here calls. *)
Section Kobjects.
Context {S : Type} `{Registry S}.

Definition kobject_add (n : Z) : R S Z := attempt {[+ Kobject n +]}.
Definition kobject_create_and_add (n : Z) : R S bool := create {[+ Memory n; Kobject n +]}.
Definition kset_create_and_add (n : Z) : R S bool := create {[+ Memory n; Kobject n +]}.
Definition kobject_del (n : Z) : R S unit := undo (Kobject n).
Definition kset_unregister (n : Z) : R S unit := undo (Kobject n);; undo (Memory n).
End Kobjects.

(** kset_init_register/kset.c; the statics [example_kset], [parent] and
    [child] are non-null after an [example_init] that returned 0. *)
Module kset.
Section kset.
Context {S : Type} `{Registry S}.

Definition example_init : R S (Z * unit) :=
  example_kset ← kset_create_and_add 0;
  if negb example_kset then mret (-1, ())
  else
    parent ← kobject_create_and_add 1;
    if negb parent then mret (-1, ())
    else
      child ← create {[+ Memory 2 +]};
      if negb child then oops               (* kobject_init_and_add(NULL, ...) *)
      else
        ret ← kobject_add 2;
        if negb (ret =? 0) then mret (ret, ())
        else
          ret ← attempt {[+ SysfsFile +]};
          if negb (ret =? 0) then mret (ret, ()) else mret (0, ()).

Definition example_exit (_ : unit) : R S unit :=
  undo SysfsFile;; kobject_del 2;; kobject_del 1;; kset_unregister 0.
End kset.

(** [child_attr_show] and [child_attr_store] share the static [flag]. *)
Inductive kobject_action : Type :=
  | KOBJ_ADD | KOBJ_REMOVE | KOBJ_CHANGE | KOBJ_MOVE | KOBJ_ONLINE | KOBJ_OFFLINE.

(** The text in the page and its length. *)
Definition child_attr_show (flag : Z) : list byte * Z :=
  let text := default [] (format (chars "%lu" ++ newline) [AInt flag]) in (text, Z.of_nat (length text)).

(** The new [flag] (an [unsigned long]), the event sent, and the result. *)
Definition child_attr_store (buf : list byte) (count : Z) : Z * option kobject_action * Z :=
  let flag := u64 (s8 (byte_val (default x00 (head buf))) - 48) in
  (flag,
   if flag =? 0 then Some KOBJ_ADD
   else if flag =? 1 then Some KOBJ_REMOVE
   else if flag =? 2 then Some KOBJ_CHANGE
   else if flag =? 3 then Some KOBJ_MOVE
   else if flag =? 4 then Some KOBJ_ONLINE
   else if flag =? 5 then Some KOBJ_OFFLINE
   else None,
   count).
End kset.

(** kobj_init_add/kobj.c *)
Module kobj_init_add.
Section kobj_init_add.
Context {S : Type} `{Registry S}.

Definition example_init_and_add_seperate : R S Z :=
  ret ← kobject_add 0; if negb (ret =? 0) then mret ret else mret 0.
Definition example_init_and_add : R S Z :=
  ret ← kobject_add 1; if negb (ret =? 0) then mret ret else mret 0.

Definition example_init : R S (Z * unit) :=
  ret ← example_init_and_add_seperate;
  if negb (ret =? 0) then mret (ret, ())
  else
    ret ← example_init_and_add;
    if negb (ret =? 0) then mret (ret, ()) else mret (0, ()).

Definition example_exit (_ : unit) : R S unit := kobject_del 0;; kobject_del 1.
End kobj_init_add.
End kobj_init_add.

(** kobj_create_add/kobj.c; the static [parent] may stay null. *)
Module kobj_create_add.
Section kobj_create_add.
Context {S : Type} `{Registry S}.

Definition example_create_and_add_seperate : R S (Z * bool) :=
  parent ← kobject_create_and_add 0; mret (0, parent).
Definition example_create_and_add : R S Z :=
  child ← kobject_create_and_add 1; if negb child then mret (-1) else mret 0.

Definition example_init : R S (Z * bool) :=
  '(ret, parent) ← example_create_and_add_seperate;
  if negb (ret =? 0) then mret (ret, parent)
  else
    ret ← example_create_and_add;
    if negb (ret =? 0) then mret (ret, parent) else mret (0, parent).

Definition example_exit (parent : bool) : R S unit :=
  (if parent then kobject_del 0 else mret ());;
  (if parent then kobject_del 0 else mret ()).
End kobj_create_add.
End kobj_create_add.

(** ** Devices: device-demo *)

(** device_class/device_demo.c *)
Module device_class.
Section device_class.
Context {S : Type} `{Registry S}.

Definition device_demo_init_and_add (dev : Z) : R S Z :=
  ret ← attempt {[+ DeviceNode dev +]}; if negb (ret =? 0) then mret ret else mret 0.

(** A failed [class_create] returns an error pointer, so the check for null
    that follows does not see it; a device of that class cannot be added. *)
Definition device_demo_init : R S (Z * unit) :=
  class_demo ← attempt {[+ Class_ +]};
  device_demo_init_and_add 0;;
  device_demo_init_and_add 1;;
  device_demo_init_and_add 2;;
  if negb (class_demo =? 0) then oops
  else
    device_demo_init_and_add 3;;
    device_demo_init_and_add 4;;
    mret (0, ()).

Definition device_demo_exit (_ : unit) : R S unit :=
  undo (DeviceNode 0);;
  undo (DeviceNode 1);; undo (DeviceNode 2);; undo (DeviceNode 3);; undo (DeviceNode 4);;
  undo Class_.
End device_class.
End device_class.

(** device_register/device_demo.c *)
Module device_register.
Section device_register.
Context {S : Type} `{Registry S}.

Definition device_demo_regiser : R S Z :=
  ret ← attempt {[+ DeviceNode 0 +]}; if negb (ret =? 0) then mret ret else mret 0.
Definition device_demo_init : R S (Z * unit) := device_demo_regiser;; mret (0, ()).
Definition device_demo_exit (_ : unit) : R S unit := undo (DeviceNode 0).
End device_register.
End device_register.

(** device_init_and_add/device_demo.c *)
Module device_init_and_add.
Section device_init_and_add.
Context {S : Type} `{Registry S}.

Definition device_demo_init_and_add (dev : Z) : R S Z :=
  ret ← attempt {[+ DeviceNode dev +]}; if negb (ret =? 0) then mret ret else mret 0.
Definition device_demo_init : R S (Z * unit) := device_demo_init_and_add 0;; mret (0, ()).
Definition device_demo_exit (_ : unit) : R S unit := undo (DeviceNode 0).
End device_init_and_add.
End device_init_and_add.
