(* ===== verification/ModulesProps.v ===== *)
(** * What the demonstration modules leave behind

    For every registry that keeps its contract: what a module still holds
    after it was loaded and, if the loading succeeded, unloaded. *)
From Stdlib Require Import ZArith Strings.Byte.
From stdpp Require Import base gmultiset list strings.
From S2P Require Import Prelude Printf Modules.
Open Scope Z_scope.

(** ** Outcomes *)

(** What loading and unloading come to, by the answers to the attempts in the
    order they are made: an oops or misuse, or the result of the init function
    and what is left held. *)
Inductive outcome : Type :=
  | Crash
  | Left_ (r : Z) (X : gmultiset resource)
  | Try (X : gmultiset resource) (ok : outcome) (failed : Z -> outcome).

Section Ends.
Context {S : Type} `{RegistryOk S}.
Implicit Types s : S.

(** [res] is what [t] says for the answers the registry gives from [s]. *)
Fixpoint ends (t : outcome) (s : S) (res : option (Z * S)) : Prop :=
  match t with
  | Crash => res = None
  | Left_ r X => exists s', res = Some (r, s') /\ held s' = X
  | Try X ok failed =>
      let '(e, s') := acquire X s in if e =? 0 then ends ok s' res else ends (failed e) s' res
  end.

Lemma ends_assoc t s0 {A B} (m : R S A) (f : A -> R S B) (g : B -> R S Z) s :
  ends t s0 ((m ≫= fun a => f a ≫= g) s) -> ends t s0 (((m ≫= f) ≫= g) s).
Proof.
  assert (((m ≫= f) ≫= g) s = (m ≫= fun a => f a ≫= g) s) as ->; [|done].
  unfold mbind, R_bind. by destruct (m s) as [[]|].
Qed.

Lemma ends_ret t s0 {A} (a : A) (f : A -> R S Z) s :
  ends t s0 (f a s) -> ends t s0 (((mret a : R S A) ≫= f) s).
Proof. done. Qed.

Lemma ends_attempt X ok failed (f : Z -> R S Z) s :
  (forall s', held s' = held s ⊎ X -> ends ok s' (f 0 s')) ->
  (forall e s', (e =? 0) = false -> (e <? 0) = true -> held s' = held s -> ends (failed e) s' (f e s')) ->
  ends (Try X ok failed) s ((attempt X ≫= f) s).
Proof.
  intros H1 H2. unfold mbind, R_bind, attempt. cbn [ends]. destruct (acquire X s) as [e s'] eqn:E.
  apply acquire_held in E as [[-> Hh]|[He Hh]]; [by apply H1|].
  rewrite (proj2 (Z.eqb_neq e 0)) by lia. apply H2; [apply Z.eqb_neq; lia|by apply Z.ltb_lt|done].
Qed.

Lemma ends_undo t s0 r X (f : unit -> R S Z) s :
  held s = X -> bool_decide (r ∈ X) = true ->
  (forall s', held s' = X ∖ {[+ r +]} -> ends t s0 (f tt s')) -> ends t s0 ((undo r ≫= f) s).
Proof.
  intros Hs Hr%bool_decide_eq_true Hf. rewrite <- Hs in Hr. destruct (release_held r s Hr) as (s' & E & Hh).
  unfold mbind, R_bind, undo. rewrite E. apply Hf. congruence.
Qed.

Lemma ends_left r X Y s0 s : held s = Y -> bool_decide (Y = X) = true -> ends (Left_ r X) s0 ((mret r : R S Z) s).
Proof. intros Hs ->%bool_decide_eq_true. by exists s. Qed.
End Ends.

(** Follows a program and its outcome together. *)
Ltac e_held := match goal with E : held ?x = _, F : held ?y = held ?x |- _ => rewrite E in F; clear E
                             | E : held ?x = _, F : held ?y = held ?x ⊎ _ |- _ => rewrite E in F; clear E end.
Ltac e_step :=
  match goal with
  | E : (?e =? 0) = false |- context [?e =? 0] => rewrite E
  | E : (?e <? 0) = true |- context [?e <? 0] => rewrite E
  | |- context [ - ?n =? 0 ] => let b := eval vm_compute in (- n =? 0) in change (- n =? 0) with b
  | |- ends _ _ (((_ ≫= _) ≫= _) _) => apply ends_assoc
  | |- ends (Try _ _ _) _ ((attempt _ ≫= _) _) => apply ends_attempt; intros; e_held
  | |- ends _ _ ((undo _ ≫= _) _) => eapply ends_undo; [eassumption|by vm_compute|intros]
  | |- ends _ _ ((oops ≫= _) _) => reflexivity
  | |- ends (Left_ _ _) _ (mret _ _) => eapply ends_left; [eassumption|by vm_compute]
  | |- ends _ _ ((mret _ ≫= _) _) => apply ends_ret
  | |- ends _ _ _ => progress cbn [negb Z.ltb Z.eqb Z.compare]
  | |- ends _ _ _ => progress cbv beta iota
  end.

Ltac lives :=
  unfold life, sample_init, sample_exit, EPERM, sysctl_example_init, sysctl_example_exit, ct_init, ct_exit, seq_file_demo_init,
    seq_file_demo_exit, demo_init, demo_exit, debugfs_demo_init, debugfs_demo_exit, kset.example_init, kset.example_exit,
    kobj_init_add.example_init, kobj_init_add.example_exit,
    kobj_init_add.example_init_and_add_seperate, kobj_init_add.example_init_and_add,
    waitqueue.globalvar_init, waitqueue.globalvar_exit, waitqueue.register_chrdev, waitqueue.unregister_chrdev,
    kset_create_and_add, kobject_create_and_add, kobject_add, kobject_del, kset_unregister, create, EINVAL, ENOMEM.

Section Lives.
Context {S : Type} `{RegistryOk S}.
Implicit Types s : S.

(** C38. For every registry and whatever it refuses, from a module that holds
    nothing, loading and (after result 0) unloading release nothing that is not
    held and come to exactly this. sysctl, proc and single_open: nothing is
    left. The character device: nothing, but the reserved numbers when the
    device cannot be added. debugfs: once loaded, its file, its data and its
    directory (if it was created) stay, for its exit function uses a variable
    that its init function hides; a refused file leaves nothing, refused memory
    is used all the same. kset: after a normal life the memory of both kobjects
    stays; a failure keeps everything obtained before it, refused memory for
    the child is used all the same. Two kobjects: the first stays when the
    second is refused. Tracepoint: the probe stays when it was registered. *)
Theorem module_lives s :
  held s = ∅ ->
  ends (Try {[+ SysctlTable +]} (Left_ 0 ∅) (fun _ => Left_ (-1) ∅)) s
    (life sysctl_example_init sysctl_example_exit s) /\
  ends (Try {[+ ProcEntry +]} (Left_ 0 ∅) (fun _ => Left_ (-12) ∅)) s (life ct_init ct_exit s) /\
  ends (Try {[+ Debugfs 0 +]} (Left_ 0 ∅) (fun _ => Left_ 0 ∅)) s
    (life seq_file_demo_init seq_file_demo_exit s) /\
  ends (Try {[+ ChrdevRegion +]}
         (Try {[+ Cdev +]} (Left_ 0 ∅) (fun e => Left_ e {[+ ChrdevRegion +]}))
         (fun e => Left_ e ∅)) s (life demo_init demo_exit s) /\
  ends (Try {[+ Memory 0 +]}
         (Try {[+ Debugfs 0 +]}
           (Try {[+ Debugfs 1 +]} (Left_ 0 {[+ Memory 0; Debugfs 0; Debugfs 1 +]}) (fun _ => Left_ (-22) ∅))
           (fun _ => Try {[+ Debugfs 1 +]} (Left_ 0 {[+ Memory 0; Debugfs 1 +]}) (fun _ => Left_ (-22) ∅)))
         (fun _ => Crash)) s (life debugfs_demo_init debugfs_demo_exit s) /\
  ends (let kset := {[+ Memory 0; Kobject 0 +]} in let parent := {[+ Memory 1; Kobject 1 +]} in
        Try kset
         (Try parent
           (Try {[+ Memory 2 +]}
             (Try {[+ Kobject 2 +]}
               (Try {[+ SysfsFile +]} (Left_ 0 {[+ Memory 1; Memory 2 +]})
                 (fun e => Left_ e (kset ⊎ parent ⊎ {[+ Memory 2; Kobject 2 +]})))
               (fun e => Left_ e (kset ⊎ parent ⊎ {[+ Memory 2 +]})))
             (fun _ => Crash))
           (fun _ => Left_ (-1) kset))
         (fun _ => Left_ (-1) ∅)) s (life kset.example_init kset.example_exit s) /\
  ends (Try {[+ Kobject 0 +]}
         (Try {[+ Kobject 1 +]} (Left_ 0 ∅) (fun e => Left_ e {[+ Kobject 0 +]}))
         (fun e => Left_ e ∅)) s (life kobj_init_add.example_init kobj_init_add.example_exit s) /\
  ends (Try {[+ ProcEntry +]}
         (Try {[+ TraceProbe +]} (Left_ 0 {[+ TraceProbe +]}) (fun _ => Left_ 0 ∅))
         (fun _ => Left_ (-1) ∅)) s (life sample_init sample_exit s).
Proof.
  intros Hs. lives. split_and!; repeat e_step.
Qed.

(** A refused registration goes unnoticed, since it does not give 0:
    [globalvar_init] always succeeds, and unloading is clean in both cases. *)
Lemma globalvar_life free s :
  0 < free -> held s = ∅ ->
  ends (Try {[+ ChrdevMajor +]} (Left_ 0 ∅) (fun _ => Left_ 0 ∅)) s
    (life (waitqueue.globalvar_init free) (waitqueue.globalvar_exit free) s).
Proof.
  intros Hf Hs. lives. repeat e_step.
  - rewrite (proj2 (Z.eqb_neq free 0)) by lia. repeat e_step. rewrite Z.eqb_refl. repeat e_step.
  - rewrite (proj2 (Z.eqb_neq e free)) by (match goal with E : (e <? 0) = true |- _ => apply Z.ltb_lt in E; lia end).
    repeat e_step.
Qed.
End Lives.

(** ** A registry *)

(** The results of the attempts to come (0 when they run out), and what is
    held. *)
Record bench : Type := mkBench { b_answers : list Z; b_held : gmultiset resource }.

Definition b_acquire (X : gmultiset resource) (s : bench) : Z * bench :=
  let e := default 0 (head (b_answers s)) in
  if e <? 0 then (e, mkBench (tail (b_answers s)) (b_held s))
  else (0, mkBench (tail (b_answers s)) (b_held s ⊎ X)).

Definition b_release (r : resource) (s : bench) : option bench :=
  if decide (r ∈ b_held s) then Some (mkBench (b_answers s) (b_held s ∖ {[+ r +]})) else None.

#[global] Instance bench_registry : Registry bench :=
  {| acquire := b_acquire; release := b_release; held := b_held |}.

#[global] Instance bench_ok : RegistryOk bench.
Proof.
  split; cbn.
  - intros X s e s'. unfold b_acquire. case_cmp; intros [= <- <-]; [by right|by left].
  - intros r s Hr. unfold b_release. rewrite decide_True by done. by eexists.
  - intros r s Hr. unfold b_release. by rewrite decide_False.
Qed.

Definition empty_bench (answers : list Z) : bench := mkBench answers ∅.

Lemma empty_bench_held answers : held (empty_bench answers) = ∅.
Proof. done. Qed.

(** The second attempt fails: the numbers of the character device stay
    reserved. *)
Lemma module_lives_witness :
  ends (Try {[+ ChrdevRegion +]}
         (Try {[+ Cdev +]} (Left_ 0 ∅) (fun e => Left_ e {[+ ChrdevRegion +]}))
         (fun e => Left_ e ∅)) (empty_bench [0; -12]) (life demo_init demo_exit (empty_bench [0; -12])) /\
  (match life demo_init demo_exit (empty_bench [0; -12]) with
   | Some (r, s') => (r, elements (held s'))
   | None => (0, [])
   end) = (-12, [ChrdevRegion]).
Proof.
  destruct (module_lives (empty_bench [0; -12]) (empty_bench_held [0; -12])) as (_ & _ & _ & Hchr & _).
  split; [exact Hchr|]. vm_compute. reflexivity.
Defined.

(** Misuse: the device modules ignore that [device_add] failed and delete the
    device nevertheless, and one uses the error pointer of [class_create]; kobj_create_add deletes the parent twice, and the
    child never. *)
Example modules_misuse :
  life device_class.device_demo_init device_class.device_demo_exit (empty_bench [0; 0; -22]) = None /\
  life device_class.device_demo_init device_class.device_demo_exit (empty_bench [-12]) = None /\
  life device_register.device_demo_init device_register.device_demo_exit (empty_bench [-22]) = None /\
  life device_init_and_add.device_demo_init device_init_and_add.device_demo_exit (empty_bench [-22]) = None /\
  life kobj_create_add.example_init kobj_create_add.example_exit (empty_bench []) = None.
Proof. split_and!; vm_compute; reflexivity. Qed.

(** ** The attribute of the kset module *)

(** A digit written is the digit read back, and 0 to 5 send their event. *)
Lemma child_attr_roundtrip d :
  0 <= d <= 9 ->
  fst (fst (kset.child_attr_store [byte_of (48 + d); "010"%byte] 2)) = d /\
  kset.child_attr_show d = ([byte_of (48 + d); "010"%byte], 2) /\
  (match snd (fst (kset.child_attr_store [byte_of (48 + d); "010"%byte] 2)) with Some _ => true | None => false end) = (d <=? 5).
Proof.
  intros Hd. assert (d ∈ [0; 1; 2; 3; 4; 5; 6; 7; 8; 9]) as Hin by (rewrite !elem_of_cons; lia).
  repeat (apply elem_of_cons in Hin as [->|Hin]; [by split_and!|]). by apply elem_of_nil in Hin.
Qed.
