(* ===== verification/Net.v ===== *)
(** * Programs that talk to the kernel by system calls

    What the epoll server and its client share: the calls with the answers
    they can have, a monad of programs in any environment that answers them,
    and the functions of the C library they use on strings and numbers. *)
From Stdlib Require Import ZArith Strings.Byte.
From stdpp Require Import base list strings.
From S2P Require Import Prelude.
Open Scope Z_scope.

(** ** System calls *)

Inductive epoll_op : Type := EPOLL_CTL_ADD | EPOLL_CTL_DEL.

(** A call and the type of its answer. A failed [epoll_wait] or [read] and
    the end of [fgets] are [None]; [write] answers its result and whether
    [errno] is [EINTR]. *)
Inductive call : Type -> Type :=
  | Socket : call Z
  | Setsockopt (fd : Z) : call Z
  | Bind (fd addr port : Z) : call Z
  | Listen (fd backlog : Z) : call Z
  | Connect (fd addr port : Z) : call Z
  | Accept (fd : Z) : call Z
  | EpollCreate (size : Z) : call Z
  | EpollCtl (epfd : Z) (op : epoll_op) (fd : Z) : call Z
  | EpollWait (epfd maxevents : Z) : call (option (list Z))
  | Read (fd : Z) (n : nat) : call (option (list byte))
  | Write (fd : Z) (bs : list byte) : call (Z * bool)
  | Close (fd : Z) : call Z
  | Fgets (n : nat) : call (option (list byte))
  | Print (fmt : string) (strs : list (list byte)) (nums : list Z) : call unit.

(** An environment answers calls; [inet_addr] is the C library's. *)
Class Net (E : Type) : Type := {
  sys : forall {A}, call A -> E -> A * E;
  inet_addr : list byte -> Z;
}.

(** ** Programs *)

(** [Exit]: the program calls [exit]; [UB]: undefined behaviour. *)
Inductive outcome (A : Type) : Type :=
  | Ret (a : A)
  | Exit (status : Z)
  | UB.
Arguments Ret {A} a.
Arguments Exit {A} status.
Arguments UB {A}.

Definition N (E A : Type) : Type := E -> outcome A * E.

Section Monad.
Context {E : Type}.
#[global] Instance N_ret : MRet (N E) := fun A a e => (Ret a, e).
#[global] Instance N_bind : MBind (N E) := fun A B f m e =>
  match m e with
  | (Ret a, e) => f a e
  | (Exit n, e) => (Exit n, e)
  | (UB, e) => (UB, e)
  end.
Definition exit {A} (status : Z) : N E A := fun e => (Exit status, e).
Definition undefined {A} : N E A := fun e => (UB, e).
Definition ask {A} `{Net E} (c : call A) : N E A := fun e => let '(a, e) := sys c e in (Ret a, e).
Definition print `{Net E} (fmt : string) (strs : list (list byte)) (nums : list Z) : N E unit :=
  ask (Print fmt strs nums).
End Monad.

Lemma ask_run {E A B} `{Net E} (c : call A) (f : A -> N E B) e a e' :
  sys c e = (a, e') -> (ask c ≫= f) e = f a e'.
Proof. unfold mbind, N_bind, ask. by intros ->. Qed.

Lemma nbind_run {E A B} (m : N E A) (f : A -> N E B) e a e' :
  m e = (Ret a, e') -> (m ≫= f) e = f a e'.
Proof. unfold mbind, N_bind. by intros ->. Qed.

(** Executes the leading bind of the goal with a known run. *)
Ltac n_step H := first [erewrite nbind_run by exact H | erewrite ask_run by exact H]; cbv beta.

(** ** Strings and numbers *)

(** [memset(buf, 0, size)] and a read of [bs] into the array. *)
Definition buffer (size : nat) (bs : list byte) : list byte := bs ++ replicate (size - length bs) x00.

Definition is_space (b : Z) : bool := (b =? 32) || ((9 <=? b) && (b <=? 13)).
Definition is_digit (b : Z) : bool := (48 <=? b) && (b <=? 57).

Fixpoint digits (acc : Z) (s : list byte) : Z :=
  match s with
  | b :: s => if is_digit (byte_val b) then digits (acc * 10 + (byte_val b - 48)) s else acc
  | [] => acc
  end.

Fixpoint skip_space (s : list byte) : list byte :=
  match s with
  | b :: s' => if is_space (byte_val b) then skip_space s' else s
  | [] => []
  end.

(** [atoi]; out of the range of [int] the number wraps. *)
Definition atoi (s : list byte) : Z :=
  match skip_space s with
  | b :: s' =>
      if byte_val b =? 45 then s32 (- digits 0 s')
      else if byte_val b =? 43 then s32 (digits 0 s')
      else s32 (digits 0 (b :: s'))
  | [] => 0
  end.

(** [htons] on a little-endian machine. *)
Definition htons (n : Z) : Z :=
  let n := u16 n in Z.lor (Z.shiftl (Z.land n 255) 8) (Z.shiftr n 8).

Definition tolower (b : Z) : Z := if (65 <=? b) && (b <=? 90) then b + 32 else b.

(** [strncasecmp(a, b, n) == 0] on strings without their terminators. *)
Fixpoint strncaseeq (n : nat) (a b : list byte) : bool :=
  match n with
  | O => true
  | S n =>
      match a, b with
      | [], [] => true
      | x :: a, y :: b => (tolower (byte_val x) =? tolower (byte_val y)) && strncaseeq n a b
      | _, _ => false
      end
  end.
