(* ===== verification/Epoll.v ===== *)
(** * The epoll server and its client: src/epoll

    The server watches a listening socket and the connections it accepts; the
    client sends the lines it reads from the terminal. The endless loops are
    given a number of turns. *)
From Stdlib Require Import ZArith Strings.Byte.
From stdpp Require Import base list strings.
From S2P Require Import Prelude Net.
Open Scope Z_scope.

(** ** epoll_server.c *)

Definition epoll_num : Z := 20.
Definition BUFLEN : nat := 128.
Definition server_fmt : string := "read buf=%s".

Section Server.
Context {E : Type} `{Net E}.

Definition socket_server (addr port : list byte) : N E Z :=
  sockfd ← ask Socket;
  if sockfd <? 0 then print "socket" [] [];; mret (-1)
  else
    ask (Setsockopt sockfd);;
    b ← ask (Bind sockfd (inet_addr addr) (htons (atoi port)));
    if b <? 0 then print "bind" [] [];; mret (-1)
    else
      l ← ask (Listen sockfd 5);
      if l <? 0 then print "listen" [] [];; mret (-1)
      else mret sockfd.

(** The body of the [for] over the events. *)
Definition serve_event (epoll_sockfd epoll_fd fd : Z) : N E unit :=
  print "epoll_wait return = %d" [] [fd];;
  if fd =? epoll_sockfd then
    client_fd ← ask (Accept fd);
    if client_fd <? 0 then print "accept error" [] [];; exit 1
    else ask (EpollCtl epoll_fd EPOLL_CTL_ADD client_fd);; mret ()
  else
    rd ← ask (Read fd BUFLEN);
    match rd with
    | None => mret ()
    | Some [] => ask (EpollCtl epoll_fd EPOLL_CTL_DEL fd);; mret ()
    | Some bs =>
        match array_string (buffer BUFLEN bs) with
        | Some s => print server_fmt [s] []
        | None => undefined
        end
    end.

Fixpoint serve_events (epoll_sockfd epoll_fd : Z) (events : list Z) : N E unit :=
  match events with
  | [] => mret ()
  | fd :: events => serve_event epoll_sockfd epoll_fd fd;; serve_events epoll_sockfd epoll_fd events
  end.

(** One turn of [while(1)]. *)
Definition serve_round (epoll_sockfd epoll_fd : Z) : N E unit :=
  ready ← ask (EpollWait epoll_fd epoll_num);
  print "epoll_wait return = %d" [] [match ready with None => -1 | Some l => Z.of_nat (length l) end];;
  serve_events epoll_sockfd epoll_fd (default [] ready).

Fixpoint serve (n : nat) (epoll_sockfd epoll_fd : Z) : N E unit :=
  match n with
  | O => mret ()
  | S n => serve_round epoll_sockfd epoll_fd;; serve n epoll_sockfd epoll_fd
  end.

(** [main]: its result, or [None] after [n] turns of the loop. *)
Definition server_main (n : nat) (argv : list (list byte)) : N E (option Z) :=
  match argv with
  | [_; addr; port] =>
      epoll_sockfd ← socket_server addr port;
      if epoll_sockfd <? 0 then print "socket_server error" [] [];; mret (Some (-1))
      else
        epoll_fd ← ask (EpollCreate 1);
        ask (EpollCtl epoll_fd EPOLL_CTL_ADD epoll_sockfd);;
        serve n epoll_sockfd epoll_fd;;
        mret None
  | _ => print "Usage:%s serverip port." [default [] (head argv)] [];; mret (Some (-1))
  end.
End Server.

(** ** epoll_client.c *)

Definition BUFLN : nat := 128.
Definition QUIT_STR : list byte := chars "quit".

Section Client.
Context {E : Type} `{Net E}.

Definition usage (s : list byte) : N E unit :=
  print "%s serv_ip serv_port" [s] [];;
  print "serv_ip : server ip address" [] [];;
  print "serv_port: server port (>5000)" [] [].

(** [do ret = write(fd, buf, strlen(buf)); while (ret < 0 && EINTR == errno);]
    [None]: still trying after [n] turns. *)
Fixpoint write_retry (n : nat) (fd : Z) (bs : list byte) : N E (option Z) :=
  match n with
  | O => mret None
  | S n =>
      '(ret, eintr) ← ask (Write fd bs);
      if (ret <? 0) && eintr then write_retry n fd bs else mret (Some ret)
  end.

(** [while(1)]: whether it was left, by [break], within [n] turns of each
    loop. *)
Fixpoint talk (n : nat) (fd : Z) : N E bool :=
  match n with
  | O => mret false
  | S n =>
      print "Please enter the:" [] [];;
      line ← ask (Fgets (BUFLN - 1));
      match line with
      | None => talk n fd
      | Some line =>
          match array_string (buffer BUFLN line) with
          | None => undefined
          | Some buf =>
              ret ← write_retry n fd buf;
              match ret with
              | None => mret false
              | Some _ =>
                  if strncaseeq (length QUIT_STR) buf QUIT_STR then
                    print "Client is exiting" [] [];; mret true
                  else talk n fd
              end
          end
      end
  end.

(** [main]: its result, or [None] when it is still running. *)
Definition client_main (n : nat) (argv : list (list byte)) : N E (option Z) :=
  match argv with
  | [prog; serv_ip; serv_port] =>
      fd ← ask Socket;
      if fd <? 0 then print "socket" [] [];; exit 1
      else
        let port := atoi serv_port in
        if port <? 5000 then usage prog;; exit 1
        else
          c ← ask (Connect fd (inet_addr serv_ip) (htons port));
          if c <? 0 then print "connect" [] [];; exit 1
          else
            left ← talk n fd;
            if left : bool then ask (Close fd);; mret (Some 0) else mret None
  | _ => usage (default [] (head argv));; exit 1
  end.
End Client.
