(* ===== verification/EpollEnv.v ===== *)
(** * Environments for the epoll programs

    [kern]: connections waiting to be accepted, open connections with the
    chunks in which their bytes arrive, the set [epoll] watches, and a
    scheduler that chooses which ready descriptors an [epoll_wait] reports
    (level-triggered, at most [maxevents]). [term]: a terminal whose user
    types lines, and a connection whose writes may be interrupted. *)
From Stdlib Require Import ZArith Strings.Byte.
From stdpp Require Import base gmap list strings.
From S2P Require Import Prelude Net Epoll.
Open Scope Z_scope.

Abbreviation chunks := (list (list byte)).

(** ** The server's kernel *)

Record kern : Type := mkKern {
  k_backlog : list chunks;
  k_open : gmap Z chunks;
  k_watched : list Z;
  k_next : Z;                          (* the next descriptor *)
  k_schedule : list (list Z);          (* what the coming waits try to report *)
  k_cur : Z;                           (* the descriptor last read *)
  k_said : list (Z * list byte);       (* the texts printed, with that descriptor *)
}.

(** The listening socket is 3 and the epoll descriptor 4. *)
Definition listen_fd : Z := 3.
Definition epoll_fd : Z := 4.
Definition first_fd : Z := 5.

Definition is_ready (k : kern) (fd : Z) : Prop :=
  fd ∈ k_watched k /\ (if decide (fd = listen_fd) then k_backlog k <> [] else is_Some (k_open k !! fd)).
#[global] Instance is_ready_dec k fd : Decision (is_ready k fd).
Proof. unfold is_ready. apply and_dec; [apply _|]. case_decide; apply _. Defined.

(** What a wait reports of the descriptors [fds]. *)
Definition reported (k : kern) (max : Z) (fds : list Z) : list Z :=
  take (Z.to_nat max) (filter (is_ready k) (remove_dups fds)).

Definition with_watched (w : list Z) (k : kern) : kern :=
  mkKern (k_backlog k) (k_open k) w (k_next k) (k_schedule k) (k_cur k) (k_said k).

Definition k_ctl (op : epoll_op) (fd : Z) (k : kern) : kern :=
  match op with
  | EPOLL_CTL_ADD => with_watched (k_watched k ++ [fd]) k
  | EPOLL_CTL_DEL => with_watched (filter (fun f => f <> fd) (k_watched k)) k
  end.

Definition k_wait (max : Z) (k : kern) : option (list Z) * kern :=
  match k_schedule k with
  | [] => (Some [], k)
  | fds :: sched =>
      (Some (reported k max fds),
       mkKern (k_backlog k) (k_open k) (k_watched k) (k_next k) sched (k_cur k) (k_said k))
  end.

Definition k_accept (k : kern) : Z * kern :=
  match k_backlog k with
  | [] => (-1, k)
  | c :: backlog =>
      (k_next k, mkKern backlog (<[k_next k := c]> (k_open k)) (k_watched k) (k_next k + 1)
                        (k_schedule k) (k_cur k) (k_said k))
  end.

(** A read returns the next chunk, and nothing at the end of the stream. *)
Definition k_read (fd : Z) (n : nat) (k : kern) : option (list byte) * kern :=
  match k_open k !! fd with
  | None => (None, k)
  | Some [] => (Some [], mkKern (k_backlog k) (k_open k) (k_watched k) (k_next k) (k_schedule k) fd (k_said k))
  | Some (c :: cs) =>
      (Some (take n c),
       mkKern (k_backlog k) (<[fd := if (length c <=? n)%nat then cs else drop n c :: cs]> (k_open k))
              (k_watched k) (k_next k) (k_schedule k) fd (k_said k))
  end.

Definition k_print (fmt : string) (strs : chunks) (k : kern) : kern :=
  match strs with
  | [s] =>
      if decide (fmt = server_fmt) then
        mkKern (k_backlog k) (k_open k) (k_watched k) (k_next k) (k_schedule k) (k_cur k)
               (k_said k ++ [(k_cur k, s)])
      else k
  | _ => k
  end.

Definition kern_sys {A} (c : call A) : kern -> A * kern :=
  match c with
  | Socket => fun k => (listen_fd, k)
  | EpollCreate _ => fun k => (epoll_fd, k)
  | EpollCtl _ op fd => fun k => (0, k_ctl op fd k)
  | EpollWait _ max => k_wait max
  | Accept _ => k_accept
  | Read fd n => k_read fd n
  | Print fmt strs _ => fun k => (tt, k_print fmt strs k)
  | Write _ bs => fun k => ((Z.of_nat (length bs), false), k)
  | Fgets _ => fun k => (None, k)
  | Setsockopt _ | Bind _ _ _ | Listen _ _ | Connect _ _ _ | Close _ => fun k => (0, k)
  end.

#[global] Instance kern_net : Net kern := {| sys := @kern_sys; inet_addr := fun _ => 0 |}.

(** The server started with these connections to come. *)
Definition kern_init (conns : list chunks) (schedule : list (list Z)) : kern :=
  mkKern conns ∅ [] first_fd schedule 0 [].

(** The text printed for a descriptor. *)
Definition said (fd : Z) (k : kern) : list byte :=
  concat (snd <$> filter (fun x => fst x = fd) (k_said k)).

(** ** The client's terminal *)

(** [t_eintr]: for each line, how many times its write is interrupted. *)
Record term : Type := mkTerm {
  t_lines : list (list byte);
  t_eintr : list nat;
  t_sent : list byte;
  t_closed : bool;
}.

Definition t_write (bs : list byte) (t : term) : Z * bool * term :=
  match t_eintr t with
  | S n :: ns => (-1, true, mkTerm (t_lines t) (n :: ns) (t_sent t) (t_closed t))
  | O :: ns => (Z.of_nat (length bs), false, mkTerm (t_lines t) ns (t_sent t ++ bs) (t_closed t))
  | [] => (Z.of_nat (length bs), false, mkTerm (t_lines t) [] (t_sent t ++ bs) (t_closed t))
  end.

Definition t_gets (t : term) : option (list byte) * term :=
  match t_lines t with
  | [] => (None, t)
  | l :: ls => (Some l, mkTerm ls (t_eintr t) (t_sent t) (t_closed t))
  end.

Definition term_sys {A} (c : call A) : term -> A * term :=
  match c with
  | Socket => fun t => (3, t)
  | Write _ bs => t_write bs
  | Fgets _ => t_gets
  | Close _ => fun t => (0, mkTerm (t_lines t) (t_eintr t) (t_sent t) true)
  | Print _ _ _ => fun t => (tt, t)
  | EpollWait _ _ => fun t => (None, t)
  | Read _ _ => fun t => (None, t)
  | Setsockopt _ | Bind _ _ _ | Listen _ _ | Connect _ _ _ | Accept _ | EpollCreate _ | EpollCtl _ _ _ =>
      fun t => (0, t)
  end.

#[global] Instance term_net : Net term := {| sys := @term_sys; inet_addr := fun _ => 0 |}.
