(* ===== verification/EpollInv.v ===== *)
(** * The epoll server in its environment

    The invariant of the connections, preserved by every event: what was
    printed for a connection and what is still to come make up its stream;
    only finished connections are no longer watched. Every event reported
    takes one unit of work off the kernel's queues. *)
From Stdlib Require Import ZArith Strings.Byte.
From stdpp Require Import base gmap list list_numbers strings.
From S2P Require Import Prelude Net Epoll EpollEnv.
Open Scope Z_scope.

#[local] Arguments said : simpl never.

(** A chunk that leaves room for the terminator of the server's buffer. *)
Definition chunk_ok (c : list byte) : Prop := c <> [] /\ (length c < BUFLEN)%nat /\ (x00 ∉ c).

Lemma chunk_string c : chunk_ok c -> array_string (buffer BUFLEN c) = Some c.
Proof.
  intros (_ & Hl & Hz). unfold buffer. assert (exists n, (BUFLEN - length c = S n)%nat) as [n ->].
  { exists (BUFLEN - length c - 1)%nat. lia. }
  by apply array_string_padded.
Qed.

(** The descriptor of the [j]-th connection. *)
Definition conn_fd (j : nat) : Z := first_fd + Z.of_nat j.

(** What is left of a connection, of which the stream is [c]. *)
Record conn (k : kern) (fd : Z) (c : chunks) (rest : chunks) : Prop := {
  c_open : k_open k !! fd = Some rest;
  c_ok : Forall chunk_ok rest;
  c_said : said fd k ++ concat rest = concat c;
  c_end : fd ∉ k_watched k -> rest = [];
}.

(** The first [m] connections are accepted; [w]: the ones watched. *)
Record inv (conns : list chunks) (m : nat) (w : list Z) (k : kern) : Prop := {
  v_backlog : k_backlog k = drop m conns;
  v_next : k_next k = conn_fd m;
  v_count : (m <= length conns)%nat;
  v_conn j c : (j < m)%nat -> conns !! j = Some c -> exists rest, conn k (conn_fd j) c rest;
  v_watched : k_watched k = listen_fd :: w;
  v_nodup : NoDup w;
  v_range : Forall (fun fd => first_fd <= fd < k_next k) w;
  v_said : Forall (fun x => first_fd <= fst x < k_next k) (k_said k);
}.

(** The reports that the waiting connections and the watched ones still
    cause. *)
Definition conn_work (k : kern) (fd : Z) : nat := S (length (default [] (k_open k !! fd))).
Definition work (w : list Z) (k : kern) : nat :=
  sum_list_with (fun c => S (S (length c))) (k_backlog k) + sum_list_with (conn_work k) w.

(** ** Helpers *)

Lemma sum_ext {A} (f g : A -> nat) l : (forall x, x ∈ l -> f x = g x) -> sum_list_with f l = sum_list_with g l.
Proof.
  induction l as [|x l IH]; [done|]. intros Hf. cbn [sum_list_with].
  rewrite (Hf x) by (by left). rewrite IH; [done|]. intros y Hy. apply Hf. by right.
Qed.

Lemma nodup_split (fd : Z) (w : list Z) : NoDup w -> fd ∈ w -> w ≡ₚ fd :: filter (fun f => f <> fd) w.
Proof.
  intros Hnd Hin. apply NoDup_Permutation; [done|constructor; [|by apply NoDup_filter]|].
  - intros [? _]%list_elem_of_filter. done.
  - intros x. rewrite elem_of_cons, list_elem_of_filter. destruct (decide (x = fd)) as [->|]; tauto.
Qed.

Lemma sum_split (f : Z -> nat) fd w :
  NoDup w -> fd ∈ w ->
  sum_list_with f w = (f fd + sum_list_with f (filter (fun g => g <> fd) w))%nat.
Proof. intros Hnd Hin. by rewrite (nodup_split fd w) at 1. Qed.

(** A watched connection is one of the accepted ones. *)
Lemma watched_conn conns m w k fd :
  inv conns m w k -> fd ∈ w ->
  exists j c rest, (j < m)%nat /\ fd = conn_fd j /\ conns !! j = Some c /\ conn k fd c rest.
Proof.
  intros Hi Hin. pose proof (v_range _ _ _ _ Hi) as Hr. rewrite Forall_forall in Hr. specialize (Hr fd Hin).
  rewrite (v_next _ _ _ _ Hi) in Hr. pose proof (v_count _ _ _ _ Hi) as Hm.
  unfold conn_fd, first_fd in *. set (j := Z.to_nat (fd - 5)).
  destruct (lookup_lt_is_Some_2 conns j) as [c Hc]; [lia|].
  destruct (v_conn _ _ _ _ Hi j c) as [rest Hrest]; [lia|done|].
  replace fd with (conn_fd j) by (unfold conn_fd, first_fd; lia). exists j, c, rest.
  split; [lia|done].
Qed.

Lemma inv_ready conns m w k fd :
  inv conns m w k -> is_ready k fd ->
  (fd = listen_fd /\ drop m conns <> []) \/ (fd <> listen_fd /\ fd ∈ w).
Proof.
  intros Hi [Hw Hr]. rewrite (v_watched _ _ _ _ Hi) in Hw. apply elem_of_cons in Hw.
  case_decide; [left; by rewrite <- (v_backlog _ _ _ _ Hi)|right; tauto].
Qed.

Lemma listen_not_conn conns m w k : inv conns m w k -> listen_fd ∉ w.
Proof.
  intros Hi Hin. pose proof (v_range _ _ _ _ Hi) as Hr. rewrite Forall_forall in Hr. specialize (Hr _ Hin).
  unfold first_fd, listen_fd in Hr. lia.
Qed.

(** ** Accepting a connection *)

Definition accepted (k : kern) (c : chunks) (backlog : list chunks) : kern :=
  mkKern backlog (<[k_next k := c]> (k_open k)) (k_watched k ++ [k_next k]) (k_next k + 1)
         (k_schedule k) (k_cur k) (k_said k).

Lemma conn_fd_inj i j : conn_fd i = conn_fd j -> i = j.
Proof. unfold conn_fd. lia. Qed.

Lemma said_new conns m w k : inv conns m w k -> said (k_next k) k = [].
Proof.
  intros Hi. unfold said. pose proof (v_said _ _ _ _ Hi) as Hs. revert Hs.
  generalize (k_said k). intros l. induction 1 as [|x l Hx _ IH]; [done|].
  rewrite filter_cons_False by lia. exact IH.
Qed.

Lemma inv_accept conns m w k c backlog :
  inv conns m w k -> Forall (Forall chunk_ok) conns -> drop m conns = c :: backlog ->
  inv conns (S m) (w ++ [k_next k]) (accepted k c backlog).
Proof.
  intros Hi Hok Hd. pose proof (said_new _ _ _ _ Hi) as Hsaid. destruct Hi as [Hb Hn Hm Hc Hw Hnd Hr Hs].
  assert (conns !! m = Some c) as Hcm by (rewrite <- (Nat.add_0_r m), <- lookup_drop, Hd; done).
  assert (k_next k ∉ w) as Hnw by (intros Hin; rewrite Forall_forall in Hr; specialize (Hr _ Hin); lia).
  split.
  - cbn. replace (S m) with (m + 1)%nat by lia. by rewrite <- drop_drop, Hd.
  - cbn. rewrite Hn. unfold conn_fd. lia.
  - assert (length (drop m conns) = S (length backlog)) as Hl by (by rewrite Hd). rewrite length_drop in Hl. lia.
  - intros j c' Hj Hj'. destruct (decide (j = m)) as [->|Hne].
    + replace c' with c by congruence. exists c. rewrite <- Hn. split; cbn.
      * by rewrite lookup_insert_eq.
      * rewrite Forall_forall in Hok. apply Hok. by eapply list_elem_of_lookup_2.
      * change (said (k_next k) (accepted k c backlog)) with (said (k_next k) k). by rewrite Hsaid.
      * intros Hx. exfalso. apply Hx, elem_of_app. right. by left.
    + destruct (Hc j c') as [rest [Ho Hk Hsd He]]; [lia|done|]. exists rest. split; cbn; [|done|done|].
      * rewrite lookup_insert_ne; [done|]. rewrite Hn. by intros ?%conn_fd_inj.
      * intros Hx. apply He. intros Hin. apply Hx, elem_of_app. by left.
  - cbn. by rewrite Hw.
  - apply NoDup_app. split; [done|]. split; [|by apply NoDup_singleton].
    intros x Hx [= ->]%list_elem_of_singleton. done.
  - apply Forall_app. split; cbn; [eapply Forall_impl; [exact Hr|]; cbn; lia|].
    constructor; [|constructor]. rewrite Hn. unfold conn_fd. lia.
  - cbn. eapply Forall_impl; [exact Hs|]. cbn. lia.
Qed.

Lemma work_accept conns m w k c backlog :
  inv conns m w k -> drop m conns = c :: backlog ->
  work w k = S (work (w ++ [k_next k]) (accepted k c backlog)).
Proof.
  intros Hi Hd. unfold work. rewrite (v_backlog _ _ _ _ Hi), Hd, sum_list_with_app. cbn [accepted k_backlog sum_list_with].
  rewrite (sum_ext (conn_work (accepted k c backlog)) (conn_work k) w).
  - unfold conn_work at 3. cbn. rewrite lookup_insert_eq. cbn. lia.
  - intros x Hx. unfold conn_work. cbn. rewrite lookup_insert_ne; [done|].
    pose proof (v_range _ _ _ _ Hi) as Hr. rewrite Forall_forall in Hr. specialize (Hr _ Hx). lia.
Qed.

(** ** Reading a chunk *)

Definition heard (k : kern) (fd : Z) (rest : chunks) (t : list byte) : kern :=
  mkKern (k_backlog k) (<[fd := rest]> (k_open k)) (k_watched k) (k_next k) (k_schedule k) fd
         (k_said k ++ [(fd, t)]).

Lemma said_heard k fd fd' rest t :
  said fd' (heard k fd rest t) = said fd' k ++ (if decide (fd' = fd) then t else []).
Proof.
  unfold said. cbn. rewrite filter_app, fmap_app, concat_app. f_equal. rewrite filter_cons. cbn.
  repeat case_decide; subst; try done. cbn. by rewrite app_nil_r.
Qed.

Lemma inv_read conns m w k fd t rest :
  inv conns m w k -> fd ∈ w -> k_open k !! fd = Some (t :: rest) -> inv conns m w (heard k fd rest t).
Proof.
  intros Hi Hfd Ho. pose proof Hi as [Hb Hn Hm Hc Hw Hnd Hr Hs]. split; try done.
  - intros j c Hj Hj'. destruct (Hc j c Hj Hj') as [r [Hro Hrk Hrs Hre]].
    destruct (decide (conn_fd j = fd)) as [He|Hne].
    + exists rest. rewrite He, Ho in Hro. injection Hro as <-. split.
      * cbn. by rewrite He, lookup_insert_eq.
      * by apply Forall_cons in Hrk as [_ ?].
      * rewrite said_heard, decide_True by done. by rewrite <- app_assoc.
      * cbn. intros Hx. exfalso. apply Hx. rewrite Hw, He. by right.
    + exists r. split; [cbn; by rewrite lookup_insert_ne|done| |done].
      rewrite said_heard, decide_False by done. by rewrite app_nil_r.
  - apply Forall_app. split; [done|]. constructor; [|constructor]. cbn. rewrite Forall_forall in Hr. by apply Hr.
Qed.

Lemma work_read conns m w k fd t rest :
  inv conns m w k -> fd ∈ w -> k_open k !! fd = Some (t :: rest) -> work w k = S (work w (heard k fd rest t)).
Proof.
  intros Hi Hfd Ho. unfold work. rewrite !(sum_split _ fd w) by (done || apply Hi).
  rewrite (sum_ext (conn_work (heard k fd rest t)) (conn_work k) (filter _ w)).
  - unfold conn_work at 1 3. cbn. rewrite lookup_insert_eq, Ho. cbn. lia.
  - intros x [Hx _]%list_elem_of_filter. unfold conn_work. cbn. by rewrite lookup_insert_ne.
Qed.

(** ** The end of a connection *)

Definition ended (k : kern) (fd : Z) : kern :=
  mkKern (k_backlog k) (k_open k) (filter (fun f => f <> fd) (k_watched k)) (k_next k)
         (k_schedule k) fd (k_said k).

Lemma inv_end conns m w k fd :
  inv conns m w k -> fd ∈ w -> k_open k !! fd = Some [] ->
  inv conns m (filter (fun f => f <> fd) w) (ended k fd).
Proof.
  intros Hi Hfd Ho. pose proof (listen_not_conn _ _ _ _ Hi) as Hl.
  pose proof Hi as [Hb Hn Hm Hc Hw Hnd Hr Hs]. split; try done.
  - intros j c Hj Hj'. destruct (Hc j c Hj Hj') as [r [Hro Hrk Hrs Hre]].
    exists r. split; [done|done|done|]. cbn. intros Hx. destruct (decide (conn_fd j = fd)) as [He|Hne].
    + rewrite He, Ho in Hro. by injection Hro.
    + apply Hre. intros Hin. apply Hx. by apply list_elem_of_filter.
  - cbn. rewrite Hw, filter_cons_True; [done|]. intros E. apply Hl. by rewrite E.
  - by apply NoDup_filter.
  - apply Forall_forall. intros x [_ Hx]%list_elem_of_filter. rewrite Forall_forall in Hr. by apply Hr.
Qed.

Lemma work_end conns m w k fd :
  inv conns m w k -> fd ∈ w -> k_open k !! fd = Some [] ->
  work w k = S (work (filter (fun f => f <> fd) w) (ended k fd)).
Proof.
  intros Hi Hfd Ho. unfold work. rewrite (sum_split (conn_work k) fd w) by (done || apply Hi).
  change (conn_work (ended k fd)) with (conn_work k). unfold conn_work at 1. rewrite Ho. cbn. lia.
Qed.

(** ** One event *)

(** The state of the server between events. *)
Definition serving (conns : list chunks) (k : kern) (n : nat) : Prop :=
  exists m w, inv conns m w k /\ work w k = n.

Lemma print_other fmt strs nums (k : kern) :
  fmt <> server_fmt -> print fmt strs nums k = (Ret tt, k).
Proof.
  intros Hf. unfold print, ask. cbn. unfold k_print. destruct strs as [|? [|]]; try done.
  by rewrite decide_False.
Qed.

Lemma serve_event_run conns k n fd :
  Forall (Forall chunk_ok) conns -> serving conns k n -> is_ready k fd ->
  exists k' n', serve_event listen_fd epoll_fd fd k = (Ret tt, k') /\ n = S n' /\ serving conns k' n' /\
    k_schedule k' = k_schedule k /\ (forall fd', fd' <> fd -> is_ready k fd' -> is_ready k' fd').
Proof.
  intros Hok (m & w & Hi & Hn) Hready. unfold serve_event.
  n_step (print_other "epoll_wait return = %d" [] [fd] k ltac:(done)).
  destruct (inv_ready _ _ _ _ _ Hi Hready) as [[-> Hd]|[Hl Hw]].
  - rewrite Z.eqb_refl. destruct (drop m conns) as [|c backlog] eqn:Hdm; [done|].
    erewrite ask_run by (cbn; unfold k_accept; by rewrite (v_backlog _ _ _ _ Hi), Hdm). cbv beta.
    assert (0 <= k_next k) as Hpos by (rewrite (v_next _ _ _ _ Hi); unfold conn_fd, first_fd; lia).
    rewrite (proj2 (Z.ltb_ge _ 0)) by done. do 2 eexists. split; [reflexivity|].
    split; [rewrite <- Hn; by eapply work_accept|]. split; [|split; [done|]].
    + exists (S m), (w ++ [k_next k]). split; [by apply (inv_accept conns m w k c backlog)|done].
    + intros fd' Hne [Hw' Hr']. rewrite decide_False in Hr' by done. split; [apply elem_of_app; by left|].
      rewrite decide_False by done. cbn. destruct (decide (fd' = k_next k)) as [->|].
      * rewrite lookup_insert_eq. by eexists.
      * by rewrite lookup_insert_ne.
  - rewrite (proj2 (Z.eqb_neq fd listen_fd)) by done.
    destruct (watched_conn _ _ _ _ _ Hi Hw) as (j & c & rest & _ & _ & _ & [Ho Hk _ _]).
    destruct rest as [|t rest].
    + erewrite ask_run by (cbn; unfold k_read; by rewrite Ho). cbv beta. do 2 eexists. split; [reflexivity|].
      split; [rewrite <- Hn; by eapply work_end|]. split; [|split; [done|]].
      * exists m, (filter (fun f => f <> fd) w). split; [by apply (inv_end conns m w k fd)|done].
      * intros fd' Hne [Hw' Hr']. split; [by apply list_elem_of_filter|done].
    + apply Forall_cons in Hk as [Ht _]. pose proof Ht as (Hne & Hlen & _).
      erewrite ask_run by (cbn; unfold k_read; rewrite Ho; rewrite (proj2 (Nat.leb_le _ _)) by lia;
        rewrite take_ge by lia; reflexivity). cbv beta.
      destruct t as [|b t]; [done|]. rewrite chunk_string by done. do 2 eexists. split; [reflexivity|].
      split; [rewrite <- Hn; by eapply work_read|]. split; [|split; [done|]].
      * exists m, w. split; [by apply (inv_read conns m w k fd (b :: t) rest)|done].
      * intros fd' Hne' [Hw' Hr']. change (is_ready (heard k fd rest (b :: t)) fd').
        split; [done|]. case_decide; [done|]. cbn. by rewrite lookup_insert_ne.
Qed.

(** ** The loop *)

Lemma serve_events_run conns k n fds :
  Forall (Forall chunk_ok) conns -> serving conns k n -> NoDup fds -> Forall (is_ready k) fds ->
  exists k' n', serve_events listen_fd epoll_fd fds k = (Ret tt, k') /\ n = (length fds + n')%nat /\
    serving conns k' n' /\ k_schedule k' = k_schedule k.
Proof.
  intros Hok. revert k n. induction fds as [|fd fds IH]; intros k n Hs Hnd Hr.
  - by exists k, n.
  - apply NoDup_cons in Hnd as [Hfd Hnd]. apply Forall_cons in Hr as [Hr1 Hr].
    destruct (serve_event_run _ _ _ _ Hok Hs Hr1) as (k1 & n1 & H1 & -> & Hs1 & Hsch & Hr').
    destruct (IH k1 n1 Hs1 Hnd) as (k2 & n2 & H2 & -> & Hs2 & Hsch2).
    { rewrite Forall_forall in Hr |- *. intros x Hx. apply Hr'; [by intros ->|by apply Hr]. }
    exists k2, n2. cbn [serve_events]. n_step H1. split; [exact H2|]. split; [done|]. split; [done|congruence].
Qed.

Lemma reported_ok k max fds : NoDup (reported k max fds) /\ Forall (is_ready k) (reported k max fds).
Proof.
  unfold reported. split.
  - eapply sublist_NoDup; [|apply sublist_take]. apply NoDup_filter, NoDup_remove_dups.
  - apply Forall_take, Forall_forall. by intros x [? _]%list_elem_of_filter.
Qed.

(** One turn of the loop, given what the scheduler tries to report. *)
Lemma serve_round_run conns k n fds sched :
  Forall (Forall chunk_ok) conns -> serving conns k n -> k_schedule k = fds :: sched ->
  exists k' n', serve_round listen_fd epoll_fd k = (Ret tt, k') /\
    n = (length (reported k epoll_num fds) + n')%nat /\ serving conns k' n' /\ k_schedule k' = sched.
Proof.
  intros Hok (m & w & Hi & Hn) Hsch. unfold serve_round.
  erewrite ask_run by (cbn; unfold k_wait; rewrite Hsch; reflexivity). cbv beta. cbn [default].
  set (k1 := mkKern _ _ _ _ _ _ _).
  rewrite (nbind_run _ _ k1 tt k1) by (by apply print_other). cbn [id].
  destruct (reported_ok k epoll_num fds) as [Hnd Hr].
  destruct (serve_events_run conns k1 n (reported k epoll_num fds) Hok) as (k2 & n2 & H2 & Hn2 & Hs2 & Hsch2).
  - exists m, w. split; [|done]. destruct Hi as [? ? ? Hc]. split; try done.
    intros j c Hj Hj'. destruct (Hc j c Hj Hj') as [rest []]. exists rest. by split.
  - done.
  - exact Hr.
  - exists k2, n2. split; [exact H2|]. by split.
Qed.
