(* ===== verification/EpollProps.v ===== *)
(** * Properties of the epoll programs *)
From Stdlib Require Import ZArith Strings.Byte.
From stdpp Require Import base gmap list list_numbers strings.
From S2P Require Import Prelude Net Epoll EpollEnv EpollInv.
Open Scope Z_scope.

(** ** The server, whatever the scheduler reports *)

(** An entry of the schedule that tries to report everything. *)
Definition covers (conns : list chunks) (fds : list Z) : Prop :=
  listen_fd ∈ fds /\ forall j, (j < length conns)%nat -> conn_fd j ∈ fds.

Lemma reported_some k fds fd : is_ready k fd -> fd ∈ fds -> (0 < length (reported k epoll_num fds))%nat.
Proof.
  intros Hr Hin. unfold reported.
  assert (fd ∈ filter (is_ready k) (remove_dups fds)) as Hf
    by (apply list_elem_of_filter; by rewrite elem_of_remove_dups).
  destruct (filter _ _) as [|x l]; [by apply elem_of_nil in Hf|].
  change (Z.to_nat epoll_num) with 20%nat. cbn. lia.
Qed.

(** While there is work, something is ready. *)
Lemma serving_ready conns k n fds :
  serving conns k (S n) -> covers conns fds -> (0 < length (reported k epoll_num fds))%nat.
Proof.
  intros (m & w & Hi & Hn) [Hlisten Hconns]. unfold work in Hn.
  destruct (k_backlog k) as [|c backlog] eqn:Hb.
  - destruct w as [|fd w]; [done|]. destruct (watched_conn _ _ _ _ fd Hi) as (j & c & rest & Hj & -> & Hc & [Ho _ _ _]); [by left|].
    apply (reported_some _ _ (conn_fd j)).
    + split; [rewrite (v_watched _ _ _ _ Hi); right; by left|]. rewrite decide_False; [by rewrite Ho|].
      unfold conn_fd, first_fd, listen_fd. lia.
    + apply Hconns. pose proof (v_count _ _ _ _ Hi). lia.
  - apply (reported_some _ _ listen_fd); [|done]. split; [rewrite (v_watched _ _ _ _ Hi); by left|].
    by rewrite decide_True, Hb.
Qed.

Lemma serve_run conns n k todo :
  Forall (Forall chunk_ok) conns -> serving conns k todo ->
  exists k' todo', serve n listen_fd epoll_fd k = (Ret tt, k') /\ serving conns k' todo' /\
    ((n <= length (k_schedule k))%nat -> Forall (covers conns) (take n (k_schedule k)) -> (todo' <= todo - n)%nat).
Proof.
  intros Hok. revert k todo. induction n as [|n IH]; intros k todo Hs.
  - exists k, todo. split; [done|]. split; [done|]. lia.
  - cbn [serve]. destruct (k_schedule k) as [|fds sched] eqn:Hsch.
    + assert (serve_round listen_fd epoll_fd k = (Ret tt, k)) as Hround.
      { unfold serve_round. erewrite ask_run by (cbn; unfold k_wait; rewrite Hsch; reflexivity). reflexivity. }
      n_step Hround. destruct (IH k todo Hs) as (k' & todo' & H' & Hs' & _).
      exists k', todo'. split; [exact H'|]. split; [done|]. cbn. lia.
    + destruct (serve_round_run conns k todo fds sched Hok Hs Hsch) as (k1 & n1 & H1 & Hn1 & Hs1 & Hsch1).
      n_step H1. destruct (IH k1 n1 Hs1) as (k' & todo' & H' & Hs' & Hfair).
      exists k', todo'. split; [exact H'|]. split; [done|]. rewrite Hsch1 in Hfair. cbn. intros Hn [Hc Hcs]%Forall_cons.
      assert (todo' <= n1 - n)%nat as Hle by (apply Hfair; [lia|done]).
      destruct todo as [|todo]; [lia|]. pose proof (serving_ready _ _ _ _ Hs Hc). lia.
Qed.

(** The work a server starts with. *)
Definition total_work (conns : list chunks) : nat := sum_list_with (fun c => S (S (length c))) conns.

Lemma server_main_run conns sched n prog addr port :
  Forall (Forall chunk_ok) conns ->
  exists k todo, server_main n [prog; addr; port] (kern_init conns sched) = (Ret None, k) /\
    serving conns k todo /\
    ((n <= length sched)%nat -> Forall (covers conns) (take n sched) -> (todo <= total_work conns - n)%nat).
Proof.
  intros Hok. set (k0 := with_watched [listen_fd] (kern_init conns sched)).
  destruct (serve_run conns n k0 (total_work conns) Hok) as (k & todo & Hk & Hs & Hfair).
  - exists 0%nat, []. split; [|unfold work, total_work; cbn; lia]. split; try done; [cbn; lia|lia|constructor].
  - exists k, todo. split; [|done]. unfold server_main.
    erewrite nbind_run by reflexivity. cbv beta. change (listen_fd <? 0) with false. cbv iota.
    erewrite ask_run by reflexivity. cbv beta. erewrite ask_run by reflexivity. cbv beta.
    by n_step Hk.
Qed.

(** C27. However the streams of the clients are cut into chunks (shorter than
    the buffer, without NUL) and whatever the order in which epoll reports the
    descriptors, any number of turns of the server's loop runs without
    undefined behaviour or exit; the connections are accepted in order, what
    was printed for each of them followed by what has not arrived yet is its
    stream, and one that is no longer watched has been printed completely. *)
Theorem server_faithful conns sched n prog addr port (Hok : Forall (Forall chunk_ok) conns) :
  exists k m, server_main n [prog; addr; port] (kern_init conns sched) = (Ret None, k) /\
    k_backlog k = drop m conns /\ listen_fd ∈ k_watched k /\
    (forall j c, (j < m)%nat -> conns !! j = Some c ->
       exists rest, k_open k !! conn_fd j = Some rest /\
         said (conn_fd j) k ++ concat rest = concat c /\
         (conn_fd j ∉ k_watched k -> rest = [])).
Proof.
  destruct (server_main_run conns sched n prog addr port Hok) as (k & todo & Hk & (m & w & Hi & _) & _).
  exists k, m. split; [exact Hk|]. split; [apply Hi|]. split; [rewrite (v_watched _ _ _ _ Hi); by left|].
  intros j c Hj Hc. destruct (v_conn _ _ _ _ Hi j c Hj Hc) as [rest []]. by exists rest.
Qed.

(** ** Delivery under a fair scheduler *)

Lemma server_delivers conns sched n prog addr port :
  Forall (Forall chunk_ok) conns ->
  (total_work conns <= n <= length sched)%nat -> Forall (covers conns) (take n sched) ->
  exists k, server_main n [prog; addr; port] (kern_init conns sched) = (Ret None, k) /\
    k_backlog k = [] /\ k_watched k = [listen_fd] /\
    forall j c, conns !! j = Some c -> said (conn_fd j) k = concat c.
Proof.
  intros Hok Hn Hfair.
  destruct (server_main_run conns sched n prog addr port Hok) as (k & todo & Hk & (m & w & Hi & Hw) & Hdone).
  assert (todo = 0%nat) as -> by (specialize (Hdone ltac:(lia) Hfair); lia).
  unfold work in Hw. destruct (k_backlog k) as [|? ?] eqn:Hb; [|cbn in Hw; lia]. destruct w; [|cbn in Hw; lia].
  exists k. split; [exact Hk|]. split; [done|]. split; [apply (v_watched _ _ _ _ Hi)|].
  intros j c Hc. assert (j < m)%nat as Hj.
  { pose proof (v_backlog _ _ _ _ Hi) as Hd. rewrite Hb in Hd. apply (f_equal length) in Hd.
    rewrite length_drop in Hd. apply lookup_lt_Some in Hc. cbn in Hd. lia. }
  destruct (v_conn _ _ _ _ Hi j c Hj Hc) as [rest [_ _ Hs He]]. rewrite He in Hs; [by rewrite app_nil_r in Hs|].
  rewrite (v_watched _ _ _ _ Hi). intros [Hx|Hx%elem_of_nil]%elem_of_cons; [|done].
  unfold conn_fd, first_fd, listen_fd in Hx. lia.
Qed.

(** ** The client *)

(** A line of the terminal that fits the buffer. *)
Definition line_ok (l : list byte) : Prop := (length l < BUFLN - 1)%nat /\ (x00 ∉ l).

Definition quits (l : list byte) : bool := strncaseeq (length QUIT_STR) l QUIT_STR.

Lemma line_string l : line_ok l -> array_string (buffer BUFLN l) = Some l.
Proof.
  intros [Hl Hz]. unfold buffer. assert (exists n, (BUFLN - length l = S n)%nat) as [n ->].
  { exists (BUFLN - length l - 1)%nat. lia. }
  by apply array_string_padded.
Qed.

(** A write interrupted less often than it is tried. *)
Lemma write_retry_run n fd bs (t : term) :
  (default 0%nat (head (t_eintr t)) < n)%nat ->
  write_retry n fd bs t =
    (Ret (Some (Z.of_nat (length bs))), mkTerm (t_lines t) (tail (t_eintr t)) (t_sent t ++ bs) (t_closed t)).
Proof.
  destruct t as [lines eintr sent closed]. cbn. destruct eintr as [|i ns]; cbn.
  - destruct n; [lia|]. intros _. cbn [write_retry]. erewrite ask_run by reflexivity. cbv beta iota.
    rewrite (proj2 (Z.ltb_ge _ 0)) by lia. done.
  - revert i. induction n as [|n IH]; intros i Hi; [lia|]. cbn [write_retry]. destruct i as [|i].
    + erewrite ask_run by reflexivity. cbv beta iota. rewrite (proj2 (Z.ltb_ge _ 0)) by lia. done.
    + erewrite ask_run by reflexivity. cbv beta iota. cbn [Z.ltb Z.compare andb]. by apply IH; lia.
Qed.

Lemma talk_run pre q post n eintr sent fd :
  Forall line_ok (pre ++ [q]) -> Forall (fun l => quits l = false) pre -> quits q = true ->
  (S (length pre) + sum_list eintr < n)%nat ->
  exists eintr', talk n fd (mkTerm (pre ++ q :: post) eintr sent false) =
    (Ret true, mkTerm post eintr' (sent ++ concat pre ++ q) false).
Proof.
  intros Hok Hpre Hq. revert n eintr sent. induction pre as [|l pre IH]; intros n eintr sent Hn.
  - destruct n as [|n]; [lia|]. apply Forall_cons in Hok as [Hok _]. cbn [talk app].
    erewrite nbind_run by reflexivity. cbv beta. erewrite ask_run by reflexivity. cbv beta iota.
    rewrite (line_string q Hok). erewrite nbind_run by (apply write_retry_run; destruct eintr; cbn in *; lia).
    cbv beta iota. fold (quits q). rewrite Hq. by eexists.
  - destruct n as [|n]; [cbn in Hn; lia|]. cbn [app] in Hok. apply Forall_cons in Hok as [Hl Hok].
    apply Forall_cons in Hpre as [Hlq Hpre]. cbn [talk app].
    erewrite nbind_run by reflexivity. cbv beta. erewrite ask_run by reflexivity. cbv beta iota.
    rewrite line_string by done.
    erewrite nbind_run by (apply write_retry_run; destruct eintr; cbn in *; lia).
    cbv beta iota. fold (quits l). rewrite Hlq. cbn [t_lines t_eintr t_sent t_closed].
    destruct (IH Hok Hpre n (tail eintr) (sent ++ l)) as [e He].
    + destruct eintr; cbn in *; lia.
    + exists e. rewrite He. cbn [concat]. by rewrite <- !app_assoc.
Qed.

(** For every list of lines that fit the buffer, of which the first that
    starts with "quit" (in any case) is [q], and every number of interrupted
    writes: the client writes exactly the lines up to [q], in order, closes
    the connection and returns 0; later lines are not read. *)
Theorem client_sends pre q post eintr n prog ip port
    (Hok : Forall line_ok (pre ++ [q])) (Hpre : Forall (fun l => quits l = false) pre) (Hq : quits q = true)
    (Hport : 5000 <= atoi port) (Hn : (S (length pre) + sum_list eintr < n)%nat) :
  exists eintr', client_main n [prog; ip; port] (mkTerm (pre ++ q :: post) eintr [] false) =
    (Ret (Some 0), mkTerm post eintr' (concat pre ++ q) true).
Proof.
  destruct (talk_run pre q post n eintr [] 3 Hok Hpre Hq Hn) as [e He].
  exists e. unfold client_main. erewrite ask_run by reflexivity. cbv beta. cbn [Z.ltb Z.compare].
  rewrite (proj2 (Z.ltb_ge _ 5000)) by done. erewrite ask_run by reflexivity. cbv beta. cbn [Z.ltb Z.compare].
  n_step He. reflexivity.
Qed.

(** At the end of the input the client's loop is never left. *)
Lemma client_spins n fd (t : term) : t_lines t = [] -> talk n fd t = (Ret false, t).
Proof.
  intros Ht. induction n as [|n IH]; [done|]. cbn [talk].
  erewrite nbind_run by reflexivity. cbv beta. erewrite ask_run by (cbn; unfold t_gets; rewrite Ht; reflexivity).
  exact IH.
Qed.

(** ** Client and server together *)

(** A user: lines, the line that quits, and the interruptions of the writes. *)
Record user : Type := mkUser { u_lines : list (list byte); u_quit : list byte; u_eintr : list nat }.

Definition user_ok (u : user) : Prop :=
  Forall line_ok (u_lines u ++ [u_quit u]) /\ Forall (fun l => quits l = false) (u_lines u) /\
  quits (u_quit u) = true.

Definition client_argv : list (list byte) := [chars "client"; chars "127.0.0.1"; chars "6000"].
Definition server_argv : list (list byte) := [chars "server"; chars "127.0.0.1"; chars "6000"].

Definition run_client (n : nat) (u : user) : outcome (option Z) * term :=
  client_main n client_argv (mkTerm (u_lines u ++ [u_quit u]) (u_eintr u) [] false).

(** The turns of its loops a client takes. *)
Definition user_turns (u : user) : nat := S (S (length (u_lines u)) + sum_list (u_eintr u)).

(** C17. Each user runs the client; the streams the clients write reach the
    server as connections, cut anywhere into chunks shorter than its buffer,
    and the scheduler is fair. Then every client returns 0, and the server
    prints for each connection exactly what that user typed up to the line that
    quits, and ends up watching nothing but its listening socket. *)
Theorem chat_end_to_end (users : list user) (conns : list chunks) sched nc ns
    (Husers : Forall user_ok users) (Hnc : Forall (fun u => user_turns u <= nc)%nat users)
    (Hconns : Forall2 (fun u c => Forall chunk_ok c /\ concat c = t_sent (snd (run_client nc u))) users conns)
    (Hns : (total_work conns <= ns <= length sched)%nat) (Hfair : Forall (covers conns) (take ns sched)) :
  exists k, server_main ns server_argv (kern_init conns sched) = (Ret None, k) /\
    k_backlog k = [] /\ k_watched k = [listen_fd] /\
    forall j u, users !! j = Some u ->
      fst (run_client nc u) = Ret (Some 0) /\ said (conn_fd j) k = concat (u_lines u) ++ u_quit u.
Proof.
  assert (Forall (Forall chunk_ok) conns) as Hok.
  { apply Forall_forall. intros c [j Hj]%list_elem_of_lookup.
    destruct (Forall2_lookup_r _ _ _ _ _ Hconns Hj) as (u & _ & Hc & _). done. }
  destruct (server_delivers conns sched ns (chars "server") (chars "127.0.0.1") (chars "6000") Hok Hns Hfair)
    as (k & Hk & Hb & Hw & Hsaid).
  exists k. split; [exact Hk|]. split; [done|]. split; [done|]. intros j u Hu.
  destruct (Forall2_lookup_l _ _ _ _ _ Hconns Hu) as (c & Hc & _ & Hsent).
  rewrite Forall_forall in Husers, Hnc. pose proof (list_elem_of_lookup_2 _ _ _ Hu) as Hin.
  destruct (Husers u Hin) as (Hl & Hp & Hq). specialize (Hnc u Hin). unfold user_turns in Hnc.
  destruct (talk_run (u_lines u) (u_quit u) [] nc (u_eintr u) [] 3 Hl Hp Hq Hnc) as [e He].
  assert (run_client nc u = (Ret (Some 0), mkTerm [] e (concat (u_lines u) ++ u_quit u) true)) as Hrun.
  { unfold run_client, client_main, client_argv. erewrite ask_run by reflexivity. cbv beta.
    change (3 <? 0) with false. change (atoi (chars "6000") <? 5000) with false. cbv iota.
    erewrite ask_run by reflexivity. cbv beta. cbn [Z.ltb Z.compare]. n_step He. reflexivity. }
  rewrite Hrun in *. split; [done|]. rewrite (Hsaid j c Hc), Hsent. done.
Qed.

Lemma serve_event_overread k fd c rest :
  fd <> listen_fd -> k_open k !! fd = Some (c :: rest) -> length c = BUFLEN -> x00 ∉ c ->
  exists k', serve_event listen_fd epoll_fd fd k = (UB, k').
Proof.
  intros Hfd Ho Hc Hz. unfold serve_event. rewrite (nbind_run _ _ k tt k) by (by apply print_other).
  rewrite (proj2 (Z.eqb_neq fd listen_fd)) by done.
  erewrite ask_run by (cbn; unfold k_read; rewrite Ho, take_ge by (by rewrite Hc); reflexivity). cbv beta.
  destruct c as [|b c]; [done|]. unfold buffer. rewrite Hc, Nat.sub_diag, app_nil_r, array_string_full by done.
  by eexists.
Qed.

(** A chunk that fills the server's buffer and has no NUL makes it print
    past the end of the buffer: [read] is given the whole array and leaves no
    room for a terminator. *)
Theorem server_overread c rest sched n
    (Hc : length c = BUFLEN) (Hz : x00 ∉ c) :
  fst (server_main (S (S n)) server_argv
         (kern_init [c :: rest] ([listen_fd] :: [first_fd] :: sched))) = UB.
Proof.
  unfold server_main, server_argv. erewrite nbind_run by reflexivity. cbv beta.
  change (listen_fd <? 0) with false. cbv iota.
  erewrite ask_run by reflexivity. cbv beta. erewrite ask_run by reflexivity. cbv beta. cbn [serve].
  set (k0 := k_ctl _ _ _).
  set (k1 := mkKern [] {[first_fd := c :: rest]} [listen_fd; first_fd] 6 ([first_fd] :: sched) 0 []).
  assert (serve_round listen_fd epoll_fd k0 = (Ret tt, k1)) as H1 by (vm_compute; reflexivity).
  assert (exists k, serve_round listen_fd epoll_fd k1 = (UB, k)) as [k H2].
  { set (k2 := mkKern [] {[first_fd := c :: rest]} [listen_fd; first_fd] 6 sched 0 []).
    destruct (serve_event_overread k2 first_fd c rest) as [k Hk]; [done|done|done|done|].
    exists k. unfold serve_round.
    rewrite (ask_run _ _ k1 (Some [first_fd]) k2) by (vm_compute; reflexivity).
    rewrite (nbind_run _ _ k2 tt k2) by (by apply print_other). cbn [default id serve_events].
    unfold mbind, N_bind. by rewrite Hk. }
  unfold mbind, N_bind. by rewrite H1, H2.
Qed.

(** ** Instances *)

Ltac no_zero := repeat (apply not_elem_of_cons; split; [discriminate|]); apply not_elem_of_nil.
Ltac chunks_ok := repeat constructor; cbn; try discriminate; try (unfold BUFLEN, BUFLN; lia); no_zero.

(** Two clients; the first one's bytes arrive in three pieces. *)
Definition two_conns : list chunks :=
  [[chars "hel"; chars "lo wor"; chars "ldQUIT"]; [chars "yes"; chars "quit"]].
Definition everything : list Z := [first_fd + 1; first_fd; listen_fd].

Lemma two_conns_ok : Forall (Forall chunk_ok) two_conns.
Proof. chunks_ok. Qed.

Lemma everything_covers : covers two_conns everything.
Proof.
  split; [do 2 right; by left|]. intros j Hj. destruct j as [|[|j]]; [right; by left|by left|cbn in Hj; lia].
Qed.

Lemma server_faithful_witness :
  exists k m, server_main 3 server_argv (kern_init two_conns [everything; [first_fd]; everything]) = (Ret None, k) /\
    k_backlog k = drop m two_conns /\ listen_fd ∈ k_watched k /\
    (forall j c, (j < m)%nat -> two_conns !! j = Some c ->
       exists rest, k_open k !! conn_fd j = Some rest /\
         said (conn_fd j) k ++ concat rest = concat c /\
         (conn_fd j ∉ k_watched k -> rest = [])).
Proof.
  exact (server_faithful two_conns [everything; [first_fd]; everything] 3 (chars "server") (chars "127.0.0.1")
           (chars "6000") two_conns_ok).
Defined.

Definition alice : user := mkUser [chars "hello "; chars "world"] (chars "QUIT") [2; 0; 1]%nat.
Definition bob : user := mkUser [chars "yes"] (chars "quit") [].

Lemma alice_ok : user_ok alice.
Proof. split; [chunks_ok|]. split; [by repeat constructor|done]. Qed.
Lemma bob_ok : user_ok bob.
Proof. split; [chunks_ok|]. split; [by repeat constructor|done]. Qed.

Lemma client_sends_witness :
  exists eintr', client_main 9 client_argv (mkTerm ([chars "hello "; chars "world"] ++ chars "QUIT" :: [chars "late"]) [2; 0; 1]%nat [] false) =
    (Ret (Some 0), mkTerm [chars "late"] eintr' (concat [chars "hello "; chars "world"] ++ chars "QUIT") true).
Proof.
  destruct alice_ok as (Hok & Hpre & Hq).
  apply (client_sends [chars "hello "; chars "world"] (chars "QUIT") [chars "late"] [2; 0; 1]%nat 9
           (chars "client") (chars "127.0.0.1") (chars "6000") Hok Hpre Hq).
  - vm_compute. discriminate.
  - cbn. lia.
Defined.

Lemma chat_end_to_end_witness :
  exists k, server_main 9 server_argv (kern_init two_conns (replicate 9 everything)) = (Ret None, k) /\
    k_backlog k = [] /\ k_watched k = [listen_fd] /\
    forall j u, [alice; bob] !! j = Some u ->
      fst (run_client 9 u) = Ret (Some 0) /\ said (conn_fd j) k = concat (u_lines u) ++ u_quit u.
Proof.
  apply chat_end_to_end.
  - constructor; [exact alice_ok|]. constructor; [exact bob_ok|constructor].
  - repeat constructor; vm_compute; lia.
  - pose proof two_conns_ok as [H1 [H2 _]%Forall_cons]%Forall_cons.
    constructor; [split; [exact H1|vm_compute; reflexivity]|].
    constructor; [split; [exact H2|vm_compute; reflexivity]|constructor].
  - vm_compute. lia.
  - change (take 9 (replicate 9 everything)) with (replicate 9 everything).
    apply Forall_replicate, everything_covers.
Defined.

Lemma server_overread_witness :
  fst (server_main 2 server_argv
         (kern_init [[replicate 128 x61]] [[listen_fd]; [first_fd]])) = UB.
Proof.
  apply (server_overread (replicate 128 x61) [] [] 0); [reflexivity|].
  intros [Hx _]%elem_of_replicate. discriminate Hx.
Defined.
