(* ===== verification/Timer.v ===== *)
(** * The tracing timer: src/trace_events/test_trace_event.c

    A timer whose handler fills [global], emits a trace event and arms the
    timer again, and the init and exit functions that race with it: they run
    on one processor, the handler in the timer interrupt of another. A step
    runs one statement of one of them, or advances [jiffies]. The timer wheel
    may run the handler at any time from its expiry on. *)
From Stdlib Require Import ZArith.
From stdpp Require Import base list relations.
From S2P Require Import Prelude.
Open Scope Z_scope.

(** [time_after_eq(a, b)] *)
Definition time_after_eq (a b : Z) : bool := u64 (a - b) <? 9223372036854775808.

(** [struct test_data] *)
Record test_data : Type := mkData { num : Z; cpu_freq : Z; cpu_max_freq : Z }.

(** What [global] points to. *)
Inductive pointer : Type :=
  | Null
  | Live (d : test_data)
  | Freed.

(** Where the loading and unloading stand: before [init]; after
    [add_timer_on]; loaded; [init] failed; after [kfree]; after
    [del_timer_sync]. In the states [Refused] and [Unloaded] the module, its
    code and its data are not mapped any more. *)
Inductive phase : Type := Start | Armed | Loaded | Refused | Freeing | Unloaded.

#[export] Instance phase_eq_dec : EqDecision phase.
Proof. solve_decision. Defined.

(** The statements of [test_driver_func], by line. *)
Inductive handler_pc : Type :=
  | H41 | H42 | H43 | H44 | H46
  | H47 (expires : Z)
  | H48.

(** The calls the handler makes: the trace event, and the argument of
    [msecs_to_jiffies]. *)
Inductive call : Type :=
  | Traced (d : test_data)
  | Delay (ms : Z).

Record driver : Type := mkDriver {
  at_phase : phase;
  global : pointer;
  i : Z;
  test_timer : option Z;           (* the expiry, when it is pending *)
  running : option handler_pc;
  jiffies : Z;
  calls : list call;               (* oldest first *)
}.

Inductive label : Type :=
  | Tick
  | AddTimer                       (* lines 55 to 59 *)
  | Alloc (ok : bool)              (* lines 60 to 65 *)
  | Fire                           (* the timer interrupt *)
  | Handler                        (* the next statement of the handler *)
  | Kfree                          (* lines 70 and 71 *)
  | DelTimer.                      (* line 72 *)

Inductive result : Type :=
  | Next (s : driver)
  | Blocked
  | Crash.

Definition set_phase (p : phase) (s : driver) : driver :=
  mkDriver p (global s) (i s) (test_timer s) (running s) (jiffies s) (calls s).
Definition set_global (g : pointer) (s : driver) : driver :=
  mkDriver (at_phase s) g (i s) (test_timer s) (running s) (jiffies s) (calls s).
Definition set_i (n : Z) (s : driver) : driver :=
  mkDriver (at_phase s) (global s) n (test_timer s) (running s) (jiffies s) (calls s).
Definition set_timer (t : option Z) (s : driver) : driver :=
  mkDriver (at_phase s) (global s) (i s) t (running s) (jiffies s) (calls s).
Definition goto (p : option handler_pc) (s : driver) : driver :=
  mkDriver (at_phase s) (global s) (i s) (test_timer s) p (jiffies s) (calls s).
Definition set_jiffies (t : Z) (s : driver) : driver :=
  mkDriver (at_phase s) (global s) (i s) (test_timer s) (running s) t (calls s).
Definition calling (c : call) (s : driver) : driver :=
  mkDriver (at_phase s) (global s) (i s) (test_timer s) (running s) (jiffies s) (calls s ++ [c]).

(** The code and the static data of the module are mapped. *)
Definition module_mapped (s : driver) : bool :=
  match at_phase s with Refused | Unloaded => false | _ => true end.

(** The configuration and the kernel functions the handler calls: the two
    frequency functions read at a time, for a processor. *)
Class Kernel : Type := {
  HZ : Z;
  NR_CPUS : Z;
  msecs_to_jiffies : Z -> Z;
  cpufreq_quick_get : Z -> Z -> Z;
  cpufreq_quick_get_max : Z -> Z -> Z;
}.

Section Driver.
Context `{Kernel}.

Definition TEST_DRIVER_DELAY : Z := 50 * HZ.

(** A store to a field of [*global]. *)
Definition assign (f : test_data -> test_data) (next : handler_pc) (s : driver) : result :=
  match global s with
  | Live d => Next (goto (Some next) (set_global (Live (f d)) s))
  | _ => Crash
  end.

Definition next_cpu (s : driver) : Z := u64 (i s + 1) `mod` NR_CPUS.

Definition test_driver_func (pc : handler_pc) (s : driver) : result :=
  match pc with
  | H41 => assign (fun d => mkData (next_cpu s) (cpu_freq d) (cpu_max_freq d)) H42 s
  | H42 => assign (fun d => mkData (num d) (cpufreq_quick_get (jiffies s) (next_cpu s)) (cpu_max_freq d)) H43 s
  | H43 => assign (fun d => mkData (num d) (cpu_freq d) (cpufreq_quick_get_max (jiffies s) (next_cpu s))) H44 s
  | H44 =>
      match global s with
      | Live d => Next (goto (Some H46) (calling (Traced d) s))
      | _ => Crash
      end
  | H46 =>
      let ms := u32 (u64 (2000 + i s * 200)) in
      let expires := u64 (jiffies s + msecs_to_jiffies ms) in
      Next (goto (Some (H47 expires)) (calling (Delay ms) s))
  | H47 expires => Next (goto (Some H48) (set_timer (Some expires) s))
  | H48 =>
      let j := if 100 <? i s then 0 else i s in
      Next (goto None (set_i (u64 (j + 1)) s))
  end.

Definition test_driver_init_timer (s : driver) : driver :=
  set_phase Armed (set_timer (Some (u64 (jiffies s + TEST_DRIVER_DELAY))) s).

Definition test_driver_init_alloc (ok : bool) (s : driver) : driver :=
  if ok then set_phase Loaded (set_global (Live (mkData 0 0 0)) s)
  else set_phase Refused (set_global Null s).

(** The exit function; [del_timer_sync] waits for the handler and leaves the
    timer inactive. *)
Definition test_driver_exit_free (s : driver) : driver := set_phase Freeing (set_global Freed s).
Definition test_driver_exit_timer (s : driver) : driver := set_phase Unloaded (set_timer None s).

Definition exec (l : label) (s : driver) : result :=
  match l with
  | Tick => Next (set_jiffies (u64 (jiffies s + 1)) s)
  | AddTimer => if decide (at_phase s = Start) then Next (test_driver_init_timer s) else Blocked
  | Alloc ok => if decide (at_phase s = Armed) then Next (test_driver_init_alloc ok s) else Blocked
  | Fire =>
      match test_timer s, running s with
      | Some e, None =>
          if time_after_eq (jiffies s) e then
            if module_mapped s then Next (goto (Some H41) (set_timer None s)) else Crash
          else Blocked
      | _, _ => Blocked
      end
  | Handler =>
      match running s with
      | Some pc => if module_mapped s then test_driver_func pc s else Crash
      | None => Blocked
      end
  | Kfree => if decide (at_phase s = Loaded) then Next (test_driver_exit_free s) else Blocked
  | DelTimer =>
      if decide (at_phase s = Freeing) then
        match running s with None => Next (test_driver_exit_timer s) | Some _ => Blocked end
      else Blocked
  end.

Inductive step : driver -> driver -> Prop :=
  | step_exec l s s' : exec l s = Next s' -> step s s'.

(** A schedule: a label that is not enabled does nothing; [None]: a crash. *)
Fixpoint run (ls : list label) (s : driver) : option driver :=
  match ls with
  | [] => Some s
  | l :: ls =>
      match exec l s with
      | Next s => run ls s
      | Blocked => run ls s
      | Crash => None
      end
  end.

Definition boot (now : Z) : driver := mkDriver Start Null 0 None None now [].
Definition reachable (s : driver) : Prop := exists now, 0 <= now < 18446744073709551616 /\ rtc step (boot now) s.
End Driver.
