(* ===== verification/TimerProps.v ===== *)
(** * Properties of the tracing timer

    What the handler has done is a function of how often it ran, in every
    reachable state; the schedules that crash and the ones that do not. *)
From Stdlib Require Import ZArith.
From stdpp Require Import base list relations.
From S2P Require Import Prelude Timer.
Open Scope Z_scope.

(** ** What the runs of the handler do *)

(** The value of [i] in run number [k]: 0, then 1 to 101 over and over. *)
Definition index (k : nat) : Z :=
  match k with O => 0 | S k => Z.of_nat k `mod` 101 + 1 end.

Lemma index_range k : 0 <= index k <= 101.
Proof. destruct k; cbn [index]; div_lia. Qed.

Lemma index_succ k : u64 ((if 100 <? index k then 0 else index k) + 1) = index (S k).
Proof.
  rewrite u64_small by (pose proof (index_range k); case_cmp; lia).
  destruct k as [|k]; [done|]. cbn [index]. rewrite (Nat2Z.inj_succ k). case_cmp; div_lia.
Qed.

Section Calls.
Context `{Kernel}.

Definition traced_num (c : call) : option Z := match c with Traced d => Some (num d) | Delay _ => None end.
Definition delay_of (c : call) : option Z := match c with Traced _ => None | Delay ms => Some ms end.

(** The processors traced and the delays asked for, so far. *)
Definition nums (s : driver) : list Z := omap traced_num (calls s).
Definition delays (s : driver) : list Z := omap delay_of (calls s).

(** The processor of run [k], and its delay in milliseconds. *)
Definition run_num (k : nat) : Z := (index k + 1) `mod` NR_CPUS.
Definition run_delay (k : nat) : Z := 2000 + 200 * index k.

(** How many runs have emitted their event, asked for their delay, and moved
    [i] on, when the handler stands at [pc] in run [k]. *)
Definition traced_at (pc : option handler_pc) (k : nat) : nat :=
  match pc with Some (H46 | H47 _ | H48) => S k | _ => k end.
Definition delayed_at (pc : option handler_pc) (k : nat) : nat :=
  match pc with Some (H47 _ | H48) => S k | _ => k end.

(** The handler arms the timer again at line 47. *)
Definition rearms (pc : option handler_pc) : bool :=
  match pc with Some (H41 | H42 | H43 | H44 | H46 | H47 _) => true | _ => false end.

(** Line 41 is done and the event of the run is still to come. *)
Definition num_set (pc : option handler_pc) : bool :=
  match pc with Some (H42 | H43 | H44) => true | _ => false end.

(** The state of [init] and [exit], and what the handler may be doing. *)
Definition phase_ok (s : driver) : Prop :=
  match at_phase s with
  | Start => global s = Null /\ running s = None /\ test_timer s = None
  | Armed | Refused => global s = Null /\ (running s = None \/ running s = Some H41)
  | Loaded => exists d, global s = Live d
  | Freeing => global s = Freed
  | Unloaded => running s = None /\ test_timer s = None
  end.

(** Between [add_timer_on] and [del_timer_sync] the timer is pending, or the
    handler is going to arm it. *)
Definition armed_ok (s : driver) : Prop :=
  match at_phase s with
  | Start | Unloaded => True
  | _ => if rearms (running s) then test_timer s = None else is_Some (test_timer s)
  end.

Record timer_inv (k : nat) (s : driver) : Prop := {
  ti_phase : phase_ok s;
  ti_armed : armed_ok s;
  ti_i : i s = index k;
  ti_nums : nums s = map run_num (seq 0 (traced_at (running s) k));
  ti_delays : delays s = map run_delay (seq 0 (delayed_at (running s) k));
  ti_cpu : forall d, global s = Live d -> num_set (running s) = true -> num d = run_num k;
}.

Lemma map_seq_snoc {A} (f : nat -> A) k : map f (seq 0 (S k)) = map f (seq 0 k) ++ [f k].
Proof. by rewrite seq_S, map_app. Qed.

Lemma next_cpu_run k s : i s = index k -> next_cpu s = run_num k.
Proof.
  intros Hi. unfold next_cpu, run_num. rewrite Hi, u64_small; [done|].
  pose proof (index_range k). lia.
Qed.

Lemma delay_small k : u32 (u64 (2000 + index k * 200)) = run_delay k.
Proof.
  pose proof (index_range k). unfold run_delay. rewrite u64_small, u32_small by lia. lia.
Qed.

(** The next statement of the handler, as an equation for the new state. *)
Ltac handler_step E :=
  unfold test_driver_func, assign in E;
  repeat match type of E with context [match ?x with _ => _ end] => destruct x eqn:? end;
  try discriminate E; injection E as <-.

Lemma handler_phase s pc s' :
  phase_ok s -> armed_ok s -> running s = Some pc -> test_driver_func pc s = Next s' ->
  phase_ok s' /\ armed_ok s'.
Proof.
  intros Hp Ha Hr E. unfold phase_ok, armed_ok in *. rewrite Hr in *.
  handler_step E; cbn; destruct (at_phase s); try done; intuition (eauto || congruence).
Qed.

(** A step of the handler keeps the invariant; the last one ends the run. *)
Lemma handler_inv k s pc s' :
  timer_inv k s -> running s = Some pc -> test_driver_func pc s = Next s' ->
  timer_inv (match pc with H48 => S k | _ => k end) s'.
Proof.
  intros [Hp Ha Hi Hn Hd Hc] Hr E. destruct (handler_phase s pc s' Hp Ha Hr E) as [Hp' Ha'].
  pose proof (next_cpu_run k s Hi) as Hcpu. rewrite Hr in Hn, Hd, Hc. clear Hp Ha.
  unfold nums, delays in *.
  handler_step E; (split; unfold nums, delays; cbn -[seq index]; [exact Hp'|exact Ha'|..]); clear Hp' Ha';
    rewrite ?omap_app, ?Hn, ?Hd; cbn -[seq index]; rewrite ?app_nil_r, ?map_seq_snoc; try done.
  - intros d' [= <-] _. exact Hcpu.
  - intros d' [= <-] _. exact (Hc d eq_refl eq_refl).
  - intros d' [= <-] _. exact (Hc d eq_refl eq_refl).
  - by rewrite (Hc _ eq_refl eq_refl).
  - by rewrite Hi, delay_small.
  - by rewrite <- index_succ, <- Hi, Heqb.
  - by rewrite <- index_succ, <- Hi, Heqb.
Qed.

Lemma boot_inv now : timer_inv 0 (boot now).
Proof. by split. Qed.

(** A step that is not the handler's only has to keep the state of the
    phases; the interrupt starts the handler. *)
Lemma phase_inv k s s' :
  timer_inv k s -> running s' = running s \/ running s = None /\ running s' = Some H41 ->
  i s' = i s -> calls s' = calls s -> phase_ok s' -> armed_ok s' ->
  (forall d, global s' = Live d -> num_set (running s) = true -> global s = Live d) ->
  timer_inv k s'.
Proof.
  intros [_ _ Hi Hn Hd Hc] Hr Hi' Hcs Hp Ha Hg. unfold nums, delays in *.
  destruct Hr as [Hr|[Hr0 Hr]]; split; unfold nums, delays; rewrite ?Hr, ?Hi', ?Hcs;
    rewrite ?Hr0 in *; eauto; done.
Qed.

Lemma exec_inv k l s s' : timer_inv k s -> exec l s = Next s' -> exists k', timer_inv k' s'.
Proof.
  intros I E. pose proof I as [Hp Ha _ _ _ _]. unfold phase_ok, armed_ok in Hp, Ha.
  destruct l; cbn [exec] in E; unfold test_driver_init_alloc in E;
    repeat match type of E with context [match ?x with _ => _ end] => destruct x eqn:? end;
    try discriminate E; try (by eexists; eapply handler_inv).
  all: injection E as <-; exists k; apply (phase_inv k s _ I); try done; unfold phase_ok, armed_ok; cbn.
  all: repeat match goal with H : at_phase _ = _ |- _ => rewrite H in * end.
  all: cbn in *; try solve [by destruct (at_phase s)|intuition (eauto || congruence)].
  - destruct Hp as (_ & -> & _). by eexists.
  - by destruct Hp as [_ [-> | ->]].
  - unfold module_mapped in *. destruct (at_phase s); try done; intuition congruence.
Qed.

Lemma steps_inv s s' k : rtc step s s' -> timer_inv k s -> exists k', timer_inv k' s'.
Proof.
  intros Hs. revert k. induction Hs as [s|s s1 s2 [l ? ? E] _ IH]; intros k I; [by exists k|].
  destruct (exec_inv k l _ _ I E) as [k' I']. exact (IH k' I').
Qed.

Lemma reachable_timer_inv s : reachable s -> exists k, timer_inv k s.
Proof. intros (now & _ & Hs). exact (steps_inv _ _ 0 Hs (boot_inv now)). Qed.

(** C30. In every reachable state of the module, whatever the interleaving of
    the timer interrupt with the init and exit functions: the processors
    traced so far are those of the runs 0, 1, 2, ... of the handler ([i] goes
    from 0 to 101 and then from 1 to 101 over and over), the delays asked for
    are those of the same runs, between 2 and 22.2 seconds and never cut by the
    conversion to 32 bits, and at most one event ahead; between [add_timer_on]
    and [del_timer_sync] the timer is pending or the handler is running, so it
    never dies out; after [del_timer_sync] neither is the case. *)
Theorem timer_invariant s :
  reachable s ->
  exists n m,
    nums s = map run_num (seq 0 n) /\ delays s = map run_delay (seq 0 m) /\
    (m <= n <= S m)%nat /\ (running s = None -> n = m /\ i s = index n) /\
    0 <= i s <= 101 /\ Forall (fun ms => 2000 <= ms <= 22200) (delays s) /\
    (at_phase s ∈ [Armed; Loaded; Refused; Freeing] -> is_Some (test_timer s) \/ is_Some (running s)) /\
    (at_phase s = Unloaded -> test_timer s = None /\ running s = None).
Proof.
  intros [k [Hp Ha Hi Hn Hd _]]%reachable_timer_inv.
  exists (traced_at (running s) k), (delayed_at (running s) k).
  pose proof (index_range k). split_and!; try done; rewrite ?Hi; try lia.
  - destruct (running s) as [[]|]; cbn; lia.
  - destruct (running s) as [[]|]; cbn; lia.
  - intros ->. done.
  - rewrite Hd. apply Forall_fmap, Forall_forall. intros j _. cbn. pose proof (index_range j).
    unfold run_delay. lia.
  - intros Hph. unfold armed_ok in Ha. destruct (running s) as [pc|]; [right; by eexists|left].
    rewrite !elem_of_cons in Hph. by destruct Hph as [E|[E|[E|[E|[]%elem_of_nil]]]]; rewrite E in Ha.
  - intros E. unfold phase_ok in Hp. rewrite E in Hp. tauto.
Qed.

(** ** Crashes *)

(** Between [add_timer_on] and the allocation, after a refused allocation, and
    between [kfree] and [del_timer_sync]. *)
Definition exposed (p : phase) : bool :=
  match p with Armed | Refused | Freeing => true | _ => false end.

(** Nothing crashes before loading starts, while the module is loaded, and
    after it is unloaded. *)
Lemma exec_phases k l s :
  timer_inv k s -> exec l s = Crash -> exposed (at_phase s) = true.
Proof.
  intros [Hp _ _ _ _ _] E. unfold phase_ok in Hp.
  destruct (at_phase s) eqn:Eph; try done; exfalso;
    destruct l; cbn [exec] in E; unfold module_mapped, test_driver_func, assign in E; rewrite ?Eph in E;
    repeat match type of E with context [match ?x with _ => _ end] => destruct x eqn:? end;
    try discriminate E; destruct_and?; try congruence; destruct Hp; congruence.
Qed.

(** Only [kfree] leaves the loaded state. *)
Lemma loaded_stays l s s' :
  at_phase s = Loaded -> exec l s = Next s' -> l <> Kfree -> at_phase s' = Loaded.
Proof.
  intros Hs E Hl. destruct l; cbn [exec] in E; unfold test_driver_func, assign in E; rewrite ?Hs in E;
    repeat match type of E with context [match ?x with _ => _ end] => destruct x eqn:? end;
    try discriminate E; injection E as <-; done.
Qed.

Lemma unloaded_stays k l s s' :
  timer_inv k s -> at_phase s = Unloaded -> exec l s = Next s' -> at_phase s' = Unloaded.
Proof.
  intros [Hp _ _ _ _ _] Hs E. unfold phase_ok in Hp. rewrite Hs in Hp. destruct Hp as [Hr Ht].
  destruct l; cbn [exec] in E; rewrite ?Hs, ?Hr, ?Ht in E; try discriminate E; by injection E as <-.
Qed.

(** A schedule that stays in a phase without crashes runs to its end. *)
Lemma run_phase (p : phase) (allowed : label -> Prop) ls : forall k s,
  exposed p = false ->
  (forall k l s s', timer_inv k s -> at_phase s = p -> exec l s = Next s' -> allowed l -> at_phase s' = p) ->
  timer_inv k s -> at_phase s = p -> Forall allowed ls ->
  exists k' s', run ls s = Some s' /\ timer_inv k' s' /\ at_phase s' = p.
Proof.
  intros k s Hp Hstay. revert k s. induction ls as [|l ls IH]; intros k s I Hs Hls; [by exists k, s|].
  apply Forall_cons in Hls as [Hl Hls]. cbn [run]. destruct (exec l s) as [s'| |] eqn:E.
  - destruct (exec_inv k l s s' I E) as [k' I']. apply (IH k'); eauto.
  - by apply (IH k).
  - apply (exec_phases k) in E; [|done]. congruence.
Qed.

Lemma run_app l1 l2 s : run (l1 ++ l2) s = match run l1 s with Some s' => run l2 s' | None => None end.
Proof.
  revert s; induction l1 as [|l l1 IH]; intros s; [done|]. cbn [app run]. by destruct (exec l s).
Qed.

(** Ticks counted. *)
Fixpoint ticks (ls : list label) : Z :=
  match ls with [] => 0 | Tick :: ls => ticks ls + 1 | _ :: ls => ticks ls end.

Lemma ticks_nonneg ls : 0 <= ticks ls.
Proof. induction ls as [|[] ls IH]; cbn; lia. Qed.

Definition not_alloc (l : label) : Prop := match l with Alloc _ => False | _ => True end.

(** The state in which [init] allocates, [n] ticks after it armed the timer. *)
Definition waiting (now n : Z) (s : driver) : Prop :=
  at_phase s = Armed /\ running s = None /\ test_timer s = Some (u64 (now + TEST_DRIVER_DELAY)) /\
  jiffies s = u64 (now + n).

Lemma run_waiting now ls : forall n s,
  0 < TEST_DRIVER_DELAY <= 9223372036854775808 -> 0 <= n -> n + ticks ls < TEST_DRIVER_DELAY ->
  waiting now n s -> Forall not_alloc ls ->
  exists s', run ls s = Some s' /\ rtc step s s' /\ waiting now (n + ticks ls) s'.
Proof.
  intros n s Hd. revert n s. induction ls as [|l ls IH]; intros n s Hn Hlt W Hls.
  { exists s. split; [done|]. split; [done|]. cbn. by rewrite Z.add_0_r. }
  apply Forall_cons in Hls as [Hl Hls]. pose proof (ticks_nonneg ls).
  pose proof W as (Hs & Hr & Ht & Hj).
  destruct l; try done; cbn [run exec]; rewrite ?Hs, ?Hr, ?Ht; cbn [decide] in *.
  2-6: try (apply IH; done).
  - change (ticks (Tick :: ls)) with (ticks ls + 1) in *.
    destruct (IH (n + 1) (set_jiffies (u64 (jiffies s + 1)) s)) as (s' & E & Hst & W'); [lia..| |done|].
    + split_and!; try done. cbn. rewrite Hj. unfold u64. rewrite Zplus_mod_idemp_l. f_equal. lia.
    + exists s'. split; [done|]. split.
      * eapply rtc_l; [by apply (step_exec Tick)|done].
      * by replace (n + (ticks ls + 1)) with (n + 1 + ticks ls) by lia.
  - replace (time_after_eq (jiffies s) (u64 (now + TEST_DRIVER_DELAY))) with false; [by apply IH|].
    symmetry. apply Z.ltb_ge. rewrite Hj. unfold u64. change (ticks (Fire :: ls)) with (ticks ls) in Hlt. div_lia.
Qed.

Definition not_kfree (l : label) : Prop := l <> Kfree.

(** The two calls of the exit function, one right after the other. *)
Lemma exit_safe k s ls :
  timer_inv k s -> at_phase s = Loaded -> running s = None ->
  exists s', run (Kfree :: DelTimer :: ls) s = Some s'.
Proof.
  intros I Hs Hr. cbn [run exec]. rewrite decide_True by done.
  destruct (exec_inv k Kfree s (test_driver_exit_free s) I) as [k1 I1]; [cbn [exec]; by rewrite decide_True|].
  set (s1 := test_driver_exit_free s) in *.
  assert (E : exec DelTimer s1 = Next (test_driver_exit_timer s1))
    by (cbn [exec]; rewrite decide_True by done; cbn; by rewrite Hr).
  cbn [exec] in E. rewrite E. destruct (exec_inv k1 DelTimer s1 _ I1 E) as [k2 I2].
  destruct (run_phase Unloaded (fun _ => True) ls k2 _ eq_refl ltac:(eauto using unloaded_stays) I2 eq_refl)
    as (k3 & s3 & E3 & _); [by apply Forall_forall|]. by exists s3.
Qed.

(** C31. When the memory is allocated before the first expiry (50 seconds after
    [add_timer_on]) the loaded module never crashes, whatever the schedule of
    the timer interrupt; and when the exit function runs its two calls while
    the handler is not running and the timer does not fire between them, nothing
    that happens later crashes. A crash needs one of the three other moments: before the
    allocation, after a refused one, or between [kfree] and
    [del_timer_sync]. *)
Theorem timer_safe now pre ls :
  0 <= now < 18446744073709551616 -> 0 < TEST_DRIVER_DELAY <= 9223372036854775808 ->
  ticks pre < TEST_DRIVER_DELAY -> Forall not_alloc pre -> Forall not_kfree ls ->
  (exists s, run (AddTimer :: pre ++ Alloc true :: ls) (boot now) = Some s /\ at_phase s = Loaded /\
             (running s = None -> forall ls', exists s', run (Kfree :: DelTimer :: ls') s = Some s')) /\
  (forall s l, reachable s -> exec l s = Crash -> exposed (at_phase s) = true).
Proof.
  intros Hnow Hd Hpre Hna Hnk. split; [|by intros s l [k I]%reachable_timer_inv; apply (exec_phases k)].
  cbn [run exec boot at_phase]. rewrite decide_True by done. rewrite run_app.
  set (s0 := test_driver_init_timer (boot now)).
  destruct (exec_inv 0 AddTimer (boot now) s0 (boot_inv now) eq_refl) as [k0 I0].
  destruct (run_waiting now pre 0 s0 Hd) as (s1 & -> & Hst & Hs1 & _); [lia|done| |done|].
  { split_and!; try done. cbn. by rewrite Z.add_0_r, u64_small. }
  destruct (steps_inv _ _ k0 Hst I0) as [k1 I1].
  cbn [run exec]. rewrite decide_True by done.
  destruct (exec_inv k1 (Alloc true) s1 (test_driver_init_alloc true s1) I1) as [k2 I2];
    [cbn [exec]; by rewrite decide_True|].
  destruct (run_phase Loaded not_kfree ls k2 _ eq_refl ltac:(eauto using loaded_stays) I2 eq_refl Hnk)
    as (k3 & s3 & -> & I3 & Hs3).
  exists s3. split_and!; try done. intros Hr ls'. by apply (exit_safe k3).
Qed.

Lemma run_steps ls : forall s s', run ls s = Some s' -> rtc step s s'.
Proof.
  induction ls as [|l ls IH]; intros s s' E; [by injection E as <-|]. cbn [run] in E.
  destruct (exec l s) as [s1| |] eqn:E1; [|by apply IH|done].
  eapply rtc_l; [by apply (step_exec l)|by apply IH].
Qed.
End Calls.

(** ** A machine with one tick a second and four processors *)
Module Machine.
#[global] Instance kernel : Kernel :=
  {| HZ := 1; NR_CPUS := 4; msecs_to_jiffies := fun ms => (ms + 999) / 1000;
     cpufreq_quick_get := fun t cpu => 1000 + t + cpu; cpufreq_quick_get_max := fun _ _ => 2000 |}.

Definition whole_run : list label := Fire :: replicate 7 Handler.

(** Loaded, and the handler run twice. *)
Definition schedule : list label :=
  AddTimer :: Alloc true :: replicate 50 Tick ++ whole_run ++ [Tick; Tick] ++ whole_run.

Definition after_two : driver := default (boot 0) (run schedule (boot 0)).
End Machine.

Lemma timer_invariant_witness :
  reachable Machine.after_two /\ nums Machine.after_two = [1; 2] /\ delays Machine.after_two = [2000; 2200] /\
  exists n m,
    nums Machine.after_two = map run_num (seq 0 n) /\ delays Machine.after_two = map run_delay (seq 0 m).
Proof.
  assert (Hr : reachable Machine.after_two).
  { exists 0. split; [lia|]. apply (run_steps Machine.schedule). vm_compute. reflexivity. }
  split_and!; [exact Hr|vm_compute; reflexivity|vm_compute; reflexivity|].
  destruct (timer_invariant _ Hr) as (n & m & Hn & Hm & _). exists n, m. exact (conj Hn Hm).
Defined.

Lemma timer_safe_witness :
  exists s, run (AddTimer :: replicate 10 Tick ++ Alloc true :: replicate 40 Tick ++ Machine.whole_run) (boot 0) = Some s /\
            at_phase s = Loaded.
Proof.
  destruct (timer_safe 0 (replicate 10 Tick) (replicate 40 Tick ++ Machine.whole_run))
    as [(s & E & Hs & _) _].
  - lia.
  - by vm_compute.
  - by vm_compute.
  - repeat constructor.
  - repeat constructor; discriminate.
  - exists s. exact (conj E Hs).
Defined.

(** The three crashes: the timer fires before the memory is allocated (the
    allocation took more than 50 seconds), after [init] failed, and between
    [kfree] and [del_timer_sync]. *)
Example timer_races :
  run (AddTimer :: replicate 50 Tick ++ [Fire; Handler]) (boot 0) = None /\
  run (AddTimer :: Alloc false :: replicate 50 Tick ++ [Fire]) (boot 0) = None /\
  run (AddTimer :: Alloc true :: replicate 50 Tick ++ [Kfree; Fire; Handler]) (boot 0) = None.
Proof. split_and!; vm_compute; reflexivity. Qed.
