(* ===== verification/TraceEvent.v ===== *)
(** * The trace event: src/trace_events/test_driver.h

    The event class [get_cpu_info] and its event: what the record of a call
    holds and the line the trace shows for it. The line determines the
    record, and the trace of the module of [Timer] has one line per event. *)
From Stdlib Require Import ZArith Strings.Byte.
From stdpp Require Import base list strings relations.
From S2P Require Import Prelude Printf Timer TimerProps.
Open Scope Z_scope.

(** [TP_STRUCT__entry] *)
Record get_cpu_info : Type := mkCpuInfo { cpu_id : Z; curr_freq : Z; max_freq : Z }.

(** [TP_fast_assign] *)
Definition fast_assign (cpu_id curr_freq max_freq : Z) : get_cpu_info := mkCpuInfo cpu_id curr_freq max_freq.

(** [TP_printk] *)
Definition get_cpu_info_print (e : get_cpu_info) : option (list byte) :=
  format (chars "cpu=%lu curr_freq=%lu max_freq=%lu") [AInt (cpu_id e); AInt (curr_freq e); AInt (max_freq e)].

(** [DEFINE_EVENT]: the call that fills a record. *)
Definition trace_get_test_driver_data : Z -> Z -> Z -> get_cpu_info := fast_assign.

(** The lines of the module's trace. *)
Definition trace_line (c : call) : option (list byte) :=
  match c with
  | Traced d => get_cpu_info_print (trace_get_test_driver_data (num d) (cpu_freq d) (cpu_max_freq d))
  | Delay _ => None
  end.
Definition trace_lines (s : driver) : list (list byte) := omap trace_line (calls s).

(** ** Lines and records *)

Definition is_digit (b : byte) : Prop := 48 <= byte_val b <= 57.

Lemma dec_digits_digits n : forall v, 0 <= v -> Forall is_digit (dec_digits n v).
Proof.
  induction n as [|n IH]; intros v Hv; [done|]. cbn [dec_digits]. apply Forall_app. split.
  - case_cmp; [done|]. apply IH. div_lia.
  - apply Forall_singleton. unfold is_digit, digit.
    assert (0 <= v mod 10 < 10) as Hm by div_lia.
    rewrite (proj2 (Z.ltb_lt _ _)), byte_val_of, u8_small by lia. lia.
Qed.

(** A number ends where something else begins. *)
Lemma digits_split ds ds' rest rest' b :
  Forall is_digit ds -> Forall is_digit ds' -> ~ is_digit b ->
  ds ++ b :: rest = ds' ++ b :: rest' -> ds = ds' /\ rest = rest'.
Proof.
  intros Hd. revert ds'; induction Hd as [|d ds Hdd Hd IH]; intros [|d' ds'] Hd' Hb E.
  - by injection E.
  - injection E as -> _. by apply Forall_cons in Hd' as [? _].
  - injection E as -> _. done.
  - injection E as -> E. apply Forall_cons in Hd' as [_ Hd']. destruct (IH ds' Hd' Hb E) as [-> ->]. done.
Qed.

Lemma dec_inj v v' : 0 <= v < 18446744073709551616 -> 0 <= v' < 18446744073709551616 -> dec v = dec v' -> v = v'.
Proof. intros H H' E. by rewrite <- (dec_value v), E, dec_value. Qed.

Lemma print_text e :
  get_cpu_info_print e =
  Some (chars "cpu=" ++ dec (cpu_id e) ++ chars " curr_freq=" ++ dec (curr_freq e) ++
        chars " max_freq=" ++ dec (max_freq e)).
Proof. unfold get_cpu_info_print, format. cbn -[dec pad]. unfold pad. cbn [Nat.sub replicate app]. by rewrite <- ?app_assoc, ?app_nil_r. Qed.

Definition words (e : get_cpu_info) : Prop :=
  Forall (fun v => 0 <= v < 18446744073709551616) [cpu_id e; curr_freq e; max_freq e].

(** What the trace shows identifies the record. *)
Lemma print_inj e e' : words e -> words e' -> get_cpu_info_print e = get_cpu_info_print e' -> e = e'.
Proof.
  unfold words. rewrite !Forall_cons. intros (Ha & Hb & Hc & _) (Ha' & Hb' & Hc' & _).
  rewrite !print_text. intros [= E].
  assert (~ is_digit " "%byte) as Hsp by (unfold is_digit; cbn; lia).
  apply digits_split in E as [Ea [= E]]; [|by apply dec_digits_digits; lia..|exact Hsp].
  apply digits_split in E as [Eb [= Ec]]; [|by apply dec_digits_digits; lia..|exact Hsp].
  apply dec_inj in Ea, Eb, Ec; [|done..]. destruct e, e'. cbn in *. congruence.
Qed.

(** One line per event, whatever the values. *)
Lemma trace_lines_nums s : length (trace_lines s) = length (nums s).
Proof.
  unfold trace_lines, nums. induction (calls s) as [|[d|ms] cs IH]; [done| |exact IH].
  cbn [omap list_omap trace_line traced_num]. rewrite print_text. cbn [length]. by rewrite IH.
Qed.

Example trace_line_text :
  trace_line (Traced (mkData 3 1200000 2400000)) = Some (chars "cpu=3 curr_freq=1200000 max_freq=2400000").
Proof. vm_compute. reflexivity. Qed.
