(* ===== verification/Demos.v ===== *)
(** * File operations and small programs

    What the demonstration modules do when their files are used, and the user
    programs of the repository that only read, write or print. A program takes
    a state (of the kernel, or of the file system) and prints; [None] stands
    for undefined behaviour. *)
From Stdlib Require Import ZArith Strings.Byte.
From stdpp Require Import base gmap list strings.
From S2P Require Import Prelude Printf.
Open Scope Z_scope.

(** ** Programs that print *)

Definition P (S A : Type) : Type := S -> option (A * S * list (list byte)).

#[global] Instance P_ret {S} : MRet (P S) := fun A a s => Some (a, s, []).
#[global] Instance P_bind {S} : MBind (P S) := fun A B f m s =>
  match m s with
  | Some (a, s, out) =>
      match f a s with Some (b, s, out') => Some (b, s, out ++ out') | None => None end
  | None => None
  end.

Definition undefined {S A} : P S A := fun _ => None.

(** [printk], [printf], [syslog], [seq_printf]: the line. *)
Definition print {S} (fmt : list byte) (args : list arg) : P S unit :=
  fun s => match format fmt args with Some t => Some (tt, s, [t]) | None => None end.

(** ** sysctl/sysctl.c *)

(** [proc_dointvec] on the one [int] of the table: whether it writes, the
    user's buffer and the value; the result, the value and the buffer. *)
Class IntVec : Type := proc_dointvec : bool -> list byte -> Z -> Z * Z * list byte.

Definition kernusr_callback `{IntVec} {S} (write : bool) (buffer : list byte) (data : Z) : P S (Z * Z * list byte) :=
  print (chars "original value = %d" ++ newline) [AInt data];;
  let '(rc, data, buffer) := proc_dointvec write buffer data in
  (if write then print (chars "this is write operation, current value = %d" ++ newline) [AInt data] else mret tt);;
  mret (rc, data, buffer).

Definition sysctl_kernusr_data : Z := 1024.

(** ** debugfs/debugfs_demo.c, with the pointers that [kmalloc] returned *)

Definition kfree (p : Z) : P (gset Z) unit := fun heap =>
  if decide (p = 0) then Some (tt, heap, [])
  else if decide (p ∈ heap) then Some (tt, heap ∖ {[p]}, []) else None.

Definition debugfs_demo_open : P (gset Z) Z :=
  print (chars "debugfs demo file open!" ++ newline) [];; mret 0.

Definition debugfs_demo_read (str : list byte) : P (gset Z) Z :=
  print (chars "%s" ++ newline) [AStr str];; mret 0.

Definition debugfs_demo_release (private_data : Z) : P (gset Z) Z := kfree private_data;; mret 0.

(** What [debugfs_demo_init] puts in [data->str]. *)
Definition dbg_demo_str : list byte := chars "This is debugfs demo file!" ++ newline.

(** ** single_open/single_open.c *)

Definition seq_file_demo_show {S} : P S Z := print (chars "Hello World" ++ newline) [];; mret 0.

(** ** trace_point/tracepoint-sample.c *)

Definition my_subsys_event {S} (inode file : Z) : P S unit :=
  print (chars "inode: 0x%lx, file: 0x%lx" ++ newline) [AInt inode; AInt file].

(** [trace_subsys_event] calls the registered probes in turn. *)
Fixpoint trace_subsys_event {S} (probes : list (Z -> Z -> P S unit)) (inode file : Z) : P S unit :=
  match probes with
  | [] => mret tt
  | probe :: probes => probe inode file;; trace_subsys_event probes inode file
  end.

Definition my_open {S} (probes : list (Z -> Z -> P S unit)) (inode file : Z) : P S Z :=
  trace_subsys_event probes inode file;; mret 0.

(** ** char/demo_chr_dev.c *)

Definition MAJOR (dev : Z) : Z := Z.shiftr dev 20.
Definition MINOR (dev : Z) : Z := Z.land dev (2 ^ 20 - 1).

Definition chr_open {S} (i_rdev : Z) : P S Z :=
  let major := MAJOR i_rdev in
  let minor := MINOR i_rdev in
  print (chars "%s: major=%d, minor=%d" ++ newline) [AStr (chars "chr_open"); AInt major; AInt minor];;
  mret 0.

Definition chr_read {S} : P S Z := print (chars "In the chr_read() function!" ++ newline) [];; mret 0.

(** ** The system calls of the user programs *)

Inductive oflag : Type := O_RDONLY | O_RDWR | O_NDELAY | O_APPEND | O_CREAT | O_SYNC.

#[global] Instance oflag_eq_dec : EqDecision oflag.
Proof. solve_decision. Defined.

Class Posix (S : Type) : Type := {
  sys_open : string -> list oflag -> P S Z;
  sys_read : Z -> Z -> P S Z;
  sys_write : Z -> list byte -> P S Z;
  sys_close : Z -> P S Z;
  strerror : S -> list byte;       (* of [errno] *)
}.

Section Programs.
Context {S : Type} `{Posix S}.

(** char/main.c *)
Definition CHR_DEV_NAME : string := "/dev/chr_dev".

Definition chr_main : P S Z :=
  fd ← sys_open CHR_DEV_NAME [O_RDONLY; O_NDELAY];
  if fd <? 0 then
    print (chars "open file %s failed!" ++ newline) [AStr (chars CHR_DEV_NAME)];; mret (-1)
  else
    sys_read fd 32;; sys_close fd;; mret 0.

(** fs/file_write.c *)
Definition print_error : P S unit := fun s => print (chars "error is %s" ++ newline) [AStr (strerror s)] s.

Definition file_write_main (argv : list string) : P S Z :=
  match argv with
  | _ :: path :: _ =>
      fd ← sys_open path [O_RDWR; O_APPEND; O_CREAT; O_SYNC];
      (if fd =? -1 then print_error
       else
         print (chars "success fd = %d" ++ newline) [AInt fd];;
         sys_write fd (chars "hello world" ++ newline);;
         sys_close fd;;
         mret tt);;
      mret 0
  | _ => mret 0
  end.
End Programs.

(** ** kobject-example/hotplug/hotplug.c *)

Fixpoint log_environ {S} (environ : list (list byte)) : P S unit :=
  match environ with
  | [] => mret tt
  | var :: environ => print (chars "env=%s" ++ newline) [AStr var];; log_environ environ
  end.

Definition hotplug_main {S} (environ : list (list byte)) : P S Z :=
  print (chars "----------------------------------" ++ newline) [];;
  print (chars "argv[1]=%s" ++ newline ++ chars ", argv[1]") [];;
  log_environ environ;;
  print (chars "----------------------------------" ++ newline) [];;
  mret 0.

(** ** backtrace/bt_user.c

    [backtrace] fills an array of at most so many frames; [backtrace_symbols]
    returns an array of strings, or null. *)
Class Execinfo : Type := {
  backtrace : nat -> list Z;
  backtrace_symbols : list Z -> option (list (list byte));
}.

Definition BT_MAX_TRACE : nat := 100.

(** From [i] on, [n] strings. *)
Fixpoint print_strings {S} (n i : nat) (strings : option (list (list byte))) : P S unit :=
  match n with
  | O => mret tt
  | Datatypes.S n =>
      match strings with
      | Some l =>
          match l !! i with
          | Some s => print (chars "%s" ++ newline) [AStr s];; print_strings n (Datatypes.S i) strings
          | None => undefined
          end
      | None => undefined          (* strings[i] *)
      end
  end.

Definition print_trace `{Execinfo} {S} : P S unit :=
  let array := backtrace BT_MAX_TRACE in
  let size := length array in
  let strings := backtrace_symbols array in
  print (chars "Obtained %zd stack frames." ++ newline) [AInt (Z.of_nat size)];;
  print_strings size 0 strings.

Section Callers.
Context `{Execinfo} {S : Type}.
Definition dummy_function : P S unit := print_trace.
Definition test1 : P S unit := dummy_function.
Definition test2 : P S unit := test1.
Definition bt_main : P S Z := test2;; mret 0.
End Callers.

(** ** bit/find_first_bit and bit/find_last_bit *)

Class BitOps : Type := {
  find_first_bit : Z -> Z -> Z;    (* the word, the number of its bits *)
  find_last_bit : Z -> Z -> Z;
}.

Definition find_first_bit_init `{BitOps} {S} : P S Z :=
  let tmp := 257 in                (* 0x101 *)
  let tag := find_first_bit tmp 32 in
  print (chars "find_first_bit_init :%d(%lx)" ++ newline) [AInt tag; AInt tmp];; mret 0.

Definition find_last_bit_init `{BitOps} {S} : P S Z :=
  let tmp := 257 in
  let tag := find_last_bit tmp 32 in
  print (chars "find_last_bit_init :%d(%lx)" ++ newline) [AInt tag; AInt tmp];; mret 0.

Definition find_first_bit_exit {S} : P S unit := print (chars "find_last_bit_eixt" ++ newline) [].
Definition find_last_bit_exit {S} : P S unit := print (chars "find_last_bit_eixt" ++ newline) [].

(** ** module-para/module-para.c and module-template/module-template.c *)

Definition hello_export {S} (dolphi bobcat : Z) : P S Z :=
  print (chars "Hello from another module, dolphi:%d,bobcat:%d" ++ newline) [AInt dolphi; AInt bobcat];; mret 0.

Definition hello_start {S} : P S Z := print (chars "Hello World" ++ newline) [];; mret 0.
Definition hello_end {S} : P S unit := print (chars "Go to Hell" ++ newline) [].

Definition template_init {S} : P S Z := print (chars "Hello World" ++ newline) [];; mret 0.
Definition template_exit {S} : P S unit := print (chars "Go to Hell" ++ newline) [].

(** ** trace_printk/trace_printk_demo.c *)

Definition trace_printk_demo_init {S} : P S Z :=
  print (chars "Can not see this in trace unless loaded for the second time" ++ newline) [];; mret 0.
Definition trace_printk_demo_exit {S} : P S unit := print (chars "Module unloading" ++ newline) [].
