(* ===== verification/DemosProps.v ===== *)
(** * Properties of the file operations and the small programs *)
From Stdlib Require Import ZArith Strings.Byte.
From stdpp Require Import base gmap list strings.
From S2P Require Import Prelude Printf Demos.
Open Scope Z_scope.

(** ** Running *)

Lemma p_bind {S A B} (m : P S A) (f : A -> P S B) s a s' out b s'' out' :
  m s = Some (a, s', out) -> f a s' = Some (b, s'', out') ->
  (m ≫= f) s = Some (b, s'', out ++ out').
Proof. unfold mbind, P_bind. by intros -> ->. Qed.

Lemma print_run {S} fmt args t (s : S) : format fmt args = Some t -> print fmt args s = Some (tt, s, [t]).
Proof. unfold print. by intros ->. Qed.

(** ** The sysctl value *)

(** What [proc_dointvec] does on one integer: a decimal number written becomes
    the value; a read gives the value in decimal. *)
Class IntVecOk `{IntVec} : Prop := {
  dointvec_write v data : -2147483648 <= v < 2147483648 ->
    exists buf, proc_dointvec true (signed_dec v ++ newline) data = (0, v, buf);
  dointvec_read buf data : proc_dointvec false buf data = (0, data, signed_dec data ++ newline);
}.

(** A number written to the file is the value, is logged, and is what the
    next read returns; the old value is logged first. *)
Lemma kernusr_roundtrip `{IntVecOk} {S} (s : S) v data buf0 :
  -2147483648 <= v < 2147483648 ->
  exists buf,
    kernusr_callback true (signed_dec v ++ newline) data s =
      Some ((0, v, buf), s,
            [chars "original value = " ++ signed_dec data ++ newline;
             chars "this is write operation, current value = " ++ signed_dec v ++ newline]) /\
    kernusr_callback false buf0 v s =
      Some ((0, v, signed_dec v ++ newline), s, [chars "original value = " ++ signed_dec v ++ newline]).
Proof.
  intros Hv. destruct (dointvec_write v data Hv) as [buf E]. exists buf.
  unfold kernusr_callback. rewrite E, dointvec_read. split; reflexivity.
Qed.

(** Such a function: a sign, digits and the end of the line. *)
Module Decimal.
Definition parse (bs : list byte) : Z :=
  match bs with
  | "-"%byte :: bs => - digits_value 10 (take (length bs - 1) bs)
  | bs => digits_value 10 (take (length bs - 1) bs)
  end.

Definition dointvec (write : bool) (buf : list byte) (data : Z) : Z * Z * list byte :=
  if write then (0, parse buf, buf) else (0, data, signed_dec data ++ newline).

#[global] Instance intvec : IntVec := dointvec.

Lemma take_line (bs : list byte) : take (length (bs ++ newline) - 1) (bs ++ newline) = bs.
Proof. rewrite length_app, Nat.add_sub. apply take_app_length. Qed.

Lemma dec_digits_no_sign n v : Forall (fun b => b <> "-"%byte) (dec_digits n v).
Proof.
  revert v; induction n as [|n IH]; intros v; cbn [dec_digits]; [done|].
  apply Forall_app. split; [by case_cmp|]. apply Forall_singleton. intros E%(f_equal byte_val).
  unfold digit in E. rewrite byte_val_of in E. unfold u8 in E. change (byte_val "-") with 45 in E.
  case_cmp; div_lia.
Qed.

Lemma parse_dec v : 0 <= v < 18446744073709551616 -> parse (dec v ++ newline) = v.
Proof.
  intros Hv. transitivity (digits_value 10 (take (length (dec v ++ newline) - 1) (dec v ++ newline))).
  - pose proof (dec_digits_no_sign 20 v) as Hs. fold (dec v) in Hs.
    destruct (dec v) as [|b bs]; [done|]. apply Forall_cons in Hs as [Hb _].
    cbn [app parse]. by destruct b.
  - by rewrite take_line, dec_value.
Qed.

#[global] Instance intvec_ok : IntVecOk.
Proof.
  split; [|done]. intros v data Hv. exists (signed_dec v ++ newline).
  unfold proc_dointvec, intvec, dointvec, signed_dec. do 2 f_equal. case_cmp.
  - cbn [app parse]. rewrite take_line, dec_value by lia. lia.
  - apply parse_dec. lia.
Qed.
End Decimal.

(** ** Appending to a file *)

(** What the system calls promise for a file opened to append, with the
    contents of the files and the files the descriptors stand for: a write
    appends a prefix of its bytes; [close] ends the descriptor. *)
Class PosixOk (S : Type) `{Posix S} : Type := {
  contents : S -> gmap string (list byte);
  opened : S -> gmap Z string;
  open_ok path flags s : O_APPEND ∈ flags -> O_CREAT ∈ flags ->
    exists fd s', sys_open path flags s = Some (fd, s', []) /\
    (fd = -1 /\ contents s' = contents s /\ opened s' = opened s \/
     0 <= fd /\ opened s !! fd = None /\ opened s' = <[fd := path]> (opened s) /\
     contents s' = <[path := default [] (contents s !! path)]> (contents s));
  write_ok fd path bs s : opened s !! fd = Some path ->
    exists n s' k, sys_write fd bs s = Some (n, s', []) /\ opened s' = opened s /\
    contents s' = <[path := default [] (contents s !! path) ++ take k bs]> (contents s) /\
    (n = Z.of_nat (length (take k bs)) \/ n = -1 /\ k = O);
  close_ok fd s : is_Some (opened s !! fd) ->
    exists s', sys_close fd s = Some (0, s', []) /\ opened s' = delete fd (opened s) /\ contents s' = contents s;
}.

Definition greeting : list byte := chars "hello world" ++ newline.

(** The program exits with 0, closes what it opened, and leaves all files as
    they were, or appends a prefix of the greeting to the one it was given: a
    short or failed write goes unnoticed. *)
Lemma file_write_appends {S} `{PosixOk S} prog path args (s : S) :
  exists s' out,
    file_write_main (prog :: path :: args) s = Some (0, s', out) /\ opened s' = opened s /\
    (contents s' = contents s \/
     exists k, contents s' = <[path := default [] (contents s !! path) ++ take k greeting]> (contents s)).
Proof.
  destruct (open_ok path [O_RDWR; O_APPEND; O_CREAT; O_SYNC] s ltac:(set_solver) ltac:(set_solver))
    as (fd & s1 & E1 & [(-> & Hc & Ho)|(Hfd & Hnew & Ho & Hc)]).
  - exists s1. eexists. split; [|by auto]. cbn [file_write_main].
    eapply p_bind; [exact E1|]. cbn [Z.eqb]. eapply p_bind; [|reflexivity].
    unfold print_error. apply print_run. reflexivity.
  - destruct (write_ok fd path greeting s1) as (n & s2 & k & E2 & Ho2 & Hc2 & _);
      [by rewrite Ho, lookup_insert_eq|].
    destruct (close_ok fd s2) as (s3 & E3 & Ho3 & Hc3); [rewrite Ho2, Ho, lookup_insert_eq; by eexists|].
    exists s3. eexists. split_and!.
    + cbn [file_write_main]. eapply p_bind; [exact E1|]. rewrite (proj2 (Z.eqb_neq _ _)) by lia.
      eapply p_bind; [|reflexivity]. eapply p_bind; [apply print_run; reflexivity|].
      eapply p_bind; [exact E2|]. eapply p_bind; [exact E3|]. reflexivity.
    + by rewrite Ho3, Ho2, Ho, delete_insert_id.
    + right. exists k. rewrite Hc3, Hc2, Hc, lookup_insert_eq, insert_insert_eq. done.
Qed.

(** ** The back trace *)

(** When the symbols are there, one line for each frame; when
    [backtrace_symbols] fails the program dereferences a null pointer. *)
Lemma print_strings_run {S} l : forall pre (s : S),
  print_strings (length l) (length pre) (Some (pre ++ l)) s = Some (tt, s, map (fun x => x ++ newline) l).
Proof.
  induction l as [|x l IH]; intros pre s; [done|]. cbn [length print_strings].
  rewrite lookup_app_r, Nat.sub_diag by lia. cbn [lookup list_lookup map].
  change (?a :: ?b) with ([a] ++ b).
  eapply (p_bind _ _ s tt s [x ++ newline]); [by apply print_run; cbn; rewrite ?app_nil_r|].
  specialize (IH (pre ++ [x]) s). rewrite length_app, <- app_assoc in IH. cbn in IH. by rewrite Nat.add_1_r in IH.
Qed.

Lemma print_trace_run `{Execinfo} {S} (s : S) :
  (length (backtrace BT_MAX_TRACE) <= BT_MAX_TRACE)%nat ->
  (forall a l, backtrace_symbols a = Some l -> length l = length a) ->
  match backtrace_symbols (backtrace BT_MAX_TRACE) with
  | Some l => exists head, print_trace s = Some (tt, s, head :: map (fun x => x ++ newline) l) /\ (length l <= 100)%nat
  | None => backtrace BT_MAX_TRACE <> [] -> print_trace s = None
  end.
Proof.
  intros Hlen Hsym. unfold print_trace. destruct (backtrace_symbols _) as [l|] eqn:E.
  - pose proof (Hsym _ _ E) as El. rewrite <- El. eexists. split; [|by rewrite El].
    change (?a :: ?b) with ([a] ++ b). eapply p_bind; [apply print_run; reflexivity|].
    exact (print_strings_run l [] s).
  - intros Hne. unfold mbind, P_bind. erewrite print_run by reflexivity.
    destruct (backtrace BT_MAX_TRACE) as [|a l]; [done|]. reflexivity.
Qed.

(** ** A disk that satisfies the interface

    It opens one file at a time and takes at most [room] bytes. *)
Module Disk.
Record disk : Type := mkDisk { files : gmap string (list byte); fds : gmap Z string; room : nat }.

#[global] Instance posix : Posix disk :=
  {| sys_open path flags := fun d =>
       if decide (fds d = ∅) then
         Some (3, mkDisk (<[path := default [] (files d !! path)]> (files d)) {[3 := path]} (room d), [])
       else Some (-1, d, []);
     sys_read fd n := fun d => Some (0, d, []);
     sys_write fd bs := fun d =>
       match fds d !! fd with
       | Some path =>
           Some (Z.of_nat (length (take (room d) bs)),
                 mkDisk (<[path := default [] (files d !! path) ++ take (room d) bs]> (files d)) (fds d) (room d - length bs), [])
       | None => Some (-1, d, [])
       end;
     sys_close fd := fun d => Some (0, mkDisk (files d) (delete fd (fds d)) (room d), []);
     strerror _ := chars "Too many open files" |}.

#[global] Instance posix_ok : PosixOk disk.
Proof.
  refine {| contents := files; opened := fds |}.
  - intros path flags s _ _. cbn. case_decide as E; eexists _, _; (split; [reflexivity|]); [right|by left].
    cbn. by rewrite E.
  - intros fd path bs s E. cbn. rewrite E. eexists _, _, (room s). split; [reflexivity|]. by auto.
  - intros fd s _. eexists. by split.
Defined.

Definition empty (room : nat) : disk := mkDisk ∅ ∅ room.
End Disk.

(** The first run writes the whole greeting, the second a part of it, and both
    exit with 0. *)
Example file_write_twice :
  let run d := match file_write_main ["file_write"; "log"] d with Some (0, d, _) => Some d | _ => None end in
  (d ← run (Disk.empty 18); d ← run d; Disk.files d !! "log"%string)
    = Some (greeting ++ take 6 greeting).
Proof. vm_compute. reflexivity. Qed.

(** ** The character device read by its program *)

(** The system calls on a system with that device only, when it is there. *)
Module Device.
#[global] Instance posix : Posix (option Z) :=
  {| sys_open path flags := fun dev =>
       match dev with
       | Some rdev =>
           if decide (path = CHR_DEV_NAME) then (ret ← chr_open rdev; mret (if ret =? 0 then 3 else -1)) dev
           else Some (-1, dev, [])
       | None => Some (-1, dev, [])
       end;
     sys_read fd n := chr_read;
     sys_write fd bs := mret (-1);
     sys_close fd := mret 0;
     strerror _ := chars "No such file or directory" |}.
End Device.

(** The number [major * 2^20 + minor] is taken apart again. *)
Lemma dev_numbers major minor :
  0 <= minor < 2 ^ 20 -> MAJOR (major * 2 ^ 20 + minor) = major /\ MINOR (major * 2 ^ 20 + minor) = minor.
Proof.
  intros H. unfold MAJOR, MINOR. rewrite Z.shiftr_div_pow2 by lia.
  change (2 ^ 20 - 1) with (Z.ones 20). rewrite Z.land_ones by lia. split; div_lia.
Qed.

(** The program opens the device and reads it: the driver logs both calls and
    the numbers the device was registered with. *)
Lemma chr_session major minor :
  0 <= major -> 0 <= minor < 2 ^ 20 ->
  chr_main (Some (major * 2 ^ 20 + minor)) =
  Some (0, Some (major * 2 ^ 20 + minor),
        [chars "chr_open: major=" ++ signed_dec major ++ chars ", minor=" ++ signed_dec minor ++ newline;
         chars "In the chr_read() function!" ++ newline]).
Proof.
  intros Hmaj Hmin. destruct (dev_numbers major minor Hmin) as [E1 E2].
  set (dev := major * 2 ^ 20 + minor) in *.
  assert (E : forall s : option Z, chr_open dev s = Some (0, s,
            [chars "chr_open: major=" ++ signed_dec major ++ chars ", minor=" ++ signed_dec minor ++ newline]))
    by (intros s; unfold chr_open; rewrite E1, E2; reflexivity).
  unfold chr_main, mbind, P_bind. cbn [sys_open Device.posix]. rewrite decide_True by done.
  unfold mbind, P_bind. rewrite E. reflexivity.
Qed.

Lemma chr_main_no_device :
  chr_main None = Some (-1, None, [chars "open file /dev/chr_dev failed!" ++ newline]).
Proof. reflexivity. Qed.

(** ** The others *)

(** The format string of hotplug.c asks for an argument it does not pass: the
    behaviour is undefined whatever the environment. *)
Lemma hotplug_undefined {S} environ (s : S) : hotplug_main environ s = None.
Proof. reflexivity. Qed.

(** Opening /proc/tracepoint-sample prints one line for the registered probe,
    and nothing when the registration failed. *)
Lemma my_open_probe {S} (s : S) inode file :
  my_open [my_subsys_event] inode file s =
    Some (0, s, [chars "inode: 0x" ++ hex_digits 16 inode ++ chars ", file: 0x" ++ hex_digits 16 file ++ newline]) /\
  my_open [] inode file s = Some (0, s, []).
Proof. split; reflexivity. Qed.

(** Using the debugfs file logs the text twice terminated, hands nothing to
    the reader, and frees nothing: [private_data] is null. *)
Lemma debugfs_session heap :
  (debugfs_demo_open;; n ← debugfs_demo_read dbg_demo_str; debugfs_demo_release 0;; mret n) heap =
  Some (0, heap, [chars "debugfs demo file open!" ++ newline; dbg_demo_str ++ newline]).
Proof. reflexivity. Qed.

(** The bit functions of the kernel, as documented. *)
Class BitOpsOk `{BitOps} : Prop := {
  first_bit w n : 0 < n -> (exists i, 0 <= i < n /\ Z.testbit w i = true) ->
    0 <= find_first_bit w n < n /\ Z.testbit w (find_first_bit w n) = true /\
    forall i, 0 <= i < find_first_bit w n -> Z.testbit w i = false;
  last_bit w n : 0 < n -> (exists i, 0 <= i < n /\ Z.testbit w i = true) ->
    0 <= find_last_bit w n < n /\ Z.testbit w (find_last_bit w n) = true /\
    forall i, find_last_bit w n < i < n -> Z.testbit w i = false;
}.

(** The two modules print the lowest and the highest bit of 0x101. *)
Lemma bit_modules `{BitOpsOk} {S} (s : S) :
  find_first_bit_init s = Some (0, s, [chars "find_first_bit_init :0(101)" ++ newline]) /\
  find_last_bit_init s = Some (0, s, [chars "find_last_bit_init :8(101)" ++ newline]).
Proof.
  destruct (first_bit 257 32 ltac:(lia) ltac:(by exists 0)) as (Hf & _ & Hlow).
  destruct (last_bit 257 32 ltac:(lia) ltac:(by exists 0)) as (Hl & Hset & Hhigh).
  assert (E1 : find_first_bit 257 32 = 0).
  { destruct (Z.eq_dec (find_first_bit 257 32) 0) as [|Hne]; [done|].
    specialize (Hlow 0 ltac:(lia)). discriminate. }
  assert (E2 : find_last_bit 257 32 = 8).
  { destruct (Z_lt_ge_dec (find_last_bit 257 32) 8) as [Hlt|Hge].
    - specialize (Hhigh 8 ltac:(lia)). discriminate.
    - assert (find_last_bit 257 32 ∈ seqZ 8 24) as Hin by (apply elem_of_seqZ; lia).
      destruct (Z.eq_dec (find_last_bit 257 32) 8) as [|Hne]; [done|].
      rewrite (Z.bits_above_log2 257) in Hset; [done|lia|]. change (Z.log2 257) with 8. lia. }
  unfold find_first_bit_init, find_last_bit_init. rewrite E1, E2. split; reflexivity.
Qed.

(** ** Instances of the last two interfaces *)
Module Bits.
Definition set_at (w i : Z) : Prop := Z.testbit w i = true.
#[global] Instance set_at_dec w i : Decision (set_at w i).
Proof. unfold set_at. apply _. Defined.

#[global] Instance bits : BitOps :=
  {| find_first_bit w n := match list_find (set_at w) (seqZ 0 n) with Some (_, i) => i | None => n end;
     find_last_bit w n :=
       match list_find (fun i => set_at w (n - 1 - i)) (seqZ 0 n) with Some (_, i) => n - 1 - i | None => n end |}.

(** A search for a set bit finds the first one in the order of the search. *)
Lemma find_set (P : Z -> Prop) `{!forall i, Decision (P i)} n i0 :
  0 <= i0 < n -> P i0 ->
  exists j i, list_find P (seqZ 0 n) = Some (j, i) /\ 0 <= i < n /\ P i /\ forall k, 0 <= k < i -> ~ P k.
Proof.
  intros Hi0 Hp. destruct (list_find_elem_of P (seqZ 0 n) i0) as [[j i] E]; [apply elem_of_seqZ; lia|done|].
  exists j, i. split; [done|]. apply list_find_Some in E as (Hj & HP & Hb).
  apply lookup_seqZ in Hj as [-> Hj]. split_and!; [lia..|done|].
  intros k Hk. apply (Hb (Z.to_nat k)); [apply lookup_seqZ; lia|lia].
Qed.

#[global] Instance bits_ok : BitOpsOk.
Proof.
  split; intros w n Hn (i0 & Hi0 & Hs); unfold find_first_bit, find_last_bit, bits.
  - destruct (find_set (set_at w) n i0 Hi0 Hs) as (j & i & -> & Hi & Hp & Hb). split_and!; [lia..|done|].
    intros k Hk. apply not_true_is_false. exact (Hb k Hk).
  - destruct (find_set (fun i => set_at w (n - 1 - i)) n (n - 1 - i0)) as (j & i & -> & Hi & Hp & Hb).
    { lia. } { unfold set_at. by replace (n - 1 - (n - 1 - i0)) with i0 by lia. }
    split_and!; [lia..|done|]. intros k Hk. apply not_true_is_false.
    replace k with (n - 1 - (n - 1 - k)) by lia. apply Hb. lia.
Qed.
End Bits.

(** The call chain of bt_user.c, and the stack under [main]. *)
Module Frames.
Definition stack : list Z := [4096; 4128; 4160; 4192; 4224; 8192].
#[global] Instance execinfo : Execinfo :=
  {| backtrace n := take n stack;
     backtrace_symbols a := Some (map (fun p => chars "bt_user [0x" ++ hex_digits 16 p ++ chars "]") a) |}.
End Frames.

Example bt_main_prints :
  exists out, bt_main () = Some (0, (), out) /\ length out = 7%nat /\
              head out = Some (chars "Obtained 6 stack frames." ++ newline).
Proof.
  destruct (print_trace_run () (S := unit)) as (h & E & _); [by apply Nat.leb_le|intros a l [= <-]; apply length_map|].
  eexists. split; [exact (p_bind _ _ _ _ _ _ _ _ _ E eq_refl)|]. split; [reflexivity|].
  vm_compute in E. injection E as <-. reflexivity.
Qed.

Example bit_modules_run : find_last_bit_init () = Some (0, (), [chars "find_last_bit_init :8(101)" ++ newline]).
Proof. exact (proj2 (bit_modules ())). Qed.
